(* ===== verification/_CoqProject ===== *)
-Q . S2P
Prelude.v
Prog.v
Worlds.v
GoLib.v
Time.v
Constants.v
Api.v
K8s.v
Password.v
Dbop.v
Gtid.v
Event.v
Cluster.v
Metrics.v
Samples.v
Status.v
StatusSpec.v
Servers.v
Gather.v
GatherSpec.v
Operations.v
OpsSpec.v
FailoverSpec.v
SwitchoverSpec.v
ConfigureSpec.v
Process.v
ProcessSpec.v
ClusterWorld.v
GatherWorld.v
ConfigureWorld.v
HealSpec.v
HandoverSpec.v
TakeoverSpec.v
Manager.v
StatefulSets.v
Webhook.v
WebhookSpec.v
Mycnf.v
MycnfSpec.v
Controller.v
ControllerSamples.v
Secrets.v
ConfigMaps.v
ConfigMapsSpec.v
Services.v
ServicesSpec.v
Containers.v
StatefulSetStep.v
StatefulSetSpec.v
Jobs.v
Pvc.v
PvcSpec.v
Reconcile.v
ReconcileSpec.v
LostUpdates.v
Partition.v
PartitionSpec.v
Rollout.v
Keys.v
Bkop.v
Backup.v
BackupSpec.v
TidySpec.v
Restore.v
RestoreSpec.v
Cert.v
CertSpec.v
Bucket.v
BucketSpec.v
BackupCmd.v
JobsSpec.v
BackupCmdSpec.v
Main.v
PodWatcher.v
PodWatcherSpec.v
Watches.v
WatchesSpec.v
MetricsSpec.v
Kubectl.v
KubectlSpec.v
