(* ===== verification/Prelude.v ===== *)
(** * A verification development for MOCO

    MOCO is a Kubernetes operator for MySQL clusters with one primary and
    semi-synchronous replicas.  This library models its core logic, function by
    function, and proves what makes it correct.  Source paths are relative to
    [src/].

    ** The program

    The MySQLCluster controller (controllers/) turns a MySQLCluster resource
    into a StatefulSet, Services, ConfigMaps, Secrets and jobs, and tells the
    cluster manager (clustering/) to watch the cluster.  The manager keeps one
    goroutine per cluster; each round gathers the status of all instances,
    decides the state of the cluster, publishes it, and configures, clones,
    switches over or fails over through the operators of pkg/dbop.  The Pod
    watcher wakes that goroutine when a Pod goes away.  Admission webhooks
    (api/v1beta2/) guard the resources; one of them and the partition controller
    together roll changes out Pod by Pod.  The command moco-backup (backup/,
    pkg/bkop/, pkg/bucket/) takes dumps and binary logs to a bucket and restores
    from them, as jobs the controller creates.  The kubectl plugin stops and starts
    parts of all this by annotations and asks for switchovers.

    ** How the program is modelled

    - A Go function with effects is a [prog S A] (Prog.v): a tree of calls of a
      signature, branching on the responses.  Responses are arbitrary, so a
      theorem about [exec p t a] ("[p] can make the calls of the trace [t] and
      end with [a]") holds whatever the API server, mysqld, moco-agent, the
      clock and the tools answer, and whenever they fail.  [wp] is its program
      logic, with a protocol that every call has to respect; [runs_in] runs a
      program in a world with a state, and [wpw] (Worlds.v) reasons about the state
      it leaves behind; [run] evaluates one against a handler.
    - [extres] and [outcome] are results with an error, the latter also with a
      run-time panic: index out of range, nil dereference, write to a nil map.
      Pure functions that may panic return an [option].
    - int32 and int64 arithmetic wraps where the code computes in these widths
      ([wrap32], [wrap64] of GoLib.v); times are nanoseconds (Time.v); resource
      quantities are thousandths; strings are [String.string].
    - Structs are records with the source's field names, fields of k8s.io types
      that are only passed on are one JSON text ([.._Rest]); maps are [gmap].
      Go's map iteration order is a parameter ([MapRange] of Mycnf.v) where it
      can be observed.
    - Code of other modules is a class or a section variable with the laws its
      documentation gives, and an executable instance for the witnesses:
      [ConflictRetry] (retry.RetryOnConflict), [ApiMachinery] and [Finalizers]
      (meta.SetStatusCondition, controllerutil), [SpecEquality], [PodUtils],
      [OwnerUtils], [KubeLibs] (apply configurations, selectors, quantities,
      templates), [SortByAge], [CommandLine] (cobra), the cron parser, the JSON
      decoder and the parsers of certificates.  The SDKs of object storage are
      calls, whose meaning is the world [services] of BucketSpec.v.  [Reconciler] is
      the controller's own configuration.  GTID sets are texts whose meaning is a
      parameter of Gtid.v and FailoverSpec.v and the class [GtidSets] of Servers.v.
    - What a round achieves depends on what the systems it calls do.  The theorems
      of HealSpec.v, HandoverSpec.v and TakeoverSpec.v are about any world that
      [refines] [cluster_world] (ClusterWorld.v): the API server stores what it is given,
      instances that are [up] execute the statements of pkg/dbop as the manual of
      MySQL says (Servers.v: [statement], [sql_world]) and the others answer errors,
      moco-agent clones from a server that serves the request; between any two calls
      the servers go on executing and replicating ([evolve]): clients write on the
      primary only, replicas receive its transactions in one order, nothing arrives
      when a replica does not receive, and nothing is executed on an idle server.
      How servers are configured when the round begins is open.

    ** The files

    Shared: Prelude (this file: notations, errors, lemmas and tactics), Prog,
    Worlds (retries, and programs in a world), GoLib (strings, strconv, sort),
    Time (package time), Constants (pkg/constants), K8s (helpers of Kubernetes
    libraries), Samples and ControllerSamples (concrete data for the witnesses).

    Data: Api (api/v1beta2/mysqlcluster_types.go, job_types.go,
    backuppolicy_types.go), StatefulSets (the StatefulSet and
    api/v1beta2/statefulset_webhhok.go), Event (pkg/event), Password
    (pkg/password), Dbop and Gtid (pkg/dbop), Cluster (the [StatusSet] and the
    calls of clustering/).

    Clustering: Status and StatusSpec ([DecideState] of clustering/status.go),
    Gather and GatherSpec ([GatherStatus]), Operations (clustering/operations.go)
    with OpsSpec, FailoverSpec, SwitchoverSpec and ConfigureSpec, Process and
    ProcessSpec (clustering/process.go); what rounds do to a cluster of servers:
    Servers (the methods of pkg/dbop as changes of replicating servers),
    ClusterWorld, GatherWorld ([GatherStatus] shows the servers as they are),
    ConfigureWorld ([configure] establishes the configuration), HealSpec,
    HandoverSpec and TakeoverSpec (whole rounds: configuration, switchover,
    failover); Manager (clustering/manager.go and the
    loop [Start]), PodWatcher and PodWatcherSpec (controllers/pod_watcher.go), Cert
    and CertSpec (pkg/cert, clustering/agent.go and the resolver of
    cmd/moco-controller), Metrics and MetricsSpec (pkg/metrics).

    Admission: Webhook and WebhookSpec (api/v1beta2/mysqlcluster_webhook.go,
    backuppolicy_webhook.go and the validation in mysqlcluster_types.go).

    The MySQLCluster controller (controllers/mysqlcluster_controller.go,
    mysql_container.go, certificate.go, pvc.go): Controller (calls and [apply]),
    Secrets, Mycnf and MycnfSpec (pkg/mycnf), ConfigMaps and ConfigMapsSpec,
    Services and ServicesSpec, Containers, StatefulSetStep and StatefulSetSpec,
    Jobs and JobsSpec, Pvc and PvcSpec, Reconcile and ReconcileSpec (the whole
    reconciliation), LostUpdates (steps composed over two reconciliations), Watches
    and WatchesSpec (the event handlers, indexes and predicates of SetupWithManager,
    those of the other controllers too).

    Rollouts: Partition and PartitionSpec (controllers/partition_controller.go),
    Rollout (the controller, the webhook and Kubernetes from start to end).

    Backup: Keys (backup/key.go), Bkop (pkg/bkop), Backup, BackupSpec and
    TidySpec (backup/backup.go), Restore and RestoreSpec (backup/restore.go and
    cmd/moco-backup/cmd/restore.go), Bucket and BucketSpec (pkg/bucket), BackupCmd
    and BackupCmdSpec (the rest of cmd/moco-backup).

    Commands: Main (cmd/moco-controller), Kubectl and KubectlSpec (the plugin,
    cmd/kubectl-moco).

    Each definition that translates code carries a comment with its file and
    symbol; a method [T.M] keeps the name [M], prefixed when two types share it.

    ** What the theorems show

    - No acknowledged transaction is lost: failovers ([failover_keeps_acknowledged],
      [failover_follows_protocol]), switchovers ([switchover_follows_protocol])
      and configuration ([configure_follows_protocol]) respect protocols whatever
      the instances answer.
    - Clusters heal themselves: a round repairs the configuration of the servers,
      whatever it was, and the next one finds the cluster Healthy or Degraded
      ([round_heals]); a primary that is to step down is replaced by a replica that
      has everything, which then serves ([demoted_primary_replaced]), and so is one
      that is gone, by a replica that has all that any of them received
      ([failed_primary_replaced]).
    - The documented states are the decided ones: [decide_state_refines_documentation],
      [decide_state_candidate], [gather_status_correct], [update_status_publishes],
      [operate_by_state], and rounds do not panic ([round_does_not_panic]).
    - The manager is a correct table of goroutines: [one_live_process_per_cluster],
      [update_is_not_lost], [stop_all_is_final]; the watcher drives it
      ([leaving_pod_wakes_cluster]).
    - Reconciliations respect their order and record their outcome:
      [reconcile_follows_protocol], [failure_is_recorded], [update_status_records];
      each step has its own protocol ([statefulset_step_protocol],
      [pvc_writes_follow_protocol], [cleanup_keeps_newest],
      [pdb_protects_majority]) and result ([pvc_run_settles_claims],
      [pod_containers_distinct], [service_reaches_mysql],
      [restore_job_command_line]); what a reconciliation read is watched
      ([reads_are_watched], [applied_sets_are_watched]); my.cnf agrees with a reference and reads back
      ([generate_matches_reference], [forced_options_win], [generate_read_back]).
    - Admission is exact and keeps invariants: [validate_create_spec],
      [validate_update_spec], [admitted_invariant], [default_spec].
    - Rollouts are safe, not abandoned, and end: [partition_lowered_safely],
      [webhook_restarts_rollout], [rollout_is_not_abandoned], [rollout_completes].
    - Backups are recorded truthfully and found again: [backup_recorded_truthfully],
      [choose_pod_correct], [find_nearest_dump_correct],
      [restore_follows_protocol], [backup_cleans_up], [restore_cleans_up]; every
      kind of storage keeps the contract of a bucket ([clients_refine_bucket]) in
      parts it accepts ([part_size_admissible]), and a job uses the bucket of its
      policy ([backup_job_command_line]).
    - The commands of the plugin have the effect they name, through the controller,
      the Pod watcher and the cluster manager: [commands_take_effect],
      [switchover_command_switches], [credential_command_prints],
      [mysql_command_file].
    - Connections to moco-agent are made with the certificates of one reload
      ([reloader_stays_coherent], [check_loads_files]) and for a name that the
      certificate of the cluster has ([agent_name_is_certified]).
    - The controller starts only complete and stops its parts in order
      ([startup_complete]); its metrics do not panic ([metrics_never_panic]) and
      exist while a cluster is maintained ([live_cluster_has_series]).
    - Theorems about what goes wrong state it as behaviour of the code:
      [offline_round_panics], [restore_gives_up_silently],
      [orphan_binlog_is_mispaired], [panic_recorded_as_success],
      [resize_lost_while_updating], [slow_log_update_lost],
      [backup_role_not_repaired], [unreserved_volume_clashes],
      [slow_log_cleanup_hits_neighbours], [resize_panics_without_class],
      [ambiguous_keys_not_reproducible], [rollout_stalls_with_eleven],
      [clone_reported_as_missing_binlogs], [azure_blocks_bound], [torn_reload], [restarted_cluster_loses_series],
      [counters_outlive_cluster].

    ** Bounds

    Loops over data recurse on the data.  Loops that poll take the number of
    attempts left as a [nat]; the numbers are those of the code, and running out
    of attempts does what the code does then: the queries of a status (two
    retries), a restarted instance (60), the Pod and the instance to restore (600
    each, after which the code goes on), the attempts of a restoration (three),
    the poll for a deleted StatefulSet (5 s in steps of 500 ms, ten).  So every
    program of the model ends; [rollout_completes] is about repeated rounds.

    ** Not modelled

    Code without logic of its own: the requests to moco-agent, the SDKs of object
    storage, the MySQL driver and the registry of metrics, which are calls;
    generated code; the registration of schemes, controllers and webhooks; the
    helpers of the tests; logging. *)

From stdpp Require Export base tactics option list gmap strings sorting.
From Stdlib Require Export ZArith Lia.

(** ** Notations *)

Declare Scope go_scope.
Delimit Scope go_scope with go.
Open Scope go_scope.
Open Scope Z_scope.

(** String comparison [a == b] and [a != b] of Go. *)
Notation "a =s b" := (String.eqb a b) (at level 70, no associativity) : go_scope.
Notation "a <>s b" := (negb (String.eqb a b)) (at level 70, no associativity) : go_scope.

(** ** Errors

    Go's [error] values: the sentinels the program compares with [errors.Is],
    errors of the systems it calls, errors made by [errors.New] / [fmt.Errorf],
    and wrappers made by [fmt.Errorf("...: %w", err)]. *)

Inductive ext_kind :=
| KindNotFound      (* apierrors.IsNotFound *)
| KindConflict      (* apierrors.IsConflict *)
| KindNoRows        (* sql.ErrNoRows *)
| KindMySQL (n : Z) (* mysql.MySQLError with its Number *)
| KindOther.

Inductive error :=
| ErrNop
| ErrErrantTransactions
| ErrNoTopRunner
| ErrTimeout
| ErrBadConnection
| ErrReduceVolumeSize
| ErrApplyConfigurationNotChanged
| ErrCtxDone
| ErrExt (k : ext_kind) (msg : string)
| ErrNew (msg : string)
| ErrWrap (msg : string) (e : error)
| ErrWrap2 (msg : string) (e1 e2 : error).

#[export] Instance ext_kind_eq_dec : EqDecision ext_kind.
Proof. solve_decision. Defined.
#[export] Instance error_eq_dec : EqDecision error.
Proof. solve_decision. Defined.

(** [errors.Is]: the error itself or one it wraps. *)
Fixpoint error_is (e target : error) : bool :=
  bool_decide (e = target) ||
  match e with
  | ErrWrap _ e' => error_is e' target
  | ErrWrap2 _ e1 e2 => error_is e1 target || error_is e2 target
  | _ => false
  end.

(** The kind of external error found by unwrapping, as [errors.As] does. *)
Fixpoint error_kind (e : error) : option ext_kind :=
  match e with
  | ErrExt k _ => Some k
  | ErrWrap _ e' => error_kind e'
  | ErrWrap2 _ e1 e2 =>
      match error_kind e1 with Some k => Some k | None => error_kind e2 end
  | _ => None
  end.

Definition is_not_found (e : error) : bool :=
  bool_decide (error_kind e = Some KindNotFound).
Definition is_conflict (e : error) : bool :=
  bool_decide (error_kind e = Some KindConflict).
Definition is_no_rows (e : error) : bool :=
  bool_decide (error_kind e = Some KindNoRows).

(** The text of an error. *)
Fixpoint error_string (e : error) : string :=
  match e with
  | ErrNop => "nop"
  | ErrErrantTransactions => "detected errant transactions"
  | ErrNoTopRunner => "unable to determine the top runner"
  | ErrTimeout => "timeout"
  | ErrBadConnection => "the connection hasn't reflected the latest user's privileges"
  | ErrReduceVolumeSize => "cannot reduce volume size"
  | ErrApplyConfigurationNotChanged => "ApplyConfiguration not changed"
  | ErrCtxDone => "context canceled"
  | ErrExt _ msg => msg
  | ErrNew msg => msg
  | ErrWrap msg e => msg +:+ ": " +:+ error_string e
  | ErrWrap2 msg e1 e2 =>
      msg +:+ ": " +:+ error_string e1 +:+ ", and failed to kill connections: " +:+ error_string e2
  end.

(** ** Outcomes

    What a Go function with an [error] result can do: return normally, return
    a non-nil error, or panic (nil dereference, index out of range, explicit
    [panic]). *)

Inductive outcome (A : Type) :=
| Return (a : A)
| Error (e : error)
| Panic (msg : string).
Arguments Return {A} a.
Arguments Error {A} e.
Arguments Panic {A} msg.

Definition is_return {A} (o : outcome A) : bool :=
  match o with Return _ => true | _ => false end.
Definition is_panic {A} (o : outcome A) : bool :=
  match o with Panic _ => true | _ => false end.

(** The result of a call to an external system: a value or an error. *)
Abbreviation extres A := (sum error A).

(** ** Indexing

    [a[i]] of a Go slice with an [int] index; [None] is the run-time panic
    "index out of range".  In pure code [None] always means a panic. *)
Definition index_at {A} (l : list A) (i : Z) : option A :=
  if i <? 0 then None else l !! Z.to_nat i.

(** [a[i] = x] of a slice; out of range it panics. *)
Definition set_at {A} (l : list A) (i : Z) (x : A) : option (list A) :=
  match index_at l i with
  | Some _ => Some (<[Z.to_nat i := x]> l)
  | None => None
  end.

Definition go_len {A} (l : list A) : Z := Z.of_nat (length l).

(** [for i, x := range l]: the elements with their indices. *)
Definition indexed {A} (l : list A) : list (Z * A) :=
  imap (λ i x, (Z.of_nat i, x)) l.

(** [for i := 0; i < n; i++]: the indices. *)
Definition upto (n : Z) : list Z := Z.of_nat <$> seq 0 (Z.to_nat n).

(** A Go map lookup with the zero value for a missing string. *)
Definition map_str (m : gmap string string) (k : string) : string :=
  default "" (m !! k).

(** ** Shared lemmas *)

Create HintDb moco.
Create Rewrite HintDb moco_len.

Lemma index_at_Some {A} (l : list A) (i : Z) (x : A) :
  index_at l i = Some x ↔ 0 ≤ i ∧ l !! Z.to_nat i = Some x.
Proof.
  unfold index_at. destruct (Z.ltb_spec i 0); [split; [done|lia]|].
  split; [done|by intros [_ ?]].
Qed.

Lemma index_at_lt {A} (l : list A) (i : Z) :
  is_Some (index_at l i) ↔ 0 ≤ i < go_len l.
Proof.
  unfold index_at, go_len. destruct (Z.ltb_spec i 0).
  - split; [intros [? ?]; done | lia].
  - rewrite lookup_lt_is_Some. lia.
Qed.

Lemma index_at_None {A} (l : list A) (i : Z) :
  index_at l i = None ↔ ¬ (0 ≤ i < go_len l).
Proof.
  rewrite <- index_at_lt. rewrite eq_None_not_Some. done.
Qed.

Lemma elem_of_middle {A} (l l1 l2 : list A) (x : A) : l = l1 ++ x :: l2 → x ∈ l.
Proof. intros ->. apply elem_of_app. right. by left. Qed.

Lemma elem_of_indexed {A} (l : list A) (i : Z) (x : A) :
  (i, x) ∈ indexed l ↔ index_at l i = Some x.
Proof.
  unfold indexed. rewrite elem_of_lookup_imap, index_at_Some. split.
  - intros (j & y & Heq & Hl). simplify_eq. rewrite Nat2Z.id. split; [lia|done].
  - intros [Hi Hl]. exists (Z.to_nat i), x. rewrite Z2Nat.id by done. done.
Qed.

Lemma indexed_cons {A} (x : A) (l : list A) :
  indexed (x :: l) = (0, x) :: ((λ p : Z * A, (p.1 + 1, p.2)) <$> indexed l).
Proof.
  unfold indexed. rewrite imap_cons. f_equal.
  rewrite fmap_imap. apply imap_ext. intros i y _. simpl. f_equal. lia.
Qed.

Lemma length_indexed {A} (l : list A) : length (indexed l) = length l.
Proof. unfold indexed. apply length_imap. Qed.

Lemma indexed_lookup {A} (l : list A) (i : nat) :
  indexed l !! i = (λ x, (Z.of_nat i, x)) <$> l !! i.
Proof. unfold indexed. rewrite list_lookup_imap. done. Qed.

Lemma indexed_fst {A} (l : list A) :
  (indexed l).*1 = upto (go_len l).
Proof.
  unfold upto, go_len. rewrite Nat2Z.id. apply list_eq. intros i.
  rewrite list_lookup_fmap, indexed_lookup, list_lookup_fmap.
  destruct (decide (i < length l)%nat) as [Hlt|Hge].
  - rewrite lookup_seq_lt by done.
    destruct (lookup_lt_is_Some_2 l i Hlt) as [x ->]. done.
  - rewrite (lookup_ge_None_2 l i) by lia. rewrite lookup_seq_ge by lia. done.
Qed.

Lemma elem_of_upto (n i : Z) : i ∈ upto n ↔ 0 ≤ i < n.
Proof.
  unfold upto. rewrite list_elem_of_fmap. split.
  - intros (j & -> & Hj%elem_of_seq). lia.
  - intros Hi. exists (Z.to_nat i). rewrite elem_of_seq. lia.
Qed.

Lemma NoDup_upto (n : Z) : NoDup (upto n).
Proof. unfold upto. apply NoDup_fmap_2; [intros ???; lia | apply NoDup_seq]. Qed.

Lemma length_upto (n : Z) : length (upto n) = Z.to_nat n.
Proof. unfold upto. rewrite length_fmap, length_seq. done. Qed.

Lemma NoDup_indexed_fst {A} (l : list A) : NoDup (indexed l).*1.
Proof. rewrite indexed_fst. apply NoDup_upto. Qed.

Lemma set_at_Some {A} (l l' : list A) (i : Z) (x : A) :
  set_at l i x = Some l' ↔ (0 ≤ i < go_len l) ∧ l' = <[Z.to_nat i := x]> l.
Proof.
  unfold set_at. destruct (index_at l i) as [y|] eqn:E.
  - assert (is_Some (index_at l i)) as Hs%index_at_lt by eauto.
    split; [by intros [= <-]|by intros [_ ->]].
  - apply index_at_None in E. split; [done|by intros [? _]].
Qed.

Lemma index_at_insert_eq {A} (l : list A) (i : Z) (x : A) :
  0 ≤ i < go_len l → index_at (<[Z.to_nat i := x]> l) i = Some x.
Proof.
  intros Hi. rewrite index_at_Some. split; [lia|].
  apply list_lookup_insert_eq. unfold go_len in *. lia.
Qed.

Lemma index_at_insert_ne {A} (l : list A) (i j : Z) (x : A) :
  0 ≤ i → i ≠ j → index_at (<[Z.to_nat i := x]> l) j = index_at l j.
Proof.
  intros Hi Hne. unfold index_at. destruct (Z.ltb_spec j 0); [done|].
  apply list_lookup_insert_ne. lia.
Qed.

Lemma go_len_insert {A} (l : list A) (i : nat) (x : A) : go_len (<[i := x]> l) = go_len l.
Proof. unfold go_len. by rewrite length_insert. Qed.

Lemma go_len_nil {A} : go_len (@nil A) = 0.
Proof. done. Qed.
Lemma go_len_cons {A} (x : A) (l : list A) : go_len (x :: l) = 1 + go_len l.
Proof. unfold go_len. simpl length. lia. Qed.
Lemma go_len_app {A} (l k : list A) : go_len (l ++ k) = go_len l + go_len k.
Proof. unfold go_len. rewrite length_app. lia. Qed.
Lemma go_len_fmap {A B} (f : A → B) (l : list A) : go_len (f <$> l) = go_len l.
Proof. unfold go_len. by rewrite length_fmap. Qed.
Lemma go_len_nonneg {A} (l : list A) : 0 ≤ go_len l.
Proof. unfold go_len. lia. Qed.

Lemma string_eqb_true (a b : string) : (a =s b) = true ↔ a = b.
Proof. apply String.eqb_eq. Qed.

Lemma string_eqb_false (a b : string) : (a =s b) = false ↔ a ≠ b.
Proof. apply String.eqb_neq. Qed.

(** Two subsets of a finite list that are together longer than it intersect:
    the quorum argument. *)
Lemma quorum_intersect (U A B : list Z) :
  NoDup A → NoDup B → A ⊆ U → B ⊆ U →
  (length U < length A + length B)%nat →
  ∃ x, x ∈ A ∧ x ∈ B.
Proof.
  intros HA HB HAU HBU Hlen.
  destruct (decide (Exists (λ x, x ∈ B) A)) as [Hex|Hno].
  - apply Exists_exists in Hex as (x & ? & ?). eauto.
  - exfalso.
    assert (NoDup (A ++ B)) as Hnd.
    { apply NoDup_app. split_and!; [done| |done].
      intros x HxA HxB. apply Hno, Exists_exists. eauto. }
    assert (A ++ B ⊆ U) as Hsub.
    { intros x [?|?]%elem_of_app; auto. }
    pose proof (submseteq_length _ _ (NoDup_submseteq _ _ Hnd Hsub)) as Hl.
    rewrite length_app in Hl. lia.
Qed.

#[export] Hint Resolve NoDup_upto NoDup_indexed_fst : moco.
#[export] Hint Rewrite @length_indexed @go_len_insert @length_upto @go_len_nil @go_len_cons @go_len_app
  @go_len_fmap : moco_len.

(** ** Tactics *)

(** Split every boolean test of the program text into its propositional form. *)
Ltac bool_cases :=
  repeat match goal with
  | H : (_ && _) = true |- _ => apply andb_true_iff in H as [? ?]
  | H : (_ || _) = false |- _ => apply orb_false_iff in H as [? ?]
  | H : negb _ = true |- _ => apply negb_true_iff in H
  | H : negb _ = false |- _ => apply negb_false_iff in H
  | H : (_ =s _) = true |- _ => apply string_eqb_true in H
  | H : (_ =s _) = false |- _ => apply string_eqb_false in H
  | H : (_ =? _)%Z = true |- _ => apply Z.eqb_eq in H
  | H : (_ =? _)%Z = false |- _ => apply Z.eqb_neq in H
  | H : (_ <? _)%Z = true |- _ => apply Z.ltb_lt in H
  | H : (_ <? _)%Z = false |- _ => apply Z.ltb_ge in H
  | H : (_ <=? _)%Z = true |- _ => apply Z.leb_le in H
  | H : (_ <=? _)%Z = false |- _ => apply Z.leb_gt in H
  | H : bool_decide _ = true |- _ => apply bool_decide_eq_true in H
  | H : bool_decide _ = false |- _ => apply bool_decide_eq_false in H
  end.

(** Case analysis on the next scrutinee of the goal, remembering its value. *)
Ltac case_next :=
  match goal with
  | |- context [match ?x with _ => _ end] =>
      lazymatch x with
      | context [match _ with _ => _ end] => fail
      | _ => destruct x eqn:?
      end
  end.
