(* ===== verification/Prog.v ===== *)
(** * Effectful programs

    The controller's code interacts with systems outside it (the Kubernetes API
    server, mysqld, moco-agent, the clock).  A Go function with such effects is
    a term of [prog S A]: a finite tree of calls of a signature [S], branching
    on the responses, with a result of type [A].  Nothing is assumed about the
    responses: a theorem about every execution holds whatever the other systems
    answer.  Since [prog] is inductive every execution is finite, so loops in
    the source are modelled by recursion on what bounds them.

    [wp P p h Q] is the program logic: run after the history [h], the program
    [p] performs a call [c] only when the protocol [P] permits [c] after the
    history so far, and it ends with a history and a result that satisfy [Q]. *)

From Stdlib Require Import Eqdep.
From S2P Require Import Prelude.
#[local] Open Scope Z_scope.

Record signature := Signature {
  call : Type;
  resp : call → Type
}.

Inductive prog (S : signature) (A : Type) : Type :=
| Ret (a : A)
| Vis (c : call S) (k : resp S c → prog S A).
Arguments Ret {S A} a.
Arguments Vis {S A} c k.

Definition event (S : signature) : Type := { c : call S & resp S c }.
Abbreviation trace S := (list (event S)).
Definition ev {S : signature} (c : call S) (r : resp S c) : event S := existT c r.

Fixpoint bind {S A B} (p : prog S A) (f : A → prog S B) : prog S B :=
  match p with
  | Ret a => f a
  | Vis c k => Vis c (λ r, bind (k r) f)
  end.

Definition perform {S : signature} (c : call S) : prog S (resp S c) := Vis c Ret.

(** Sequencing: [x <-- p ;; q] runs [q] on the result of [p]; [x <-? p ;; q]
    is Go's [if err != nil { return err }] (and propagates a panic). *)
Notation "x <-- p ;; q" := (bind p (λ x, q))
  (at level 100, p at next level, right associativity) : go_scope.

Definition bind_outcome {S A B} (p : prog S (outcome A)) (f : A → prog S (outcome B))
    : prog S (outcome B) :=
  bind p (λ o, match o with
               | Return a => f a
               | Error e => Ret (Error e)
               | Panic m => Ret (Panic m)
               end).

Notation "x <-? p ;; q" := (bind_outcome p (λ x, q))
  (at level 100, p at next level, right associativity) : go_scope.

(** A pure computation that may panic, used inside a program. *)
Definition or_panic {S A} (o : option A) (msg : string) : prog S (outcome A) :=
  Ret (match o with Some a => Return a | None => Panic msg end).

(** Functions that return [(T, error)] and cannot panic use [extres T]:
    [x <-! p ;; q] returns early on a non-nil error. *)
Definition bind_ext {S A B} (p : prog S (extres A)) (f : A → prog S (extres B))
    : prog S (extres B) :=
  bind p (λ r, match r with inr a => f a | inl e => Ret (inl e) end).

Notation "x <-! p ;; q" := (bind_ext p (λ x, q))
  (at level 100, p at next level, right associativity) : go_scope.

(** [if err != nil { return fmt.Errorf("msg: %w", err) }]. *)
Definition wrap_err {S A} (msg : string) (p : prog S (extres A)) : prog S (extres A) :=
  bind p (λ r, Ret (match r with inr a => inr a | inl e => inl (ErrWrap msg e) end)).

(** The error of a call turned into an outcome after the caller's wrapping. *)
Definition check_res {S A} (wrap : error → error) (r : extres A) : prog S (outcome A) :=
  Ret (match r with inr a => Return a | inl e => Error (wrap e) end).

(** [for _, x := range l { ... }] with an accumulator and early return. *)
Fixpoint for_range {S A B} (l : list A) (acc : B) (body : B → A → prog S (outcome B))
    : prog S (outcome B) :=
  match l with
  | [] => Ret (Return acc)
  | x :: rest => acc' <-? body acc x ;; for_range rest acc' body
  end.

(** A program over another signature, each of its calls replaced by a program. *)
Fixpoint translate {S1 S2 A} (f : ∀ c : call S1, prog S2 (resp S1 c)) (p : prog S1 A) : prog S2 A :=
  match p with
  | Ret a => Ret a
  | Vis c k => bind (f c) (λ r, translate f (k r))
  end.

(** ** Executions

    [exec p t a]: the program [p] can perform the calls of the trace [t], get
    the responses recorded there, and end with the result [a]. *)
Fixpoint exec {S A} (p : prog S A) (t : trace S) (a : A) : Prop :=
  match p with
  | Ret b => t = [] ∧ b = a
  | Vis c k =>
      match t with
      | [] => False
      | e :: t' => ∃ r, e = ev c r ∧ exec (k r) t' a
      end
  end.

(** Running against a deterministic environment with a state. *)
Fixpoint run {S A St} (h : ∀ c : call S, St → resp S c * St) (p : prog S A) (s : St)
    : trace S * A :=
  match p with
  | Ret a => ([], a)
  | Vis c k =>
      let rs := h c s in
      let ta := run h (k rs.1) rs.2 in
      (ev c rs.1 :: ta.1, ta.2)
  end.

Lemma run_exec {S A St} (h : ∀ c : call S, St → resp S c * St) (p : prog S A) (s : St) :
  exec p (run h p s).1 (run h p s).2.
Proof.
  revert s. induction p as [a|c k IH]; intros s; simpl; [done|].
  exists (h c s).1. split; [done|]. apply IH.
Qed.

(** Running in a world with a state that answers each call in one or several
    ways and changes state: [runs_in W p s a s'] when [p] can go from [s] to [s']
    with the result [a]. *)
Definition world (S : signature) (St : Type) : Type := St → ∀ c : call S, resp S c → St → Prop.

Fixpoint runs_in {S A St} (W : world S St) (p : prog S A) (s : St) (a : A) (s' : St) : Prop :=
  match p with
  | Ret b => b = a ∧ s' = s
  | Vis c k => ∃ r s1, W s c r s1 ∧ runs_in W (k r) s1 a s'
  end.

Lemma runs_in_bind {S A B St} (W : world S St) (p : prog S A) (f : A → prog S B) s b s' :
  runs_in W (bind p f) s b s' ↔ ∃ a s1, runs_in W p s a s1 ∧ runs_in W (f a) s1 b s'.
Proof.
  revert s. induction p as [a|c k IH]; intros s; cbn [bind runs_in].
  - split; [intros H; by exists a, s|by intros (? & ? & [<- ->] & H)].
  - setoid_rewrite IH. split; [intros (r & s1 & H1 & a & s2 & H2 & H3)|intros (a & s2 & (r & s1 & H1 & H2) & H3)]; eauto 10.
Qed.

(** A world that always answers lets every program end. *)
Lemma runs_in_total {S A St} (W : world S St) (p : prog S A) s :
  (∀ s c, ∃ r s', W s c r s') → ∃ a s', runs_in W p s a s'.
Proof.
  intros HW. revert s. induction p as [a|c k IH]; intros s; cbn [runs_in]; [by exists a, s|].
  destruct (HW s c) as (r & s1 & H1). destruct (IH r s1) as (a & s' & H2). eauto 10.
Qed.

(** Every answer in the trace of a run is one the environment gives. *)
Lemma run_answers {S A St} (h : ∀ c : call S, St → resp S c * St) (R : ∀ c : call S, resp S c → Prop)
    (p : prog S A) (s : St) :
  (∀ c s, R c (h c s).1) → ∀ c r, ev c r ∈ (run h p s).1 → R c r.
Proof.
  intros HR. revert s. induction p as [a|c k IH]; intros s c' r'; simpl; [by intros ?%elem_of_nil|].
  intros [Heq|Hin]%elem_of_cons; [|by eapply IH].
  change (match ev c' r' with existT c r => R c r end). rewrite Heq. apply HR.
Qed.

(** Events of the same call are equal when their responses are. *)
Lemma ev_inj {S : signature} (c : call S) (r r' : resp S c) : ev c r = ev c r' → r = r'.
Proof. apply inj_pair2. Qed.

Lemma exec_bind {S A B} (p : prog S A) (f : A → prog S B) t1 a t2 b :
  exec p t1 a → exec (f a) t2 b → exec (bind p f) (t1 ++ t2) b.
Proof.
  revert t1. induction p as [a'|c k IH]; intros t1; simpl; [by intros [-> ->]|].
  destruct t1 as [|e t1]; [done|]. intros (r & -> & Hk) Hf. exists r. split; [done|]. by apply IH.
Qed.

Lemma exec_bind_inv {S A B} (p : prog S A) (f : A → prog S B) t b :
  exec (bind p f) t b → ∃ t1 t2 a, t = t1 ++ t2 ∧ exec p t1 a ∧ exec (f a) t2 b.
Proof.
  revert t. induction p as [a|c k IH]; intros t; simpl; [by exists [], t, a|].
  destruct t as [|e t]; [done|]. intros (r & -> & (t1 & t2 & a & -> & H1 & H2)%IH).
  exists (ev c r :: t1), t2, a. split; [done|]. split; [by exists r|done].
Qed.

(** A step that returns early on an error was passed, or gave the result. *)
Lemma exec_bind_ext_inv {S A B} (p : prog S (extres A)) (f : A → prog S (extres B)) t b :
  exec (bind_ext p f) t b →
  (∃ t1 t2 a, t = t1 ++ t2 ∧ exec p t1 (inr a) ∧ exec (f a) t2 b) ∨
  (∃ e, exec p t (inl e) ∧ b = inl e).
Proof.
  intros (t1 & t2 & [e|a] & -> & H1 & H2)%exec_bind_inv.
  - destruct H2 as [-> <-]. rewrite app_nil_r. eauto.
  - left. eauto 7.
Qed.

Lemma exec_bind_outcome_inv {S A B} (p : prog S (outcome A)) (f : A → prog S (outcome B)) t b :
  exec (bind_outcome p f) t b →
  (∃ t1 t2 a, t = t1 ++ t2 ∧ exec p t1 (Return a) ∧ exec (f a) t2 b) ∨
  (∃ e, exec p t (Error e) ∧ b = Error e) ∨ (∃ m, exec p t (Panic m) ∧ b = Panic m).
Proof.
  intros (t1 & t2 & [a|e|m] & -> & H1 & H2)%exec_bind_inv.
  - left. eauto 7.
  - destruct H2 as [-> <-]. rewrite app_nil_r. eauto.
  - destruct H2 as [-> <-]. rewrite app_nil_r. eauto.
Qed.

Lemma exec_wrap_err_inv {S A} msg (p : prog S (extres A)) t r :
  exec (wrap_err msg p) t r →
  ∃ r', exec p t r' ∧ r = match r' with inr a => inr a | inl e => inl (ErrWrap msg e) end.
Proof.
  intros (t1 & t2 & r' & -> & H1 & -> & <-)%exec_bind_inv. rewrite app_nil_r. eauto.
Qed.

Lemma exec_call_inv {S : signature} (c : call S) t r : exec (perform c) t r → t = [ev c r].
Proof. destruct t as [|e t]; [done|]. by intros (r' & -> & -> & <-). Qed.

(** A program leaves no choice: its calls and their responses fix its result. *)
Lemma exec_prefix {S A} (p : prog S A) t1 a1 t1' a1' t2 t2' :
  exec p t1 a1 → exec p t1' a1' → t1 ++ t2 = t1' ++ t2' → t1 = t1' ∧ a1 = a1'.
Proof.
  revert t1 t1'. induction p as [a|c k IH]; intros t1 t1'; simpl.
  - by intros [-> ->] [-> ->].
  - destruct t1 as [|e t1], t1' as [|e' t1']; try done. intros (r & -> & H1) (r' & -> & H2) [= Heq Ht].
    apply inj_pair2 in Heq as ->. by destruct (IH _ _ _ H1 H2 Ht) as [-> ->].
Qed.

Lemma exec_bind_prefix {S A B} (p : prog S A) (f : A → prog S B) t1 a t2 b :
  exec (bind p f) (t1 ++ t2) b → exec p t1 a → exec (f a) t2 b.
Proof.
  intros (t1' & t2' & a' & Heq & H1 & H2)%exec_bind_inv Hp.
  destruct (exec_prefix _ _ _ _ _ _ _ Hp H1 Heq) as [-> ->]. by simplify_list_eq.
Qed.

(** ** The program logic *)

Section logic.
Context {S : signature}.

Fixpoint wp {A} (P : trace S → call S → Prop) (p : prog S A) (h : trace S)
    (Q : trace S → A → Prop) : Prop :=
  match p with
  | Ret a => Q h a
  | Vis c k => P h c ∧ ∀ r, wp P (k r) (h ++ [ev c r]) Q
  end.

Lemma wp_ret {A} P (a : A) h Q : wp P (Ret a) h Q ↔ Q h a.
Proof. done. Qed.

Lemma wp_bind {A B} P (p : prog S A) (f : A → prog S B) h Q :
  wp P (bind p f) h Q ↔ wp P p h (λ h' a, wp P (f a) h' Q).
Proof.
  revert h. induction p as [a|c k IH]; intros h; simpl; [done|].
  split; intros [HP Hk]; (split; [done|]); intros r; apply IH, Hk.
Qed.

Lemma wp_mono {A} P (P' : trace S → call S → Prop) (p : prog S A) h Q (Q' : trace S → A → Prop) :
  (∀ h c, P h c → P' h c) → (∀ h a, Q h a → Q' h a) →
  wp P p h Q → wp P' p h Q'.
Proof.
  intros HP HQ. revert h. induction p as [a|c k IH]; intros h; simpl; [auto|].
  intros [? Hk]. split; [auto|]. intros r. auto.
Qed.

Lemma wp_conseq {A} P (p : prog S A) h Q (Q' : trace S → A → Prop) :
  wp P p h Q → (∀ h a, Q h a → Q' h a) → wp P p h Q'.
Proof. intros H HQ. eapply wp_mono; [..|exact H]; auto. Qed.

Lemma wp_and {A} P (p : prog S A) h Q1 Q2 :
  wp P p h Q1 → wp P p h Q2 → wp P p h (λ h' a, Q1 h' a ∧ Q2 h' a).
Proof.
  revert h. induction p as [a|c k IH]; intros h; simpl; [done|].
  intros [? H1] [_ H2]. split; [done|]. intros r. auto.
Qed.

(** The history only grows. *)
Lemma wp_extends {A} P (p : prog S A) h Q :
  wp P p h Q → wp P p h (λ h' a, Q h' a ∧ ∃ t, h' = h ++ t).
Proof.
  revert h. induction p as [a|c k IH]; intros h; simpl.
  - intros HQ. split; [done|]. exists []. by rewrite app_nil_r.
  - intros [HP Hk]. split; [done|]. intros r.
    eapply wp_conseq; [apply IH, Hk|]. intros h' a [HQ [t ->]].
    split; [done|]. exists (ev c r :: t). by rewrite <- app_assoc.
Qed.

(** A property of histories kept by every permitted call holds at the end. *)
Lemma wp_invariant {A} P (I : trace S → Prop) (p : prog S A) h Q :
  (∀ h c r, I h → P h c → I (h ++ [ev c r])) → I h →
  wp P p h Q → wp P p h (λ h' a, Q h' a ∧ I h').
Proof.
  intros Hstep. revert h. induction p as [a|c k IH]; intros h HI; simpl; [done|].
  intros [HP Hk]. split; [done|]. intros r. apply IH; [by apply Hstep|done].
Qed.

(** The protocol may use what is known of the history from the start on. *)
Lemma wp_protocol {A} P (P' : trace S → call S → Prop) (I : trace S → Prop) (p : prog S A) h Q :
  (∀ h c, I h → P h c → P' h c) → (∀ h c r, I h → I (h ++ [ev c r])) → I h →
  wp P p h Q → wp P' p h Q.
Proof.
  intros HP HI. revert h. induction p as [a|c k IH]; intros h Hh; simpl; [done|].
  intros [? Hk]. split; [auto|]. intros r. auto.
Qed.

(** A prefix-closed assumption on the final history can be used now. *)
Lemma wp_assume {A} (G : trace S → Prop) (p : prog S A) h Q :
  (∀ h t, G (h ++ t) → G h) →
  (G h → wp (λ _ _, True) p h (λ h' a, G h' → Q h' a)) →
  wp (λ _ _, True) p h (λ h' a, G h' → Q h' a).
Proof.
  intros HG. revert h. induction p as [a|c k IH]; intros h H; simpl in *; [tauto|].
  split; [done|]. intros r. apply IH. intros Hh. by apply H, (HG _ [ev c r]).
Qed.

Lemma wp_bind_outcome {A B} P (p : prog S (outcome A)) (f : A → prog S (outcome B)) h Q :
  wp P (bind_outcome p f) h Q ↔
  wp P p h (λ h' o, match o with
                    | Return a => wp P (f a) h' Q
                    | Error e => Q h' (Error e)
                    | Panic m => Q h' (Panic m)
                    end).
Proof.
  unfold bind_outcome. rewrite wp_bind. split; intros H; (eapply wp_conseq; [exact H|]);
    intros h' [a|e|m]; simpl; auto.
Qed.

Lemma wp_bind_ext {A B} P (p : prog S (extres A)) (f : A → prog S (extres B)) h Q :
  wp P (bind_ext p f) h Q ↔
  wp P p h (λ h' r, match r with inr a => wp P (f a) h' Q | inl e => Q h' (inl e) end).
Proof.
  unfold bind_ext. rewrite wp_bind. split; intros H; (eapply wp_conseq; [exact H|]);
    intros h' [e|a]; simpl; auto.
Qed.

Lemma wp_wrap_err {A} P msg (p : prog S (extres A)) h Q :
  wp P (wrap_err msg p) h Q ↔
  wp P p h (λ h' r, Q h' (match r with inr a => inr a | inl e => inl (ErrWrap msg e) end)).
Proof. unfold wrap_err. rewrite wp_bind. done. Qed.

(** The rule for loops: an invariant on the history, the elements still to
    come and the accumulator. *)
Lemma wp_for_range {A B} P (l : list A) (acc : B) body h
    (I : trace S → list A → B → Prop) (Q : trace S → outcome B → Prop) :
  I h l acc →
  (∀ h acc, I h [] acc → Q h (Return acc)) →
  (∀ h x rest acc, I h (x :: rest) acc →
     wp P (body acc x) h (λ h' o, match o with
                                  | Return acc' => I h' rest acc'
                                  | Error e => Q h' (Error e)
                                  | Panic m => Q h' (Panic m)
                                  end)) →
  wp P (for_range l acc body) h Q.
Proof.
  intros HI Hdone Hstep. revert acc h HI.
  induction l as [|x rest IH]; intros acc h HI; simpl; [auto|].
  rewrite wp_bind_outcome. eapply wp_conseq; [by apply Hstep|].
  intros h' [acc'|e|m]; simpl; auto.
Qed.

(** A loop each step of which, when it succeeds, settles its element: a
    property of the history that lasts. *)
Lemma wp_for_each {A B} P (l : list A) (acc : B) body h (R : trace S → A → Prop) :
  (∀ h h' x, R h x → R (h ++ h') x) →
  (∀ t acc x, x ∈ l → wp P (body acc x) (h ++ t) (λ h' o, is_return o = true → R h' x)) →
  wp P (for_range l acc body) h (λ h' o, is_return o = true → ∀ x, x ∈ l → R h' x).
Proof.
  intros Hmono. revert acc h. induction l as [|x l IH]; intros acc h Hbody; simpl.
  { intros _ x Hx. by apply elem_of_nil in Hx. }
  rewrite wp_bind_outcome. pose proof (Hbody [] acc x ltac:(left)) as Hx. rewrite app_nil_r in Hx.
  apply wp_extends in Hx. eapply wp_conseq; [exact Hx|]. intros h' [acc'|e|m] [Ho [t ->]]; [|done..].
  eapply wp_conseq; [apply wp_extends, IH|].
  - intros t' acc'' y Hy. rewrite <- app_assoc. apply Hbody. by right.
  - intros h' o [Hl [t' ->]] Hret y [->|Hy]%elem_of_cons; [by apply Hmono, Ho|by apply Hl].
Qed.

(** What the logic shows about every execution. *)
Theorem wp_exec {A} P (p : prog S A) h Q t a :
  wp P p h Q → exec p t a →
  Q (h ++ t) a ∧ ∀ t1 c r t2, t = t1 ++ ev c r :: t2 → P (h ++ t1) c.
Proof.
  revert h t. induction p as [b|c k IH]; intros h t; simpl.
  - intros HQ [-> ->]. rewrite app_nil_r. split; [done|].
    intros t1 c r t2 Heq. by destruct t1.
  - intros [HP Hk]. destruct t as [|e t']; [done|]. intros (r & -> & Hex).
    destruct (IH r _ _ (Hk r) Hex) as [HQ Hall]. rewrite <- app_assoc in HQ. split; [done|].
    intros [|e' t1] c' r' t2 Heq; simpl in Heq.
    + rewrite app_nil_r. injection Heq as Heq1 Heq2.
      unfold ev in Heq1. inversion Heq1. subst. done.
    + injection Heq as <- Heq. specialize (Hall _ _ _ _ Heq).
      by rewrite <- app_assoc in Hall.
Qed.

(** The logic is complete for executions, so nothing is lost by using it. *)
Lemma exec_wp {A} (p : prog S A) h Q :
  (∀ t a, exec p t a → Q (h ++ t) a) → wp (λ _ _, True) p h Q.
Proof.
  revert h Q. induction p as [b|c k IH]; intros h Q H; simpl.
  - specialize (H [] b). rewrite app_nil_r in H. by apply H.
  - split; [done|]. intros r. apply IH. intros t a Hex.
    rewrite <- app_assoc. apply H. simpl. eauto.
Qed.

(** What ran is an execution. *)
Lemma wp_self {A} P (p : prog S A) h Q :
  wp P p h Q → wp P p h (λ h' a, Q h' a ∧ ∃ t, h' = h ++ t ∧ exec p t a).
Proof.
  revert h Q. induction p as [b|c k IH]; intros h Q; simpl.
  - intros HQ. split; [done|]. exists []. by rewrite app_nil_r.
  - intros [HP Hk]. split; [done|]. intros r. eapply wp_conseq; [apply IH, Hk|].
    intros h' a [HQ (t & -> & Hex)]. split; [done|]. exists (ev c r :: t). rewrite <- app_assoc. eauto.
Qed.

(** ** Programs that make only some calls *)

Definition only {A} (P : call S → bool) (p : prog S A) : Prop := ∀ h, wp (λ _ c, P c = true) p h (λ _ _, True).

Lemma only_ret {A} P (a : A) : only P (Ret a).
Proof. done. Qed.
Lemma only_call P (c : call S) : P c = true → only P (perform c).
Proof. by intros Hc h. Qed.
Lemma only_bind {A B} P (p : prog S A) (f : A → prog S B) : only P p → (∀ a, only P (f a)) → only P (bind p f).
Proof. intros Hp Hf h. rewrite wp_bind. eapply wp_conseq; [apply Hp|]. intros h' a _. apply Hf. Qed.
Lemma only_bind_ext {A B} P (p : prog S (extres A)) (f : A → prog S (extres B)) :
  only P p → (∀ a, only P (f a)) → only P (bind_ext p f).
Proof. intros Hp Hf. apply only_bind; [done|]. intros [e|a]; [apply only_ret|apply Hf]. Qed.
Lemma only_bind_outcome {A B} P (p : prog S (outcome A)) (f : A → prog S (outcome B)) :
  only P p → (∀ a, only P (f a)) → only P (bind_outcome p f).
Proof. intros Hp Hf. apply only_bind; [done|]. intros [a|e|m]; [apply Hf|apply only_ret..]. Qed.
Lemma only_wrap_err {A} P msg (p : prog S (extres A)) : only P p → only P (wrap_err msg p).
Proof. intros Hp. apply only_bind; [done|]. intros r. apply only_ret. Qed.
Lemma only_for_range {A B} P (l : list A) (acc : B) body :
  (∀ acc x, only P (body acc x)) → only P (for_range l acc body).
Proof.
  intros Hbody. revert acc. induction l as [|x l IH]; intros acc; [apply only_ret|]. apply only_bind_outcome; auto.
Qed.

(** [e] occurs in the history. *)
Definition occurs (h : trace S) (c : call S) (r : resp S c) : Prop := ev c r ∈ h.

Lemma occurs_app_l h h' c r : occurs h c r → occurs (h ++ h') c r.
Proof. unfold occurs. rewrite elem_of_app. auto. Qed.
Lemma occurs_app_r h h' c r : occurs h' c r → occurs (h ++ h') c r.
Proof. unfold occurs. rewrite elem_of_app. auto. Qed.
Lemma occurs_last h c r : occurs (h ++ [ev c r]) c r.
Proof. apply occurs_app_r. unfold occurs. by apply list_elem_of_singleton. Qed.
End logic.

#[export] Hint Resolve occurs_app_l occurs_app_r occurs_last : moco.
Create Rewrite HintDb wp_rw.
#[export] Hint Rewrite @wp_bind @wp_bind_outcome @wp_bind_ext @wp_wrap_err : wp_rw.

(** The calls of a program, by its structure. *)
Ltac only_step :=
  first [ apply only_ret | apply only_call; reflexivity | apply only_bind_ext; [|intros ?] | apply only_bind_outcome; [|intros ?]
        | apply only_wrap_err | apply only_bind; [|intros ?] | apply only_for_range; intros ? ? ].

(** Reasoning steps: expose the next call of a program. *)
Ltac wp_norm := repeat (progress (autorewrite with wp_rw; cbn [wp perform bind check_res or_panic])).
Ltac wp_call r := wp_norm; split; [|intros r; cbn [wp perform bind]].
Arguments wp : simpl nomatch.
