(* ===== verification/Worlds.v ===== *)
(** * Retries, and programs in a world

    [retry.RetryOnConflict] of client-go is a parameter with the law its
    documentation gives, for programs over any signature.  [wpw W p s Q]: whatever the
    world [W] answers, the program [p] started in the state [s] ends with a result and
    a state that satisfy [Q].  This is the rule form of [runs_in] of Prog.v, for
    properties of the state a program leaves behind rather than of its calls. *)

From S2P Require Import Prelude Prog.
#[local] Open Scope Z_scope.

(** ** retry.RetryOnConflict

    It runs [fn] at least once and again only after a conflict error, and
    returns the result of the last run: whatever holds of every such result
    holds of its result. *)
Class ConflictRetry (S : signature) := {
  RetryOnConflict : prog S (extres unit) → prog S (extres unit);
  wp_RetryOnConflict P fn (I : trace S → Prop) h Q :
    I h →
    (∀ h, I h → wp P fn h (λ h' r, Q h' r ∧
       match r with
       | inl e => is_conflict e = true → I h'
       | inr _ => True
       end)) →
    wp P (RetryOnConflict fn) h Q
}.

(** At most [n] more attempts; an instance of the interface. *)
Fixpoint retry_steps {S : signature} (n : nat) (fn : prog S (extres unit)) : prog S (extres unit) :=
  r <-- fn ;;
  match r, n with
  | inl e, Datatypes.S n => if is_conflict e then retry_steps n fn else Ret r
  | _, _ => Ret r
  end.

#[refine] Definition retry_five {S : signature} : ConflictRetry S := {| RetryOnConflict := retry_steps 4 |}.
Proof.
  intros P fn I h Q HI Hfn. generalize 4%nat as n. intros n. revert h HI.
  induction n as [|n IH]; intros h HI; simpl; rewrite wp_bind;
    (eapply wp_conseq; [by apply Hfn|]); intros h' [e|u] [HQ HI']; simpl; try done.
  destruct (is_conflict e) eqn:He; simpl; [by auto|done].
Defined.

(** ** Programs in a world *)

Section worlds.
Context {S : signature} {St : Type} (W : world S St).

Fixpoint wpw {A} (p : prog S A) (s : St) (Q : A → St → Prop) : Prop :=
  match p with
  | Ret a => Q a s
  | Vis c k => ∀ r s1, W s c r s1 → wpw (k r) s1 Q
  end.

(** The rules are sound and complete for runs. *)
Lemma wpw_runs_in {A} (p : prog S A) s Q : wpw p s Q ↔ ∀ a s', runs_in W p s a s' → Q a s'.
Proof.
  revert s. induction p as [a|c k IH]; intros s; cbn [wpw runs_in].
  - split; [by intros ??? [<- ->]|intros H; by apply H].
  - split.
    + intros H a s' (r & s1 & HW & Hr). by apply (IH r s1) in Hr; [|apply H].
    + intros H r s1 HW. apply IH. intros a s' Hr. apply H. eauto.
Qed.

Lemma wpw_bind {A B} (p : prog S A) (f : A → prog S B) s Q :
  wpw (bind p f) s Q ↔ wpw p s (λ a s', wpw (f a) s' Q).
Proof.
  revert s. induction p as [a|c k IH]; intros s; cbn [bind wpw]; [done|].
  split; intros H r s1 HW; apply IH, H, HW.
Qed.

Lemma wpw_conseq {A} (p : prog S A) s (Q Q' : A → St → Prop) :
  wpw p s Q → (∀ a s', Q a s' → Q' a s') → wpw p s Q'.
Proof. rewrite !wpw_runs_in. eauto. Qed.

Lemma wpw_perform (c : call S) s (Q : resp S c → St → Prop) :
  wpw (perform c) s Q ↔ ∀ r s1, W s c r s1 → Q r s1.
Proof. done. Qed.

Lemma wpw_bind_outcome {A B} (p : prog S (outcome A)) (f : A → prog S (outcome B)) s Q :
  wpw (bind_outcome p f) s Q ↔
  wpw p s (λ o s', match o with
                   | Return a => wpw (f a) s' Q
                   | Error e => Q (Error e) s'
                   | Panic m => Q (Panic m) s'
                   end).
Proof.
  unfold bind_outcome. rewrite wpw_bind. split; intros H; (eapply wpw_conseq; [exact H|]); intros [a|e|m] s'; simpl; auto.
Qed.

Lemma wpw_bind_ext {A B} (p : prog S (extres A)) (f : A → prog S (extres B)) s Q :
  wpw (bind_ext p f) s Q ↔
  wpw p s (λ r s', match r with inr a => wpw (f a) s' Q | inl e => Q (inl e) s' end).
Proof.
  unfold bind_ext. rewrite wpw_bind. split; intros H; (eapply wpw_conseq; [exact H|]); intros [e|a] s'; simpl; auto.
Qed.

Lemma wpw_wrap_err {A} msg (p : prog S (extres A)) s Q :
  wpw (wrap_err msg p) s Q ↔
  wpw p s (λ r, Q (match r with inr a => inr a | inl e => inl (ErrWrap msg e) end)).
Proof. unfold wrap_err. by rewrite wpw_bind. Qed.

(** Loops: an invariant on the elements still to come, the accumulator and the
    state, and no error. *)
Lemma wpw_for_range {A B} (l : list A) (acc : B) body s (I : list A → B → St → Prop) (Q : outcome B → St → Prop) :
  I l acc s →
  (∀ acc s, I [] acc s → Q (Return acc) s) →
  (∀ x rest acc s, I (x :: rest) acc s →
     wpw (body acc x) s (λ o s', ∃ acc', o = Return acc' ∧ I rest acc' s')) →
  wpw (for_range l acc body) s Q.
Proof.
  intros HI Hdone Hstep. revert acc s HI. induction l as [|x rest IH]; intros acc s HI; simpl; [auto|].
  rewrite wpw_bind_outcome. eapply wpw_conseq; [by apply Hstep|]. intros o s' (acc' & -> & H). by apply IH.
Qed.

(** ** Retries

    The histories that lead from a state to another one carry the rule of
    [RetryOnConflict] over to worlds. *)
Fixpoint leads (s : St) (t : trace S) (s' : St) : Prop :=
  match t with
  | [] => s' = s
  | e :: t => ∃ s1, W s (projT1 e) (projT2 e) s1 ∧ leads s1 t s'
  end.

Lemma leads_snoc s t c r s' : leads s (t ++ [ev c r]) s' ↔ ∃ s1, leads s t s1 ∧ W s1 c r s'.
Proof.
  revert s. induction t as [|e t IH]; intros s; cbn [app leads].
  - split; [intros (s1 & H & ->); eauto|intros (s1 & -> & H); eauto].
  - setoid_rewrite IH. split; [intros (s1 & H1 & s2 & H2 & H3)|intros (s2 & (s1 & H1 & H2) & H3)]; eauto.
Qed.

Lemma wp_leads {A} (p : prog S A) s0 h Q :
  (∀ s, leads s0 h s → wpw p s Q) → wp (λ _ _, True) p h (λ h' a, ∀ s', leads s0 h' s' → Q a s').
Proof.
  revert h. induction p as [a|c k IH]; intros h H; simpl; [done|]. split; [done|]. intros r. apply IH.
  intros s (s1 & Hs & HW)%leads_snoc. by apply (H s1 Hs).
Qed.

Lemma leads_wpw {A} (p : prog S A) s0 h Q :
  wp (λ _ _, True) p h (λ h' a, ∀ s', leads s0 h' s' → Q a s') → ∀ s, leads s0 h s → wpw p s Q.
Proof.
  revert h. induction p as [a|c k IH]; intros h H s Hs; simpl in *; [auto|]. destruct H as [_ H].
  intros r s1 HW. apply (IH r (h ++ [ev c r])); [apply H|]. apply leads_snoc. eauto.
Qed.

Lemma wpw_RetryOnConflict {RC : ConflictRetry S} fn (I : St → Prop) s Q :
  I s →
  (∀ s, I s → wpw fn s (λ r s', Q r s' ∧ match r with
                                          | inl e => is_conflict e = true → I s'
                                          | inr _ => True
                                          end)) →
  wpw (RetryOnConflict fn) s Q.
Proof.
  intros HI Hfn. apply (leads_wpw _ s []); [|done].
  apply (wp_RetryOnConflict _ _ (λ h, ∀ s', leads s h s' → I s')); [by intros s' ->|].
  intros h Hh. eapply wp_conseq; [apply wp_leads; intros s' Hs'; by apply Hfn, Hh|].
  intros h' r H. split; [intros s' Hs'; by apply H|]. destruct r as [e|]; [|done]. intros He s' Hs'. by apply H.
Qed.
End worlds.

(** [W] is a world that always answers, and only as [V] does. *)
Record refines {S : signature} {St : Type} (W V : world S St) : Prop := {
  rf_total s c : ∃ r s', W s c r s';
  rf_within s c r s' : W s c r s' → V s c r s'
}.

Lemma wpw_refines {S St A} (W V : world S St) (p : prog S A) s Q : refines W V → wpw V p s Q → wpw W p s Q.
Proof. intros HWV. revert s. induction p as [a|c k IH]; intros s; cbn [wpw]; [done|]. intros H r s1 HW. apply IH, H, HWV, HW. Qed.

(** A program ends in such a world, in a way its specification in [V] allows. *)
Lemma refines_runs {S St A} (W V : world S St) (p : prog S A) s : refines W V → ∃ a s', runs_in W p s a s'.
Proof. intros HWV. apply runs_in_total, HWV. Qed.

Lemma refines_spec {S St A} (W V : world S St) (p : prog S A) s Q a s' :
  refines W V → wpw V p s Q → runs_in W p s a s' → Q a s'.
Proof. intros HWV H. revert a s'. by apply wpw_runs_in, (wpw_refines W V). Qed.

Arguments wpw : simpl nomatch.
Create Rewrite HintDb wpw_rw.
#[export] Hint Rewrite @wpw_bind @wpw_bind_outcome @wpw_bind_ext @wpw_wrap_err : wpw_rw.

(** Expose the next call of a program. *)
Ltac wpw_norm := repeat (progress (autorewrite with wpw_rw; cbn [wpw perform bind check_res or_panic])).
