(* ===== verification/GoLib.v ===== *)
(** * The parts of the Go standard library the program uses

    Strings (package strings), numbers in decimal (package strconv), sorting
    (package sort) and machine integers, each as an executable function with
    the lemmas the components share. *)

From stdpp Require Export pretty.
From Stdlib Require Ascii.
Export Stdlib.Strings.Ascii (ascii(..)).
Export (notations) Stdlib.Strings.Ascii.
From S2P Require Import Prelude.
#[local] Open Scope Z_scope.

(** ** Machine integers: [int32] and [int] (64 bits) with wrap-around *)

Definition wrap (bits x : Z) : Z :=
  (x + 2 ^ (bits - 1)) mod 2 ^ bits - 2 ^ (bits - 1).
Definition wrap32 : Z → Z := wrap 32.
Definition wrap64 : Z → Z := wrap 64.
Definition int32_range (x : Z) : Prop := - 2 ^ 31 ≤ x < 2 ^ 31.

Lemma wrap32_id x : int32_range x → wrap32 x = x.
Proof.
  unfold int32_range, wrap32, wrap. intros Hx.
  change (2 ^ (32 - 1)) with (2 ^ 31). rewrite Z.mod_small; lia.
Qed.

Lemma wrap64_id x : - 2 ^ 63 ≤ x < 2 ^ 63 → wrap64 x = x.
Proof. intros Hx. unfold wrap64, wrap. change (2 ^ (64 - 1)) with (2 ^ 63). rewrite Z.mod_small; lia. Qed.

Lemma wrap32_range x : int32_range (wrap32 x).
Proof.
  unfold int32_range, wrap32, wrap. change (2 ^ (32 - 1)) with (2 ^ 31).
  pose proof (Z.mod_pos_bound (x + 2 ^ 31) (2 ^ 32)). lia.
Qed.

(** ** package strings *)

(** [strings.Split(s, sep)] for a one-byte separator; never empty. *)
Fixpoint split_on (sep : ascii) (s : string) : list string :=
  match s with
  | EmptyString => [""]
  | String c s' =>
      if Ascii.eqb c sep then "" :: split_on sep s'
      else match split_on sep s' with
           | [] => [String c ""]
           | f :: fs => String c f :: fs
           end
  end.

(** [strings.SplitN(s, sep, 2)]: at most one cut, at the first separator. *)
Fixpoint split_n2 (sep : ascii) (s : string) : list string :=
  match s with
  | EmptyString => [""]
  | String c s' =>
      if Ascii.eqb c sep then [""; s']
      else match split_n2 sep s' with
           | [] => [String c ""]
           | f :: fs => String c f :: fs
           end
  end.

Fixpoint has_prefix (s p : string) : bool :=
  match p, s with
  | EmptyString, _ => true
  | String a p', String b s' => Ascii.eqb a b && has_prefix s' p'
  | String _ _, EmptyString => false
  end.

Fixpoint drop_str (n : nat) (s : string) : string :=
  match n, s with
  | O, _ => s
  | S n', String _ s' => drop_str n' s'
  | S _, EmptyString => ""
  end.

Definition has_suffix (s p : string) : bool :=
  (String.length p <=? String.length s)%nat &&
  (drop_str (String.length s - String.length p) s =s p).

Definition trim_prefix (s p : string) : string :=
  if has_prefix s p then drop_str (String.length p) s else s.

(** [strings.ReplaceAll] for one-byte strings. *)
Fixpoint replace_char (a b : ascii) (s : string) : string :=
  match s with
  | EmptyString => ""
  | String c s' => String (if Ascii.eqb c a then b else c) (replace_char a b s')
  end.

(** [strings.LastIndex(s, sep)] for a one-byte [sep]; -1 if absent. *)
Fixpoint last_index_from (sep : ascii) (s : string) (i best : Z) : Z :=
  match s with
  | EmptyString => best
  | String c s' => last_index_from sep s' (i + 1) (if Ascii.eqb c sep then i else best)
  end.
Definition last_index (sep : ascii) (s : string) : Z := last_index_from sep s 0 (-1).

Fixpoint take_str (n : nat) (s : string) : string :=
  match n, s with
  | O, _ => ""
  | S n', String c s' => String c (take_str n' s')
  | S _, EmptyString => ""
  end.

Fixpoint join_str (sep : string) (l : list string) : string :=
  match l with
  | [] => ""
  | [s] => s
  | s :: rest => s +:+ sep +:+ join_str sep rest
  end.

Fixpoint str_forall (P : ascii → bool) (s : string) : bool :=
  match s with
  | EmptyString => true
  | String c s' => P c && str_forall P s'
  end.

(** ** package strconv *)

Definition digit_val (c : ascii) : option Z :=
  let n := Z.of_N (Ascii.N_of_ascii c) in
  if (48 <=? n) && (n <=? 57) then Some (n - 48) else None.

Fixpoint digits_val (acc : Z) (s : string) : option Z :=
  match s with
  | EmptyString => Some acc
  | String c s' =>
      match digit_val c with
      | Some d => digits_val (acc * 10 + d) s'
      | None => None
      end
  end.

(** [strconv.ParseInt(s, 10, bits)]: the value and whether [err == nil].  A
    syntax error gives 0; an overflow gives the nearest bound. *)
Definition ParseInt (s : string) (bits : Z) : Z * bool :=
  let mag (u : string) : option Z :=
    match u with EmptyString => None | _ => digits_val 0 u end in
  let lim := 2 ^ (bits - 1) in
  match s with
  | EmptyString => (0, false)
  | String c u =>
      let neg := Ascii.eqb c "-" in
      let body := if neg || Ascii.eqb c "+" then u else s in
      match mag body with
      | None => (0, false)
      | Some m =>
          if neg then (if m <=? lim then (- m, true) else (- lim, false))
          else (if m <? lim then (m, true) else (lim - 1, false))
      end
  end.

(** [strconv.Atoi] on a 64-bit platform; [None] is a non-nil error. *)
Definition Atoi (s : string) : option Z :=
  let r := ParseInt s 64 in if r.2 then Some r.1 else None.

(** [strconv.Itoa], [fmt.Sprint] and [%d] of an integer. *)
Definition Itoa (n : Z) : string := pretty n.

(** ** package sort *)

(** [sort.Ints] and [sort.Strings]: the element order is total, so the sorted
    slice is unique and any sorting function computes it. *)
Definition sort_ints (l : list Z) : list Z := merge_sort Z.le l.
Definition sort_strings (l : list string) : list string := merge_sort String.le l.

Lemma sort_ints_perm l : sort_ints l ≡ₚ l.
Proof. apply merge_sort_Permutation. Qed.

Lemma sort_ints_sorted l : StronglySorted Z.le (sort_ints l).
Proof.
  unfold sort_ints. apply StronglySorted_merge_sort; [apply _|].
  intros x y. lia.
Qed.

Lemma sort_ints_head l x rest :
  sort_ints l = x :: rest → x ∈ l ∧ ∀ y, y ∈ l → x ≤ y.
Proof.
  intros Heq. pose proof (sort_ints_perm l) as Hp. pose proof (sort_ints_sorted l) as Hs.
  rewrite Heq in *. split.
  - rewrite <- Hp. set_solver.
  - intros y Hy. rewrite <- Hp in Hy. inversion Hs as [|? ? ? Hall]; subst.
    rewrite Forall_forall in Hall. apply elem_of_cons in Hy as [->|Hy]; [lia|].
    by apply Hall.
Qed.

Lemma sort_ints_nil l : sort_ints l = [] → l = [].
Proof.
  intros Heq. pose proof (sort_ints_perm l) as Hp. rewrite Heq in Hp.
  by apply Permutation_nil_l in Hp.
Qed.

Lemma sort_strings_perm l : sort_strings l ≡ₚ l.
Proof. apply merge_sort_Permutation. Qed.

Lemma sort_strings_sorted l : StronglySorted String.le (sort_strings l).
Proof. apply StronglySorted_merge_sort; apply _. Qed.

(** ** Decimal round trip *)

Lemma digit_val_pretty_N_char (x : N) :
  (x < 10)%N → digit_val (pretty_N_char x) = Some (Z.of_N x).
Proof.
  intros Hx.
  assert (x = 0 ∨ x = 1 ∨ x = 2 ∨ x = 3 ∨ x = 4 ∨ x = 5 ∨ x = 6 ∨ x = 7 ∨ x = 8 ∨ x = 9)%N
    as Hcase by lia.
  destruct_or! Hcase; subst; done.
Qed.

Lemma digits_val_pretty_N_go (x : N) (s : string) (acc : Z) :
  ∃ k, 0 ≤ k ∧ digits_val acc (pretty_N_go x s) = digits_val (acc * 10 ^ k + Z.of_N x) s.
Proof.
  revert s. induction (N.lt_wf_0 x) as [x _ IH]; intros s.
  destruct (decide (x = 0)%N) as [->|Hx].
  - exists 0. split; [lia|]. rewrite pretty_N_go_0. f_equal. lia.
  - rewrite pretty_N_go_step by lia.
    destruct (IH (x `div` 10)%N) with (s := String (pretty_N_char (x `mod` 10)) s)
      as (k & Hk & ->); [apply N.div_lt; lia|].
    exists (k + 1). split; [lia|]. simpl.
    rewrite digit_val_pretty_N_char by (apply N.mod_lt; lia). f_equal.
    rewrite Z.pow_add_r, N2Z.inj_div, N2Z.inj_mod by lia.
    pose proof (Z.div_mod (Z.of_N x) 10). nia.
Qed.

Lemma digits_val_pretty_N (x : N) : digits_val 0 (pretty x) = Some (Z.of_N x).
Proof.
  unfold pretty, pretty_N. case_decide as Hx; [subst; done|].
  destruct (digits_val_pretty_N_go x "" 0) as (k & _ & ->). simpl. f_equal.
Qed.

Lemma pretty_N_first (x : N) : ∃ c s, pretty x = String c s ∧ is_Some (digit_val c).
Proof.
  pose proof (digits_val_pretty_N x) as Hd.
  destruct (pretty x) as [|c s] eqn:E.
  - unfold pretty, pretty_N in E. case_decide as Hx; [done|].
    rewrite pretty_N_go_step in E by lia.
    destruct (digits_val_pretty_N_go (x `div` 10) (String (pretty_N_char (x `mod` 10)) "") 1)
      as (k & Hk & Hv).
    rewrite E in Hv. simpl in Hv. rewrite digit_val_pretty_N_char in Hv by (apply N.mod_lt; lia).
    assert (0 < 10 ^ k) by (apply Z.pow_pos_nonneg; lia).
    generalize dependent (10 ^ k). intros p Hv Hp. injection Hv as Hv. exfalso.
    pose proof (N2Z.is_nonneg (x `div` 10)). pose proof (N2Z.is_nonneg (x `mod` 10)). lia.
  - exists c, s. split; [done|]. simpl in Hd. destruct (digit_val c); [eauto|done].
Qed.

Lemma Itoa_nonneg (n : Z) : 0 ≤ n → Itoa n = pretty (Z.to_N n).
Proof. intros Hn. unfold Itoa. destruct n; [done|done|lia]. Qed.

(** Parsing the decimal form of a non-negative [int] gives it back. *)
Lemma Atoi_Itoa (n : Z) : 0 ≤ n < 2 ^ 63 → Atoi (Itoa n) = Some n.
Proof.
  intros Hn. rewrite Itoa_nonneg by lia.
  pose proof (digits_val_pretty_N (Z.to_N n)) as Hd.
  destruct (pretty_N_first (Z.to_N n)) as (c & s & E & Hc). rewrite E in *.
  unfold Atoi, ParseInt.
  assert (Ascii.eqb c "-" = false) as -> by (destruct (Ascii.eqb_spec c "-"); [subst; by destruct Hc|done]).
  assert (Ascii.eqb c "+" = false) as -> by (destruct (Ascii.eqb_spec c "+"); [subst; by destruct Hc|done]).
  cbn [orb]. rewrite Hd. rewrite Z2N.id by lia.
  change (2 ^ (64 - 1)) with (2 ^ 63). destruct (Z.ltb_spec n (2 ^ 63)); [done|lia].
Qed.

Lemma Itoa_inj (a b : Z) : Itoa a = Itoa b → a = b.
Proof. unfold Itoa. apply (inj pretty). Qed.

Lemma str_forall_app P a b : str_forall P (a +:+ b) = str_forall P a && str_forall P b.
Proof.
  induction a as [|c a IH]; [done|]. change (String c a +:+ b) with (String c (a +:+ b)).
  cbn. rewrite IH. by rewrite andb_assoc.
Qed.

(** The character does not occur in the string. *)
Definition no_char (c : ascii) (s : string) : bool := str_forall (λ d, negb (Ascii.eqb d c)) s.

Lemma no_char_app c a b : no_char c (a +:+ b) = no_char c a && no_char c b.
Proof. apply str_forall_app. Qed.

Lemma split_n2_no_sep sep k s :
  no_char sep k = true → split_n2 sep (k +:+ String sep s) = [k; s].
Proof.
  induction k as [|c k IH]; intros Hk.
  - change ("" +:+ String sep s) with (String sep s). cbn [split_n2]. by rewrite Ascii.eqb_refl.
  - change (String c k +:+ String sep s) with (String c (k +:+ String sep s)). cbn [split_n2].
    unfold no_char in *. cbn [str_forall] in Hk. apply andb_true_iff in Hk as [Hc Hk].
    rewrite (IH Hk). by destruct (Ascii.eqb c sep).
Qed.

Lemma split_n2_join sep s a b : split_n2 sep s = [a; b] → s = a +:+ String sep b.
Proof.
  revert a. induction s as [|c s IH]; intros a; cbn [split_n2]; [done|].
  destruct (Ascii.eqb_spec c sep) as [->|_]; [by intros [= <- <-]|].
  destruct (split_n2 sep s) as [|f [|f' [|]]]; try done. intros [= <- ->].
  change (String c f +:+ String sep b) with (String c (f +:+ String sep b)). by rewrite <- IH.
Qed.

Lemma split_n2_head_no_sep sep s a l : split_n2 sep s = a :: l → no_char sep a = true.
Proof.
  revert a l. induction s as [|c s IH]; intros a l; cbn [split_n2]; [by intros [= <- _]|].
  destruct (Ascii.eqb c sep) eqn:E; [by intros [= <- _]|].
  destruct (split_n2 sep s) as [|f fs]; intros [= <- _]; unfold no_char; cbn [str_forall]; rewrite E; [done|].
  by apply (IH f fs).
Qed.

Lemma split_n2_head sep u w :
  no_char sep u = true → head (split_n2 sep (u +:+ String sep w)) = Some u.
Proof. intros H. by rewrite split_n2_no_sep. Qed.

(** A decimal digit string has no separator in it. *)
Lemma digits_no_sep (sep : ascii) (s : string) (acc : Z) :
  digit_val sep = None → is_Some (digits_val acc s) →
  str_forall (λ c, negb (Ascii.eqb c sep)) s = true.
Proof.
  intros Hsep. revert acc. induction s as [|c s IH]; intros acc Hs; simpl in *; [done|].
  destruct (digit_val c) as [d|] eqn:Ed; [|by destruct Hs].
  rewrite (IH _ Hs), andb_true_r. destruct (Ascii.eqb_spec c sep); [congruence|done].
Qed.

Lemma Itoa_no_sep (sep : ascii) (n : Z) :
  digit_val sep = None → 0 ≤ n → str_forall (λ c, negb (Ascii.eqb c sep)) (Itoa n) = true.
Proof.
  intros Hsep Hn. rewrite Itoa_nonneg by done. apply (digits_no_sep sep _ 0); [done|].
  rewrite digits_val_pretty_N. eauto.
Qed.

Lemma length_str_app (a b : string) : String.length (a +:+ b) = (String.length a + String.length b)%nat.
Proof. induction a as [|c a IH]; [done|]. cbn [String.length Nat.add]. rewrite <- IH. done. Qed.

Lemma take_str_app (a b : string) : take_str (String.length a) (a +:+ b) = a.
Proof.
  induction a as [|c a IH]; [by destruct b|]. change (String c a +:+ b) with (String c (a +:+ b)).
  cbn. by rewrite IH.
Qed.

Lemma drop_str_app a b : drop_str (String.length a) (a +:+ b) = b.
Proof. induction a as [|c a IH]; [by destruct b|]. exact IH. Qed.

Lemma str_app_cancel_r (a b t : string) : a +:+ t = b +:+ t → a = b.
Proof.
  intros H. assert (String.length a = String.length b) as Hl.
  { apply (f_equal String.length) in H. rewrite !length_str_app in H. lia. }
  revert b H Hl. induction a as [|c a IH]; intros [|d b] H Hl; try done.
  injection H as -> H. f_equal. apply IH; [done|]. by injection Hl.
Qed.

(** ** Splitting *)

Lemma split_on_nonempty sep s : split_on sep s ≠ [].
Proof. destruct s as [|c s]; simpl; [done|]. repeat case_match; done. Qed.

Lemma split_on_no_sep sep s :
  str_forall (λ c, negb (Ascii.eqb c sep)) s = true → split_on sep s = [s].
Proof.
  induction s as [|c s IH]; simpl; intros H; [done|].
  bool_cases. destruct (Ascii.eqb c sep); [done|]. by rewrite IH.
Qed.

Lemma split_on_app sep s t :
  split_on sep (s +:+ String sep t) = split_on sep s ++ split_on sep t.
Proof.
  induction s as [|c s IH]; simpl.
  - by rewrite Ascii.eqb_refl.
  - rewrite IH. destruct (Ascii.eqb c sep); [done|].
    destruct (split_on sep s) as [|f fs] eqn:E; [by apply split_on_nonempty in E|done].
Qed.

(** The field after the last separator, as in [fields[len(fields)-1]]. *)
Definition last_field (sep : ascii) (s : string) : string := default "" (last (split_on sep s)).

Lemma last_field_app sep s t :
  str_forall (λ c, negb (Ascii.eqb c sep)) t = true →
  last_field sep (s +:+ String sep t) = t.
Proof.
  intros H. unfold last_field. rewrite split_on_app, (split_on_no_sep _ t) by done.
  by rewrite last_snoc.
Qed.

Lemma str_app_assoc (a b c : string) : (a +:+ b) +:+ c = a +:+ (b +:+ c).
Proof.
  induction a as [|x a IH]; [done|].
  change (String x ((a +:+ b) +:+ c) = String x (a +:+ (b +:+ c))). by rewrite IH.
Qed.

Lemma str_app_nil_r (a : string) : a +:+ "" = a.
Proof.
  induction a as [|x a IH]; [done|].
  change (String x (a +:+ "") = String x a). by rewrite IH.
Qed.

Lemma has_prefix_app p s : has_prefix (p +:+ s) p = true.
Proof. induction p as [|c p IH]; [by destruct s|].
  simpl. by rewrite Ascii.eqb_refl, IH. Qed.

Lemma has_prefix_spec s p : has_prefix s p = true ↔ ∃ t, s = p +:+ t.
Proof.
  split; [|intros [t ->]; apply has_prefix_app].
  revert s. induction p as [|c p IH]; intros s H; [by exists s|].
  destruct s as [|d s]; simpl in H; [done|]. bool_cases.
  destruct (Ascii.eqb_spec c d) as [->|]; [|done].
  destruct (IH s) as [t ->]; [done|]. by exists t.
Qed.

(** ** packages path and path/filepath (on Unix they agree) *)

Definition clean_step (rooted : bool) (stack : list string) (f : string) : list string :=
  if (f =s "") || (f =s ".") then stack
  else if f =s ".." then
    match stack with
    | [] => if rooted then [] else [".."]
    | top :: rest => if top =s ".." then ".." :: stack else rest
    end
  else f :: stack.

(** [path.Clean]. *)
Definition path_Clean (p : string) : string :=
  if p =s "" then "." else
  let rooted := has_prefix p "/" in
  let stack := foldl (clean_step rooted) [] (split_on "/" p) in
  let body := join_str "/" (reverse stack) in
  if rooted then "/" +:+ body else if body =s "" then "." else body.

(** [path.Join]. *)
Definition path_Join (elems : list string) : string :=
  let nonempty := filter (λ e, (e =s "") = false) elems in
  match nonempty with
  | [] => ""
  | _ => path_Clean (join_str "/" nonempty)
  end.

(** [path.Split(p)]'s directory part: up to and including the last slash. *)
Definition dir_part (p : string) : string :=
  take_str (Z.to_nat (last_index "/" p + 1)) p.

(** [path.Dir]. *)
Definition path_Dir (p : string) : string := path_Clean (dir_part p).

Definition strip_slashes (p : string) : string :=
  let fix go (n : nat) (s : string) : string :=
    match n with
    | O => s
    | S n' => if has_suffix s "/" then go n' (take_str (String.length s - 1) s) else s
    end in go (String.length p) p.

(** [path.Base]. *)
Definition path_Base (p : string) : string :=
  if p =s "" then "." else
  let q := strip_slashes p in
  if q =s "" then "/" else drop_str (Z.to_nat (last_index "/" q + 1)) q.

(** ** package encoding/hex and the verb [%q] *)

Definition hex_digit (n : Z) : ascii :=
  match n with
  | 0 => "0" | 1 => "1" | 2 => "2" | 3 => "3" | 4 => "4" | 5 => "5" | 6 => "6" | 7 => "7"
  | 8 => "8" | 9 => "9" | 10 => "a" | 11 => "b" | 12 => "c" | 13 => "d" | 14 => "e" | _ => "f"
  end%char.

(** [hex.EncodeToString]; a byte is a number in [0, 256). *)
Fixpoint hex_EncodeToString (bs : list Z) : string :=
  match bs with
  | [] => ""
  | b :: rest => String (hex_digit (b / 16)) (String (hex_digit (b mod 16)) (hex_EncodeToString rest))
  end.

(** [strconv.Quote] of an ASCII string; [None] for a string with a byte above
    127, whose quoting depends on its UTF-8 decoding and is not modelled. *)
Definition quote_char (c : ascii) : option string :=
  let n := Z.of_N (Ascii.N_of_ascii c) in
  if n =? 34 then Some (String "\" (String c ""))
  else if n =? 92 then Some (String "\" (String c ""))
  else if n =? 7 then Some "\a" else if n =? 8 then Some "\b"
  else if n =? 12 then Some "\f" else if n =? 10 then Some "\n"
  else if n =? 13 then Some "\r" else if n =? 9 then Some "\t" else if n =? 11 then Some "\v"
  else if (n <? 32) || (n =? 127) then
    Some ("\x" +:+ String (hex_digit (n / 16)) (String (hex_digit (n mod 16)) ""))
  else if n <? 127 then Some (String c "")
  else None.

Fixpoint quote_body (s : string) : option string :=
  match s with
  | EmptyString => Some ""
  | String c s' =>
      match quote_char c, quote_body s' with
      | Some a, Some b => Some (a +:+ b)
      | _, _ => None
      end
  end.

Definition dquote : string := String (Ascii.ascii_of_nat 34) "".
Definition newline : string := String (Ascii.ascii_of_nat 10) "".

Definition quote (s : string) : option string :=
  match quote_body s with
  | Some b => Some (dquote +:+ b +:+ dquote)
  | None => None
  end.
