(* ===== verification/Time.v ===== *)
(** * Dates (package time)

    A [time.Time] is the number of nanoseconds since the Unix epoch.  [FormatBackup]
    and [ParseBackup] are [Format] and [Parse] for [constants.BackupTimeFormat]
    ("20060102-150405"), which names the directories of backups; they are shown
    to be inverse to each other up to the second, and [ParseBackup] to respect
    the order of strings. *)

From S2P Require Import Prelude GoLib.
#[local] Open Scope Z_scope.

(** ** The calendar *)

Definition is_leap (y : Z) : bool :=
  (y mod 4 =? 0) && (negb (y mod 100 =? 0) || (y mod 400 =? 0)).

(** Days before the month [m] (1 to 12, or 13) of a common year. *)
Definition days_before (m : Z) : Z :=
  match m with
  | 1 => 0 | 2 => 31 | 3 => 59 | 4 => 90 | 5 => 120 | 6 => 151 | 7 => 181 | 8 => 212
  | 9 => 243 | 10 => 273 | 11 => 304 | 12 => 334 | _ => 365
  end.

Definition days_before_leap (leap : bool) (m : Z) : Z :=
  days_before m + if leap && (2 <? m) then 1 else 0.

Definition days_in (leap : bool) (m : Z) : Z := days_before_leap leap (m + 1) - days_before_leap leap m.

(** Days from 0000-01-01 to the first day of the year [y]. *)
Definition days_before_year (y : Z) : Z :=
  365 * y + (y + 3) / 4 - (y + 99) / 100 + (y + 399) / 400.

(** Days from 0000-01-01 to the given date. *)
Definition day_number (y m d : Z) : Z :=
  days_before_year y + days_before_leap (is_leap y) m + d - 1.

(** The year of a day number and the day in it: 400, 100, 4 and 1 year cycles. *)
Definition year_of (n : Z) : Z * Z :=
  let c400 := n / 146097 in
  let r := n mod 146097 in
  (* the first century and the first 4-year group of a century differ in length *)
  let c100 := if r <? 36525 then 0 else (r - 36525) / 36524 + 1 in
  let r := if r <? 36525 then r else (r - 36525) mod 36524 in
  let first := if c100 =? 0 then 1461 else 1460 in
  let c4 := if r <? first then 0 else (r - first) / 1461 + 1 in
  let r := if r <? first then r else (r - first) mod 1461 in
  let y := 400 * c400 + 100 * c100 + 4 * c4 in
  let len := if is_leap y then 366 else 365 in
  if r <? len then (y, r) else (y + (r - len) / 365 + 1, (r - len) mod 365).

(** Month and day of a day of the year. *)
Definition month_of (leap : bool) (yday : Z) : Z * Z :=
  let m := foldl (λ acc m, if days_before_leap leap m <=? yday then m else acc) 1
             [2; 3; 4; 5; 6; 7; 8; 9; 10; 11; 12] in
  (m, yday - days_before_leap leap m + 1).

Definition civil_of (n : Z) : Z * Z * Z :=
  let yr := year_of n in
  let md := month_of (is_leap yr.1) yr.2 in
  (yr.1, md.1, md.2).

(** 0000-01-01 to 1970-01-01. *)
Definition epoch_days : Z := 719528.
Definition ns_per_second : Z := 1000000000.

(** ** Formatting *)

Definition digit_char (d : Z) : ascii := Ascii.ascii_of_N (Z.to_N (d + 48)).

(** The last [w] decimal digits of a number. *)
Fixpoint last_digits (w : nat) (x : Z) : string :=
  match w with
  | O => ""
  | S w => String (digit_char (x / 10 ^ Z.of_nat w mod 10)) (last_digits w x)
  end.

(** A number with at least [w] digits, as package time writes it. *)
Definition pad (w : nat) (x : Z) : string :=
  let u := Z.abs x in
  let hi := u / 10 ^ Z.of_nat w in
  (if x <? 0 then "-" else "") +:+ (if hi =? 0 then "" else Itoa hi) +:+ last_digits w u.

(** Year, month, day, hour, minute, second. *)
Record fields := {
  f_year : Z; f_month : Z; f_day : Z; f_hour : Z; f_min : Z; f_sec : Z
}.

Definition fields_of (t : Z) : fields :=
  let secs := t / ns_per_second in
  let c := civil_of (secs / 86400 + epoch_days) in
  let s := secs mod 86400 in
  {| f_year := c.1.1; f_month := c.1.2; f_day := c.2;
     f_hour := s / 3600; f_min := s mod 3600 / 60; f_sec := s mod 60 |}.

(** [t.UTC().Format("20060102-150405")]. *)
Definition FormatBackup (t : Z) : string :=
  let f := fields_of t in
  pad 4 (f_year f) +:+ pad 2 (f_month f) +:+ pad 2 (f_day f) +:+ "-" +:+
  pad 2 (f_hour f) +:+ pad 2 (f_min f) +:+ pad 2 (f_sec f).

(** [t.Format("2006-01-02 15:04:05")] of a time in UTC. *)
Definition FormatDateTime (t : Z) : string :=
  let f := fields_of t in
  pad 4 (f_year f) +:+ "-" +:+ pad 2 (f_month f) +:+ "-" +:+ pad 2 (f_day f) +:+ " " +:+
  pad 2 (f_hour f) +:+ ":" +:+ pad 2 (f_min f) +:+ ":" +:+ pad 2 (f_sec f).

(** ** Parsing *)

(** Exactly [n] digits, and the rest. *)
Fixpoint take_digits (n : nat) (acc : Z) (s : string) : option (Z * string) :=
  match n, s with
  | O, _ => Some (acc, s)
  | S n, String c s' => d ← digit_val c; take_digits n (acc * 10 + d) s'
  | S _, EmptyString => None
  end.

Definition skip_char (c : ascii) (s : string) : option string :=
  match s with
  | String d s' => if Ascii.eqb c d then Some s' else None
  | EmptyString => None
  end.

(** A fractional second is accepted after the seconds although the layout has
    none: a point or a comma and digits; nine of them count. *)
Fixpoint fraction_digits (k : nat) (acc : Z) (s : string) : option Z :=
  match s with
  | EmptyString => Some (acc * 10 ^ Z.of_nat k)
  | String c s' =>
      d ← digit_val c;
      match k with O => fraction_digits O acc s' | S k => fraction_digits k (acc * 10 + d) s' end
  end.

Definition fraction (s : string) : option Z :=
  match s with
  | EmptyString => Some 0
  | String c s' =>
      if (Ascii.eqb c "." || Ascii.eqb c ",") && negb (s' =s "") then fraction_digits 9 0 s' else None
  end.

(** The ranges [time.Parse] checks. *)
Definition valid_fields (f : fields) : bool :=
  (1 <=? f_month f) && (f_month f <=? 12) && (1 <=? f_day f) &&
  (f_day f <=? days_in (is_leap (f_year f)) (f_month f)) &&
  (f_hour f <? 24) && (f_min f <? 60) && (f_sec f <? 60).

Definition time_of (f : fields) (nsec : Z) : Z :=
  ((day_number (f_year f) (f_month f) (f_day f) - epoch_days) * 86400
   + f_hour f * 3600 + f_min f * 60 + f_sec f) * ns_per_second + nsec.

Definition parse_fields (s : string) : option (fields * string) :=
  '(y, s) ← take_digits 4 0 s;
  '(mo, s) ← take_digits 2 0 s;
  '(d, s) ← take_digits 2 0 s;
  s ← skip_char "-" s;
  '(h, s) ← take_digits 2 0 s;
  '(mi, s) ← take_digits 2 0 s;
  '(se, s) ← take_digits 2 0 s;
  Some ({| f_year := y; f_month := mo; f_day := d; f_hour := h; f_min := mi; f_sec := se |}, s).

(** [time.Parse("20060102-150405", s)]; [None] is an error. *)
Definition ParseBackup (s : string) : option Z :=
  '(f, rest) ← parse_fields s;
  nsec ← fraction rest;
  if valid_fields f then Some (time_of f nsec) else None.

(** ** The calendar is right *)

Definition year_length (y : Z) : Z := if is_leap y then 366 else 365.

(** A year in its cycles of 400, 100 and 4 years. *)
Lemma is_leap_cycle a b c e :
  0 ≤ b ≤ 3 → 0 ≤ c ≤ 24 → 0 ≤ e ≤ 3 →
  is_leap (400 * a + 100 * b + 4 * c + e) = (e =? 0) && (negb (c =? 0) || (b =? 0)).
Proof.
  intros Hb Hc He. unfold is_leap.
  replace ((400 * a + 100 * b + 4 * c + e) mod 4) with e
    by (apply (Z.mod_unique _ _ (100 * a + 25 * b + c)); lia).
  replace ((400 * a + 100 * b + 4 * c + e) mod 100) with (4 * c + e)
    by (apply (Z.mod_unique _ _ (4 * a + b)); lia).
  replace ((400 * a + 100 * b + 4 * c + e) mod 400) with (100 * b + 4 * c + e)
    by (apply (Z.mod_unique _ _ a); lia).
  destruct (Z.eqb_spec e 0), (Z.eqb_spec c 0), (Z.eqb_spec b 0), (Z.eqb_spec (4 * c + e) 0),
    (Z.eqb_spec (100 * b + 4 * c + e) 0); cbn; try done; lia.
Qed.

Lemma days_before_year_cycle a b c e :
  0 ≤ b ≤ 3 → 0 ≤ c ≤ 24 → 0 ≤ e ≤ 3 →
  days_before_year (400 * a + 100 * b + 4 * c + e) =
  146097 * a + 36524 * b + 1461 * c + 365 * e
  + (if e =? 0 then 0 else 1) - (if (c =? 0) && (e =? 0) then 0 else 1)
  + (if (b =? 0) && (c =? 0) && (e =? 0) then 0 else 1).
Proof.
  intros Hb Hc He. unfold days_before_year.
  replace ((400 * a + 100 * b + 4 * c + e + 3) / 4)
    with (100 * a + 25 * b + c + if e =? 0 then 0 else 1)
    by (destruct (Z.eqb_spec e 0); [apply (Z.div_unique _ _ _ 3)|apply (Z.div_unique _ _ _ (e - 1))]; lia).
  replace ((400 * a + 100 * b + 4 * c + e + 99) / 100)
    with (4 * a + b + if (c =? 0) && (e =? 0) then 0 else 1)
    by (destruct (Z.eqb_spec c 0), (Z.eqb_spec e 0); cbn;
        [apply (Z.div_unique _ _ _ 99)|apply (Z.div_unique _ _ _ (4 * c + e - 1))..]; lia).
  replace ((400 * a + 100 * b + 4 * c + e + 399) / 400)
    with (a + if (b =? 0) && (c =? 0) && (e =? 0) then 0 else 1)
    by (destruct (Z.eqb_spec b 0), (Z.eqb_spec c 0), (Z.eqb_spec e 0); cbn;
        [apply (Z.div_unique _ _ _ 399)|apply (Z.div_unique _ _ _ (100 * b + 4 * c + e - 1))..]; lia).
  lia.
Qed.

Lemma year_cycles y : ∃ a b c e,
  y = 400 * a + 100 * b + 4 * c + e ∧ 0 ≤ b ≤ 3 ∧ 0 ≤ c ≤ 24 ∧ 0 ≤ e ≤ 3.
Proof.
  exists (y / 400), (y mod 400 / 100), (y mod 400 mod 100 / 4), (y mod 400 mod 100 mod 4).
  pose proof (Z.div_mod y 400). pose proof (Z.mod_pos_bound y 400).
  pose proof (Z.div_mod (y mod 400) 100). pose proof (Z.mod_pos_bound (y mod 400) 100).
  pose proof (Z.div_mod (y mod 400 mod 100) 4). pose proof (Z.mod_pos_bound (y mod 400 mod 100) 4).
  lia.
Qed.

Lemma days_before_year_succ y : days_before_year (y + 1) = days_before_year y + year_length y.
Proof.
  destruct (year_cycles y) as (a & b & c & e & -> & Hb & Hc & He).
  unfold year_length. rewrite is_leap_cycle, days_before_year_cycle by done.
  unfold days_before_year.
  destruct (Z.eqb_spec e 0), (Z.eqb_spec c 0), (Z.eqb_spec b 0); cbn;
    Z.to_euclidean_division_equations; lia.
Qed.

Lemma days_before_year_mono y y' : y < y' → days_before_year y + year_length y ≤ days_before_year y'.
Proof.
  intros Hlt. replace y' with (y + 1 + (y' - y - 1)) by lia.
  assert (0 ≤ y' - y - 1) as Hn by lia. revert Hn. generalize (y' - y - 1) as n.
  apply natlike_ind; [rewrite <- days_before_year_succ, Z.add_0_r; lia|].
  intros n Hn IH. replace (y + 1 + Z.succ n) with (y + 1 + n + 1) by lia.
  rewrite days_before_year_succ. unfold year_length at 2. destruct (is_leap (y + 1 + n)); lia.
Qed.

Lemma year_of_spec n : let yr := year_of n in
  days_before_year yr.1 + yr.2 = n ∧ 0 ≤ yr.2 < year_length yr.1.
Proof.
  cbv zeta. unfold year_of.
  pose proof (Z.div_mod n 146097 ltac:(done)) as Hn.
  pose proof (Z.mod_pos_bound n 146097 ltac:(done)) as Hr.
  set (a := n / 146097) in *. set (r := n mod 146097) in *. clearbody a r. subst n.
  assert (∃ b r1, 0 ≤ b ≤ 3 ∧ 0 ≤ r1 < (if b =? 0 then 36525 else 36524) ∧
            r = 36524 * b + (if b =? 0 then 0 else 1) + r1 ∧
            b = (if r <? 36525 then 0 else (r - 36525) / 36524 + 1) ∧
            r1 = (if r <? 36525 then r else (r - 36525) mod 36524)) as (b & r1 & Hb & Hr1 & -> & <- & <-).
  { destruct (Z.ltb_spec r 36525).
    - exists 0, r. cbn. lia.
    - pose proof (Z.div_mod (r - 36525) 36524 ltac:(done)). pose proof (Z.mod_pos_bound (r - 36525) 36524 ltac:(done)).
      exists ((r - 36525) / 36524 + 1), ((r - 36525) mod 36524).
      destruct (Z.eqb_spec ((r - 36525) / 36524 + 1) 0); lia. }
  set (first := if b =? 0 then 1461 else 1460).
  assert (∃ c r2, 0 ≤ c ≤ 24 ∧ 0 ≤ r2 < (if c =? 0 then first else 1461) ∧
            r1 = 1461 * c + (if c =? 0 then 0 else first - 1461) + r2 ∧
            c = (if r1 <? first then 0 else (r1 - first) / 1461 + 1) ∧
            r2 = (if r1 <? first then r1 else (r1 - first) mod 1461)) as (c & r2 & Hc & Hr2 & -> & <- & <-).
  { assert (1460 ≤ first ≤ 1461) as Hf by (unfold first; destruct (b =? 0); lia).
    assert (r1 < 36524 + first - 1460) as Hr1' by (unfold first; destruct (b =? 0); lia).
    clearbody first. destruct (Z.ltb_spec r1 first).
    - exists 0, r1. cbn. lia.
    - pose proof (Z.div_mod (r1 - first) 1461 ltac:(done)). pose proof (Z.mod_pos_bound (r1 - first) 1461 ltac:(done)).
      exists ((r1 - first) / 1461 + 1), ((r1 - first) mod 1461).
      destruct (Z.eqb_spec ((r1 - first) / 1461 + 1) 0); lia. }
  replace (400 * a + 100 * b + 4 * c) with (400 * a + 100 * b + 4 * c + 0) by lia.
  rewrite is_leap_cycle by lia. cbn [Z.eqb andb].
  set (len := if negb (c =? 0) || (b =? 0) then 366 else 365).
  destruct (Z.ltb_spec r2 len) as [Hlt|Hge]; cbn [fst snd].
  - unfold year_length. rewrite is_leap_cycle, days_before_year_cycle by lia.
    unfold len, first in *. destruct (Z.eqb_spec c 0), (Z.eqb_spec b 0); cbn in *; lia.
  - pose proof (Z.div_mod (r2 - len) 365 ltac:(done)) as Hd.
    pose proof (Z.mod_pos_bound (r2 - len) 365 ltac:(done)) as Hm.
    set (k := (r2 - len) / 365) in *.
    set (q := (r2 - len) mod 365) in *. clearbody q k.
    assert (0 ≤ k ≤ 2) as He.
    { unfold len, first in *. destruct (Z.eqb_spec c 0), (Z.eqb_spec b 0); cbn in *; lia. }
    replace (400 * a + 100 * b + 4 * c + 0 + k + 1) with (400 * a + 100 * b + 4 * c + (k + 1)) by lia.
    unfold year_length. rewrite is_leap_cycle, days_before_year_cycle by lia.
    unfold len, first in *. destruct (Z.eqb_spec c 0), (Z.eqb_spec b 0), (Z.eqb_spec (k + 1) 0); cbn in *; lia.
Qed.

(** The tables, checked for all months and days. *)
Lemma month_of_spec (leap : bool) (yday : Z) :
  0 ≤ yday < (if leap then 366 else 365) →
  let md := month_of leap yday in
  1 ≤ md.1 ≤ 12 ∧ 1 ≤ md.2 ≤ days_in leap md.1 ∧ days_before_leap leap md.1 + md.2 - 1 = yday.
Proof.
  intros Hy. cbv zeta.
  assert (yday ∈ upto (if leap then 366 else 365)) as Hin by by apply elem_of_upto.
  clear Hy. revert yday Hin. apply Forall_forall. destruct leap;
    (apply (bool_decide_unpack _); vm_compute; done).
Qed.

Lemma month_mono leap m d m' d' :
  1 ≤ m ≤ 12 → 1 ≤ m' ≤ 12 → d ≤ days_in leap m → 1 ≤ d' → m < m' →
  days_before_leap leap m + d ≤ days_before_leap leap m' + d' - 1.
Proof.
  intros Hm Hm' Hd Hd' Hlt. unfold days_in in Hd.
  assert (days_before_leap leap (m + 1) ≤ days_before_leap leap m'); [|lia].
  assert (m ∈ upto 13 ∧ m' ∈ upto 13) as [Hi Hi'] by (rewrite !elem_of_upto; lia).
  assert (Forall (λ m, Forall (λ m', m < m' → 1 ≤ m →
    days_before_leap leap (m + 1) ≤ days_before_leap leap m') (upto 13)) (upto 13)) as Hall.
  { destruct leap; (apply (bool_decide_unpack _); vm_compute; done). }
  rewrite Forall_forall in Hall. specialize (Hall _ Hi). rewrite Forall_forall in Hall. apply Hall; [done|lia..].
Qed.

Definition valid_date (y m d : Z) : Prop := 1 ≤ m ≤ 12 ∧ 1 ≤ d ≤ days_in (is_leap y) m.

Lemma day_of_year_bound y m d :
  valid_date y m d → 0 ≤ days_before_leap (is_leap y) m + d - 1 < year_length y.
Proof.
  intros [Hm Hd]. unfold year_length, days_in in *.
  assert (m ∈ upto 13) as Hi by (rewrite elem_of_upto; lia).
  assert (∀ leap, Forall (λ m, 0 ≤ days_before_leap leap m ∧ (1 ≤ m →
    days_before_leap leap (m + 1) ≤ if leap then 366 else 365)) (upto 13)) as Hall.
  { intros []; apply (bool_decide_unpack _); vm_compute; done. }
  specialize (Hall (is_leap y)). rewrite Forall_forall in Hall. destruct (Hall _ Hi) as [H1 H2].
  specialize (H2 (proj1 Hm)). lia.
Qed.

(** Days are numbered in the order of dates. *)
Lemma day_number_mono y m d y' m' d' :
  valid_date y m d → valid_date y' m' d' →
  y < y' ∨ y = y' ∧ (m < m' ∨ m = m' ∧ d < d') → day_number y m d < day_number y' m' d'.
Proof.
  intros Hv Hv' [Hy|[<- [Hm|[<- Hd]]]]; unfold day_number.
  - pose proof (day_of_year_bound _ _ _ Hv). pose proof (day_of_year_bound _ _ _ Hv').
    pose proof (days_before_year_mono _ _ Hy). lia.
  - destruct Hv, Hv'. pose proof (month_mono (is_leap y) m d m' d'). lia.
  - lia.
Qed.

Lemma civil_of_spec n : let c := civil_of n in
  valid_date c.1.1 c.1.2 c.2 ∧ day_number c.1.1 c.1.2 c.2 = n.
Proof.
  cbv zeta. unfold civil_of. destruct (year_of_spec n) as [Hn Hr].
  destruct (month_of_spec (is_leap (year_of n).1) (year_of n).2 Hr) as (Hm & Hd & Hs).
  cbn. split; [done|]. unfold day_number. lia.
Qed.

(** ** Formatting and parsing *)

(** The ranges of the fields of a time. *)
Lemma fields_of_ranges t : let f := fields_of t in
  valid_date (f_year f) (f_month f) (f_day f) ∧ f_month f < 100 ∧ f_day f < 100 ∧
  0 ≤ f_hour f < 24 ∧ 0 ≤ f_min f < 60 ∧ 0 ≤ f_sec f < 60.
Proof.
  cbv zeta.
  assert (valid_date (f_year (fields_of t)) (f_month (fields_of t)) (f_day (fields_of t))) as Hv
    by exact (proj1 (civil_of_spec (t / ns_per_second / 86400 + epoch_days))).
  assert (days_in (is_leap (f_year (fields_of t))) (f_month (fields_of t)) < 100) as Hdi.
  { unfold days_in. destruct Hv as [Hm _].
    assert (f_month (fields_of t) ∈ upto 13) as Hin by (apply elem_of_upto; lia). clear Hm.
    generalize (is_leap (f_year (fields_of t))) as leap. intros leap. revert Hin.
    generalize (f_month (fields_of t)). apply Forall_forall.
    destruct leap; (apply (bool_decide_unpack _); vm_compute; done). }
  refine (conj Hv (conj _ (conj _ (conj _ (conj _ _))))).
  - destruct Hv. lia.
  - destruct Hv. lia.
  - unfold fields_of. cbn [f_hour]. generalize (t / ns_per_second). intros s.
    Z.to_euclidean_division_equations; lia.
  - unfold fields_of. cbn [f_min]. generalize (t / ns_per_second mod 86400). intros s.
    Z.to_euclidean_division_equations; lia.
  - unfold fields_of. cbn [f_sec]. apply Z.mod_pos_bound. lia.
Qed.

(** The years the four digits of the layout can hold. *)
Definition four_digit_year (t : Z) : Prop := 0 ≤ f_year (fields_of t) ≤ 9999.

Lemma fields_of_valid t : valid_fields (fields_of t) = true.
Proof.
  destruct (fields_of_ranges t) as ([Hm Hd] & _ & _ & Hh & Hmi & Hs). unfold valid_fields.
  repeat (apply andb_true_intro; split); try apply Z.leb_le; try apply Z.ltb_lt; lia.
Qed.

Lemma time_of_fields t : time_of (fields_of t) 0 = t / ns_per_second * ns_per_second.
Proof.
  destruct (civil_of_spec (t / ns_per_second / 86400 + epoch_days)) as [_ Hn].
  unfold time_of, fields_of. cbn [f_year f_month f_day f_hour f_min f_sec]. rewrite Hn.
  set (secs := t / ns_per_second). pose proof (Z.div_mod secs 86400 ltac:(done)).
  pose proof (Z.mod_pos_bound secs 86400 ltac:(done)).
  set (q := secs / 86400) in *. set (s := secs mod 86400) in *. clearbody q s.
  replace ((q + epoch_days - epoch_days) * 86400 + s / 3600 * 3600 + s mod 3600 / 60 * 60 + s mod 60)
    with secs; [lia|].
  assert (s / 3600 * 3600 + s mod 3600 / 60 * 60 + s mod 60 = s); [|lia].
  Z.to_euclidean_division_equations; lia.
Qed.

Lemma take_digits_app n acc s x r :
  take_digits n acc s = Some (x, "") → take_digits n acc (s +:+ r) = Some (x, r).
Proof.
  revert acc s. induction n as [|n IH]; intros acc s; cbn; [by intros [= -> ->]|].
  destruct s as [|c s]; [done|]. change (String c s +:+ r) with (String c (s +:+ r)). cbn.
  destruct (digit_val c); [|done]. apply IH.
Qed.

Lemma digit_val_char d : 0 ≤ d < 10 → digit_val (digit_char d) = Some d.
Proof.
  intros Hd. assert (d ∈ upto 10) as Hin by by apply elem_of_upto.
  clear Hd. revert d Hin. apply Forall_forall. apply (bool_decide_unpack _). vm_compute. done.
Qed.

Lemma take_last_digits w acc x :
  take_digits w acc (last_digits w x) = Some (acc * 10 ^ Z.of_nat w + x mod 10 ^ Z.of_nat w, "").
Proof.
  revert acc. induction w as [|w IH]; intros acc; cbn [take_digits last_digits].
  - change (Z.of_nat 0) with 0. rewrite Z.mod_1_r. do 2 f_equal. lia.
  - rewrite digit_val_char by (apply Z.mod_pos_bound; lia). cbn [mbind option_bind]. rewrite IH.
    rewrite Nat2Z.inj_succ, Z.pow_succ_r by lia.
    rewrite (Z.mul_comm 10), (Z.rem_mul_r x) by lia. do 2 f_equal. ring.
Qed.

Lemma pad_small w x : 0 ≤ x < 10 ^ Z.of_nat w → pad w x = last_digits w x.
Proof.
  intros Hx. unfold pad. rewrite Z.abs_eq, Z.div_small by lia. cbn.
  destruct (Z.ltb_spec x 0); [lia|done].
Qed.

Lemma take_digits_pad w x r :
  0 ≤ x < 10 ^ Z.of_nat w → take_digits w 0 (pad w x +:+ r) = Some (x, r).
Proof.
  intros Hx. rewrite pad_small by done. apply take_digits_app.
  rewrite take_last_digits, Z.mod_small by lia. done.
Qed.

Lemma skip_dash s : skip_char "-" ("-" +:+ s) = Some s.
Proof. done. Qed.

(** [time.Parse] reads back what [Format] wrote, without the fraction. *)
Lemma Parse_Format t :
  four_digit_year t → ParseBackup (FormatBackup t) = Some (t / ns_per_second * ns_per_second).
Proof.
  intros Hy. pose proof (fields_of_valid t) as Hv. pose proof (time_of_fields t) as Ht.
  unfold four_digit_year in Hy. unfold FormatBackup, ParseBackup, parse_fields.
  destruct (fields_of_ranges t) as ([Hm Hd] & Hm2 & Hd2 & Hh & Hmi & Hs).
  set (f := fields_of t) in *.
  rewrite take_digits_pad by lia. cbn [mbind option_bind].
  rewrite take_digits_pad by lia. cbn [mbind option_bind].
  rewrite take_digits_pad by lia. cbn [mbind option_bind].
  rewrite skip_dash. cbn [mbind option_bind].
  rewrite take_digits_pad by lia. cbn [mbind option_bind].
  rewrite take_digits_pad by lia. cbn [mbind option_bind].
  rewrite <- (str_app_nil_r (pad 2 (f_sec f))), take_digits_pad by lia. cbn [mbind option_bind fraction].
  destruct f as [y mo d h mi se] eqn:Hf. cbn [f_year f_month f_day f_hour f_min f_sec] in *.
  rewrite Hv, Ht. done.
Qed.

(** ** Order *)

Definition then_cmp (c d : comparison) : comparison := match c with Eq => d | c => c end.

Lemma compare_app a b x y :
  String.length a = String.length b →
  String.compare (a +:+ x) (b +:+ y) = then_cmp (String.compare a b) (String.compare x y).
Proof.
  revert b. induction a as [|c a IH]; intros [|d b]; cbn; try done.
  intros [= Hl]. change (String c a +:+ x) with (String c (a +:+ x)).
  change (String d b +:+ y) with (String d (b +:+ y)). cbn [String.compare].
  destruct (Ascii.compare c d); [by apply IH|done..].
Qed.

Lemma compare_digit_char d e :
  0 ≤ d < 10 → 0 ≤ e < 10 → Ascii.compare (digit_char d) (digit_char e) = (d ?= e).
Proof.
  intros Hd He. assert (d ∈ upto 10 ∧ e ∈ upto 10) as [Hin Hin'] by (rewrite !elem_of_upto; done).
  assert (Forall (λ d, Forall (λ e, Ascii.compare (digit_char d) (digit_char e) = (d ?= e)) (upto 10)) (upto 10))
    as Hall by (apply (bool_decide_unpack _); vm_compute; done).
  rewrite Forall_forall in Hall. specialize (Hall _ Hin). rewrite Forall_forall in Hall. by apply Hall.
Qed.

Lemma length_last_digits w x : String.length (last_digits w x) = w.
Proof. induction w as [|w IH]; cbn; [done|]. by rewrite IH. Qed.

Lemma compare_scaled p a b x y :
  0 ≤ x < p → 0 ≤ y < p → (x + p * a ?= y + p * b) = then_cmp (a ?= b) (x ?= y).
Proof.
  intros Hx Hy. destruct (Z.compare_spec a b) as [->|Hlt|Hlt]; cbn.
  - destruct (Z.compare_spec x y); [apply Z.compare_eq_iff|apply Z.compare_lt_iff|apply Z.compare_gt_iff]; lia.
  - apply Z.compare_lt_iff. nia.
  - apply Z.compare_gt_iff. nia.
Qed.

Lemma compare_last_digits w x y :
  String.compare (last_digits w x) (last_digits w y) =
  (x mod 10 ^ Z.of_nat w ?= y mod 10 ^ Z.of_nat w).
Proof.
  induction w as [|w IH]; [by rewrite !Z.mod_1_r|].
  rewrite Nat2Z.inj_succ, Z.pow_succ_r, (Z.mul_comm 10) by lia.
  rewrite !(Z.rem_mul_r _ (10 ^ Z.of_nat w) 10) by lia.
  rewrite compare_scaled by (apply Z.mod_pos_bound; lia). rewrite <- IH.
  cbn [last_digits String.compare].
  rewrite compare_digit_char by (apply Z.mod_pos_bound; lia). 
  by destruct (x / 10 ^ Z.of_nat w mod 10 ?= y / 10 ^ Z.of_nat w mod 10).
Qed.

Lemma compare_pad w x y r s :
  0 ≤ x < 10 ^ Z.of_nat w → 0 ≤ y < 10 ^ Z.of_nat w →
  String.compare (pad w x +:+ r) (pad w y +:+ s) = then_cmp (x ?= y) (String.compare r s).
Proof.
  intros Hx Hy. rewrite !pad_small by done. rewrite compare_app by by rewrite !length_last_digits.
  by rewrite compare_last_digits, !Z.mod_small by done.
Qed.

Lemma compare_dates y m d y' m' d' :
  valid_date y m d → valid_date y' m' d' →
  then_cmp (y ?= y') (then_cmp (m ?= m') (d ?= d')) = (day_number y m d ?= day_number y' m' d').
Proof.
  intros Hv Hv'. symmetry.
  destruct (Z.compare_spec y y') as [->|H|H]; cbn;
    [|apply Z.compare_lt_iff, day_number_mono; auto|apply Z.compare_gt_iff, day_number_mono; auto].
  destruct (Z.compare_spec m m') as [->|H|H]; cbn;
    [|apply Z.compare_lt_iff, day_number_mono; auto|apply Z.compare_gt_iff, day_number_mono; auto].
  destruct (Z.compare_spec d d') as [->|H|H]; cbn;
    [apply Z.compare_eq_iff; done|apply Z.compare_lt_iff, day_number_mono; auto
    |apply Z.compare_gt_iff, day_number_mono; auto].
Qed.

Lemma then_cmp_assoc a b c : then_cmp (then_cmp a b) c = then_cmp a (then_cmp b c).
Proof. by destruct a. Qed.

Lemma compare_seconds s s' :
  0 ≤ s < 86400 → 0 ≤ s' < 86400 →
  then_cmp (s / 3600 ?= s' / 3600) (then_cmp (s mod 3600 / 60 ?= s' mod 3600 / 60) (s mod 60 ?= s' mod 60))
  = (s ?= s').
Proof.
  intros Hs Hs'.
  assert (∀ s, s = s mod 60 + 60 * (s mod 3600 / 60 + 60 * (s / 3600))) as Hsplit
    by (intros; Z.to_euclidean_division_equations; lia).
  rewrite (Hsplit s) at 4. rewrite (Hsplit s') at 4.
  rewrite compare_scaled by (apply Z.mod_pos_bound; lia).
  rewrite compare_scaled by (Z.to_euclidean_division_equations; lia).
  by rewrite then_cmp_assoc.
Qed.

(** The order of formatted times is the order of their seconds. *)
Lemma compare_FormatBackup t t' r r' :
  four_digit_year t → four_digit_year t' →
  String.compare (FormatBackup t +:+ r) (FormatBackup t' +:+ r') =
  then_cmp (t / ns_per_second ?= t' / ns_per_second) (String.compare r r').
Proof.
  unfold four_digit_year. intros Hy Hy'.
  destruct (fields_of_ranges t) as ([Hm Hd] & Hm2 & Hd2 & Hh & Hmi & Hs).
  destruct (fields_of_ranges t') as ([Hm' Hd'] & Hm2' & Hd2' & Hh' & Hmi' & Hs').
  unfold FormatBackup. rewrite !str_app_assoc.
  rewrite !compare_pad by lia. rewrite (compare_app "-" "-") by done.
  change (String.compare "-" "-") with Eq. cbn [then_cmp]. rewrite !compare_pad by lia.
  rewrite <- !then_cmp_assoc. f_equal. rewrite !then_cmp_assoc.
  rewrite <- (then_cmp_assoc (f_month _ ?= _)), <- (then_cmp_assoc (f_year _ ?= _)).
  rewrite (compare_dates _ _ _ _ _ _ (conj Hm Hd) (conj Hm' Hd')).
  destruct (civil_of_spec (t / ns_per_second / 86400 + epoch_days)) as [_ Hn].
  destruct (civil_of_spec (t' / ns_per_second / 86400 + epoch_days)) as [_ Hn'].
  unfold fields_of. cbn [f_year f_month f_day f_hour f_min f_sec]. rewrite Hn, Hn'.
  rewrite compare_seconds by (apply Z.mod_pos_bound; lia).
  rewrite !(Z.add_comm _ epoch_days), Z.add_compare_mono_l.
  rewrite (Z.div_mod (t / ns_per_second) 86400) at 3 by lia.
  rewrite (Z.div_mod (t' / ns_per_second) 86400) at 3 by lia.
  rewrite !(Z.add_comm (86400 * _)). by rewrite compare_scaled by (apply Z.mod_pos_bound; lia).
Qed.
