(* ===== verification/Constants.v ===== *)
(** * Constants (pkg/constants)

    The names, keys, ports, users and paths shared by all components, with the
    values of the source. *)

From S2P Require Import Prelude GoLib.
#[local] Open Scope Z_scope.

(** ** backup.go *)

(* pkg/constants/backup.go:5-5 BackupSubcommand *)
Definition BackupSubcommand : string := "backup".
(* pkg/constants/backup.go:6-6 RestoreSubcommand *)
Definition RestoreSubcommand : string := "restore".
(* pkg/constants/backup.go:8-8 BackupTimeFormat *)
Definition BackupTimeFormat : string := "20060102-150405".
(* pkg/constants/backup.go:9-9 DumpFilename *)
Definition DumpFilename : string := "dump.tar".
(* pkg/constants/backup.go:10-10 BinlogFilename *)
Definition BinlogFilename : string := "binlog.tar.zst".
(* pkg/constants/backup.go:14-14 BackendTypeS3 *)
Definition BackendTypeS3 : string := "s3".
(* pkg/constants/backup.go:15-15 BackendTypeGCS *)
Definition BackendTypeGCS : string := "gcs".
(* pkg/constants/backup.go:16-16 BackendTypeAzure *)
Definition BackendTypeAzure : string := "azure".

(** ** constants.go *)

(* pkg/constants/constants.go:5-5 MySQLDataPath *)
Definition MySQLDataPath : string := "/var/lib/mysql".
(* pkg/constants/constants.go:8-8 MySQLConfPath *)
Definition MySQLConfPath : string := "/etc/mysql".
(* pkg/constants/constants.go:11-11 MySQLInitConfPath *)
Definition MySQLInitConfPath : string := "/etc/mysql-conf.d".
(* pkg/constants/constants.go:14-14 MySQLConfName *)
Definition MySQLConfName : string := "my.cnf".
(* pkg/constants/constants.go:17-17 RunPath *)
Definition RunPath : string := "/run".
(* pkg/constants/constants.go:20-20 LogDirPath *)
Definition LogDirPath : string := "/var/log/mysql".
(* pkg/constants/constants.go:23-23 MySQLSlowLogName *)
Definition MySQLSlowLogName : string := "mysql.slow".
(* pkg/constants/constants.go:26-26 TmpPath *)
Definition TmpPath : string := "/tmp".
(* pkg/constants/constants.go:29-29 MyCnfSecretPath *)
Definition MyCnfSecretPath : string := "/mysql-credentials".
(* pkg/constants/constants.go:32-32 SharedPath *)
Definition SharedPath : string := "/shared".
(* pkg/constants/constants.go:37-37 FluentBitConfigName *)
Definition FluentBitConfigName : string := "fluent-bit.conf".
(* pkg/constants/constants.go:40-40 FluentBitConfigPath *)
Definition FluentBitConfigPath : string := "/fluent-bit/etc".
(* pkg/constants/constants.go:45-45 PodNameEnvKey *)
Definition PodNameEnvKey : string := "POD_NAME".
(* pkg/constants/constants.go:46-46 PodNamespaceEnvKey *)
Definition PodNamespaceEnvKey : string := "POD_NAMESPACE".
(* pkg/constants/constants.go:47-47 ClusterNameEnvKey *)
Definition ClusterNameEnvKey : string := "CLUSTER_NAME".
(* pkg/constants/constants.go:52-52 CloneSourceHostKey *)
Definition CloneSourceHostKey : string := "HOST".
(* pkg/constants/constants.go:53-53 CloneSourcePortKey *)
Definition CloneSourcePortKey : string := "PORT".
(* pkg/constants/constants.go:54-54 CloneSourceUserKey *)
Definition CloneSourceUserKey : string := "USER".
(* pkg/constants/constants.go:55-55 CloneSourcePasswordKey *)
Definition CloneSourcePasswordKey : string := "PASSWORD".
(* pkg/constants/constants.go:56-56 CloneSourceInitUserKey *)
Definition CloneSourceInitUserKey : string := "INIT_USER".
(* pkg/constants/constants.go:57-57 CloneSourceInitPasswordKey *)
Definition CloneSourceInitPasswordKey : string := "INIT_PASSWORD".
(* pkg/constants/constants.go:63-63 MocoInitLowerCaseTableNamesFlag *)
Definition MocoInitLowerCaseTableNamesFlag : string := "--lower-case-table-names".
(* pkg/constants/constants.go:65-65 MocoInitDataDirFlag *)
Definition MocoInitDataDirFlag : string := "--data-dir".
(* pkg/constants/constants.go:67-67 MocoInitConfDirFlag *)
Definition MocoInitConfDirFlag : string := "--conf-dir".
(* pkg/constants/constants.go:69-69 MocoInitTimezoneDataFlag *)
Definition MocoInitTimezoneDataFlag : string := "--init-timezones".
(* pkg/constants/constants.go:71-71 MocoMySQLDLocalhostFlag *)
Definition MocoMySQLDLocalhostFlag : string := "--mysqld-localhost".
(* pkg/constants/constants.go:74-74 LowerCaseTableNamesConfKey *)
Definition LowerCaseTableNamesConfKey : string := "lower_case_table_names".

(** ** container.go *)

(* pkg/constants/container.go:5-5 AgentContainerName *)
Definition AgentContainerName : string := "agent".
(* pkg/constants/container.go:6-6 InitContainerName *)
Definition InitContainerName : string := "moco-init".
(* pkg/constants/container.go:7-7 CopyInitContainerName *)
Definition CopyInitContainerName : string := "copy-moco-init".
(* pkg/constants/container.go:8-8 MysqldContainerName *)
Definition MysqldContainerName : string := "mysqld".
(* pkg/constants/container.go:9-9 SlowQueryLogAgentContainerName *)
Definition SlowQueryLogAgentContainerName : string := "slow-log".
(* pkg/constants/container.go:10-10 ExporterContainerName *)
Definition ExporterContainerName : string := "mysqld-exporter".
(* pkg/constants/container.go:15-15 AgentContainerCPURequest *)
Definition AgentContainerCPURequest : string := "100m".
(* pkg/constants/container.go:16-16 AgentContainerCPULimit *)
Definition AgentContainerCPULimit : string := "100m".
(* pkg/constants/container.go:17-17 AgentContainerMemRequest *)
Definition AgentContainerMemRequest : string := "100Mi".
(* pkg/constants/container.go:18-18 AgentContainerMemLimit *)
Definition AgentContainerMemLimit : string := "100Mi".
(* pkg/constants/container.go:20-20 InitContainerCPURequest *)
Definition InitContainerCPURequest : string := "100m".
(* pkg/constants/container.go:21-21 InitContainerCPULimit *)
Definition InitContainerCPULimit : string := "100m".
(* pkg/constants/container.go:22-22 InitContainerMemRequest *)
Definition InitContainerMemRequest : string := "512Mi".
(* pkg/constants/container.go:23-23 InitContainerMemLimit *)
Definition InitContainerMemLimit : string := "512Mi".
(* pkg/constants/container.go:25-25 SlowQueryLogAgentCPURequest *)
Definition SlowQueryLogAgentCPURequest : string := "100m".
(* pkg/constants/container.go:26-26 SlowQueryLogAgentCPULimit *)
Definition SlowQueryLogAgentCPULimit : string := "100m".
(* pkg/constants/container.go:27-27 SlowQueryLogAgentMemRequest *)
Definition SlowQueryLogAgentMemRequest : string := "20Mi".
(* pkg/constants/container.go:28-28 SlowQueryLogAgentMemLimit *)
Definition SlowQueryLogAgentMemLimit : string := "20Mi".
(* pkg/constants/container.go:30-30 ExporterContainerCPURequest *)
Definition ExporterContainerCPURequest : string := "200m".
(* pkg/constants/container.go:31-31 ExporterContainerCPULimit *)
Definition ExporterContainerCPULimit : string := "200m".
(* pkg/constants/container.go:32-32 ExporterContainerMemRequest *)
Definition ExporterContainerMemRequest : string := "100Mi".
(* pkg/constants/container.go:33-33 ExporterContainerMemLimit *)
Definition ExporterContainerMemLimit : string := "100Mi".
(* pkg/constants/container.go:38-38 MySQLDataVolumeName *)
Definition MySQLDataVolumeName : string := "mysql-data".
(* pkg/constants/container.go:39-39 MySQLConfVolumeName *)
Definition MySQLConfVolumeName : string := "mysql-conf".
(* pkg/constants/container.go:40-40 MySQLInitConfVolumeName *)
Definition MySQLInitConfVolumeName : string := "mysql-conf-d".
(* pkg/constants/container.go:41-41 MySQLConfSecretVolumeName *)
Definition MySQLConfSecretVolumeName : string := "my-cnf-secret".
(* pkg/constants/container.go:42-42 GRPCSecretVolumeName *)
Definition GRPCSecretVolumeName : string := "grpc-cert".
(* pkg/constants/container.go:43-43 RunVolumeName *)
Definition RunVolumeName : string := "run".
(* pkg/constants/container.go:44-44 VarLogVolumeName *)
Definition VarLogVolumeName : string := "var-log".
(* pkg/constants/container.go:45-45 TmpVolumeName *)
Definition TmpVolumeName : string := "tmp".
(* pkg/constants/container.go:46-46 SlowQueryLogAgentConfigVolumeName *)
Definition SlowQueryLogAgentConfigVolumeName : string := "slow-fluent-bit-config".
(* pkg/constants/container.go:47-47 SharedVolumeName *)
Definition SharedVolumeName : string := "shared".
(* pkg/constants/container.go:52-52 ContainerUID *)
Definition ContainerUID : Z := 10000.
(* pkg/constants/container.go:53-53 ContainerGID *)
Definition ContainerGID : Z := 10000.
(* pkg/constants/container.go:58-58 InitCommand *)
Definition InitCommand : string := "moco-init".
(* pkg/constants/container.go:62-62 PreStopSeconds *)
Definition PreStopSeconds : string := "20".

(** ** meta.go *)

(* pkg/constants/meta.go:5-5 LabelAppInstance *)
Definition LabelAppInstance : string := "app.kubernetes.io/instance".
(* pkg/constants/meta.go:6-6 LabelAppNamespace *)
Definition LabelAppNamespace : string := "app.kubernetes.io/instance-namespace".
(* pkg/constants/meta.go:7-7 LabelAppName *)
Definition LabelAppName : string := "app.kubernetes.io/name".
(* pkg/constants/meta.go:8-8 AppNameMySQL *)
Definition AppNameMySQL : string := "mysql".
(* pkg/constants/meta.go:9-9 AppNameBackup *)
Definition AppNameBackup : string := "mysql-backup".
(* pkg/constants/meta.go:10-10 LabelAppCreatedBy *)
Definition LabelAppCreatedBy : string := "app.kubernetes.io/created-by".
(* pkg/constants/meta.go:11-11 AppCreator *)
Definition AppCreator : string := "moco".
(* pkg/constants/meta.go:13-13 LabelMocoRole *)
Definition LabelMocoRole : string := "moco.cybozu.com/role".
(* pkg/constants/meta.go:14-14 RolePrimary *)
Definition RolePrimary : string := "primary".
(* pkg/constants/meta.go:15-15 RoleReplica *)
Definition RoleReplica : string := "replica".
(* pkg/constants/meta.go:20-20 AnnDemote *)
Definition AnnDemote : string := "moco.cybozu.com/demote".
(* pkg/constants/meta.go:21-21 AnnSecretVersion *)
Definition AnnSecretVersion : string := "moco.cybozu.com/secret-version".
(* pkg/constants/meta.go:22-22 AnnClusteringStopped *)
Definition AnnClusteringStopped : string := "moco.cybozu.com/clustering-stopped".
(* pkg/constants/meta.go:23-23 AnnReconciliationStopped *)
Definition AnnReconciliationStopped : string := "moco.cybozu.com/reconciliation-stopped".
(* pkg/constants/meta.go:24-24 AnnForceRollingUpdate *)
Definition AnnForceRollingUpdate : string := "moco.cybozu.com/force-rolling-update".
(* pkg/constants/meta.go:25-25 AnnPreventDelete *)
Definition AnnPreventDelete : string := "moco.cybozu.com/prevent-delete".
(* pkg/constants/meta.go:29-29 MySQLClusterFinalizer *)
Definition MySQLClusterFinalizer : string := "moco.cybozu.com/mysqlcluster".

(** ** ports.go *)

(* pkg/constants/ports.go:5-5 MySQLPort *)
Definition MySQLPort : Z := 3306.
(* pkg/constants/ports.go:6-6 MySQLPortName *)
Definition MySQLPortName : string := "mysql".
(* pkg/constants/ports.go:9-9 MySQLXPort *)
Definition MySQLXPort : Z := 33060.
(* pkg/constants/ports.go:10-10 MySQLXPortName *)
Definition MySQLXPortName : string := "mysqlx".
(* pkg/constants/ports.go:13-13 MySQLAdminPort *)
Definition MySQLAdminPort : Z := 33062.
(* pkg/constants/ports.go:14-14 MySQLAdminPortName *)
Definition MySQLAdminPortName : string := "mysql-admin".
(* pkg/constants/ports.go:17-17 MySQLHealthPort *)
Definition MySQLHealthPort : Z := 9081.
(* pkg/constants/ports.go:18-18 MySQLHealthPortName *)
Definition MySQLHealthPortName : string := "health".
(* pkg/constants/ports.go:21-21 AgentPort *)
Definition AgentPort : Z := 9080.
(* pkg/constants/ports.go:22-22 AgentPortName *)
Definition AgentPortName : string := "agent".
(* pkg/constants/ports.go:25-25 AgentMetricsPort *)
Definition AgentMetricsPort : Z := 8080.
(* pkg/constants/ports.go:26-26 AgentMetricsPortName *)
Definition AgentMetricsPortName : string := "agent-metrics".
(* pkg/constants/ports.go:29-29 ExporterPort *)
Definition ExporterPort : Z := 9104.
(* pkg/constants/ports.go:30-30 ExporterPortName *)
Definition ExporterPortName : string := "mysqld-metrics".

(** ** users.go *)

(* pkg/constants/users.go:5-5 AdminUser *)
Definition AdminUser : string := "moco-admin".
(* pkg/constants/users.go:6-6 AgentUser *)
Definition AgentUser : string := "moco-agent".
(* pkg/constants/users.go:7-7 ReplicationUser *)
Definition ReplicationUser : string := "moco-repl".
(* pkg/constants/users.go:8-8 CloneDonorUser *)
Definition CloneDonorUser : string := "moco-clone-donor".
(* pkg/constants/users.go:9-9 ExporterUser *)
Definition ExporterUser : string := "moco-exporter".
(* pkg/constants/users.go:10-10 BackupUser *)
Definition BackupUser : string := "moco-backup".
(* pkg/constants/users.go:11-11 ReadOnlyUser *)
Definition ReadOnlyUser : string := "moco-readonly".
(* pkg/constants/users.go:12-12 WritableUser *)
Definition WritableUser : string := "moco-writable".
(* pkg/constants/users.go:40-40 AdminMyCnf *)
Definition AdminMyCnf : string := AdminUser +:+ "-my.cnf".
(* pkg/constants/users.go:41-41 ExporterMyCnf *)
Definition ExporterMyCnf : string := ExporterUser +:+ "-my.cnf".
(* pkg/constants/users.go:42-42 BackupMyCnf *)
Definition BackupMyCnf : string := BackupUser +:+ "-my.cnf".
(* pkg/constants/users.go:43-43 ReadOnlyMyCnf *)
Definition ReadOnlyMyCnf : string := ReadOnlyUser +:+ "-my.cnf".
(* pkg/constants/users.go:44-44 WritableMyCnf *)
Definition WritableMyCnf : string := WritableUser +:+ "-my.cnf".

(* pkg/constants/users.go:17-24 MocoSystemUsers *)
Definition MocoSystemUsers : gmap string bool :=
  <[AdminUser := true]> (<[AgentUser := true]> (<[ReplicationUser := true]>
  (<[CloneDonorUser := true]> (<[ExporterUser := true]> (<[BackupUser := true]> ∅))))).

(* pkg/constants/users.go:27-36 MocoUsers *)
Definition MocoUsers : list string :=
  [AdminUser; AgentUser; ReplicationUser; CloneDonorUser; ExporterUser; BackupUser;
   ReadOnlyUser; WritableUser].
