(* ===== verification/Api.v ===== *)
(** * The MySQLCluster resource (api/v1beta2/mysqlcluster_types.go)

    The data of the custom resource and the names of the objects that belong to
    a cluster.  Types of k8s.io packages are modelled by the fields the program
    reads or writes, the others as one JSON text; a [resource.Quantity] is its
    amount in thousandths ("100m" is 100). *)

From S2P Require Import Prelude GoLib Constants.
#[local] Open Scope Z_scope.

(** ** Metadata of Kubernetes objects *)

Record OwnerReference := {
  owner_APIVersion : string;
  owner_Kind : string;
  owner_Name : string;
  owner_UID : string;
  owner_Controller : bool
}.

Record Meta := {
  meta_Name : string;
  meta_Namespace : string;
  meta_UID : string;
  meta_Labels : gmap string string;
  meta_Annotations : gmap string string;
  meta_Generation : Z;
  meta_DeletionTimestamp : option Z;
  meta_Finalizers : list string;
  meta_OwnerReferences : list OwnerReference
}.

Inductive ConditionStatus := ConditionTrue | ConditionFalse | ConditionUnknown.

#[export] Instance ConditionStatus_eq_dec : EqDecision ConditionStatus.
Proof. solve_decision. Defined.

(** A status condition ([metav1.Condition]) without its transition time. *)
Record Condition := {
  cond_Type : string;
  cond_Status : ConditionStatus;
  cond_ObservedGeneration : Z;
  cond_Reason : string;
  cond_Message : string
}.

#[export] Instance Condition_eq_dec : EqDecision Condition.
Proof. solve_decision. Defined.

(** The first condition of a type, as [meta.FindStatusCondition] finds it. *)
Definition find_condition (typ : string) (conds : list Condition) : option Condition :=
  head (filter (λ c, cond_Type c = typ) conds).

Lemma find_condition_cons typ c conds :
  find_condition typ (c :: conds) = if cond_Type c =s typ then Some c else find_condition typ conds.
Proof.
  unfold find_condition. rewrite filter_cons. destruct (cond_Type c =s typ) eqn:E; bool_cases;
    by repeat case_decide.
Qed.

(** ** The spec *)

(* api/v1beta2/mysqlcluster_types.go :: ObjectMeta *)
Record ObjectMeta := {
  om_Name : string;
  om_Labels : gmap string string;
  om_Annotations : gmap string string
}.

(** An apply-configuration the program passes on without looking inside, as its
    JSON text (their [DeepCopy] methods are a JSON round trip). *)
Abbreviation json := string (only parsing).

Record ContainerPort := {
  port_ContainerPort : option Z;
  port_Name : option string;
  port_Protocol : option string
}.

(** [corev1.ResourceList]: quantities by resource name. *)
Abbreviation ResourceList := (gmap string Z) (only parsing).
(* api/v1beta2/mysqlcluster_types.go :: ResourceRequirementsApplyConfiguration *)
Record ResourceRequirements := {
  rr_Requests : option ResourceList;
  rr_Limits : option ResourceList
}.

(* api/v1beta2/mysqlcluster_types.go :: SecurityContextApplyConfiguration *)
Record SecurityContext := {
  scx_RunAsUser : option Z;
  scx_RunAsGroup : option Z;
  scx_ReadOnlyRootFilesystem : option bool;
  scx_Rest : json
}.

Record HTTPGetAction := { http_Path : string; http_Port : string; http_Scheme : string }.
Record Probe := {
  probe_HTTPGet : option HTTPGetAction;
  probe_PeriodSeconds : option Z;
  probe_FailureThreshold : option Z;
  probe_Rest : json
}.

Inductive EnvVar :=
| EnvValue (name value : string)
| EnvField (name apiVersion fieldPath : string)
| EnvSecretKey (name key secret : string)
| EnvOther (j : json).

Inductive EnvFromSource :=
| EnvFromSecret (secret : string)
| EnvFromOther (j : json).

Inductive VolumeMount :=
| Mount (name path : string) (readOnly : bool)
| MountOther (j : json).

Inductive Lifecycle :=
| PreStopExec (command : list string)
| LifecycleOther (j : json).

Record Container := {
  container_Name : option string;
  container_Image : option string;
  container_Command : list string;
  container_Args : list string;
  container_Ports : list ContainerPort;
  container_Env : list EnvVar;
  container_EnvFrom : list EnvFromSource;
  container_Resources : option ResourceRequirements;
  container_VolumeMounts : list VolumeMount;
  container_StartupProbe : option Probe;
  container_LivenessProbe : option Probe;
  container_ReadinessProbe : option Probe;
  container_Lifecycle : option Lifecycle;
  container_SecurityContext : option SecurityContext;
  container_Rest : json
}.

Inductive VolumeSource :=
| EmptyDir
| FromConfigMap (name : string) (mode : Z)
| FromSecret (name : string) (mode : Z)
| VolumeOther (j : json).

Record Volume := { volume_Name : option string; volume_Source : VolumeSource }.

Record PodSecurityContext := {
  psc_FSGroup : option Z;
  psc_FSGroupChangePolicy : option string;
  psc_Rest : json
}.

(** [PreferAway labels]: a preference for nodes without Pods of these labels. *)
Inductive Affinity :=
| PreferAway (labels : list (string * list string))
| AffinityOther (j : json).

(* api/v1beta2/mysqlcluster_types.go :: PodSpecApplyConfiguration *)
Record PodSpecApplyConfiguration := {
  podspec_Containers : list Container;
  podspec_InitContainers : list Container;
  podspec_Volumes : list Volume;
  podspec_ServiceAccountName : option string;
  podspec_TerminationGracePeriodSeconds : option Z;
  podspec_SecurityContext : option PodSecurityContext;
  podspec_Affinity : option Affinity;
  podspec_RestartPolicy : option string;
  podspec_Rest : json
}.

(* api/v1beta2/mysqlcluster_types.go :: OverwriteContainer *)
Record OverwriteContainer := {
  ow_Name : string;
  ow_Resources : option ResourceRequirements;
  ow_SecurityContext : option SecurityContext
}.

(* api/v1beta2/mysqlcluster_types.go :: PodTemplateSpec *)
Record PodTemplateSpec := {
  podtmpl_ObjectMeta : ObjectMeta;
  podtmpl_Spec : PodSpecApplyConfiguration;
  podtmpl_OverwriteContainers : list OverwriteContainer
}.

(** [Spec.Resources.Requests] of a claim is a chain of pointers: [None] when
    [Resources] or [Requests] is nil, otherwise the request for storage, the
    zero quantity when the key is absent. *)
(* api/v1beta2/mysqlcluster_types.go :: PersistentVolumeClaim *)
Record PersistentVolumeClaim := {
  pvct_ObjectMeta : ObjectMeta;
  pvct_StorageClassName : option string;
  pvct_Requests : option (option Z);
  pvct_AccessModes : option (list string);
  pvct_VolumeMode : option string;
  pvct_Rest : json
}.

Record ServicePort := {
  sp_Name : option string;
  sp_Protocol : option string;
  sp_Port : option Z;
  sp_TargetPort : option string;
  sp_Rest : json
}.

(* api/v1beta2/mysqlcluster_types.go :: ServiceSpecApplyConfiguration *)
Record ServiceSpec := {
  ssp_Type : option string;
  ssp_ClusterIP : option string;
  ssp_PublishNotReadyAddresses : option bool;
  ssp_Selector : gmap string string;
  ssp_Ports : list ServicePort;
  ssp_Rest : json
}.

(* api/v1beta2/mysqlcluster_types.go :: ServiceTemplate *)
Record ServiceTemplate := {
  svct_ObjectMeta : ObjectMeta;
  svct_Spec : option ServiceSpec
}.

(* api/v1beta2/job_types.go :: BucketConfig *)
Record BucketConfig := {
  BucketName : string;
  Region : string;
  EndpointURL : string;
  UsePathStyle : bool;
  BackendType : string;
  CaCert : string
}.

(* api/v1beta2/job_types.go :: JobConfig *)
Record JobConfig := {
  job_ServiceAccountName : string;
  job_BucketConfig : BucketConfig;
  job_WorkVolume : VolumeSource;
  job_Threads : Z;
  job_CPU : option Z;
  job_MaxCPU : option Z;
  job_Memory : option Z;
  job_MaxMemory : option Z;
  job_EnvFrom : list EnvFromSource;
  job_Env : list EnvVar;
  job_Affinity : option Affinity;
  job_Volumes : list Volume;
  job_VolumeMounts : list VolumeMount
}.

(** Times are Unix seconds; the zero [metav1.Time] is [None]. *)
(* api/v1beta2/mysqlcluster_types.go :: RestoreSpec *)
Record RestoreSpec := {
  restore_SourceName : string;
  restore_SourceNamespace : string;
  restore_RestorePoint : Z;
  restore_JobConfig : JobConfig;
  restore_Schema : string;
  restore_Users : string
}.

(** Equality of the data that is compared. *)
#[export] Instance ObjectMeta_eq_dec : EqDecision ObjectMeta.
Proof. solve_decision. Defined.
#[export] Instance ContainerPort_eq_dec : EqDecision ContainerPort.
Proof. solve_decision. Defined.
#[export] Instance ResourceRequirements_eq_dec : EqDecision ResourceRequirements.
Proof. solve_decision. Defined.
#[export] Instance SecurityContext_eq_dec : EqDecision SecurityContext.
Proof. solve_decision. Defined.
#[export] Instance HTTPGetAction_eq_dec : EqDecision HTTPGetAction.
Proof. solve_decision. Defined.
#[export] Instance Probe_eq_dec : EqDecision Probe.
Proof. solve_decision. Defined.
#[export] Instance EnvVar_eq_dec : EqDecision EnvVar.
Proof. solve_decision. Defined.
#[export] Instance EnvFromSource_eq_dec : EqDecision EnvFromSource.
Proof. solve_decision. Defined.
#[export] Instance VolumeMount_eq_dec : EqDecision VolumeMount.
Proof. solve_decision. Defined.
#[export] Instance Lifecycle_eq_dec : EqDecision Lifecycle.
Proof. solve_decision. Defined.
#[export] Instance Container_eq_dec : EqDecision Container.
Proof. solve_decision. Defined.
#[export] Instance VolumeSource_eq_dec : EqDecision VolumeSource.
Proof. solve_decision. Defined.
#[export] Instance Volume_eq_dec : EqDecision Volume.
Proof. solve_decision. Defined.
#[export] Instance PodSecurityContext_eq_dec : EqDecision PodSecurityContext.
Proof. solve_decision. Defined.
#[export] Instance Affinity_eq_dec : EqDecision Affinity.
Proof. solve_decision. Defined.
#[export] Instance PodSpecApplyConfiguration_eq_dec : EqDecision PodSpecApplyConfiguration.
Proof. solve_decision. Defined.
#[export] Instance ServicePort_eq_dec : EqDecision ServicePort.
Proof. solve_decision. Defined.
#[export] Instance ServiceSpec_eq_dec : EqDecision ServiceSpec.
Proof. solve_decision. Defined.
#[export] Instance BucketConfig_eq_dec : EqDecision BucketConfig.
Proof. solve_decision. Defined.
#[export] Instance JobConfig_eq_dec : EqDecision JobConfig.
Proof. solve_decision. Defined.
#[export] Instance RestoreSpec_eq_dec : EqDecision RestoreSpec.
Proof. solve_decision. Defined.

(* api/v1beta2/mysqlcluster_types.go :: MySQLClusterSpec *)
Record MySQLClusterSpec := {
  Replicas : Z;
  PodTemplate : PodTemplateSpec;
  VolumeClaimTemplates : list PersistentVolumeClaim;
  PrimaryServiceTemplate : option ServiceTemplate;
  ReplicaServiceTemplate : option ServiceTemplate;
  MySQLConfigMapName : option string;
  ReplicationSourceSecretName : option string;
  Collectors : list string;
  ServerIDBase : Z;
  MaxDelaySeconds : option Z;
  MaxDelaySecondsForPodDeletion : Z;
  StartupWaitSeconds : Z;
  LogRotationSchedule : string;
  LogRotationSize : Z;
  BackupPolicyName : option string;
  Restore : option RestoreSpec;
  DisableSlowQueryLogContainer : bool;
  SlowQueryLogConfigTmpl : option string;
  AgentUseLocalhost : bool;
  InitializeTimezoneData : bool;
  Offline : bool
}.

(** ** The status *)

(* api/v1beta2/mysqlcluster_types.go:694-702 ConditionInitialized *)
Definition ConditionInitialized : string := "Initialized".
Definition ConditionAvailable : string := "Available".
Definition ConditionHealthy : string := "Healthy".
Definition ConditionStatefulSetReady : string := "StatefulSetReady".
Definition ConditionReconcileSuccess : string := "ReconcileSuccess".
Definition ConditionReconciliationActive : string := "ReconciliationActive".
Definition ConditionClusteringActive : string := "ClusteringActive".

(* api/v1beta2/mysqlcluster_types.go :: BackupStatus *)
Record BackupStatus := {
  bk_Time : option Z;
  bk_Elapsed : Z;
  bk_SourceIndex : Z;
  bk_SourceUUID : string;
  bk_UUIDSet : gmap string string;
  bk_BinlogFilename : string;
  bk_GTIDSet : string;
  bk_DumpSize : Z;
  bk_BinlogSize : Z;
  bk_WorkDirUsage : Z;
  bk_Warnings : list string
}.

#[export] Instance BackupStatus_eq_dec : EqDecision BackupStatus.
Proof. solve_decision. Defined.

(* api/v1beta2/mysqlcluster_types.go :: ReconcileInfo *)
Record ReconcileInfo := {
  ri_Generation : Z;
  ri_ReconcileVersion : Z
}.

#[export] Instance ReconcileInfo_eq_dec : EqDecision ReconcileInfo.
Proof. solve_decision. Defined.

(* api/v1beta2/mysqlcluster_types.go :: MySQLClusterStatus *)
Record MySQLClusterStatus := {
  Conditions : list Condition;
  CurrentPrimaryIndex : Z;
  SyncedReplicas : Z;
  ErrantReplicas : Z;
  ErrantReplicaList : list Z;
  Backup : BackupStatus;
  RestoredTime : option Z;
  Cloned : bool;
  ReconcileInfo_ : ReconcileInfo
}.

#[export] Instance MySQLClusterStatus_eq_dec : EqDecision MySQLClusterStatus.
Proof. solve_decision. Defined.

(* api/v1beta2/mysqlcluster_types.go :: MySQLCluster *)
Record MySQLCluster := {
  cluster_Meta : Meta;
  Spec : MySQLClusterSpec;
  Status : MySQLClusterStatus
}.

Definition Name (r : MySQLCluster) : string := meta_Name (cluster_Meta r).
Definition Namespace (r : MySQLCluster) : string := meta_Namespace (cluster_Meta r).

(** Status fields written by the controllers. *)
Definition set_CurrentPrimaryIndex (i : Z) (c : MySQLCluster) : MySQLCluster :=
  {| cluster_Meta := cluster_Meta c; Spec := Spec c;
     Status := {| Conditions := Conditions (Status c); CurrentPrimaryIndex := i;
                  SyncedReplicas := SyncedReplicas (Status c);
                  ErrantReplicas := ErrantReplicas (Status c);
                  ErrantReplicaList := ErrantReplicaList (Status c);
                  Backup := Backup (Status c); RestoredTime := RestoredTime (Status c);
                  Cloned := Cloned (Status c); ReconcileInfo_ := ReconcileInfo_ (Status c) |} |}.

Definition set_Status (st : MySQLClusterStatus) (c : MySQLCluster) : MySQLCluster :=
  {| cluster_Meta := cluster_Meta c; Spec := Spec c; Status := st |}.

(** ** Names of the objects of a cluster *)

(* api/v1beta2/mysqlcluster_types.go :: PrefixedName *)
Definition PrefixedName (r : MySQLCluster) : string := "moco-" +:+ Name r.

(* api/v1beta2/mysqlcluster_types.go :: PodName *)
Definition PodName (r : MySQLCluster) (index : Z) : string :=
  PrefixedName r +:+ "-" +:+ Itoa index.

(* api/v1beta2/mysqlcluster_types.go :: UserSecretName *)
Definition UserSecretName (r : MySQLCluster) : string := "moco-" +:+ Name r.

(* api/v1beta2/mysqlcluster_types.go :: MyCnfSecretName *)
Definition MyCnfSecretName (r : MySQLCluster) : string := "moco-my-cnf-" +:+ Name r.

(* api/v1beta2/mysqlcluster_types.go :: ControllerSecretName *)
Definition ControllerSecretName (r : MySQLCluster) : string :=
  "mysql-" +:+ Namespace r +:+ "." +:+ Name r.

(* api/v1beta2/mysqlcluster_types.go :: HeadlessServiceName *)
Definition HeadlessServiceName (r : MySQLCluster) : string := PrefixedName r.

(* api/v1beta2/mysqlcluster_types.go :: PrimaryServiceName *)
Definition PrimaryServiceName (r : MySQLCluster) : string := PrefixedName r +:+ "-primary".

(* api/v1beta2/mysqlcluster_types.go :: ReplicaServiceName *)
Definition ReplicaServiceName (r : MySQLCluster) : string := PrefixedName r +:+ "-replica".

(* api/v1beta2/mysqlcluster_types.go :: PodHostname *)
Definition PodHostname (r : MySQLCluster) (index : Z) : string :=
  PodName r index +:+ "." +:+ HeadlessServiceName r +:+ "." +:+ Namespace r +:+ ".svc".

(* api/v1beta2/mysqlcluster_types.go :: SlowQueryLogAgentConfigMapName *)
Definition SlowQueryLogAgentConfigMapName (r : MySQLCluster) : string :=
  "moco-slow-log-agent-config-" +:+ Name r.

(* api/v1beta2/mysqlcluster_types.go :: CertificateName *)
Definition CertificateName (r : MySQLCluster) : string :=
  "moco-agent-" +:+ Namespace r +:+ "." +:+ Name r.

(* api/v1beta2/mysqlcluster_types.go :: GRPCSecretName *)
Definition GRPCSecretName (r : MySQLCluster) : string := PrefixedName r +:+ "-grpc".

(* api/v1beta2/mysqlcluster_types.go :: BackupCronJobName *)
Definition BackupCronJobName (r : MySQLCluster) : string := "moco-backup-" +:+ Name r.

(* api/v1beta2/mysqlcluster_types.go :: BackupRoleName *)
Definition BackupRoleName (r : MySQLCluster) : string := "moco-backup-" +:+ Name r.

(* api/v1beta2/mysqlcluster_types.go :: RestoreJobName *)
Definition RestoreJobName (r : MySQLCluster) : string := "moco-restore-" +:+ Name r.

(* api/v1beta2/mysqlcluster_types.go :: RestoreRoleName *)
Definition RestoreRoleName (r : MySQLCluster) : string := "moco-restore-" +:+ Name r.

(* api/v1beta2/mysqlcluster_types.go :: StorageSize *)
Definition StorageSize (pvc : PersistentVolumeClaim) : Z :=
  match pvct_Requests pvc with
  | Some (Some q) => q
  | _ => 0
  end.

(** ** Pods and Secrets, as the program reads them *)

Record Pod := {
  pod_Name : string;
  pod_Namespace : string;
  pod_Labels : gmap string string;
  pod_Annotations : gmap string string;
  pod_DeletionTimestamp : option Z;
  pod_OwnerReferences : list OwnerReference;
  pod_PodIP : string;
  pod_Conditions : list (string * ConditionStatus);
  pod_ContainerReady : list bool;
  pod_InitContainerReady : list bool
}.

Definition PodReady : string := "Ready".

Definition set_pod_Labels (l : gmap string string) (p : Pod) : Pod :=
  {| pod_Name := pod_Name p; pod_Namespace := pod_Namespace p; pod_Labels := l;
     pod_Annotations := pod_Annotations p; pod_DeletionTimestamp := pod_DeletionTimestamp p;
     pod_OwnerReferences := pod_OwnerReferences p; pod_PodIP := pod_PodIP p;
     pod_Conditions := pod_Conditions p; pod_ContainerReady := pod_ContainerReady p;
     pod_InitContainerReady := pod_InitContainerReady p |}.

Definition set_pod_Annotations (a : gmap string string) (p : Pod) : Pod :=
  {| pod_Name := pod_Name p; pod_Namespace := pod_Namespace p; pod_Labels := pod_Labels p;
     pod_Annotations := a; pod_DeletionTimestamp := pod_DeletionTimestamp p;
     pod_OwnerReferences := pod_OwnerReferences p; pod_PodIP := pod_PodIP p;
     pod_Conditions := pod_Conditions p; pod_ContainerReady := pod_ContainerReady p;
     pod_InitContainerReady := pod_InitContainerReady p |}.

Record Secret := {
  secret_Name : string;
  secret_Namespace : string;
  secret_Labels : gmap string string;
  secret_Annotations : gmap string string;
  secret_Data : gmap string string
}.
