(* ===== verification/K8s.v ===== *)
(** * Helpers of the Kubernetes libraries

    Functions of apimachinery and controller-runtime that several components
    call: each is a field of a class with the laws its documentation gives, and
    an executable instance. *)

From S2P Require Import Prelude GoLib Constants Api.
#[local] Open Scope Z_scope.

(** ** apimachinery *)

Class ApiMachinery := {
  (** [SetStatusCondition] updates the condition of that type, or adds it. *)
  SetStatusCondition : list Condition → Condition → list Condition;
  SetStatusCondition_same conds c :
    find_condition (cond_Type c) (SetStatusCondition conds c) = Some c;
  SetStatusCondition_other conds c typ :
    typ ≠ cond_Type c → find_condition typ (SetStatusCondition conds c) = find_condition typ conds;
  (** [DeepEqual] holds only of equal statuses. *)
  Semantic_DeepEqual : MySQLClusterStatus → MySQLClusterStatus → bool;
  Semantic_DeepEqual_eq a b : Semantic_DeepEqual a b = true ↔ a = b;
  (** "true when the conditionType is present and set to ConditionFalse". *)
  IsStatusConditionFalse : list Condition → string → bool;
  IsStatusConditionFalse_spec conds typ :
    IsStatusConditionFalse conds typ = true ↔
    ∃ c, find_condition typ conds = Some c ∧ cond_Status c = ConditionFalse
}.

(** A concrete instance: replace in place, or append. *)
Fixpoint set_condition (conds : list Condition) (c : Condition) : list Condition :=
  match conds with
  | [] => [c]
  | d :: rest => if cond_Type d =s cond_Type c then c :: rest else d :: set_condition rest c
  end.

#[refine] Definition apimachinery_inplace : ApiMachinery :=
  {| SetStatusCondition := set_condition; Semantic_DeepEqual a b := bool_decide (a = b);
     IsStatusConditionFalse conds typ :=
       match find_condition typ conds with
       | Some c => bool_decide (cond_Status c = ConditionFalse)
       | None => false
       end |}.
Proof.
  - intros conds c. induction conds as [|d conds IH]; simpl.
    + rewrite find_condition_cons. by rewrite String.eqb_refl.
    + destruct (cond_Type d =s cond_Type c) eqn:E; rewrite find_condition_cons;
        [by rewrite String.eqb_refl|by rewrite E].
  - intros conds c typ Hne. induction conds as [|d conds IH]; simpl.
    + rewrite find_condition_cons. by apply not_eq_sym, String.eqb_neq in Hne as ->.
    + destruct (cond_Type d =s cond_Type c) eqn:E; rewrite !find_condition_cons; [|by rewrite IH].
      bool_cases. rewrite E. by apply not_eq_sym, String.eqb_neq in Hne as ->.
  - intros a b. apply bool_decide_eq_true.
  - intros conds typ. destruct (find_condition typ conds) as [c|]; [|naive_solver].
    rewrite bool_decide_eq_true. naive_solver.
Defined.

(** ** Finalizers

    The finalizer helpers of controllerutil: "AddFinalizer adds the provided
    finalizer if not present", "RemoveFinalizer removes the provided finalizer
    if present", "ContainsFinalizer checks that the provided finalizer is
    present". *)
Class Finalizers := {
  AddFinalizer : string → list string → list string;
  RemoveFinalizer : string → list string → list string;
  ContainsFinalizer : string → list string → bool;
  AddFinalizer_spec f g l : g ∈ AddFinalizer f l ↔ g = f ∨ g ∈ l;
  RemoveFinalizer_spec f g l : g ∈ RemoveFinalizer f l ↔ g ≠ f ∧ g ∈ l;
  ContainsFinalizer_spec f l : ContainsFinalizer f l = true ↔ f ∈ l
}.

#[refine] Definition finalizers_list : Finalizers := {|
  AddFinalizer f l := if bool_decide (f ∈ l) then l else l ++ [f];
  RemoveFinalizer f l := filter (λ g, g ≠ f) l;
  ContainsFinalizer f l := bool_decide (f ∈ l)
|}.
Proof.
  - intros f g l. case_bool_decide; [|rewrite elem_of_app, list_elem_of_singleton]; naive_solver.
  - intros f g l. by rewrite list_elem_of_filter.
  - intros f l. apply bool_decide_eq_true.
Defined.

Definition set_Finalizers (l : list string) (m : Meta) : Meta :=
  {| meta_Name := meta_Name m; meta_Namespace := meta_Namespace m; meta_UID := meta_UID m;
     meta_Labels := meta_Labels m; meta_Annotations := meta_Annotations m;
     meta_Generation := meta_Generation m; meta_DeletionTimestamp := meta_DeletionTimestamp m;
     meta_Finalizers := l; meta_OwnerReferences := meta_OwnerReferences m |}.

(** ** Storage classes *)

Record StorageClass := {
  sc_Name : string;
  sc_Annotations : gmap string string;
  sc_AllowVolumeExpansion : option bool
}.
