(* ===== verification/Password.v ===== *)
(** * Passwords of the MOCO users (pkg/password)

    Generation from random bytes, the Secret that stores them and the reading
    of that Secret, and the my.cnf fragments for command-line tools. *)

From S2P Require Import Prelude Prog GoLib Constants Api.
#[local] Open Scope Z_scope.

(* pkg/password/password.go:16-16 passwordVersion *)
Definition passwordVersion : string := "1".
(* pkg/password/password.go:19-19 passwordBytes *)
Definition passwordBytes : Z := 16.
(* pkg/password/password.go:21-21 AdminPasswordKey *)
Definition AdminPasswordKey : string := "ADMIN_PASSWORD".
(* pkg/password/password.go:22-22 agentPasswordKey *)
Definition agentPasswordKey : string := "AGENT_PASSWORD".
(* pkg/password/password.go:23-23 replicationPasswordKey *)
Definition replicationPasswordKey : string := "REPLICATION_PASSWORD".
(* pkg/password/password.go:24-24 cloneDonorPasswordKey *)
Definition cloneDonorPasswordKey : string := "CLONE_DONOR_PASSWORD".
(* pkg/password/password.go:25-25 exporterPasswordKey *)
Definition exporterPasswordKey : string := "EXPORTER_PASSWORD".
(* pkg/password/password.go:26-26 BackupPasswordKey *)
Definition BackupPasswordKey : string := "BACKUP_PASSWORD".
(* pkg/password/password.go:27-27 readOnlyPasswordKey *)
Definition readOnlyPasswordKey : string := "READONLY_PASSWORD".
(* pkg/password/password.go:28-28 writablePasswordKey *)
Definition writablePasswordKey : string := "WRITABLE_PASSWORD".

(* pkg/password/password.go :: MySQLPassword *)
Record MySQLPassword := {
  admin : string;
  agent : string;
  replicator : string;
  donor : string;
  exporter : string;
  backup : string;
  readOnly : string;
  writable : string
}.

#[export] Instance MySQLPassword_eq_dec : EqDecision MySQLPassword.
Proof. solve_decision. Defined.

(** [crypto/rand.Read] into a buffer of [n] bytes. *)
Inductive randcall := RandRead (n : Z).
Definition randSig : signature :=
  {| call := randcall; resp := λ _, extres (list Z) |}.

(* pkg/password/password.go :: generateRandomPassword *)
Definition generateRandomPassword : prog randSig (extres string) :=
  password <-! @perform randSig (RandRead passwordBytes) ;;
  Ret (inr (hex_EncodeToString password)).

(* pkg/password/password.go :: NewMySQLPassword *)
Definition NewMySQLPassword : prog randSig (extres MySQLPassword) :=
  admin <-! generateRandomPassword ;;
  agent <-! generateRandomPassword ;;
  replicator <-! generateRandomPassword ;;
  donor <-! generateRandomPassword ;;
  exporter <-! generateRandomPassword ;;
  backup <-! generateRandomPassword ;;
  readOnly <-! generateRandomPassword ;;
  writable <-! generateRandomPassword ;;
  Ret (inr {| admin := admin; agent := agent; replicator := replicator; donor := donor;
              exporter := exporter; backup := backup; readOnly := readOnly;
              writable := writable |}).

(* pkg/password/password.go :: NewMySQLPasswordFromSecret *)
Definition NewMySQLPasswordFromSecret (secret : Secret) : extres MySQLPassword :=
  if map_str (secret_Annotations secret) AnnSecretVersion <>s passwordVersion then
    inl (ErrNew ("secret " +:+ secret_Namespace secret +:+ "/" +:+ secret_Name secret
                 +:+ " does not have valid annotation"))
  else
    let d := map_str (secret_Data secret) in
    inr {| admin := d AdminPasswordKey; agent := d agentPasswordKey;
           replicator := d replicationPasswordKey; donor := d cloneDonorPasswordKey;
           exporter := d exporterPasswordKey; backup := d BackupPasswordKey;
           readOnly := d readOnlyPasswordKey; writable := d writablePasswordKey |}.

(* pkg/password/password.go :: ToSecret *)
Definition ToSecret (p : MySQLPassword) : Secret :=
  {| secret_Name := ""; secret_Namespace := ""; secret_Labels := ∅;
     secret_Annotations := {[ AnnSecretVersion := passwordVersion ]};
     secret_Data :=
       <[AdminPasswordKey := admin p]> (<[agentPasswordKey := agent p]>
       (<[replicationPasswordKey := replicator p]> (<[cloneDonorPasswordKey := donor p]>
       (<[exporterPasswordKey := exporter p]> (<[BackupPasswordKey := backup p]>
       (<[readOnlyPasswordKey := readOnly p]> (<[writablePasswordKey := writable p]> ∅))))))) |}.

(** The template of my.cnf and its execution; [None] for strings whose quoting
    is not modelled (see [quote]). *)
(* pkg/password/password.go:138-161 formatMyCnf *)
Definition formatMyCnf (user pwd socket : string) : option string :=
  u ← quote user; p ← quote pwd; s ← quote socket;
  Some ("[client]" +:+ newline +:+
        "user=" +:+ u +:+ newline +:+
        "password=" +:+ p +:+ newline +:+
        (if socket =s "" then "" else "socket=" +:+ s +:+ newline)).

(* pkg/password/password.go :: ToMyCnfSecret *)
Definition ToMyCnfSecret (p : MySQLPassword) : option Secret :=
  a ← formatMyCnf AdminUser (admin p) "";
  e ← formatMyCnf ExporterUser (exporter p) (path_Join [RunPath; "mysqld.sock"]);
  b ← formatMyCnf BackupUser (backup p) "";
  r ← formatMyCnf ReadOnlyUser (readOnly p) "";
  w ← formatMyCnf WritableUser (writable p) "";
  Some {| secret_Name := ""; secret_Namespace := ""; secret_Labels := ∅;
          secret_Annotations := {[ AnnSecretVersion := passwordVersion ]};
          secret_Data :=
            <[AdminMyCnf := a]> (<[ExporterMyCnf := e]> (<[BackupMyCnf := b]>
            (<[ReadOnlyMyCnf := r]> (<[WritableMyCnf := w]> ∅)))) |}.

(* pkg/password/password.go :: Admin *)
Definition Admin (p : MySQLPassword) : string := admin p.
(* pkg/password/password.go :: Agent *)
Definition Agent (p : MySQLPassword) : string := agent p.
(* pkg/password/password.go :: Replicator *)
Definition Replicator (p : MySQLPassword) : string := replicator p.
(* pkg/password/password.go :: Donor *)
Definition Donor (p : MySQLPassword) : string := donor p.
(* pkg/password/password.go :: Exporter *)
Definition Exporter (p : MySQLPassword) : string := exporter p.
(* pkg/password/password.go :: Backup *)
Definition BackupPassword (p : MySQLPassword) : string := backup p.
(* pkg/password/password.go :: ReadOnly *)
Definition ReadOnlyPassword (p : MySQLPassword) : string := readOnly p.
(* pkg/password/password.go :: Writable *)
Definition Writable (p : MySQLPassword) : string := writable p.

(** ** Properties *)

Lemma length_hex (bs : list Z) :
  String.length (hex_EncodeToString bs) = (2 * length bs)%nat.
Proof. induction bs as [|b bs IH]; simpl; [done|]. rewrite IH. lia. Qed.

Definition hex_char (c : ascii) : bool :=
  let n := Z.of_N (Ascii.N_of_ascii c) in
  ((48 <=? n) && (n <=? 57)) || ((97 <=? n) && (n <=? 102)).

Lemma hex_digit_char n : hex_char (hex_digit n) = true.
Proof.
  destruct n as [|p|p]; [done| |done].
  do 4 (destruct p as [p|p|]; try done).
Qed.

Lemma hex_chars bs : str_forall hex_char (hex_EncodeToString bs) = true.
Proof. induction bs as [|b bs IH]; simpl; [done|]. by rewrite !hex_digit_char, IH. Qed.

(** A generated password: 32 hexadecimal digits. *)
Definition generated (s : string) : Prop :=
  String.length s = 32%nat ∧ str_forall hex_char s = true.

Definition all_generated (p : MySQLPassword) : Prop :=
  generated (admin p) ∧ generated (agent p) ∧ generated (replicator p) ∧ generated (donor p) ∧
  generated (exporter p) ∧ generated (backup p) ∧ generated (readOnly p) ∧ generated (writable p).

(** Hexadecimal text needs no escape. *)
Lemma quote_char_hex c : hex_char c = true → quote_char c = Some (String c "").
Proof.
  unfold hex_char, quote_char. intros H.
  set (n := Z.of_N (Ascii.N_of_ascii c)) in *.
  repeat match goal with
  | |- context [?a =? ?b] => destruct (Z.eqb_spec a b); [lia|]
  end.
  destruct (Z.ltb_spec n 32); [lia|]. simpl.
  destruct (Z.ltb_spec n 127); [done|lia].
Qed.

Lemma quote_hex s : str_forall hex_char s = true → quote s = Some (dquote +:+ s +:+ dquote).
Proof.
  intros H. unfold quote. assert (quote_body s = Some s) as ->; [|done].
  induction s as [|c s IH]; simpl in *; [done|]. bool_cases.
  rewrite quote_char_hex, IH by done. done.
Qed.

(** The random source fills the whole buffer ([crypto/rand.Read] never returns
    fewer bytes without an error). *)
Definition fills_buffer (t : trace randSig) : Prop :=
  ∀ n bs, ev (S := randSig) (RandRead n) (inr bs) ∈ t → Z.of_nat (length bs) = n.

Lemma fills_buffer_prefix h t : fills_buffer (h ++ t) → fills_buffer h.
Proof. unfold fills_buffer. intros H n bs Hin. apply H. set_solver. Qed.

Lemma wp_generateRandomPassword (h : trace randSig) :
  wp (λ _ _, True) generateRandomPassword h
     (λ h' r, (∃ t, h' = h ++ t) ∧
              match r with
              | inr s => fills_buffer h' → generated s
              | inl e => ev (S := randSig) (RandRead 16) (inl e) ∈ h'
              end).
Proof.
  unfold generateRandomPassword. wp_norm. split; [done|].
  intros [e|bs]; simpl.
  - split; [by eexists|]. set_solver.
  - split; [by eexists|]. intros Hlen. split; [|apply hex_chars].
    rewrite length_hex. specialize (Hlen 16 bs).
    assert (Z.of_nat (length bs) = 16) by (apply Hlen; set_solver). lia.
Qed.

Ltac gen_password :=
  rewrite wp_bind_ext; eapply wp_conseq; [apply wp_generateRandomPassword|];
  intros ? [?|?] [[? ->] ?]; [done|].

Lemma wp_NewMySQLPassword :
  wp (λ _ _, True) NewMySQLPassword []
     (λ h' r, ∀ p, r = inr p → fills_buffer h' → all_generated p).
Proof.
  unfold NewMySQLPassword. do 8 gen_password. simpl. intros p [= <-] Hfill.
  unfold all_generated; simpl.
  split_and!; repeat match goal with
  | H : _ → generated ?s |- generated ?s => apply H; clear H
  end; clear -Hfill; repeat (done || apply fills_buffer_prefix in Hfill).
Qed.

(** Reading back the Secret that stores the passwords gives the same
    passwords: no field is lost or exchanged. *)
Theorem password_secret_roundtrip (p : MySQLPassword) :
  NewMySQLPasswordFromSecret (ToSecret p) = inr p.
Proof. by destruct p. Qed.
