(* ===== verification/Dbop.v ===== *)
(** * Operations on a MySQL instance (pkg/dbop)

    The observed state of an instance (types.go), the [Operator] interface with
    its two implementations, the SQL one and [NopOperator], and the choice of
    the most advanced instance, [FindTopRunner]. *)

From S2P Require Import Prelude Prog GoLib Constants Api.
#[local] Open Scope Z_scope.

(** ** types.go *)

(* pkg/dbop/types.go :: AccessInfo *)
Record AccessInfo := {
  ai_Host : string;
  ai_Port : Z;
  ai_User : string;
  ai_Password : string
}.

(* pkg/dbop/types.go :: GlobalVariables *)
Record GlobalVariables := {
  UUID : string;
  ExecutedGTID : string;
  PurgedGTID : string;
  ReadOnly : bool;
  SuperReadOnly : bool;
  WaitForSlaveCount : Z;
  SemiSyncMasterEnabled : bool;
  SemiSyncSlaveEnabled : bool
}.

(* pkg/dbop/types.go :: GlobalStatus *)
Record GlobalStatus := { SemiSyncMasterWaitSessions : Z }.

(* pkg/dbop/types.go :: ReplicaHost *)
Record ReplicaHost := {
  rh_ServerID : Z;
  rh_Host : string;
  rh_Port : Z;
  rh_SourceID : Z;
  rh_ReplicaUUID : string;
  rh_User : string;
  rh_Password : string
}.

(** The fields of [SHOW REPLICA STATUS] that MOCO uses: the first group of the
    source's struct and [SecondsBehindSource]. *)
(* pkg/dbop/types.go:65-74 ReplicaStatus *)
Record ReplicaStatus := {
  LastIoErrno : Z;
  LastIoError : string;
  LastSQLErrno : Z;
  LastSQLError : string;
  SourceHost : string;
  RetrievedGtidSet : string;
  ExecutedGtidSet : string;
  ReplicaIORunning : string;
  ReplicaSQLRunning : string;
  SecondsBehindSource : option Z
}.

(** [sql.NullString]: [None] when not valid (then [String] is empty). *)
(* pkg/dbop/types.go :: CloneStatus *)
Record CloneStatus := { cs_State : option string }.

(* pkg/dbop/types.go :: Process *)
Record Process := {
  proc_ID : Z;
  proc_User : string;
  proc_Host : string
}.

(* pkg/dbop/types.go :: MySQLInstanceStatus *)
Record MySQLInstanceStatus := {
  IsErrant : bool;
  GlobalVariables_ : GlobalVariables;
  GlobalStatus_ : GlobalStatus;
  ReplicaHosts : list ReplicaHost;
  ReplicaStatus_ : option ReplicaStatus;
  CloneStatus_ : option CloneStatus
}.

Definition set_IsErrant (b : bool) (st : MySQLInstanceStatus) : MySQLInstanceStatus :=
  {| IsErrant := b; GlobalVariables_ := GlobalVariables_ st; GlobalStatus_ := GlobalStatus_ st;
     ReplicaHosts := ReplicaHosts st; ReplicaStatus_ := ReplicaStatus_ st;
     CloneStatus_ := CloneStatus_ st |}.

(** [nst.State.String] of a [sql.NullString]. *)
Definition null_string (s : option string) : string := default "" s.

(* pkg/dbop/types.go:24-33 statusGlobalVars *)
Definition statusGlobalVars : list string :=
  ["@@server_uuid"; "@@gtid_executed"; "@@gtid_purged"; "@@read_only"; "@@super_read_only";
   "@@rpl_semi_sync_master_wait_for_slave_count"; "@@rpl_semi_sync_master_enabled";
   "@@rpl_semi_sync_slave_enabled"].

(* pkg/dbop/types.go :: IsRunning *)
Definition IsRunning (rs : option ReplicaStatus) : bool :=
  match rs with
  | None => false
  | Some rs => (ReplicaIORunning rs =s "Yes") && (ReplicaSQLRunning rs =s "Yes")
  end.

(** ** The Operator interface (operator.go) *)

(* pkg/dbop/operator.go :: Operator *)
Inductive opcall :=
| GetStatus
| SubtractGTID (set1 set2 : string)
| IsSubsetGTID (set1 set2 : string)
| ConfigureReplica (source : AccessInfo) (semisync : bool)
| ConfigurePrimary (waitForCount : Z)
| StopReplicaIOThread
| WaitForGTID (gtidSet : string) (timeoutSeconds : Z)
| SetReadOnly (readOnly : bool)
| KillConnections
| OpClose.

Definition opresp (m : opcall) : Type :=
  match m with
  | GetStatus => extres MySQLInstanceStatus
  | SubtractGTID _ _ => extres string
  | IsSubsetGTID _ _ => extres bool
  | _ => extres unit
  end.

(** A type [O] whose values answer the methods of [Operator] by programs over
    the signature [S]. *)
Class Operator (S : signature) (O : Type) := invoke : O → ∀ m : opcall, prog S (opresp m).

(** *** nop.go *)

(* pkg/dbop/nop.go :: NopOperator *)
Record NopOperator := { nop_name : string }.

(* pkg/dbop/nop.go:19-60 NopOperator *)
Definition nop_response (m : opcall) : opresp m :=
  match m return opresp m with
  | GetStatus => inl ErrNop
  | SubtractGTID _ _ => inl ErrNop
  | IsSubsetGTID _ _ => inl ErrNop
  | OpClose => inr ()
  | _ => inl ErrNop
  end.

#[export] Instance NopOperator_Operator S : Operator S NopOperator :=
  λ o m, Ret (nop_response m).

(** *** The SQL implementation (status.go, gtid.go, replication.go, kill.go) *)

Inductive sqlarg := ArgStr (s : string) | ArgInt (z : Z) | ArgBool (b : bool).

Inductive sqlcall :=
| SqlExec (query : string) (args : list sqlarg)
| SqlNamedExec (query : string) (arg : AccessInfo)
| SqlGetString (query : string) (args : list sqlarg)
| SqlGetBool (query : string) (args : list sqlarg)
| SqlGetNullString (query : string)
| SqlGetGlobalVariables (query : string)
| SqlSelectReplicaHosts (query : string)
| SqlGetReplicaStatus (query : string)
| SqlGetCloneStatus (query : string)
| SqlSelectProcesses (query : string)
| SqlClose.

Definition sqlresp (c : sqlcall) : Type :=
  match c with
  | SqlGetString _ _ => extres string
  | SqlGetBool _ _ => extres bool
  | SqlGetNullString _ => extres (option string)
  | SqlGetGlobalVariables _ => extres GlobalVariables
  | SqlSelectReplicaHosts _ => extres (list ReplicaHost)
  | SqlGetReplicaStatus _ => extres ReplicaStatus
  | SqlGetCloneStatus _ => extres CloneStatus
  | SqlSelectProcesses _ => extres (list Process)
  | _ => extres unit
  end.

Definition sqlSig : signature := {| call := sqlcall; resp := sqlresp |}.
Definition sql (c : sqlcall) : prog sqlSig (sqlresp c) := @perform sqlSig c.

(** The instance an operator works for; [op_open] is [o.db != nil]. *)
(* pkg/dbop/operator.go :: operator *)
Record operator := {
  op_namespace : string;
  op_name : string;
  op_index : Z;
  op_open : bool
}.

(* pkg/dbop/status.go:12-12 statusGlobalVarsString *)
Definition statusGlobalVarsString : string := join_str "," statusGlobalVars.

(* pkg/dbop/status.go :: getGlobalVariablesStatus *)
Definition getGlobalVariablesStatus : prog sqlSig (extres GlobalVariables) :=
  wrap_err "failed to get mysql global variables"
    (sql (SqlGetGlobalVariables ("SELECT " +:+ statusGlobalVarsString))).

(* pkg/dbop/status.go :: getGlobalStatus *)
Definition getGlobalStatus : prog sqlSig (extres GlobalStatus) :=
  r <-- sql (SqlGetNullString "SELECT VARIABLE_VALUE FROM performance_schema.global_status WHERE VARIABLE_NAME = 'Rpl_semi_sync_master_wait_sessions'") ;;
  match r with
  | inl e =>
      if is_no_rows e then Ret (inr {| SemiSyncMasterWaitSessions := 0 |})
      else Ret (inl (ErrWrap "failed to get Rpl_semi_sync_master_wait_sessions" e))
  | inr None => Ret (inr {| SemiSyncMasterWaitSessions := 0 |})
  | inr (Some v) =>
      match Atoi v with
      | None => Ret (inl (ErrWrap "failed to parse semi_sync_wait_master_sessions" (ErrNew "strconv.Atoi")))
      | Some n => Ret (inr {| SemiSyncMasterWaitSessions := n |})
      end
  end.

(* pkg/dbop/status.go :: getReplicaStatus *)
Definition getReplicaStatus : prog sqlSig (extres (option ReplicaStatus)) :=
  r <-- sql (SqlGetReplicaStatus "SHOW REPLICA STATUS") ;;
  match r with
  | inl e => if is_no_rows e then Ret (inr None)
             else Ret (inl (ErrWrap "failed to get replica status" e))
  | inr st => Ret (inr (Some st))
  end.

(* pkg/dbop/status.go :: getCloneStateStatus *)
Definition getCloneStateStatus : prog sqlSig (extres (option CloneStatus)) :=
  r <-- sql (SqlGetCloneStatus "SELECT state FROM performance_schema.clone_status") ;;
  match r with
  | inl e => if is_no_rows e then Ret (inr None)
             else Ret (inl (ErrWrap "failed to get ps.clone_status" e))
  | inr st => Ret (inr (Some st))
  end.

Definition at_pod (o : operator) (msg : string) : string :=
  msg +:+ ": pod=" +:+ op_name o +:+ ", namespace=" +:+ op_namespace o.

(* pkg/dbop/status.go :: GetStatus *)
Definition operator_GetStatus (o : operator) : prog sqlSig (extres MySQLInstanceStatus) :=
  gv <-! wrap_err (at_pod o "failed to get global variables") getGlobalVariablesStatus ;;
  gs <-! wrap_err (at_pod o "failed to get global status") getGlobalStatus ;;
  hosts <-! wrap_err (at_pod o "failed to get replica hosts")
              (sql (SqlSelectReplicaHosts "SHOW REPLICAS")) ;;
  rs <-! wrap_err (at_pod o "failed to get replica status") getReplicaStatus ;;
  cs <-! wrap_err (at_pod o "failed to get clone status") getCloneStateStatus ;;
  Ret (inr {| IsErrant := false; GlobalVariables_ := gv; GlobalStatus_ := gs;
              ReplicaHosts := hosts; ReplicaStatus_ := rs; CloneStatus_ := cs |}).

(* pkg/dbop/gtid.go :: IsSubsetGTID *)
Definition operator_IsSubsetGTID (set1 set2 : string) : prog sqlSig (extres bool) :=
  wrap_err ("failed to get gtid_subset(" +:+ set1 +:+ ", " +:+ set2 +:+ ")")
    (sql (SqlGetBool "SELECT GTID_SUBSET(?,?)" [ArgStr set1; ArgStr set2])).

(* pkg/dbop/gtid.go :: SubtractGTID *)
Definition operator_SubtractGTID (set1 set2 : string) : prog sqlSig (extres string) :=
  wrap_err ("failed to get gtid_subtract(" +:+ set1 +:+ ", " +:+ set2 +:+ ")")
    (sql (SqlGetString "SELECT GTID_SUBTRACT(?,?)" [ArgStr set1; ArgStr set2])).

(* pkg/dbop/replication.go:8-8 semiSyncMasterTimeout *)
Definition semiSyncMasterTimeout : Z := 24 * 60 * 60 * 1000.

Definition changeSource84 : string := "CHANGE REPLICATION SOURCE TO SOURCE_HOST = :Host, SOURCE_PORT = :Port, SOURCE_USER = :User, SOURCE_PASSWORD = :Password, SOURCE_AUTO_POSITION = 1, GET_SOURCE_PUBLIC_KEY = 1".
Definition changeMaster80 : string := "CHANGE MASTER TO MASTER_HOST = :Host, MASTER_PORT = :Port, MASTER_USER = :User, MASTER_PASSWORD = :Password, MASTER_AUTO_POSITION = 1, GET_MASTER_PUBLIC_KEY = 1".

(* pkg/dbop/replication.go :: ConfigureReplica *)
Definition operator_ConfigureReplica (primary : AccessInfo) (semisync : bool)
    : prog sqlSig (extres unit) :=
  _ <-! wrap_err "failed to stop replica" (sql (SqlExec "STOP REPLICA" [])) ;;
  version <-! wrap_err "failed to get version"
                (sql (SqlGetString "SELECT SUBSTRING_INDEX(VERSION(), '.', 2)" [])) ;;
  cmd <-! (if version =s "8.4" then Ret (inr changeSource84)
           else if version =s "8.0" then Ret (inr changeMaster80)
           else Ret (inl (ErrNew ("unsupported version: " +:+ version)))) ;;
  _ <-! wrap_err "failed to change primary" (sql (SqlNamedExec cmd primary)) ;;
  _ <-! wrap_err "failed to set rpl_semi_sync_slave_enabled"
          (sql (SqlExec "SET GLOBAL rpl_semi_sync_slave_enabled=?" [ArgBool semisync])) ;;
  _ <-! wrap_err "failed to disable rpl_semi_sync_master_enabled"
          (sql (SqlExec "SET GLOBAL rpl_semi_sync_master_enabled=OFF" [])) ;;
  wrap_err "failed to start replica" (sql (SqlExec "START REPLICA" [])).

(* pkg/dbop/replication.go :: ConfigurePrimary *)
Definition operator_ConfigurePrimary (waitForCount : Z) : prog sqlSig (extres unit) :=
  _ <-! wrap_err "failed to set rpl_semi_sync_master_timeout count"
          (sql (SqlExec "SET GLOBAL rpl_semi_sync_master_timeout=?" [ArgInt semiSyncMasterTimeout])) ;;
  _ <-! wrap_err "failed to set rpl_semi_sync_master_wait_for_slave_count count"
          (sql (SqlExec "SET GLOBAL rpl_semi_sync_master_wait_for_slave_count=?" [ArgInt waitForCount])) ;;
  wrap_err "failed to enable semi-sync primary"
    (sql (SqlExec "SET GLOBAL rpl_semi_sync_master_enabled=ON" [])).

(* pkg/dbop/replication.go :: StopReplicaIOThread *)
Definition operator_StopReplicaIOThread : prog sqlSig (extres unit) :=
  wrap_err "failed to stop replica IO thread" (sql (SqlExec "STOP REPLICA IO_THREAD" [])).

(* pkg/dbop/replication.go :: WaitForGTID *)
Definition operator_WaitForGTID (gtid : string) (timeoutSeconds : Z) : prog sqlSig (extres unit) :=
  timeout <-! wrap_err ("failed to wait GTID subset " +:+ gtid)
                (sql (SqlGetBool "SELECT WAIT_FOR_EXECUTED_GTID_SET(?, ?)" [ArgStr gtid; ArgInt timeoutSeconds])) ;;
  if (timeout : bool) then Ret (inl ErrTimeout) else Ret (inr ()).

(* pkg/dbop/replication.go :: SetReadOnly *)
Definition operator_SetReadOnly (readOnly : bool) : prog sqlSig (extres unit) :=
  if readOnly then
    wrap_err "failed to set super_read_only=1" (sql (SqlExec "SET GLOBAL super_read_only=1" []))
  else
    _ <-! wrap_err "failed to stop replica" (sql (SqlExec "STOP REPLICA" [])) ;;
    _ <-! wrap_err "failed to stop replica" (sql (SqlExec "RESET REPLICA" [])) ;;
    wrap_err "failed to set read_only=0" (sql (SqlExec "SET GLOBAL read_only=0" [])).

(* pkg/dbop/kill.go :: isNoSuchThread *)
Definition isNoSuchThread (e : error) : bool :=
  bool_decide (error_kind e = Some (KindMySQL 1094)).

(** The connections [KillConnections] leaves alone. *)
Definition spared (p : Process) : bool :=
  default false (MocoSystemUsers !! proc_User p)
  || (proc_Host p =s "localhost") || (proc_User p =s "system user").

Fixpoint killLoop (procs : list Process) : prog sqlSig (extres unit) :=
  match procs with
  | [] => Ret (inr ())
  | p :: rest =>
      if spared p then killLoop rest else
      r <-- sql (SqlExec "KILL CONNECTION ?" [ArgInt (proc_ID p)]) ;;
      match r with
      | inl e =>
          if isNoSuchThread e then killLoop rest
          else Ret (inl (ErrWrap ("failed to kill connection " +:+ Itoa (proc_ID p) +:+ " for "
                                  +:+ proc_User p +:+ " from " +:+ proc_Host p) e))
      | inr _ => killLoop rest
      end
  end.

(* pkg/dbop/kill.go :: KillConnections *)
Definition operator_KillConnections : prog sqlSig (extres unit) :=
  procs <-! wrap_err "failed to get process list"
              (sql (SqlSelectProcesses "SELECT ID, USER, HOST FROM information_schema.PROCESSLIST")) ;;
  killLoop procs.

(** [Close] forgets the connection when closing succeeds; the new value of
    [o.db] is not observed by the callers, which drop the operator. *)
(* pkg/dbop/operator.go :: operator.Close *)
Definition operator_Close (o : operator) : prog sqlSig (extres unit) :=
  if op_open o then sql SqlClose else Ret (inr ()).

#[export] Instance operator_Operator : Operator sqlSig operator :=
  λ o m, match m return prog sqlSig (opresp m) with
         | GetStatus => operator_GetStatus o
         | SubtractGTID a b => operator_SubtractGTID a b
         | IsSubsetGTID a b => operator_IsSubsetGTID a b
         | ConfigureReplica ai semisync => operator_ConfigureReplica ai semisync
         | ConfigurePrimary n => operator_ConfigurePrimary n
         | StopReplicaIOThread => operator_StopReplicaIOThread
         | WaitForGTID g t => operator_WaitForGTID g t
         | SetReadOnly b => operator_SetReadOnly b
         | KillConnections => operator_KillConnections
         | OpClose => operator_Close o
         end.
