(* ===== verification/Gtid.v ===== *)
(** * Choosing the most advanced instance (pkg/dbop/gtid.go)

    [FindTopRunner] and its specification against the meaning of GTID sets.
    GTID sets are strings for the program; only mysqld interprets them.  The
    section [semantics] takes that interpretation as a parameter [gtids] and
    shows what [FindTopRunner] guarantees when the operator's answers to
    [IsSubsetGTID] agree with it. *)

From S2P Require Import Prelude Prog GoLib Api Dbop.
#[local] Open Scope Z_scope.

(** The union of the retrieved and the executed set of a replica. *)
(* pkg/dbop/gtid.go:30-35 FindTopRunner *)
Definition unionGtids (repl : ReplicaStatus) : string :=
  if (String.length (RetrievedGtidSet repl) =? 0)%nat then ExecutedGtidSet repl
  else RetrievedGtidSet repl +:+ "," +:+ ExecutedGtidSet repl.

Section top_runner.
Context {S : signature} {O : Type} `{!Operator S O}.

(** A method call on an interface value that may be nil. *)
Definition call_op (o : option O) (m : opcall) : prog S (outcome (opresp m)) :=
  match o with
  | None => Ret (Panic "nil pointer dereference")
  | Some o => r <-- invoke o m ;; Ret (Return r)
  end.

(** One iteration of the loop; the accumulator is [(latest, latestGTIDs)]. *)
(* pkg/dbop/gtid.go:16-62 FindTopRunner *)
Definition topRunnerStep (o : option O) (acc : Z * string)
    (x : Z * option MySQLInstanceStatus) : prog S (outcome (Z * string)) :=
  match x.2 with
  | None => Ret (Return acc)
  | Some st =>
      match ReplicaStatus_ st with
      | None => Ret (Return acc)
      | Some repl =>
          let gtids := unionGtids repl in
          if (String.length gtids =? 0)%nat then Ret (Return acc)
          else if (String.length acc.2 =? 0)%nat then Ret (Return (x.1, gtids))
          else
            r <-? call_op o (IsSubsetGTID gtids acc.2) ;;
            match r with
            | inl e => Ret (Error e)
            | inr true => Ret (Return acc)
            | inr false =>
                r' <-? call_op o (IsSubsetGTID acc.2 gtids) ;;
                match r' with
                | inl e => Ret (Error e)
                | inr true => Ret (Return (x.1, gtids))
                | inr false => Ret (Error (ErrWrap ("set1=" +:+ gtids +:+ ", set2=" +:+ acc.2) ErrErrantTransactions))
                end
            end
      end
  end.

(* pkg/dbop/gtid.go :: FindTopRunner *)
Definition FindTopRunner (o : option O) (status : list (option MySQLInstanceStatus))
    : prog S (outcome Z) :=
  acc <-? for_range (indexed status) ((-1)%Z, "") (topRunnerStep o) ;;
  if acc.1 =? -1 then Ret (Error ErrNoTopRunner) else Ret (Return acc.1).
End top_runner.

(** ** Specification *)

(** The GTIDs known to the instance at index [i] of [status] are [g]. *)
Definition candidate_gtids (status : list (option MySQLInstanceStatus)) (i : Z) (g : string) : Prop :=
  ∃ st repl, index_at status i = Some (Some st) ∧ ReplicaStatus_ st = Some repl ∧
             g = unionGtids repl ∧ g ≠ "".

Lemma length_zero_str (s : string) : (String.length s =? 0)%nat = true ↔ s = "".
Proof. rewrite Nat.eqb_eq. destruct s; simpl; split; (done || lia). Qed.

Lemma length_nonzero_str (s : string) : (String.length s =? 0)%nat = false ↔ s ≠ "".
Proof. rewrite <- length_zero_str. destruct (_ =? 0)%nat; naive_solver. Qed.

(** Whatever the operator answers, an index [FindTopRunner] returns is a
    replica with GTIDs, and it panics only on a nil operator. *)
Section any_answer.
Context {S : signature} {O : Type} `{!Operator S O} (P : trace S → call S → Prop) (o : option O).
Hypothesis permitted : ∀ op h a b Q,
  o = Some op → (∀ h' r, Q h' r) → wp P (invoke op (IsSubsetGTID a b)) h Q.

Lemma wp_call_op h a b Q :
  (∀ h' r, Q h' (Return r)) → is_Some o → wp P (call_op o (IsSubsetGTID a b)) h Q.
Proof.
  intros HQ [op Ho]. unfold call_op. rewrite Ho, wp_bind. apply permitted; [done|]. intros. apply HQ.
Qed.

Lemma wp_FindTopRunner_candidate h status :
  (o = None → ∀ i st, index_at status i ≠ Some (Some st)) →
  wp P (FindTopRunner o status) h
     (λ _ r, match r with
             | Return i => ∃ g, candidate_gtids status i g
             | Error _ => True
             | Panic _ => False
             end).
Proof.
  intros Hnil. unfold FindTopRunner. rewrite wp_bind_outcome.
  eapply wp_for_range with (I := λ _ rest acc, rest ⊆ indexed status ∧
    (acc.1 = -1 ∨ ∃ g, candidate_gtids status acc.1 g)).
  - split; [done|by left].
  - intros h' [i g] [_ Hacc]. simpl in *. destruct (Z.eqb_spec i (-1)); simpl; [done|].
    destruct Hacc; [done|done].
  - intros h' [i ist] rest acc [Hsub Hacc].
    assert (rest ⊆ indexed status) as Hrest by set_solver.
    assert ((i, ist) ∈ indexed status) as Hi%elem_of_indexed by set_solver.
    unfold topRunnerStep. simpl. destruct ist as [st|]; [|done].
    destruct (ReplicaStatus_ st) as [repl|] eqn:Hrepl; [|done].
    assert (is_Some o) as Ho by (destruct o; [eauto|]; by destruct (Hnil eq_refl i st)).
    destruct (String.length (unionGtids repl) =? 0)%nat eqn:Hempty; [done|].
    apply length_nonzero_str in Hempty.
    assert (∃ g, candidate_gtids status i g) as Hcand by (exists (unionGtids repl), st, repl; auto).
    destruct (String.length acc.2 =? 0)%nat; [by split; [|right]|].
    rewrite wp_bind_outcome. apply wp_call_op; [|done]. intros h1 [e|[]]; simpl; [done|done|].
    rewrite wp_bind_outcome. apply wp_call_op; [|done]. intros h2 [e|[]]; simpl; [done| |done].
    by split; [|right].
Qed.
End any_answer.

Section semantics.
Context {tx : Type} (gtids : string → tx → Prop).

Definition gtid_subset (a b : string) : Prop := ∀ t, gtids a t → gtids b t.

(** [i] is a top runner: its set includes that of every candidate. *)
Definition top_runner (status : list (option MySQLInstanceStatus)) (i : Z) : Prop :=
  ∃ g, candidate_gtids status i g ∧
       ∀ j g', candidate_gtids status j g' → gtid_subset g' g.

Context {S : signature} {O : Type} `{!Operator S O}.
Context (P : trace S → call S → Prop).

(** [G h]: the answers in the history [h] agree with [gtids]; it is closed
    under prefixes, and after a call to [IsSubsetGTID] it makes the answer
    right. *)
Context (G : trace S → Prop) (E : trace S → error → Prop) (o : option O).
Hypothesis G_prefix : ∀ h t, G (h ++ t) → G h.
Hypothesis G_answers : ∀ op h a b,
  o = Some op →
  wp P (invoke op (IsSubsetGTID a b)) h
     (λ h' r, (∃ t, h' = h ++ t) ∧
              match r with
              | inr v => G h' → (v = true ↔ gtid_subset a b)
              | inl e => E h' e
              end).

(** What holds between two iterations: the accumulator is a candidate already
    seen whose set includes those of all candidates seen so far. *)
Definition top_so_far (seen : list (Z * option MySQLInstanceStatus)) (acc : Z * string) : Prop :=
  (acc = (-1, "") ∧ ∀ j st repl, (j, Some st) ∈ seen → ReplicaStatus_ st = Some repl →
                                 unionGtids repl = "") ∨
  (acc.2 ≠ "" ∧ (∃ st repl, (acc.1, Some st) ∈ seen ∧ ReplicaStatus_ st = Some repl ∧
                            acc.2 = unionGtids repl) ∧
   ∀ j st repl, (j, Some st) ∈ seen → ReplicaStatus_ st = Some repl →
     unionGtids repl ≠ "" → gtid_subset (unionGtids repl) acc.2).

Lemma top_so_far_skip seen acc x :
  top_so_far seen acc →
  (∀ st repl, x.2 = Some st → ReplicaStatus_ st = Some repl → unionGtids repl = "") →
  top_so_far (seen ++ [x]) acc.
Proof.
  intros Htop Hx. destruct Htop as [[-> Hall]|(Hne & (st & repl & Hin & Hr & Hg) & Hall)].
  - left. split; [done|]. intros j st repl [Hj|Hj%list_elem_of_singleton]%elem_of_app ?; subst; eauto.
  - right. split_and!; [done| |].
    + exists st, repl. rewrite elem_of_app. eauto.
    + intros j st' repl' [Hj|Hj%list_elem_of_singleton]%elem_of_app ? Hn; subst; [eauto|].
      exfalso. eauto.
Qed.

Lemma top_so_far_keep seen acc i st repl :
  top_so_far seen acc → ReplicaStatus_ st = Some repl → acc.2 ≠ "" →
  gtid_subset (unionGtids repl) acc.2 →
  top_so_far (seen ++ [(i, Some st)]) acc.
Proof.
  intros [[-> _]|(Hne & (st0 & repl0 & Hin & Hr0 & Hg) & Hall)] Hr Hacc Hsub; [done|].
  right. split_and!; [done| |].
  - exists st0, repl0. rewrite elem_of_app. eauto.
  - intros j st' repl' [Hj|Hj%list_elem_of_singleton]%elem_of_app ? Hn; simplify_eq; eauto.
Qed.

Lemma top_so_far_replace seen acc i st repl :
  top_so_far seen acc → ReplicaStatus_ st = Some repl → unionGtids repl ≠ "" →
  (acc.2 = "" ∨ gtid_subset acc.2 (unionGtids repl)) →
  top_so_far (seen ++ [(i, Some st)]) (i, unionGtids repl).
Proof.
  intros Htop Hr Hne Hsub. right. split_and!; [done| |]; simpl.
  - exists st, repl. rewrite elem_of_app, list_elem_of_singleton. auto.
  - intros j st' repl' [Hj|Hj%list_elem_of_singleton]%elem_of_app Hr' Hn; simplify_eq; [|by intros t].
    destruct Htop as [[-> Hall]|(Hacc & _ & Hall)].
    + exfalso. eauto.
    + destruct Hsub as [?|Hsub]; [done|]. intros t Ht. apply Hsub. by eapply Hall.
Qed.

(** Two candidates whose sets are incomparable: errant transactions. *)
Definition incomparable (seen : list (Z * option MySQLInstanceStatus)) (e : error) : Prop :=
  ∃ i j sti stj ri rj, (i, Some sti) ∈ seen ∧ (j, Some stj) ∈ seen ∧
    ReplicaStatus_ sti = Some ri ∧ ReplicaStatus_ stj = Some rj ∧
    ¬ gtid_subset (unionGtids ri) (unionGtids rj) ∧
    ¬ gtid_subset (unionGtids rj) (unionGtids ri) ∧
    e = ErrWrap ("set1=" +:+ unionGtids ri +:+ ", set2=" +:+ unionGtids rj) ErrErrantTransactions.

(** One iteration keeps the invariant, whatever the operator answers. *)
Lemma wp_topRunnerStep h seen acc x :
  (o = None → x.2 = None) →
  (G h → top_so_far seen acc) →
  wp P (topRunnerStep o acc x) h
     (λ h' r, (∃ t, h' = h ++ t) ∧
              match r with
              | Return acc' => G h' → top_so_far (seen ++ [x]) acc'
              | Error e => E h' e ∨ (G h' → incomparable (seen ++ [x]) e)
              | Panic _ => False
              end).
Proof.
  intros Hnil Htop. destruct x as [i [st|]]; cbn [topRunnerStep snd fst] in *;
    [|split; [by exists []; rewrite app_nil_r|]; intros HG; by apply top_so_far_skip; [auto|]].
  unfold topRunnerStep; cbn [snd fst].
  destruct (ReplicaStatus_ st) as [repl|] eqn:Hrepl;
    [|split; [by exists []; rewrite app_nil_r|]; intros HG; apply top_so_far_skip; [auto|];
      simpl; naive_solver].
  destruct (String.length (unionGtids repl) =? 0)%nat eqn:Hempty.
  { split; [by exists []; rewrite app_nil_r|]. intros HG. apply length_zero_str in Hempty.
    apply top_so_far_skip; [auto|]. simpl. naive_solver. }
  apply length_nonzero_str in Hempty.
  destruct (String.length acc.2 =? 0)%nat eqn:Hacc.
  { split; [by exists []; rewrite app_nil_r|]. intros HG. apply length_zero_str in Hacc.
    eapply top_so_far_replace; eauto. }
  apply length_nonzero_str in Hacc.
  destruct o as [op|] eqn:Ho; [|by discriminate (Hnil eq_refl)].
  unfold call_op. rewrite wp_bind_outcome, wp_bind.
  eapply wp_conseq; [by apply G_answers|]. intros h1 r1 [[t1 ->] Hr1]. simpl.
  destruct r1 as [e|v1]; [by simpl; eauto|].
  destruct v1; simpl.
  { split; [eauto|]. intros HG. eapply top_so_far_keep; eauto. by apply Hr1. }
  rewrite wp_bind_outcome, wp_bind.
  eapply wp_conseq; [by apply G_answers|]. intros h2 r2 [[t2 ->] Hr2]. simpl.
  assert (∃ t, (h ++ t1) ++ t2 = h ++ t) as Hext by (exists (t1 ++ t2); by rewrite app_assoc).
  destruct r2 as [e|v2]; [by simpl; eauto|].
  destruct v2; simpl; (split; [done|]).
  - intros HG. eapply top_so_far_replace; eauto. right. by apply Hr2.
  - right. intros HG.
    assert (¬ gtid_subset (unionGtids repl) acc.2) as Hn1 by (rewrite <- Hr1 by eauto; done).
    assert (¬ gtid_subset acc.2 (unionGtids repl)) as Hn2 by (rewrite <- Hr2 by eauto; done).
    destruct Htop as [[-> _]|(_ & (st0 & repl0 & Hin & Hr0 & Hg) & _)]; [eauto|done|].
    exists i, acc.1, st, st0, repl, repl0. rewrite !elem_of_app, list_elem_of_singleton.
    rewrite <- Hg. split_and!; auto.
Qed.

(** [FindTopRunner] never panics, an index it returns is a top runner, and its
    errors are those of the operator, incomparable sets, or no candidate. *)
Lemma wp_FindTopRunner h status :
  (o = None → ∀ i st, index_at status i ≠ Some (Some st)) →
  wp P (FindTopRunner o status) h
     (λ h' r, (∃ t, h' = h ++ t) ∧
              match r with
              | Return i => G h' → top_runner status i
              | Error e => E h' e ∨ (G h' → incomparable (indexed status) e) ∨
                           (e = ErrNoTopRunner ∧ (G h' → ∀ j g, ¬ candidate_gtids status j g))
              | Panic _ => False
              end).
Proof.
  intros Hnil. unfold FindTopRunner. rewrite wp_bind_outcome.
  eapply wp_for_range with
    (I := λ h' rest acc, (∃ t, h' = h ++ t) ∧
       ∃ seen, indexed status = seen ++ rest ∧ (G h' → top_so_far seen acc)).
  - split; [by exists []; rewrite app_nil_r|]. exists []. split; [done|].
    intros _. left. split; [done|]. intros j st repl Hin. by apply elem_of_nil in Hin.
  - intros h' [i g] [Hext (seen & Hseen & Htop)]. rewrite app_nil_r in Hseen. subst seen. simpl.
    assert (∀ j st, (j, Some st) ∈ indexed status ↔ index_at status j = Some (Some st)) as Hidx
      by (intros; apply elem_of_indexed).
    destruct (Z.eqb_spec i (-1)) as [->|Hi]; simpl; (split; [done|]).
    + right. right. split; [done|]. intros HG j g' (st & repl & Hj & Hr & -> & Hne).
      destruct (Htop HG) as [[_ Hall]|(_ & (st0 & repl0 & Hin & _) & _)].
      * apply Hne. eapply Hall; [by apply Hidx|done].
      * apply Hidx, index_at_Some in Hin as [Hge _]. simpl in Hge. lia.
    + intros HG. destruct (Htop HG) as [[[= ->] _]|(Hne & (st & repl & Hin & Hr & Hg) & Hall)]; [done|].
      exists g. split.
      * exists st, repl. rewrite <- Hidx. eauto.
      * intros j g' (st' & repl' & Hj & Hr' & -> & Hne'). eapply Hall; [by apply Hidx|done|done].
  - intros h' x rest acc [[t ->] (seen & Hseen & Htop)].
    eapply wp_conseq.
    { apply (wp_topRunnerStep _ seen); [|done]. intros Ho. destruct x as [j [st|]]; [|done].
      exfalso. apply (Hnil Ho j st), elem_of_indexed. rewrite Hseen. set_solver. }
    intros h'' r [[t' ->] Hr].
    assert (∃ t0, (h ++ t) ++ t' = h ++ t0) as Hext by (exists (t ++ t'); by rewrite app_assoc).
    destruct r as [acc'|e|m]; [..|done].
    + split; [done|]. exists (seen ++ [x]). rewrite <- app_assoc. auto.
    + split; [done|]. destruct Hr as [?|Hr]; [by left|]. right. left. intros HG.
      destruct (Hr HG) as (i & j & sti & stj & ri & rj & Hi & Hj & ?).
      exists i, j, sti, stj, ri, rj. rewrite Hseen.
      rewrite elem_of_app, list_elem_of_singleton in Hi, Hj. set_solver.
Qed.
End semantics.
