(* ===== verification/Event.v ===== *)
(** * Events (pkg/event)

    The Kubernetes events MOCO records.  A message is a format of package fmt;
    its arguments are kept beside it, already formatted as strings. *)

From S2P Require Import Prelude GoLib.
#[local] Open Scope Z_scope.

(* pkg/event/event.go :: MOCOEvent *)
Record MOCOEvent := {
  ev_Type : string;
  ev_Reason : string;
  ev_Message : string
}.

(* pkg/event/event.go:45-49 InitCloneSucceeded *)
Definition InitCloneSucceeded : MOCOEvent :=
  {| ev_Type := "Normal"; ev_Reason := "InitCloned";
     ev_Message := "Clone from an external mysqld succeeded" |}.

(* pkg/event/event.go:50-54 InitCloneFailed *)
Definition InitCloneFailed : MOCOEvent :=
  {| ev_Type := "Warning"; ev_Reason := "InitCloneFailed";
     ev_Message := "Clone from an external mysqld failed: %v" |}.

(* pkg/event/event.go:55-59 SwitchOverSucceeded *)
Definition SwitchOverSucceeded : MOCOEvent :=
  {| ev_Type := "Normal"; ev_Reason := "SwitchOver";
     ev_Message := "The primary was changed to instance %d due to a switchover" |}.

(* pkg/event/event.go:60-64 SwitchOverFailed *)
Definition SwitchOverFailed : MOCOEvent :=
  {| ev_Type := "Warning"; ev_Reason := "SwitchOverFailed";
     ev_Message := "The primary could not be changed: %v" |}.

(* pkg/event/event.go:65-69 FailOverSucceeded *)
Definition FailOverSucceeded : MOCOEvent :=
  {| ev_Type := "Normal"; ev_Reason := "FailOver";
     ev_Message := "The primary was changed to instance %d due to a failover" |}.

(* pkg/event/event.go:70-74 FailOverFailed *)
Definition FailOverFailed : MOCOEvent :=
  {| ev_Type := "Warning"; ev_Reason := "FailOverFailed";
     ev_Message := "The primary could not be changed: %v" |}.

(* pkg/event/event.go:75-79 CloneSucceeded *)
Definition CloneSucceeded : MOCOEvent :=
  {| ev_Type := "Normal"; ev_Reason := "Cloned";
     ev_Message := "Clone from the primary succeeded for instance %d" |}.

(* pkg/event/event.go:80-84 CloneFailed *)
Definition CloneFailed : MOCOEvent :=
  {| ev_Type := "Warning"; ev_Reason := "CloneFailed";
     ev_Message := "Clone from the primary failed for instance %d: %v" |}.

(* pkg/event/event.go:85-89 SetWritable *)
Definition SetWritable : MOCOEvent :=
  {| ev_Type := "Normal"; ev_Reason := "Writable";
     ev_Message := "The primary became writable" |}.

(* pkg/event/event.go:90-94 BackupCreated *)
Definition BackupCreated : MOCOEvent :=
  {| ev_Type := "Normal"; ev_Reason := "BackupCreated";
     ev_Message := "Backup created" |}.

(* pkg/event/event.go:95-99 BackupNoBinlog *)
Definition BackupNoBinlog : MOCOEvent :=
  {| ev_Type := "Warning"; ev_Reason := "BackupNoBinlog";
     ev_Message := "Backup created w/o binlog files" |}.

(* pkg/event/event.go:100-104 Restored *)
Definition Restored : MOCOEvent :=
  {| ev_Type := "Normal"; ev_Reason := "Restored";
     ev_Message := "Successfully restored data from backup" |}.

(** ** The Kubernetes object of an event *)

(** "%x" of an int64. *)
Fixpoint hex_digits (fuel : nat) (n : Z) (acc : string) : string :=
  match fuel with
  | O => acc
  | S fuel =>
      let acc := String (hex_digit (n mod 16)) acc in
      if n <? 16 then acc else hex_digits fuel (n / 16) acc
  end.
Definition format_hex (n : Z) : string := if n <? 0 then "-" +:+ hex_digits 16 (- n) "" else hex_digits 16 n "".

Example format_hex_sample : format_hex 1620284889000000000 = "167c68859bc73a00".
Proof. reflexivity. Qed.

Record ObjectReference := { ref_Kind : string; ref_Namespace : string; ref_Name : string; ref_UID : string }.

Record KubeEvent := {
  evt_Name : string; evt_Namespace : string; evt_InvolvedObject : ObjectReference; evt_Reason : string;
  evt_Message : string; evt_FirstTimestamp : Z; evt_LastTimestamp : Z; evt_Count : Z; evt_Type : string
}.

(** [msg] is the formatted message and [now] the time in nanoseconds. *)
(* pkg/event/event.go :: MOCOEvent.ToEvent *)
Definition ToEvent (e : MOCOEvent) (ref : ObjectReference) (msg : string) (now : Z) : KubeEvent :=
  {| evt_Name := ref_Name ref +:+ "." +:+ format_hex now;
     evt_Namespace := if ref_Namespace ref =s "" then "default" else ref_Namespace ref;
     evt_InvolvedObject := ref; evt_Reason := ev_Reason e; evt_Message := msg;
     evt_FirstTimestamp := now; evt_LastTimestamp := now; evt_Count := 1; evt_Type := ev_Type e |}.
