(* ===== verification/Cluster.v ===== *)
(** * The clustering package: its state and the systems it calls

    The [StatusSet] a manager process gathers (clustering/status.go) and the
    signature [clusterSig] of the calls the process makes: the Kubernetes API,
    the MySQL instances through [dbop.Operator], moco-agent, the clock, the
    event recorder and the metrics. *)

From S2P Require Import Prelude Prog GoLib Constants Api Password Dbop Event.
#[local] Open Scope Z_scope.

(** ** ClusterState *)

(* clustering/status.go:41-54 ClusterState *)
Inductive ClusterState :=
| StateUndecided
| StateIncomplete
| StateHealthy
| StateCloning
| StateRestoring
| StateDegraded
| StateFailed
| StateLost
| StateOffline.

#[export] Instance ClusterState_eq_dec : EqDecision ClusterState.
Proof. solve_decision. Defined.

(* clustering/status.go :: ClusterState.String *)
Definition ClusterState_String (s : ClusterState) : string :=
  match s with
  | StateUndecided => "Undecided"
  | StateIncomplete => "Incomplete"
  | StateHealthy => "Healthy"
  | StateCloning => "Cloning"
  | StateRestoring => "Restoring"
  | StateDegraded => "Degraded"
  | StateFailed => "Failed"
  | StateLost => "Lost"
  | StateOffline => "Offline"
  end.

(** ** StatusSet *)

(** The two implementations of [dbop.Operator] a process holds: a connection
    to the instance with the given index, or a [NopOperator]. *)
Inductive DBOp :=
| OpSQL (index : Z)
| OpNop (o : NopOperator).

(* clustering/status.go :: StatusSet *)
Record StatusSet := {
  Primary : Z;
  Cluster : MySQLCluster;
  Password_ : MySQLPassword;
  Pods : list (option Pod);
  DBOps : list (option DBOp);
  MySQLStatus : list (option MySQLInstanceStatus);
  ss_ExecutedGTID : string;
  Errants : list Z;
  Candidates : list Z;
  NeedSwitch : bool;
  PreventPodDeletion : bool;
  Candidate : Z;
  State : ClusterState
}.

Definition set_decision (cands : list Z) (need : bool) (cand : Z) (st : ClusterState)
    (ss : StatusSet) : StatusSet :=
  {| Primary := Primary ss; Cluster := Cluster ss; Password_ := Password_ ss; Pods := Pods ss;
     DBOps := DBOps ss; MySQLStatus := MySQLStatus ss; ss_ExecutedGTID := ss_ExecutedGTID ss;
     Errants := Errants ss; Candidates := cands; NeedSwitch := need;
     PreventPodDeletion := PreventPodDeletion ss; Candidate := cand; State := st |}.

Definition set_Candidates (cands : list Z) (ss : StatusSet) : StatusSet :=
  set_decision cands (NeedSwitch ss) (Candidate ss) (State ss) ss.

Definition set_Candidate (cand : Z) (ss : StatusSet) : StatusSet :=
  set_decision (Candidates ss) (NeedSwitch ss) cand (State ss) ss.

Definition set_gathered (statuses : list (option MySQLInstanceStatus)) (gtid : string)
    (errants : list Z) (prevent : bool) (ss : StatusSet) : StatusSet :=
  {| Primary := Primary ss; Cluster := Cluster ss; Password_ := Password_ ss; Pods := Pods ss;
     DBOps := DBOps ss; MySQLStatus := statuses; ss_ExecutedGTID := gtid;
     Errants := errants; Candidates := Candidates ss; NeedSwitch := NeedSwitch ss;
     PreventPodDeletion := prevent; Candidate := Candidate ss; State := State ss |}.

Definition set_MySQLStatus (statuses : list (option MySQLInstanceStatus)) (ss : StatusSet) : StatusSet :=
  set_gathered statuses (ss_ExecutedGTID ss) (Errants ss) (PreventPodDeletion ss) ss.

Record NamespacedName := {
  nn_Namespace : string;
  nn_Name : string
}.

(** ** Calls *)

(** [agent.CloneRequest] of moco-agent's protocol. *)
Record CloneRequest := {
  req_Host : string;
  req_Port : Z;
  req_User : string;
  req_Password : string;
  req_InitUser : string;
  req_InitPassword : string;
  req_BootTimeout : option Z  (* seconds *)
}.

(* clustering/process.go :: metricsSet *)
Inductive metric :=
| checkCount | errorCount | available | healthy | switchoverCount | failoverCount
| replicas | readyReplicas | errantReplicas | processingTime
| backupTimestamp | backupElapsed | backupDumpSize | backupBinlogSize
| backupWorkDirUsage | backupWarnings.

Inductive ccall :=
| GetCluster                                     (* p.reader.Get(ctx, p.name, cluster) *)
| GetSecret (namespace name : string)            (* p.client.Get of a Secret *)
| ListPods (namespace : string) (labels : list (string * string))
| PatchPod (pod modified : Pod)                  (* p.client.Patch(modified, MergeFrom(pod)) *)
| UpdateStatus (cluster : MySQLCluster)          (* p.client.Status().Update *)
| Resolve (index : Z)                            (* Resolver.Resolve *)
| SqlOpen (index : Z) (addr : string)            (* sqlx.Open *)
| DB (index : Z) (m : opcall)                    (* a method of the SQL operator *)
| SpawnSetReadOnly (index : Z)                   (* go func() { done <- SetReadOnly(true) }() *)
| SelectDone (seconds : Z)                       (* select on done and time.After *)
| RecvDone                                       (* <-done *)
| AgentNew (index : Z)
| AgentClone (index : Z) (req : CloneRequest)
| AgentClose (index : Z)
| Sleep (milliseconds : Z)
| TickOrDone                                     (* select on time.After(1s) and ctx.Done *)
| Emit (e : MOCOEvent) (args : list string)
| MetricInc (m : metric)
| MetricSet (m : metric) (v : Z).

Definition cresp (c : ccall) : Type :=
  match c with
  | GetCluster => extres MySQLCluster
  | GetSecret _ _ => extres Secret
  | ListPods _ _ => extres (list Pod)
  | PatchPod _ _ => extres unit
  | UpdateStatus _ => extres unit
  | Resolve _ => extres string
  | SqlOpen _ _ => extres unit
  | DB _ m => opresp m
  | SelectDone _ => option (extres unit)
  | RecvDone => extres unit
  | AgentNew _ => extres unit
  | AgentClone _ _ => extres unit
  | TickOrDone => bool  (* true when the context is done *)
  | _ => unit
  end.

Definition clusterSig : signature := {| call := ccall; resp := cresp |}.
Definition kcall (c : ccall) : prog clusterSig (cresp c) := @perform clusterSig c.

(** Methods of an operator held by the process. *)
#[export] Instance DBOp_Operator : Operator clusterSig DBOp :=
  λ o m, match o with
         | OpSQL i => kcall (DB i m)
         | OpNop n => invoke n m
         end.

(** [ss.DBOps[i].m(...)]: out of range or nil it panics. *)
Definition db_call (ss : StatusSet) (i : Z) (m : opcall) : prog clusterSig (outcome (opresp m)) :=
  match index_at (DBOps ss) i with
  | Some (Some o) => r <-- invoke o m ;; Ret (Return r)
  | Some None => Ret (Panic "nil pointer dereference")
  | None => Ret (Panic "index out of range")
  end.

(** ** Reasoning about operator calls *)

Lemma wp_invoke P (op : DBOp) m h (Q : trace clusterSig → opresp m → Prop) :
  (∀ i, op = OpSQL i → P h (DB i m) ∧ ∀ r, Q (h ++ [@ev clusterSig (DB i m) r]) r) →
  (∀ n, op = OpNop n → Q h (nop_response m)) →
  wp P (invoke op m) h Q.
Proof. destruct op as [i|n]; intros H1 H2; simpl; [by apply H1|by eapply H2]. Qed.

(** The operators are connections to, or placeholders for, their instances. *)
Definition op_for (i : Z) (o : option DBOp) : Prop :=
  o = Some (OpSQL i) ∨ ∃ n, o = Some (OpNop n).

Lemma wp_db_call P ss i m op h (Q : trace clusterSig → outcome (opresp m) → Prop) :
  index_at (DBOps ss) i = Some (Some op) → op_for i (Some op) →
  P h (DB i m) → (∀ r, Q (h ++ [@ev clusterSig (DB i m) r]) (Return r)) →
  Q h (Return (nop_response m)) →
  wp P (db_call ss i m) h Q.
Proof.
  intros Hop [?|[n ?]] HP HQ HN; simplify_eq; unfold db_call; rewrite Hop; simpl; [|done].
  split; [done|]. done.
Qed.

Ltac wp_db :=
  lazymatch goal with
  | |- wp ?P (db_call ?ss ?i ?m) ?h ?Q => eapply (wp_db_call P ss i m _ h Q)
  end.
