(* ===== verification/Metrics.v ===== *)
(** * Metrics (pkg/metrics)

    The vectors of the controller's metrics, their registration, and which series
    of them the goroutine of a cluster creates, deletes and marks.  The registry of
    Prometheus is a call. *)

From S2P Require Import Prelude Prog GoLib Cluster.
#[local] Open Scope Z_scope.

(* pkg/metrics/metrics.go:8-8 metricsNamespace *)
Definition metricsNamespace : string := "moco".
(* pkg/metrics/metrics.go:9-9 clusteringSubsystem *)
Definition clusteringSubsystem : string := "cluster".
(* pkg/metrics/metrics.go:10-10 backupSubsystem *)
Definition backupSubsystem : string := "backup".

(** The kinds of vectors; the buckets of a histogram in milliseconds. *)
Inductive vecKind := Counter | Gauge | Histogram (buckets : list Z).

(** A vector with the variable that holds it; all are in one namespace. *)
Record vec := {
  vec_Var : string; vec_Kind : vecKind; vec_Subsystem : string; vec_Name : string; vec_Help : string;
  vec_Labels : list string
}.

(* pkg/metrics/metrics.go:52-58 Register *)
Definition CheckCountVec : vec :=
  {| vec_Var := "CheckCountVec"; vec_Kind := Counter; vec_Subsystem := clusteringSubsystem; vec_Name := "checks_total";
     vec_Help := "The number of times MOCO has checked the cluster"; vec_Labels := ["name"; "namespace"] |}.

(* pkg/metrics/metrics.go:60-66 Register *)
Definition ErrorCountVec : vec :=
  {| vec_Var := "ErrorCountVec"; vec_Kind := Counter; vec_Subsystem := clusteringSubsystem; vec_Name := "errors_total";
     vec_Help := "The number of times MOCO has got errors from the cluster"; vec_Labels := ["name"; "namespace"] |}.

(* pkg/metrics/metrics.go:68-74 Register *)
Definition AvailableVec : vec :=
  {| vec_Var := "AvailableVec"; vec_Kind := Gauge; vec_Subsystem := clusteringSubsystem; vec_Name := "available";
     vec_Help := "The cluster status about available condition"; vec_Labels := ["name"; "namespace"] |}.

(* pkg/metrics/metrics.go:76-82 Register *)
Definition HealthyVec : vec :=
  {| vec_Var := "HealthyVec"; vec_Kind := Gauge; vec_Subsystem := clusteringSubsystem; vec_Name := "healthy";
     vec_Help := "The cluster status about healthy condition"; vec_Labels := ["name"; "namespace"] |}.

(* pkg/metrics/metrics.go:84-90 Register *)
Definition SwitchoverCountVec : vec :=
  {| vec_Var := "SwitchoverCountVec"; vec_Kind := Counter; vec_Subsystem := clusteringSubsystem; vec_Name := "switchover_total";
     vec_Help := "The total count of switchover in the cluster"; vec_Labels := ["name"; "namespace"] |}.

(* pkg/metrics/metrics.go:92-98 Register *)
Definition FailoverCountVec : vec :=
  {| vec_Var := "FailoverCountVec"; vec_Kind := Counter; vec_Subsystem := clusteringSubsystem; vec_Name := "failover_total";
     vec_Help := "The total count of failover in the cluster"; vec_Labels := ["name"; "namespace"] |}.

(* pkg/metrics/metrics.go:100-106 Register *)
Definition TotalReplicasVec : vec :=
  {| vec_Var := "TotalReplicasVec"; vec_Kind := Gauge; vec_Subsystem := clusteringSubsystem; vec_Name := "replicas";
     vec_Help := "The number of instances in the cluster"; vec_Labels := ["name"; "namespace"] |}.

(* pkg/metrics/metrics.go:108-114 Register *)
Definition ReadyReplicasVec : vec :=
  {| vec_Var := "ReadyReplicasVec"; vec_Kind := Gauge; vec_Subsystem := clusteringSubsystem; vec_Name := "ready_replicas";
     vec_Help := "The number of ready Pods in the cluster"; vec_Labels := ["name"; "namespace"] |}.

(* pkg/metrics/metrics.go:116-122 Register *)
Definition ErrantReplicasVec : vec :=
  {| vec_Var := "ErrantReplicasVec"; vec_Kind := Gauge; vec_Subsystem := clusteringSubsystem; vec_Name := "errant_replicas";
     vec_Help := "The number of instances that have errant transactions"; vec_Labels := ["name"; "namespace"] |}.

(* pkg/metrics/metrics.go:124-131 Register *)
Definition ProcessingTimeVec : vec :=
  {| vec_Var := "ProcessingTimeVec"; vec_Kind := Histogram [100; 250; 500; 750; 1000; 2500; 5000; 7500; 10000; 20000; 30000]; vec_Subsystem := clusteringSubsystem; vec_Name := "processing_time_seconds";
     vec_Help := "The length of time in seconds processing the cluster"; vec_Labels := ["name"; "namespace"] |}.

(* pkg/metrics/metrics.go:133-139 Register *)
Definition BackupTimestamp : vec :=
  {| vec_Var := "BackupTimestamp"; vec_Kind := Gauge; vec_Subsystem := backupSubsystem; vec_Name := "timestamp";
     vec_Help := "The timestamp of the last successful backup"; vec_Labels := ["name"; "namespace"] |}.

(* pkg/metrics/metrics.go:141-147 Register *)
Definition BackupElapsed : vec :=
  {| vec_Var := "BackupElapsed"; vec_Kind := Gauge; vec_Subsystem := backupSubsystem; vec_Name := "elapsed_seconds";
     vec_Help := "The time taken for the backup"; vec_Labels := ["name"; "namespace"] |}.

(* pkg/metrics/metrics.go:149-155 Register *)
Definition BackupDumpSize : vec :=
  {| vec_Var := "BackupDumpSize"; vec_Kind := Gauge; vec_Subsystem := backupSubsystem; vec_Name := "dump_bytes";
     vec_Help := "The size of compressed full backup data"; vec_Labels := ["name"; "namespace"] |}.

(* pkg/metrics/metrics.go:157-163 Register *)
Definition BackupBinlogSize : vec :=
  {| vec_Var := "BackupBinlogSize"; vec_Kind := Gauge; vec_Subsystem := backupSubsystem; vec_Name := "binlog_bytes";
     vec_Help := "The size of compressed binlog files"; vec_Labels := ["name"; "namespace"] |}.

(* pkg/metrics/metrics.go:165-171 Register *)
Definition BackupWorkDirUsage : vec :=
  {| vec_Var := "BackupWorkDirUsage"; vec_Kind := Gauge; vec_Subsystem := backupSubsystem; vec_Name := "workdir_usage_bytes";
     vec_Help := "The maximum usage of the working directory"; vec_Labels := ["name"; "namespace"] |}.

(* pkg/metrics/metrics.go:173-179 Register *)
Definition BackupWarnings : vec :=
  {| vec_Var := "BackupWarnings"; vec_Kind := Gauge; vec_Subsystem := backupSubsystem; vec_Name := "warnings";
     vec_Help := "The number of warnings in the last successful backup"; vec_Labels := ["name"; "namespace"] |}.

(* pkg/metrics/metrics.go:181-187 Register *)
Definition VolumeResizedTotal : vec :=
  {| vec_Var := "VolumeResizedTotal"; vec_Kind := Counter; vec_Subsystem := clusteringSubsystem; vec_Name := "volume_resized_total";
     vec_Help := "The number of successful volume resizes"; vec_Labels := ["name"; "namespace"] |}.

(* pkg/metrics/metrics.go:189-195 Register *)
Definition VolumeResizedErrorTotal : vec :=
  {| vec_Var := "VolumeResizedErrorTotal"; vec_Kind := Counter; vec_Subsystem := clusteringSubsystem; vec_Name := "volume_resized_errors_total";
     vec_Help := "The number of failed volume resizes"; vec_Labels := ["name"; "namespace"] |}.

(* pkg/metrics/metrics.go:197-203 Register *)
Definition StatefulSetRecreateTotal : vec :=
  {| vec_Var := "StatefulSetRecreateTotal"; vec_Kind := Counter; vec_Subsystem := clusteringSubsystem; vec_Name := "statefulset_recreate_total";
     vec_Help := "The number of successful StatefulSet recreates"; vec_Labels := ["name"; "namespace"] |}.

(* pkg/metrics/metrics.go:205-211 Register *)
Definition StatefulSetRecreateErrorTotal : vec :=
  {| vec_Var := "StatefulSetRecreateErrorTotal"; vec_Kind := Counter; vec_Subsystem := clusteringSubsystem; vec_Name := "statefulset_recreate_errors_total";
     vec_Help := "The number of failed StatefulSet recreates"; vec_Labels := ["name"; "namespace"] |}.

(* pkg/metrics/metrics.go:213-219 Register *)
Definition ClusteringStoppedVec : vec :=
  {| vec_Var := "ClusteringStoppedVec"; vec_Kind := Gauge; vec_Subsystem := clusteringSubsystem; vec_Name := "clustering_stopped";
     vec_Help := "Indicates if clustering has stopped"; vec_Labels := ["name"; "namespace"] |}.

(* pkg/metrics/metrics.go:221-227 Register *)
Definition ReconciliationStoppedVec : vec :=
  {| vec_Var := "ReconciliationStoppedVec"; vec_Kind := Gauge; vec_Subsystem := clusteringSubsystem; vec_Name := "reconciliation_stopped";
     vec_Help := "Indicates if reconciliation has stopped"; vec_Labels := ["name"; "namespace"] |}.

(* pkg/metrics/metrics.go:229-235 Register *)
Definition CurrentReplicasVec : vec :=
  {| vec_Var := "CurrentReplicasVec"; vec_Kind := Gauge; vec_Subsystem := clusteringSubsystem; vec_Name := "current_replicas";
     vec_Help := "The number of current replicas"; vec_Labels := ["name"; "namespace"] |}.

(* pkg/metrics/metrics.go:237-243 Register *)
Definition UpdatedReplicasVec : vec :=
  {| vec_Var := "UpdatedReplicasVec"; vec_Kind := Gauge; vec_Subsystem := clusteringSubsystem; vec_Name := "updated_replicas";
     vec_Help := "The number of updated replicas"; vec_Labels := ["name"; "namespace"] |}.

(* pkg/metrics/metrics.go:245-251 Register *)
Definition LastPartitionUpdatedVec : vec :=
  {| vec_Var := "LastPartitionUpdatedVec"; vec_Kind := Gauge; vec_Subsystem := clusteringSubsystem; vec_Name := "last_partition_updated";
     vec_Help := "The timestamp of the last successful partition update"; vec_Labels := ["name"; "namespace"] |}.

(* pkg/metrics/metrics.go:253-259 Register *)
Definition PartitionUpdateRetriesTotalVec : vec :=
  {| vec_Var := "PartitionUpdateRetriesTotalVec"; vec_Kind := Counter; vec_Subsystem := clusteringSubsystem; vec_Name := "partition_update_retries_total";
     vec_Help := "The number of retries for partition updates"; vec_Labels := ["namespace"] |}.

(** ** Registration *)

(** In the order of [Register]. *)
Definition vectors : list vec :=
  [CheckCountVec; ErrorCountVec; AvailableVec; HealthyVec; SwitchoverCountVec; FailoverCountVec;
   TotalReplicasVec; ReadyReplicasVec; ErrantReplicasVec; ProcessingTimeVec; BackupTimestamp;
   BackupElapsed; BackupDumpSize; BackupBinlogSize; BackupWorkDirUsage; BackupWarnings;
   VolumeResizedTotal; VolumeResizedErrorTotal; StatefulSetRecreateTotal;
   StatefulSetRecreateErrorTotal; ClusteringStoppedVec; ReconciliationStoppedVec; CurrentReplicasVec;
   UpdatedReplicasVec; LastPartitionUpdatedVec; PartitionUpdateRetriesTotalVec].

(** [prometheus.BuildFQName]. *)
Definition vec_FQName (v : vec) : string := metricsNamespace +:+ "_" +:+ vec_Subsystem v +:+ "_" +:+ vec_Name v.

(** [registry.MustRegister]: it panics when [Register] returns an error. *)
Inductive mcall := MRegister (v : vec).
Definition metricsSig : signature := {| call := mcall; resp := λ _, extres unit |}.

Definition MustRegister (v : vec) : prog metricsSig (outcome unit) :=
  r <-- @perform metricsSig (MRegister v) ;;
  Ret (match r with inr _ => Return () | inl e => Panic (error_string e) end).

(* pkg/metrics/metrics.go :: Register *)
Definition Register : prog metricsSig (outcome unit) := for_range vectors () (λ _ v, MustRegister v).

(** The vector of a variable of the package. *)
Definition vector (var : string) : option vec := list_find (λ v, vec_Var v = var) vectors ≫= λ p, Some p.2.

(** The number of values [WithLabelValues] wants; with another number it panics. *)
Definition label_count (var : string) : option nat := length ∘ vec_Labels <$> vector var.

(** ** The metrics of a process *)

(** The variable a field of [metricsSet] is taken from. *)
(* clustering/process.go:71-88 newManagerProcess *)
Definition metric_var (m : metric) : string :=
  match m with
  | checkCount => "CheckCountVec" | errorCount => "ErrorCountVec" | available => "AvailableVec" | healthy => "HealthyVec"
  | switchoverCount => "SwitchoverCountVec" | failoverCount => "FailoverCountVec" | replicas => "TotalReplicasVec"
  | readyReplicas => "ReadyReplicasVec" | errantReplicas => "ErrantReplicasVec" | processingTime => "ProcessingTimeVec"
  | backupTimestamp => "BackupTimestamp" | backupElapsed => "BackupElapsed" | backupDumpSize => "BackupDumpSize"
  | backupBinlogSize => "BackupBinlogSize" | backupWorkDirUsage => "BackupWorkDirUsage" | backupWarnings => "BackupWarnings"
  end.

Definition all_metrics : list metric :=
  [checkCount; errorCount; available; healthy; switchoverCount; failoverCount; replicas; readyReplicas; errantReplicas;
   processingTime; backupTimestamp; backupElapsed; backupDumpSize; backupBinlogSize; backupWorkDirUsage; backupWarnings].

(** The variables of [deleteMetrics] and those that [pauseMetrics] sets to NaN. *)
(* clustering/process.go:89-106 newManagerProcess *)
Definition deleteMetrics : list string :=
  ["CheckCountVec"; "ErrorCountVec"; "AvailableVec"; "HealthyVec"; "SwitchoverCountVec"; "FailoverCountVec"; "TotalReplicasVec";
   "ReadyReplicasVec"; "ErrantReplicasVec"; "ProcessingTimeVec"; "BackupTimestamp"; "BackupElapsed"; "BackupDumpSize";
   "BackupBinlogSize"; "BackupWorkDirUsage"; "BackupWarnings"].
(* clustering/process.go:107-112 newManagerProcess *)
Definition pauseMetrics : list string := ["AvailableVec"; "HealthyVec"; "ReadyReplicasVec"; "ErrantReplicasVec"].
