(* ===== verification/Samples.v ===== *)
(** * A sample cluster

    A concrete three-instance cluster, used to evaluate the definitions: the
    theorems about status sets are instantiated at it. *)

From S2P Require Import Prelude Prog GoLib Constants Api Password Dbop Event Cluster.
#[local] Open Scope Z_scope.

Definition sample_meta : Meta :=
  {| meta_Name := "test"; meta_Namespace := "default"; meta_UID := "0123"; meta_Labels := ∅;
     meta_Annotations := ∅; meta_Generation := 1; meta_DeletionTimestamp := None;
     meta_Finalizers := []; meta_OwnerReferences := [] |}.

Definition sample_object_meta : ObjectMeta :=
  {| om_Name := ""; om_Labels := ∅; om_Annotations := ∅ |}.

Definition sample_spec (n : Z) (src : option string) : MySQLClusterSpec :=
  {| Replicas := n;
     PodTemplate := {| podtmpl_ObjectMeta := sample_object_meta;
                       podtmpl_Spec := {| podspec_Containers := []; podspec_InitContainers := [];
                                          podspec_Volumes := []; podspec_ServiceAccountName := None;
                                          podspec_TerminationGracePeriodSeconds := None;
                                          podspec_SecurityContext := None; podspec_Affinity := None;
                                          podspec_RestartPolicy := None; podspec_Rest := "" |};
                       podtmpl_OverwriteContainers := [] |};
     VolumeClaimTemplates := []; PrimaryServiceTemplate := None; ReplicaServiceTemplate := None;
     MySQLConfigMapName := None; ReplicationSourceSecretName := src; Collectors := [];
     ServerIDBase := 100; MaxDelaySeconds := None; MaxDelaySecondsForPodDeletion := 0;
     StartupWaitSeconds := 3600; LogRotationSchedule := "*/5 * * * *"; LogRotationSize := 0;
     BackupPolicyName := None; Restore := None; DisableSlowQueryLogContainer := false;
     SlowQueryLogConfigTmpl := None; AgentUseLocalhost := false; InitializeTimezoneData := false;
     Offline := false |}.

Definition sample_backup : BackupStatus :=
  {| bk_Time := None; bk_Elapsed := 0; bk_SourceIndex := 0; bk_SourceUUID := ""; bk_UUIDSet := ∅;
     bk_BinlogFilename := ""; bk_GTIDSet := ""; bk_DumpSize := 0; bk_BinlogSize := 0;
     bk_WorkDirUsage := 0; bk_Warnings := [] |}.

Definition sample_cluster_status (primary : Z) : MySQLClusterStatus :=
  {| Conditions := []; CurrentPrimaryIndex := primary; SyncedReplicas := 0; ErrantReplicas := 0;
     ErrantReplicaList := []; Backup := sample_backup; RestoredTime := None; Cloned := false;
     ReconcileInfo_ := {| ri_Generation := 1; ri_ReconcileVersion := 1 |} |}.

Definition sample_cluster (n : Z) (primary : Z) : MySQLCluster :=
  {| cluster_Meta := sample_meta; Spec := sample_spec n None; Status := sample_cluster_status primary |}.

Definition sample_pod (i : Z) (ready demoted : bool) : Pod :=
  {| pod_Name := "moco-test-" +:+ Itoa i; pod_Namespace := "default";
     pod_Labels := {["moco.cybozu.com/role" := if i =? 0 then "primary" else "replica"]};
     pod_Annotations := if demoted then {["moco.cybozu.com/demote" := "true"]} else ∅;
     pod_DeletionTimestamp := None; pod_OwnerReferences := []; pod_PodIP := "10.1.2.3";
     pod_Conditions := [("Ready", if ready then ConditionTrue else ConditionFalse)];
     pod_ContainerReady := [ready]; pod_InitContainerReady := [] |}.

Definition sample_password : MySQLPassword :=
  {| admin := "a"; agent := "b"; replicator := "c"; donor := "d"; exporter := "e";
     backup := "f"; readOnly := "g"; writable := "h" |}.

Definition sample_gv (gtid : string) (ro : bool) : GlobalVariables :=
  {| UUID := "p0"; ExecutedGTID := gtid; PurgedGTID := ""; ReadOnly := ro; SuperReadOnly := ro;
     WaitForSlaveCount := 1; SemiSyncMasterEnabled := true; SemiSyncSlaveEnabled := true |}.

Definition sample_primary_status : MySQLInstanceStatus :=
  {| IsErrant := false; GlobalVariables_ := sample_gv "p0:1-5" false;
     GlobalStatus_ := {| SemiSyncMasterWaitSessions := 0 |};
     ReplicaHosts := (λ i, {| rh_ServerID := 100 + i; rh_Host := ""; rh_Port := 3306; rh_SourceID := 100;
                              rh_ReplicaUUID := ""; rh_User := ""; rh_Password := "" |}) <$> [1; 2];
     ReplicaStatus_ := None; CloneStatus_ := None |}.

Definition sample_replica_status (gtid : string) : MySQLInstanceStatus :=
  {| IsErrant := false; GlobalVariables_ := sample_gv gtid true;
     GlobalStatus_ := {| SemiSyncMasterWaitSessions := 0 |}; ReplicaHosts := [];
     ReplicaStatus_ := Some {| LastIoErrno := 0; LastIoError := ""; LastSQLErrno := 0; LastSQLError := "";
                               SourceHost := "moco-test-0.moco-test.default.svc";
                               RetrievedGtidSet := gtid; ExecutedGtidSet := gtid;
                               ReplicaIORunning := "Yes"; ReplicaSQLRunning := "Yes";
                               SecondsBehindSource := None |};
     CloneStatus_ := None |}.

(** A status set of the three-instance cluster with primary 0: [demoted] marks
    its Pod; [statuses] are the answers of the instances. *)
Definition sample_ss (demoted : bool) (statuses : list (option MySQLInstanceStatus)) : StatusSet :=
  {| Primary := 0; Cluster := sample_cluster 3 0; Password_ := sample_password;
     Pods := [Some (sample_pod 0 true demoted); Some (sample_pod 1 true false); Some (sample_pod 2 true false)];
     DBOps := Some ∘ OpSQL <$> [0; 1; 2]; MySQLStatus := statuses;
     ss_ExecutedGTID := match statuses with
                        | Some st :: _ => ExecutedGTID (GlobalVariables_ st)
                        | _ => ""
                        end;
     Errants := []; Candidates := []; NeedSwitch := false; PreventPodDeletion := false; Candidate := 0;
     State := StateUndecided |}.

(** All instances up. *)
Definition sample_healthy (demoted : bool) : StatusSet :=
  sample_ss demoted [Some sample_primary_status; Some (sample_replica_status "p0:1-5");
                     Some (sample_replica_status "p0:1-4")].

(** The primary is down. *)
Definition sample_failed : StatusSet :=
  sample_ss false [None; Some (sample_replica_status "p0:1-4"); Some (sample_replica_status "p0:1-5")].

(** An environment in which every call succeeds: the API server serves
    [cluster] and its Pods, instance [i] answers with the [i]-th status, and
    GTID sets of one server are compared by the number of transactions. *)
Definition gtid_count (s : string) : Z := Z.max 0 (default 0 (Atoi (last_field "-" s))).

Definition sample_env (cluster : MySQLCluster) (statuses : list MySQLInstanceStatus)
    (c : ccall) (u : unit) : cresp c * unit :=
  (match c return cresp c with
   | GetCluster => inr cluster
   | GetSecret _ _ => inr (ToSecret sample_password)
   | ListPods _ _ => inr ((λ i, sample_pod i true false) <$> [0; 1; 2])
   | PatchPod _ _ => inr ()
   | UpdateStatus _ => inr ()
   | Resolve _ => inr "10.1.2.3"
   | SqlOpen _ _ => inr ()
   | DB i m =>
       match m return opresp m with
       | GetStatus => match index_at statuses i with Some st => inr st | None => inl ErrBadConnection end
       | SubtractGTID _ _ => inr ""
       | IsSubsetGTID a b => inr (gtid_count a <=? gtid_count b)
       | _ => inr ()
       end
   | SelectDone _ => Some (inr ())
   | RecvDone => inr ()
   | AgentNew _ => inr ()
   | AgentClone _ _ => inr ()
   | TickOrDone => false
   | _ => ()
   end, u).

Definition sample_statuses : list MySQLInstanceStatus :=
  [sample_primary_status; sample_replica_status "p0:1-5"; sample_replica_status "p0:1-4"].

(** The primary is read-only and replica 2 was just initialized. *)
Definition sample_new_instance : MySQLInstanceStatus :=
  {| IsErrant := false; GlobalVariables_ := sample_gv "" false;
     GlobalStatus_ := {| SemiSyncMasterWaitSessions := 0 |}; ReplicaHosts := [];
     ReplicaStatus_ := None; CloneStatus_ := None |}.
Definition sample_readonly_primary : MySQLInstanceStatus :=
  {| IsErrant := false; GlobalVariables_ := sample_gv "p0:1-5" true;
     GlobalStatus_ := {| SemiSyncMasterWaitSessions := 0 |}; ReplicaHosts := [];
     ReplicaStatus_ := None; CloneStatus_ := None |}.
Definition sample_incomplete : StatusSet :=
  sample_ss false [Some sample_readonly_primary; Some (sample_replica_status "p0:1-5"); Some sample_new_instance].

(** The cluster taken offline: its Pods are gone. *)
Definition sample_offline : MySQLCluster :=
  {| cluster_Meta := sample_meta;
     Spec := {| Replicas := 3; PodTemplate := PodTemplate (sample_spec 3 None); VolumeClaimTemplates := [];
                PrimaryServiceTemplate := None; ReplicaServiceTemplate := None; MySQLConfigMapName := None;
                ReplicationSourceSecretName := None; Collectors := []; ServerIDBase := 100;
                MaxDelaySeconds := None; MaxDelaySecondsForPodDeletion := 0; StartupWaitSeconds := 3600;
                LogRotationSchedule := ""; LogRotationSize := 0; BackupPolicyName := None; Restore := None;
                DisableSlowQueryLogContainer := false; SlowQueryLogConfigTmpl := None;
                AgentUseLocalhost := false; InitializeTimezoneData := false; Offline := true |};
     Status := sample_cluster_status 0 |}.

Definition sample_offline_env (c : ccall) (u : unit) : cresp c * unit :=
  (match c return cresp c with
   | ListPods _ _ => inr []
   | Resolve _ => inl (ErrExt KindNotFound "not found")
   | c => (sample_env sample_offline [] c u).1
   end, u).

(** ** A cluster the webhook admits *)

Definition sample_claim (size : Z) : PersistentVolumeClaim :=
  {| pvct_ObjectMeta := {| om_Name := MySQLDataVolumeName; om_Labels := ∅; om_Annotations := ∅ |};
     pvct_StorageClassName := Some "fast"; pvct_Requests := Some (Some size);
     pvct_AccessModes := None; pvct_VolumeMode := None; pvct_Rest := "" |}.

Definition sample_mysqld : Container :=
  {| container_Name := Some MysqldContainerName; container_Image := Some "mysql:8.4"; container_Command := [];
     container_Args := []; container_Ports := []; container_Env := []; container_EnvFrom := [];
     container_Resources := None; container_VolumeMounts := []; container_StartupProbe := None;
     container_LivenessProbe := None; container_ReadinessProbe := None; container_Lifecycle := None;
     container_SecurityContext := None; container_Rest := "" |}.

(** [n] replicas with a claim of [size] and some volumes in the Pod template. *)
Definition cluster_with_volumes (volumes : list Volume) (n size : Z) : MySQLCluster :=
  let s := sample_spec n None in
  {| cluster_Meta := sample_meta;
     Spec := {| Replicas := n;
       PodTemplate := {| podtmpl_ObjectMeta := sample_object_meta;
                         podtmpl_Spec := {| podspec_Containers := [sample_mysqld]; podspec_InitContainers := [];
                                            podspec_Volumes := volumes; podspec_ServiceAccountName := None;
                                            podspec_TerminationGracePeriodSeconds := None;
                                            podspec_SecurityContext := None; podspec_Affinity := None;
                                            podspec_RestartPolicy := None; podspec_Rest := "" |};
                         podtmpl_OverwriteContainers := [] |};
       VolumeClaimTemplates := [sample_claim size]; PrimaryServiceTemplate := None; ReplicaServiceTemplate := None;
       MySQLConfigMapName := None; ReplicationSourceSecretName := None; Collectors := [];
       ServerIDBase := 100; MaxDelaySeconds := None; MaxDelaySecondsForPodDeletion := 0;
       StartupWaitSeconds := 3600; LogRotationSchedule := LogRotationSchedule s; LogRotationSize := 0;
       BackupPolicyName := None; Restore := None; DisableSlowQueryLogContainer := false;
       SlowQueryLogConfigTmpl := None; AgentUseLocalhost := false; InitializeTimezoneData := false;
       Offline := false |};
     Status := sample_cluster_status 0 |}.

Definition admissible_cluster : Z → Z → MySQLCluster := cluster_with_volumes [].
