(* ===== verification/Status.v ===== *)
(** * Deciding the state of a cluster (clustering/status.go)

    The predicates on a [StatusSet] and [DecideState].  In these functions
    [None] is a run-time panic (an index out of range or a nil Pod).  The
    functions that append to [ss.Candidates] return the new list. *)

From S2P Require Import Prelude Prog GoLib Constants Api Password Dbop Event Cluster.
#[local] Open Scope Z_scope.

(** ** Helpers *)

(* clustering/status.go :: containErrantTransactions *)
Definition containErrantTransactions (primaryUUID gtidSet : string) : option bool :=
  if primaryUUID =s "" then None
  else if gtidSet =s "" then Some false
  else
    let fix go (sets : list string) : bool :=
      match sets with
      | [] => false
      | uuidSet :: rest =>
          if default "" (head (split_n2 ":" uuidSet)) <>s primaryUUID then true else go rest
      end in
    Some (go (split_on "," gtidSet)).

(* clustering/status.go :: isErrantReplica *)
Definition isErrantReplica (ss : StatusSet) (index : Z) : option bool :=
  ist ← index_at (MySQLStatus ss) index;
  match ist with
  | Some st => if IsErrant st then Some true else Some (bool_decide (index ∈ Errants ss))
  | None => Some (bool_decide (index ∈ Errants ss))
  end.

(* clustering/status.go :: isPodReady *)
Fixpoint podConditionsReady (conds : list (string * ConditionStatus)) : bool :=
  match conds with
  | [] => false
  | (typ, st) :: rest =>
      if typ <>s PodReady then podConditionsReady rest
      else if bool_decide (st = ConditionTrue) then true
      else podConditionsReady rest
  end.

Definition isPodReady (pod : Pod) : bool := podConditionsReady (pod_Conditions pod).

(* clustering/status.go :: replicasInCluster *)
Definition replicasInCluster (cluster : MySQLCluster) (rs : list ReplicaHost) : Z :=
  foldl (λ n r,
           if (ServerIDBase (Spec cluster) <=? rh_ServerID r) &&
              (rh_ServerID r <? wrap32 (ServerIDBase (Spec cluster) + Replicas (Spec cluster)))
           then wrap32 (n + 1) else n) 0 rs.

Fixpoint lostDataLoop (primary : Z) (l : list (Z * option MySQLInstanceStatus)) : bool :=
  match l with
  | [] => false
  | (i, ist) :: rest =>
      if i =? primary then lostDataLoop primary rest else
      match ist with
      | None => lostDataLoop primary rest
      | Some st => if ExecutedGTID (GlobalVariables_ st) <>s "" then true
                   else lostDataLoop primary rest
      end
  end.

(* clustering/status.go :: lostData *)
Definition lostData (ss : StatusSet) : bool :=
  if ss_ExecutedGTID ss <>s "" then false
  else lostDataLoop (Primary ss) (indexed (MySQLStatus ss)).

(** The primary's read-only mode is the expected one: super_read_only for an
    intermediate primary, writable otherwise. *)
(* clustering/status.go:432-440 isHealthy *)
Definition primaryModeOk (ss : StatusSet) (pst : MySQLInstanceStatus) : bool :=
  match ReplicationSourceSecretName (Spec (Cluster ss)) with
  | Some _ => SuperReadOnly (GlobalVariables_ pst)
  | None => negb (ReadOnly (GlobalVariables_ pst))
  end.

(** ** isHealthy *)

Fixpoint allPodsReady (pods : list (option Pod)) : option bool :=
  match pods with
  | [] => Some true
  | None :: _ => None
  | Some pod :: rest => if isPodReady pod then allPodsReady rest else Some false
  end.

Fixpoint healthyLoop (primary : Z) (primaryHostname : string)
    (l : list (Z * option MySQLInstanceStatus)) (cands : list Z) : bool * list Z :=
  match l with
  | [] => (true, cands)
  | (i, ist) :: rest =>
      if i =? primary then healthyLoop primary primaryHostname rest cands else
      match ist with
      | None => (false, cands)
      | Some st =>
          if IsErrant st then (false, cands) else
          if negb (SuperReadOnly (GlobalVariables_ st)) then (false, cands) else
          match ReplicaStatus_ st with
          | None => (false, cands)
          | Some rs =>
              if SourceHost rs <>s primaryHostname then (false, cands)
              else healthyLoop primary primaryHostname rest (cands ++ [i])
          end
      end
  end.

(* clustering/status.go :: isHealthy *)
Definition isHealthy (ss : StatusSet) : option (bool * list Z) :=
  ready ← allPodsReady (Pods ss);
  if negb ready then Some (false, Candidates ss) else
  let primaryHostname := PodHostname (Cluster ss) (Primary ss) in
  let '(ok, cands) := healthyLoop (Primary ss) primaryHostname (indexed (MySQLStatus ss)) (Candidates ss) in
  if negb ok then Some (false, cands) else
  pst ← index_at (MySQLStatus ss) (Primary ss);
  match pst with
  | None => Some (false, cands)
  | Some pst =>
      if negb (replicasInCluster (Cluster ss) (ReplicaHosts pst)
               =? wrap32 (Replicas (Spec (Cluster ss)) - 1)) then Some (false, cands)
      else Some (primaryModeOk ss pst, cands)
  end.

(** ** isCloning, isRestoring *)

(* clustering/status.go :: isCloning *)
Definition isCloning (ss : StatusSet) : option bool :=
  match ReplicationSourceSecretName (Spec (Cluster ss)) with
  | None => Some false
  | Some _ =>
      if Cloned (Status (Cluster ss)) then Some false else
      pst ← index_at (MySQLStatus ss) (Primary ss);
      match pst with
      | None => Some true
      | Some pst =>
          match CloneStatus_ pst with
          | Some cs => Some (null_string (cs_State cs) <>s "Completed")
          | None => Some (ExecutedGTID (GlobalVariables_ pst) =s "")
          end
      end
  end.

(* clustering/status.go :: isRestoring *)
Definition isRestoring (ss : StatusSet) : bool :=
  match Restore (Spec (Cluster ss)) with
  | None => false
  | Some _ => match RestoredTime (Status (Cluster ss)) with
              | Some _ => false
              | None => true
              end
  end.

(** ** isDegraded *)

Fixpoint degradedLoop (ss : StatusSet) (primaryHostname : string)
    (l : list (Z * option MySQLInstanceStatus)) (okReplicas : Z) (cands : list Z)
    : option (Z * list Z) :=
  match l with
  | [] => Some (okReplicas, cands)
  | (i, ist) :: rest =>
      let continue := degradedLoop ss primaryHostname rest okReplicas cands in
      if i =? Primary ss then continue else
      match ist with
      | None => continue
      | Some st =>
          opod ← index_at (Pods ss) i;
          pod ← opod;
          if negb (isPodReady pod) then continue else
          if negb (SuperReadOnly (GlobalVariables_ st)) then continue else
          match ReplicaStatus_ st with
          | None => continue
          | Some rs =>
              if SourceHost rs <>s primaryHostname then continue else
              if IsErrant st then continue else
              degradedLoop ss primaryHostname rest (okReplicas + 1) (cands ++ [i])
          end
      end
  end.

(* clustering/status.go :: isDegraded *)
Definition isDegraded (ss : StatusSet) : option (bool * list Z) :=
  let no := Some (false, Candidates ss) in
  oppod ← index_at (Pods ss) (Primary ss);
  ppod ← oppod;
  if negb (isPodReady ppod) then no else
  if lostData ss then no else
  opst ← index_at (MySQLStatus ss) (Primary ss);
  match opst with
  | None => no
  | Some pst =>
      if negb (primaryModeOk ss pst) then no else
      let n := Replicas (Spec (Cluster ss)) in
      if replicasInCluster (Cluster ss) (ReplicaHosts pst) <? Z.quot n 2 then no else
      r ← degradedLoop ss (PodHostname (Cluster ss) (Primary ss))
            (indexed (MySQLStatus ss)) 0 (Candidates ss);
      let '(okReplicas, cands) := (r : Z * list Z) in
      Some ((Z.quot n 2 <=? okReplicas) && negb (okReplicas =? wrap32 (n - 1)), cands)
  end.

(** ** isFailed, isLost, isOffline, needSwitch *)

(** A running replica with data and no errant transaction, the test of the
    loops of isFailed and isLost. *)
Definition hasData (st : MySQLInstanceStatus) : bool :=
  match ReplicaStatus_ st with
  | None => false
  | Some _ => negb (IsErrant st) && (ExecutedGTID (GlobalVariables_ st) <>s "")
  end.

(* clustering/status.go:542-560 isFailed *)
Fixpoint okReplicasLoop (primary : Z) (l : list (Z * option MySQLInstanceStatus)) (okReplicas : Z) : Z :=
  match l with
  | [] => okReplicas
  | (i, ist) :: rest =>
      if i =? primary then okReplicasLoop primary rest okReplicas else
      match ist with
      | None => okReplicasLoop primary rest okReplicas
      | Some st => okReplicasLoop primary rest (if hasData st then okReplicas + 1 else okReplicas)
      end
  end.

(* clustering/status.go :: isFailed *)
Definition isFailed (ss : StatusSet) : option bool :=
  pst ← index_at (MySQLStatus ss) (Primary ss);
  if bool_decide (is_Some pst) && negb (lostData ss) then Some false
  else Some (Z.quot (Replicas (Spec (Cluster ss))) 2
             <? okReplicasLoop (Primary ss) (indexed (MySQLStatus ss)) 0).

(* clustering/status.go :: isLost *)
Definition isLost (ss : StatusSet) : option bool :=
  pst ← index_at (MySQLStatus ss) (Primary ss);
  if bool_decide (is_Some pst) && negb (lostData ss) then Some false
  else Some (okReplicasLoop (Primary ss) (indexed (MySQLStatus ss)) 0
             <=? Z.quot (Replicas (Spec (Cluster ss))) 2).

(* clustering/status.go :: isOffline *)
Definition isOffline (ss : StatusSet) : bool := Offline (Spec (Cluster ss)).

(* clustering/status.go :: needSwitch *)
Definition needSwitch (pod : Pod) : bool :=
  match pod_DeletionTimestamp pod with
  | Some _ => true
  | None => map_str (pod_Annotations pod) AnnDemote =s "true"
  end.

(** ** DecideState *)

(** The switch of [DecideState]: the state and [ss.Candidates] afterwards. *)
Definition decideSwitch (ss : StatusSet) : option (ClusterState * list Z) :=
  if isOffline ss then Some (StateOffline, Candidates ss) else
  cloning ← isCloning ss;
  if (cloning : bool) then Some (StateCloning, Candidates ss) else
  if isRestoring ss then Some (StateRestoring, Candidates ss) else
  h ← isHealthy ss;
  let '(isH, cands) := (h : bool * list Z) in
  if isH then Some (StateHealthy, cands) else
  d ← isDegraded (set_Candidates cands ss);
  let '(isD, cands) := (d : bool * list Z) in
  if isD then Some (StateDegraded, cands) else
  failed ← isFailed ss;
  if (failed : bool) then Some (StateFailed, cands) else
  lost ← isLost ss;
  if (lost : bool) then Some (StateLost, cands) else Some (StateIncomplete, cands).

(* clustering/status.go :: DecideState *)
Definition DecideState (ss : StatusSet) : option StatusSet :=
  sc ← decideSwitch ss;
  let '(st, cands) := (sc : ClusterState * list Z) in
  match cands with
  | [] => Some (set_decision cands (NeedSwitch ss) (Candidate ss) st ss)
  | _ =>
      oppod ← index_at (Pods ss) (Primary ss);
      ppod ← oppod;
      let sorted := sort_ints cands in
      cand ← index_at sorted 0;
      Some (set_decision sorted (needSwitch ppod) cand st ss)
  end.
