(* ===== verification/StatusSpec.v ===== *)
(** * What DecideState promises (docs/clustering.md, "Possible states")

    The states of a cluster as the documentation defines them, stated over a
    [StatusSet] without the control flow of the code, and the proof that
    [DecideState] decides exactly that classification, never panics on the sets
    that [GatherStatus] builds, and picks a sound switchover target. *)

From S2P Require Import Prelude Prog GoLib Constants Api Password Dbop Event Cluster Samples Status.
#[local] Open Scope Z_scope.

(** ** Well-formed status sets *)

(** What [GatherStatus] establishes before it calls [DecideState]: one slot
    for each of the [Replicas] instances, a primary that is one of them, and,
    unless the cluster is offline, every Pod present. *)
Record wf (ss : StatusSet) : Prop := {
  wf_replicas : 1 ≤ Replicas (Spec (Cluster ss)) < 2 ^ 31;
  wf_primary : 0 ≤ Primary ss < Replicas (Spec (Cluster ss));
  wf_pods : go_len (Pods ss) = Replicas (Spec (Cluster ss));
  wf_ops : go_len (DBOps ss) = Replicas (Spec (Cluster ss));
  wf_status : go_len (MySQLStatus ss) = Replicas (Spec (Cluster ss));
  wf_present : Offline (Spec (Cluster ss)) = false → Forall is_Some (Pods ss);
  wf_ops_present : Forall is_Some (DBOps ss);
  wf_fresh : Candidates ss = []
}.

(** ** The documented conditions *)

(** A replica that is read-only, connected to the primary, and without errant
    transactions. *)
Definition synced (ss : StatusSet) (st : MySQLInstanceStatus) : bool :=
  SuperReadOnly (GlobalVariables_ st) &&
  match ReplicaStatus_ st with
  | Some rs => SourceHost rs =s PodHostname (Cluster ss) (Primary ss)
  | None => false
  end && negb (IsErrant st).

Definition ready_at (ss : StatusSet) (i : Z) : bool :=
  match index_at (Pods ss) i with
  | Some (Some p) => isPodReady p
  | _ => false
  end.

(** The instance [x] is a replica satisfying [f]. *)
Definition replica_with (ss : StatusSet) (f : Z → MySQLInstanceStatus → bool)
    (x : Z * option MySQLInstanceStatus) : bool :=
  negb (x.1 =? Primary ss) &&
  match x.2 with Some st => f x.1 st | None => false end.

Definition ready_synced (ss : StatusSet) (i : Z) (st : MySQLInstanceStatus) : bool :=
  ready_at ss i && synced ss st.

Definition select {A} (f : A → bool) (l : list A) : list A := filter (λ x, f x = true) l.

(** The replicas satisfying [f], and how many there are. *)
Definition replicas_with (ss : StatusSet) (f : Z → MySQLInstanceStatus → bool) : list Z :=
  (select (replica_with ss f) (indexed (MySQLStatus ss))).*1.

Definition half (ss : StatusSet) : Z := Replicas (Spec (Cluster ss)) / 2.

Definition primary_status (ss : StatusSet) : option MySQLInstanceStatus :=
  default None (index_at (MySQLStatus ss) (Primary ss)).

(** The primary has no transactions although some replica has. *)
Definition primary_lost_data (ss : StatusSet) : Prop :=
  ss_ExecutedGTID ss = "" ∧
  ∃ i st, i ≠ Primary ss ∧ index_at (MySQLStatus ss) i = Some (Some st) ∧
          ExecutedGTID (GlobalVariables_ st) ≠ "".

Definition primary_gone (ss : StatusSet) : Prop :=
  primary_status ss = None ∨ primary_lost_data ss.

Definition doc_offline (ss : StatusSet) : Prop := Offline (Spec (Cluster ss)) = true.

Definition doc_cloning (ss : StatusSet) : Prop :=
  is_Some (ReplicationSourceSecretName (Spec (Cluster ss))) ∧
  Cloned (Status (Cluster ss)) = false ∧
  ∀ pst, primary_status ss = Some pst →
    match CloneStatus_ pst with
    | Some cs => null_string (cs_State cs) ≠ "Completed"
    | None => ExecutedGTID (GlobalVariables_ pst) = ""
    end.

Definition doc_restoring (ss : StatusSet) : Prop :=
  is_Some (Restore (Spec (Cluster ss))) ∧ RestoredTime (Status (Cluster ss)) = None.

(** The number of the cluster's replicas connected to the primary. *)
Definition connected (ss : StatusSet) (pst : MySQLInstanceStatus) : Z :=
  replicasInCluster (Cluster ss) (ReplicaHosts pst).

Definition doc_healthy (ss : StatusSet) : Prop :=
  (∀ i, 0 ≤ i < Replicas (Spec (Cluster ss)) → ready_at ss i = true) ∧
  (∀ i, 0 ≤ i < Replicas (Spec (Cluster ss)) → i ≠ Primary ss →
        ∃ st, index_at (MySQLStatus ss) i = Some (Some st) ∧ synced ss st = true) ∧
  ∃ pst, primary_status ss = Some pst ∧ primaryModeOk ss pst = true ∧
         connected ss pst = Replicas (Spec (Cluster ss)) - 1.

Definition doc_degraded (ss : StatusSet) : Prop :=
  ready_at ss (Primary ss) = true ∧
  ¬ primary_lost_data ss ∧
  (∃ pst, primary_status ss = Some pst ∧ primaryModeOk ss pst = true ∧
          half ss ≤ connected ss pst) ∧
  half ss ≤ go_len (replicas_with ss (ready_synced ss)) ∧
  go_len (replicas_with ss (ready_synced ss)) ≠ Replicas (Spec (Cluster ss)) - 1.

Definition doc_failed (ss : StatusSet) : Prop :=
  primary_gone ss ∧ half ss < go_len (replicas_with ss (λ _, hasData)).

Definition doc_lost (ss : StatusSet) : Prop :=
  primary_gone ss ∧ go_len (replicas_with ss (λ _, hasData)) ≤ half ss.

(** The classification: the first of the documented states that applies. *)
Definition state_spec (ss : StatusSet) (s : ClusterState) : Prop :=
  let initial := doc_offline ss ∨ doc_cloning ss ∨ doc_restoring ss in
  match s with
  | StateOffline => doc_offline ss
  | StateCloning => ¬ doc_offline ss ∧ doc_cloning ss
  | StateRestoring => ¬ doc_offline ss ∧ ¬ doc_cloning ss ∧ doc_restoring ss
  | StateHealthy => ¬ initial ∧ doc_healthy ss
  | StateDegraded => ¬ initial ∧ ¬ doc_healthy ss ∧ doc_degraded ss
  | StateFailed => ¬ initial ∧ ¬ doc_healthy ss ∧ doc_failed ss
  | StateLost => ¬ initial ∧ ¬ doc_healthy ss ∧ doc_lost ss
  | StateIncomplete => ¬ initial ∧ ¬ doc_healthy ss ∧ ¬ doc_degraded ss ∧ ¬ primary_gone ss
  | StateUndecided => False
  end.

(** ** The loops, as filters *)

Lemma select_cons {A} (f : A → bool) x l :
  select f (x :: l) = if f x then x :: select f l else select f l.
Proof. unfold select. rewrite filter_cons. destruct (f x); by repeat case_decide. Qed.

Lemma elem_of_select {A} (f : A → bool) x l : x ∈ select f l ↔ f x = true ∧ x ∈ l.
Proof. unfold select. by rewrite list_elem_of_filter. Qed.

Lemma select_ext {A} (f g : A → bool) l : (∀ x, x ∈ l → f x = g x) → select f l = select g l.
Proof.
  induction l as [|x l IH]; intros H; [done|]. rewrite !select_cons.
  rewrite (H x), IH; [done| |]; intros; try apply H; set_solver.
Qed.

Lemma select_sublist {A} (f : A → bool) l : select f l `sublist_of` l.
Proof. induction l as [|x l IH]; [done|]. rewrite select_cons. destruct (f x); by constructor. Qed.

Lemma replica_with_pair ss f i ist :
  replica_with ss f (i, ist) =
  negb (i =? Primary ss) && match ist with Some st => f i st | None => false end.
Proof. done. Qed.

Lemma synced_eq ss st :
  synced ss st = SuperReadOnly (GlobalVariables_ st) &&
    match ReplicaStatus_ st with
    | Some rs => SourceHost rs =s PodHostname (Cluster ss) (Primary ss)
    | None => false
    end && negb (IsErrant st).
Proof. done. Qed.

Lemma okReplicasLoop_count ss l k :
  okReplicasLoop (Primary ss) l k = k + go_len (select (replica_with ss (λ _, hasData)) l).
Proof.
  revert k. induction l as [|[i ist] l IH]; intros k; simpl; [unfold go_len; simpl; lia|].
  rewrite select_cons, replica_with_pair. simpl.
  destruct (i =? Primary ss); simpl; [apply IH|].
  destruct ist as [st|]; [|apply IH]. rewrite IH.
  destruct (hasData st); unfold go_len; simpl; lia.
Qed.

Lemma degradedLoop_select ss l k cands :
  (∀ i ist, (i, ist) ∈ l → ∃ p, index_at (Pods ss) i = Some (Some p)) →
  degradedLoop ss (PodHostname (Cluster ss) (Primary ss)) l k cands =
  let sel := (select (replica_with ss (ready_synced ss)) l).*1 in
  Some (k + go_len sel, cands ++ sel).
Proof.
  revert k cands. induction l as [|[i ist] l IH]; intros k cands Hpods; cbn zeta.
  { simpl. rewrite app_nil_r, go_len_nil. apply f_equal, f_equal2; [lia|done]. }
  rewrite select_cons, replica_with_pair. simpl.
  assert (∀ i ist, (i, ist) ∈ l → ∃ p, index_at (Pods ss) i = Some (Some p)) as Hl
    by (intros; eapply Hpods; by right).
  destruct (Hpods i ist) as [p Hp]; [by left|].
  destruct (i =? Primary ss); simpl; [by apply IH|].
  destruct ist as [st|]; [|by apply IH].
  assert (ready_synced ss i st = isPodReady p && synced ss st) as ->
    by (unfold ready_synced, ready_at; by rewrite Hp).
  rewrite Hp, synced_eq. simpl.
  destruct (isPodReady p); simpl; [|by apply IH].
  destruct (SuperReadOnly _); simpl; [|by apply IH].
  destruct (ReplicaStatus_ st) as [rs|]; simpl; [|by apply IH].
  destruct (SourceHost rs =s _); simpl; [|by apply IH].
  destruct (IsErrant st); simpl; [by apply IH|].
  rewrite IH by done. cbn zeta. rewrite <- app_assoc.
  apply f_equal, f_equal2; [rewrite go_len_cons; unfold fmap; lia|done].
Qed.

Lemma healthyLoop_select ss l cands :
  ∃ c, healthyLoop (Primary ss) (PodHostname (Cluster ss) (Primary ss)) l cands =
       (forallb (λ x : Z * option MySQLInstanceStatus,
           (x.1 =? Primary ss) || replica_with ss (λ _, synced ss) x) l, cands ++ c) ∧
       c ⊆ (select (replica_with ss (λ _, synced ss)) l).*1 ∧
       (forallb (λ x : Z * option MySQLInstanceStatus,
           (x.1 =? Primary ss) || replica_with ss (λ _, synced ss) x) l = true →
        c = (select (replica_with ss (λ _, synced ss)) l).*1).
Proof.
  revert cands. induction l as [|[i ist] l IH]; intros cands; simpl.
  { exists []. rewrite app_nil_r. split_and!; [done|set_solver|done]. }
  rewrite select_cons, !replica_with_pair. simpl.
  destruct (i =? Primary ss) eqn:Hi; simpl; [apply IH|].
  destruct ist as [st|]; simpl;
    [|exists []; rewrite app_nil_r; split_and!; [done|set_solver|done]].
  rewrite !synced_eq.
  destruct (IsErrant st); simpl.
  { rewrite !andb_false_r. exists []. rewrite app_nil_r. split_and!; [done|set_solver|done]. }
  destruct (SuperReadOnly _); simpl;
    [|exists []; rewrite app_nil_r; split_and!; [done|set_solver|done]].
  destruct (ReplicaStatus_ st) as [rs|]; simpl;
    [|exists []; rewrite app_nil_r; split_and!; [done|set_solver|done]].
  destruct (SourceHost rs =s _); simpl;
    [|exists []; rewrite app_nil_r; split_and!; [done|set_solver|done]].
  destruct (IH (cands ++ [i])) as (c & -> & Hsub & Hall).
  exists (i :: c). rewrite <- app_assoc. split_and!; [done|set_solver|].
  intros Hb. by rewrite Hall.
Qed.

(** ** The predicates decide the documented conditions *)

Lemma lostDataLoop_true primary l :
  lostDataLoop primary l = true ↔
  ∃ i st, i ≠ primary ∧ (i, Some st) ∈ l ∧ ExecutedGTID (GlobalVariables_ st) ≠ "".
Proof.
  induction l as [|[j ist] l IH]; simpl.
  { split; [done|]. by intros (? & ? & _ & ?%elem_of_nil & _). }
  assert ((∃ i st, i ≠ primary ∧ (i, Some st) ∈ (j, ist) :: l ∧
             ExecutedGTID (GlobalVariables_ st) ≠ "") ↔
          (j ≠ primary ∧ ∃ st, ist = Some st ∧ ExecutedGTID (GlobalVariables_ st) ≠ "") ∨
          lostDataLoop primary l = true) as ->.
  { rewrite IH. setoid_rewrite elem_of_cons. naive_solver. }
  destruct (j =? primary) eqn:Hj; bool_cases; [naive_solver|].
  destruct ist as [st|]; [|naive_solver].
  destruct (ExecutedGTID _ =s "") eqn:He; simpl; bool_cases; naive_solver.
Qed.

Lemma lostData_spec ss : lostData ss = true ↔ primary_lost_data ss.
Proof.
  unfold lostData, primary_lost_data. destruct (ss_ExecutedGTID ss =s "") eqn:He; simpl; bool_cases.
  - rewrite lostDataLoop_true. setoid_rewrite elem_of_indexed. naive_solver.
  - naive_solver.
Qed.

Lemma wf_primary_status ss :
  wf ss → index_at (MySQLStatus ss) (Primary ss) = Some (primary_status ss).
Proof.
  intros Hwf. unfold primary_status.
  destruct (index_at (MySQLStatus ss) (Primary ss)) as [x|] eqn:E; [done|].
  apply index_at_None in E. rewrite (wf_status _ Hwf) in E. by pose proof (wf_primary _ Hwf).
Qed.

Lemma wf_pod ss i :
  wf ss → Offline (Spec (Cluster ss)) = false → 0 ≤ i < Replicas (Spec (Cluster ss)) →
  ∃ p, index_at (Pods ss) i = Some (Some p).
Proof.
  intros Hwf Hoff Hi. rewrite <- (wf_pods _ Hwf), <- index_at_lt in Hi. destruct Hi as [o Ho].
  apply index_at_Some in Ho as [H0 Hl].
  destruct (Forall_lookup_1 _ _ _ _ (wf_present _ Hwf Hoff) Hl) as [p ->].
  exists p. by apply index_at_Some.
Qed.

Lemma wf_waits ss : wf ss → Z.quot (Replicas (Spec (Cluster ss))) 2 = half ss.
Proof. intros Hwf. pose proof (wf_replicas _ Hwf). apply Z.quot_div_nonneg; lia. Qed.

Lemma wf_others ss : wf ss →
  wrap32 (Replicas (Spec (Cluster ss)) - 1) = Replicas (Spec (Cluster ss)) - 1.
Proof. intros Hwf. pose proof (wf_replicas _ Hwf). apply wrap32_id. unfold int32_range. lia. Qed.

Lemma isCloning_spec ss : wf ss → ∃ b, isCloning ss = Some b ∧ (b = true ↔ doc_cloning ss).
Proof.
  intros Hwf. unfold isCloning, doc_cloning. rewrite (wf_primary_status _ Hwf). simpl.
  destruct (ReplicationSourceSecretName _) as [n|].
  2:{ exists false. split; [done|]. split; [done|]. by intros [[? ?] _]. }
  destruct (Cloned _).
  { exists false. split; [done|]. split; [done|]. by intros (_ & ? & _). }
  destruct (primary_status ss) as [pst|]; [|exists true; naive_solver].
  destruct (CloneStatus_ pst) as [cs|] eqn:E; eexists; (split; [done|]);
    rewrite ?negb_true_iff, ?string_eqb_false, ?string_eqb_true;
    (split; [intros H; split_and!; [eauto|done|]; intros ? [= <-]; by rewrite E
            |intros (_ & _ & H); specialize (H pst eq_refl); by rewrite E in H]).
Qed.

Lemma isRestoring_spec ss : isRestoring ss = true ↔ doc_restoring ss.
Proof.
  unfold isRestoring, doc_restoring. destruct (Restore _); [destruct (RestoredTime _)|]; naive_solver.
Qed.

Lemma allPodsReady_spec l :
  Forall is_Some l →
  ∃ b, allPodsReady l = Some b ∧
       (b = true ↔ ∀ i, 0 ≤ i < go_len l →
          match index_at l i with Some (Some p) => isPodReady p | _ => false end = true).
Proof.
  induction 1 as [|o l [p ->] _ (b & Hb & IH)]; simpl.
  { exists true. split; [done|]. split; [|done]. intros _ i Hi. unfold go_len in Hi. simpl in Hi. lia. }
  destruct (isPodReady p) eqn:Hp.
  - exists b. split; [done|]. rewrite IH. split.
    + intros H i Hi. rewrite go_len_cons in Hi. destruct (decide (i = 0)) as [->|]; [done|].
      specialize (H (i - 1) ltac:(lia)). unfold index_at in *.
      destruct (Z.ltb_spec (i - 1) 0); [lia|]. destruct (Z.ltb_spec i 0); [lia|].
      replace (Z.to_nat i) with (S (Z.to_nat (i - 1))) by lia. done.
    + intros H i Hi. specialize (H (i + 1)). rewrite go_len_cons in H.
      specialize (H ltac:(lia)). unfold index_at in *.
      destruct (Z.ltb_spec (i + 1) 0); [lia|]. destruct (Z.ltb_spec i 0); [lia|].
      replace (Z.to_nat (i + 1)) with (S (Z.to_nat i)) in H by lia. done.
  - exists false. split; [done|]. split; [done|]. intros H. specialize (H 0).
    rewrite go_len_cons in H. pose proof (go_len_nonneg l).
    specialize (H ltac:(lia)). simpl in H. congruence.
Qed.

(** Replicas are classified the same way whatever else their Pods say, once
    all Pods are ready. *)
Lemma replicas_with_ready ss :
  wf ss → (∀ i, 0 ≤ i < Replicas (Spec (Cluster ss)) → ready_at ss i = true) →
  replicas_with ss (λ _, synced ss) = replicas_with ss (ready_synced ss).
Proof.
  intros Hwf Hready. unfold replicas_with. f_equal. apply select_ext. intros [i ist] Hin%elem_of_indexed.
  rewrite !replica_with_pair. destruct ist as [st|]; [|done].
  unfold ready_synced. rewrite Hready; [done|].
  rewrite <- (wf_status _ Hwf), <- index_at_lt. eauto.
Qed.

Lemma elem_of_replicas_with ss f i :
  i ∈ replicas_with ss f ↔
  i ≠ Primary ss ∧ ∃ st, index_at (MySQLStatus ss) i = Some (Some st) ∧ f i st = true.
Proof.
  unfold replicas_with. rewrite list_elem_of_fmap. setoid_rewrite elem_of_select. split.
  - intros ([j ist] & -> & Hf & Hin%elem_of_indexed). rewrite replica_with_pair in Hf.
    destruct ist as [st|]; bool_cases; [eauto|done].
  - intros (Hne & st & Hst & Hf). exists (i, Some st).
    rewrite replica_with_pair, Hf, elem_of_indexed. split_and!; [done| |done].
    apply andb_true_iff. rewrite negb_true_iff, Z.eqb_neq. done.
Qed.

Lemma NoDup_replicas_with ss f : NoDup (replicas_with ss f).
Proof.
  unfold replicas_with. pose proof (NoDup_indexed_fst (MySQLStatus ss)) as Hnd.
  eapply sublist_NoDup; [exact Hnd|]. apply fmap_sublist, select_sublist.
Qed.

(** When every replica satisfies [f] there are [Replicas - 1] of them. *)
Lemma all_replicas_with ss f :
  wf ss →
  (∀ i, 0 ≤ i < Replicas (Spec (Cluster ss)) → i ≠ Primary ss →
        ∃ st, index_at (MySQLStatus ss) i = Some (Some st) ∧ f i st = true) →
  go_len (replicas_with ss f) = Replicas (Spec (Cluster ss)) - 1.
Proof.
  intros Hwf Hall. pose proof (wf_primary _ Hwf). pose proof (wf_replicas _ Hwf).
  assert (Primary ss :: replicas_with ss f ≡ₚ upto (Replicas (Spec (Cluster ss)))) as Hperm.
  { apply NoDup_Permutation; [|apply NoDup_upto|].
    - apply NoDup_cons. split; [rewrite elem_of_replicas_with; naive_solver|apply NoDup_replicas_with].
    - intros i. rewrite elem_of_cons, elem_of_replicas_with, elem_of_upto.
      split; [|destruct (decide (i = Primary ss)); [by left|right; split; auto]].
      intros [->|(_ & st & Hst & _)]; [done|].
      rewrite <- (wf_status _ Hwf), <- index_at_lt. eauto. }
  apply Permutation_length in Hperm. simpl in Hperm. rewrite length_upto in Hperm.
  unfold go_len. lia.
Qed.

Lemma isHealthy_spec ss :
  wf ss → Offline (Spec (Cluster ss)) = false →
  ∃ b c, isHealthy ss = Some (b, c) ∧ (b = true ↔ doc_healthy ss) ∧
         c ⊆ replicas_with ss (ready_synced ss) ∧
         (b = true → c = replicas_with ss (ready_synced ss)).
Proof.
  intros Hwf Hoff. unfold isHealthy. rewrite (wf_fresh _ Hwf).
  destruct (allPodsReady_spec (Pods ss) (wf_present _ Hwf Hoff)) as (r & -> & Hr). simpl.
  rewrite (wf_pods _ Hwf) in Hr. fold (ready_at ss) in Hr.
  assert (r = true ↔ ∀ i, 0 ≤ i < Replicas (Spec (Cluster ss)) → ready_at ss i = true) as Hr' by done.
  destruct r; simpl; cycle 1.
  { exists false, []. split_and!; [done| |set_solver|done]. split; [done|]. intros [H _]. by apply Hr'. }
  destruct (healthyLoop_select ss (indexed (MySQLStatus ss)) []) as (c & -> & Hsub & Hall).
  assert (∀ i, 0 ≤ i < Replicas (Spec (Cluster ss)) → ready_at ss i = true) as Hready by by apply Hr'.
  change ((select (replica_with ss (λ _, synced ss)) (indexed (MySQLStatus ss))).*1)
    with (replicas_with ss (λ _, synced ss)) in Hsub, Hall.
  rewrite replicas_with_ready in Hsub, Hall by done.
  set (ok := forallb _ _) in *.
  assert (ok = true ↔ ∀ i, 0 ≤ i < Replicas (Spec (Cluster ss)) → i ≠ Primary ss →
        ∃ st, index_at (MySQLStatus ss) i = Some (Some st) ∧ synced ss st = true) as Hok.
  { unfold ok. rewrite forallb_forall. setoid_rewrite <- list_elem_of_In. split.
    - intros H i Hi Hne. rewrite <- (wf_status _ Hwf), <- index_at_lt in Hi.
      destruct Hi as [ist Hist]. specialize (H (i, ist)). rewrite elem_of_indexed in H.
      specialize (H Hist). rewrite replica_with_pair in H. simpl in H.
      apply Z.eqb_neq in Hne. rewrite Hne in H. simpl in H. destruct ist; [eauto|done].
    - intros H [i ist] Hin%elem_of_indexed. rewrite replica_with_pair. simpl.
      destruct (Z.eqb_spec i (Primary ss)); [done|]. simpl.
      destruct (H i) as (st & Hst & Hs); [|done|].
      + rewrite <- (wf_status _ Hwf), <- index_at_lt. eauto.
      + rewrite Hin in Hst. by simplify_eq. }
  assert (doc_healthy ss ↔ ok = true ∧ ∃ pst, primary_status ss = Some pst ∧
    primaryModeOk ss pst = true ∧ connected ss pst = Replicas (Spec (Cluster ss)) - 1) as Hdoc
    by (unfold doc_healthy; tauto).
  setoid_rewrite Hdoc. clear Hdoc.
  clearbody ok. clear Hok Hr Hr'.
  destruct ok; simpl; [|exists false, c; naive_solver].
  rewrite (wf_primary_status _ Hwf). simpl. rewrite (wf_others _ Hwf).
  destruct (primary_status ss) as [pst|]; [|exists false, c; naive_solver].
  fold (connected ss pst).
  destruct (Z.eqb_spec (connected ss pst) (Replicas (Spec (Cluster ss)) - 1)); simpl;
    [|exists false, c; naive_solver].
  exists (primaryModeOk ss pst), c. naive_solver.
Qed.

Lemma ready_at_pod ss i p : index_at (Pods ss) i = Some (Some p) → ready_at ss i = isPodReady p.
Proof. unfold ready_at. by intros ->. Qed.

Lemma isDegraded_spec ss cs :
  wf ss → Offline (Spec (Cluster ss)) = false →
  ∃ b c, isDegraded (set_Candidates cs ss) = Some (b, cs ++ c) ∧ (b = true ↔ doc_degraded ss) ∧
         (c = [] ∨ c = replicas_with ss (ready_synced ss)) ∧
         (b = true → c = replicas_with ss (ready_synced ss)).
Proof.
  intros Hwf Hoff. unfold isDegraded. cbn [set_Candidates set_decision Pods Primary MySQLStatus Cluster Candidates].
  change (lostData (set_Candidates cs ss)) with (lostData ss).
  destruct (wf_pod ss (Primary ss) Hwf Hoff (wf_primary _ Hwf)) as [p Hp]. rewrite Hp. simpl.
  unfold doc_degraded. setoid_rewrite <- lostData_spec. rewrite (ready_at_pod _ _ _ Hp).
  destruct (isPodReady p); simpl; [|exists false, []; rewrite app_nil_r; naive_solver].
  destruct (lostData ss); [exists false, []; rewrite app_nil_r; naive_solver|].
  rewrite (wf_primary_status _ Hwf). simpl. rewrite (wf_waits _ Hwf), (wf_others _ Hwf).
  destruct (primary_status ss) as [pst|]; [|exists false, []; rewrite app_nil_r; naive_solver].
  change (primaryModeOk (set_Candidates cs ss) pst) with (primaryModeOk ss pst).
  destruct (primaryModeOk ss pst) eqn:Hm; simpl; [|exists false, []; rewrite app_nil_r; naive_solver].
  fold (connected ss pst). destruct (Z.ltb_spec (connected ss pst) (half ss)) as [Hlt|Hge].
  { exists false, []. rewrite app_nil_r. split_and!; [done| |by left|done].
    split; [done|]. intros (_ & _ & (? & [= <-] & _ & ?) & _). lia. }
  pose proof (degradedLoop_select (set_Candidates cs ss) (indexed (MySQLStatus ss)) 0 cs) as Hloop.
  cbn zeta in Hloop. simpl in Hloop. rewrite Hloop.
  2:{ intros i ist Hin%elem_of_indexed. apply (wf_pod ss); [done|done|].
      rewrite <- (wf_status _ Hwf), <- index_at_lt. eauto. }
  clear Hloop. simpl.
  change ((select (replica_with (set_Candidates cs ss) (ready_synced (set_Candidates cs ss)))
             (indexed (MySQLStatus ss))).*1) with (replicas_with ss (ready_synced ss)).
  set (c := replicas_with ss (ready_synced ss)). eexists _, c. split_and!; [done| |by right|done].
  rewrite andb_true_iff, Z.leb_le, negb_true_iff, Z.eqb_neq. naive_solver.
Qed.

Lemma primary_gone_spec ss :
  wf ss →
  index_at (MySQLStatus ss) (Primary ss) = Some (primary_status ss) ∧
  (bool_decide (is_Some (primary_status ss)) && negb (lostData ss) = false ↔ primary_gone ss).
Proof.
  intros Hwf. split; [by apply wf_primary_status|].
  unfold primary_gone. rewrite <- lostData_spec, andb_false_iff, negb_false_iff, bool_decide_eq_false.
  by rewrite <- eq_None_not_Some.
Qed.

Lemma isFailed_isLost_spec ss :
  wf ss →
  ∃ f l, isFailed ss = Some f ∧ isLost ss = Some l ∧
         (f = true ↔ doc_failed ss) ∧ (l = true ↔ doc_lost ss).
Proof.
  intros Hwf. destruct (primary_gone_spec ss Hwf) as [Hp Hg].
  unfold isFailed, isLost, doc_failed, doc_lost. rewrite Hp. simpl.
  rewrite okReplicasLoop_count, (wf_waits _ Hwf). simpl. setoid_rewrite <- Hg.
  replace (go_len (select (replica_with ss (λ _, hasData)) (indexed (MySQLStatus ss))))
    with (go_len (replicas_with ss (λ _, hasData))) by apply go_len_fmap.
  destruct (bool_decide _ && _); [by exists false, false; naive_solver|].
  do 2 eexists. split_and!; [done..| |]; rewrite ?Z.ltb_lt, ?Z.leb_le; naive_solver.
Qed.

(** Everything [decideSwitch] does: its state is the documented one, its
    candidates are ready and synced replicas, all of them when the cluster is
    Healthy or Degraded, and it never panics. *)
Lemma decideSwitch_spec ss :
  wf ss →
  ∃ s c, decideSwitch ss = Some (s, c) ∧ state_spec ss s ∧
         c ⊆ replicas_with ss (ready_synced ss) ∧
         (c ≠ [] → Offline (Spec (Cluster ss)) = false) ∧
         (s = StateHealthy ∨ s = StateDegraded → replicas_with ss (ready_synced ss) ⊆ c).
Proof.
  intros Hwf. unfold decideSwitch, isOffline. rewrite (wf_fresh _ Hwf).
  destruct (Offline _) eqn:Hoff; [exists StateOffline, []; set_solver|].
  assert (¬ doc_offline ss) as Hno by (unfold doc_offline; congruence).
  destruct (isCloning_spec ss Hwf) as (cl & -> & Hcl). simpl.
  destruct cl; [exists StateCloning, []; set_solver|].
  assert (¬ doc_cloning ss) as Hnc by (rewrite <- Hcl; done).
  destruct (isRestoring ss) eqn:Hrs.
  { apply isRestoring_spec in Hrs. exists StateRestoring, []. set_solver. }
  assert (¬ doc_restoring ss) as Hnr by (rewrite <- isRestoring_spec; congruence).
  assert (¬ (doc_offline ss ∨ doc_cloning ss ∨ doc_restoring ss)) as Hni by tauto.
  clear Hcl Hrs. destruct (isHealthy_spec ss Hwf Hoff) as (h & c & -> & Hh & Hsub & Hall). simpl.
  destruct h; [exists StateHealthy, c; split_and!; simpl; [done|tauto|done|done|];
               intros _; by rewrite Hall|].
  assert (¬ doc_healthy ss) as Hnh by (rewrite <- Hh; done). clear Hh Hall.
  destruct (isDegraded_spec ss c Hwf Hoff) as (d & c' & -> & Hd & Hc' & Hdall). simpl.
  assert (c ++ c' ⊆ replicas_with ss (ready_synced ss)) as Hsub'.
  { intros x [?|Hx]%elem_of_app; [auto|]. destruct Hc' as [->| ->]; [by apply elem_of_nil in Hx|done]. }
  destruct d.
  { exists StateDegraded, (c ++ c'). split_and!; simpl; [done|tauto|done|done|].
    intros _. rewrite Hdall by done. set_solver. }
  destruct (isFailed_isLost_spec ss Hwf) as (f & l & -> & -> & Hf & Hl). simpl.
  assert (f = true ∨ l = true ↔ primary_gone ss) as Hgone.
  { rewrite Hf, Hl. unfold doc_failed, doc_lost.
    pose proof (Z.lt_ge_cases (half ss) (go_len (replicas_with ss (λ _, hasData)))). tauto. }
  destruct f; [exists StateFailed, (c ++ c'); split_and!; simpl; naive_solver|].
  destruct l; [exists StateLost, (c ++ c'); split_and!; simpl; naive_solver|].
  exists StateIncomplete, (c ++ c'). split_and!; simpl; naive_solver.
Qed.

(** ** Theorems *)

Lemma half_nonneg ss : wf ss → 0 ≤ half ss.
Proof. intros Hwf. unfold half. pose proof (wf_replicas _ Hwf). apply Z.div_pos; lia. Qed.

Lemma degraded_not_gone ss : doc_degraded ss → ¬ primary_gone ss.
Proof. intros (_ & Hnl & (pst & Hp & _) & _) [?|?]; [congruence|done]. Qed.

(** At most one documented state applies. *)
Lemma state_spec_unique ss s s' : state_spec ss s → state_spec ss s' → s = s'.
Proof.
  pose proof (degraded_not_gone ss).
  destruct s, s'; unfold state_spec, doc_failed, doc_lost; intros; try done; try tauto; lia.
Qed.

(** A Healthy or Degraded cluster of several instances has a replica to switch to. *)
Lemma healthy_or_degraded_has_replica ss s :
  wf ss → 1 < Replicas (Spec (Cluster ss)) → s = StateHealthy ∨ s = StateDegraded →
  state_spec ss s → replicas_with ss (ready_synced ss) ≠ [].
Proof.
  intros Hwf Hn Hs Hspec Hnil.
  assert (1 ≤ half ss) by (unfold half; apply Z.div_le_lower_bound; lia).
  destruct Hs as [-> | ->]; simpl in Hspec.
  - destruct Hspec as [_ (Hready & Hall & _)]. rewrite <- replicas_with_ready in Hnil by done.
    pose proof (all_replicas_with ss (λ _, synced ss) Hwf Hall) as Hl. rewrite Hnil, go_len_nil in Hl. lia.
  - destruct Hspec as (_ & _ & _ & _ & _ & Hl & _). rewrite Hnil, go_len_nil in Hl. lia.
Qed.

Lemma DecideState_inv ss s c :
  wf ss → decideSwitch ss = Some (s, c) →
  (c ≠ [] → Offline (Spec (Cluster ss)) = false) →
  ∃ ss', DecideState ss = Some ss' ∧ State ss' = s ∧
    (c ≠ [] → Candidate ss' ∈ c ∧ (∀ i, i ∈ c → Candidate ss' ≤ i) ∧
              ∃ p, index_at (Pods ss) (Primary ss) = Some (Some p) ∧ NeedSwitch ss' = needSwitch p).
Proof.
  intros Hwf Hd Hoff. unfold DecideState. rewrite Hd. simpl.
  destruct c as [|i c]; [by eexists; split_and!|].
  destruct (wf_pod ss (Primary ss) Hwf (Hoff ltac:(done)) (wf_primary _ Hwf)) as [p Hp].
  rewrite Hp. simpl. destruct (sort_ints (i :: c)) as [|m rest] eqn:Hs.
  { pose proof (sort_ints_perm (i :: c)) as Hperm. rewrite Hs in Hperm.
    by apply Permutation_nil_cons in Hperm. }
  eexists. split_and!; [done|done|]. intros _. simpl.
  destruct (sort_ints_head (i :: c) m rest Hs) as [Hin Hle]. eauto.
Qed.


(** What a Healthy or Degraded cluster with replicas switches to, and when. *)
Lemma DecideState_switch ss ss' :
  wf ss → 1 < Replicas (Spec (Cluster ss)) → DecideState ss = Some ss' →
  State ss' = StateHealthy ∨ State ss' = StateDegraded →
  Candidate ss' ∈ replicas_with ss (ready_synced ss) ∧
  (∀ i, i ∈ replicas_with ss (ready_synced ss) → Candidate ss' ≤ i) ∧
  ∃ p, index_at (Pods ss) (Primary ss) = Some (Some p) ∧ NeedSwitch ss' = needSwitch p.
Proof.
  intros Hwf Hn Heq HS.
  destruct (decideSwitch_spec ss Hwf) as (s & c & Hd & Hs & Hsub & Hoff & Hall).
  destruct (DecideState_inv ss s c Hwf Hd Hoff) as (ss1 & Heq1 & <- & Hc).
  rewrite Heq in Heq1. injection Heq1 as <-. specialize (Hall HS).
  assert (c ≠ []) as Hne.
  { pose proof (healthy_or_degraded_has_replica ss (State ss') Hwf Hn HS Hs) as Hlen.
    intros ->. destruct (replicas_with ss (ready_synced ss)) as [|x l]; [done|].
    specialize (Hall x). set_solver. }
  destruct (Hc Hne) as (Hin & Hle & Hp). split; [by apply Hsub|]. split; [|done].
  intros i Hi. by apply Hle, Hall.
Qed.

(** C26. The switchover target: in a Healthy or Degraded cluster with more than
    one instance, the candidate is the replica with the lowest ordinal among
    the replicas whose Pod is ready and which are read-only, connected to the
    primary and free of errant transactions; a switchover is asked for exactly
    when the primary's Pod is terminating or demoted. *)
Theorem decide_state_candidate ss ss' :
  wf ss → 1 < Replicas (Spec (Cluster ss)) → DecideState ss = Some ss' →
  State ss' = StateHealthy ∨ State ss' = StateDegraded →
  Candidate ss' ≠ Primary ss ∧
  (∃ st, index_at (MySQLStatus ss) (Candidate ss') = Some (Some st) ∧
         ready_synced ss (Candidate ss') st = true) ∧
  (∀ i st, i ≠ Primary ss → index_at (MySQLStatus ss) i = Some (Some st) →
           ready_synced ss i st = true → Candidate ss' ≤ i) ∧
  ∃ p, index_at (Pods ss) (Primary ss) = Some (Some p) ∧ NeedSwitch ss' = needSwitch p.
Proof.
  intros Hwf Hn Heq HS. destruct (DecideState_switch ss ss' Hwf Hn Heq HS) as (Hin & Hle & Hp).
  apply elem_of_replicas_with in Hin as (? & ?). split_and!; [done..| |done].
  intros i st Hi Hst Hr. apply Hle, elem_of_replicas_with. eauto.
Qed.

(** ** GTID sets *)

Lemma join_str_cons sep x y l :
  join_str sep (x :: y :: l) = x +:+ sep +:+ join_str sep (y :: l).
Proof. done. Qed.

Lemma join_str_prefix sep w y l :
  w +:+ join_str sep (y :: l) = join_str sep ((w +:+ y) :: l).
Proof. destruct l; [done|]. rewrite !join_str_cons. by rewrite str_app_assoc. Qed.

Lemma split_on_join sep nl x l :
  no_char sep nl = true → Forall (λ y, no_char sep y = true) (x :: l) →
  split_on sep (join_str (String sep nl) (x :: l)) = x :: ((λ y, nl +:+ y) <$> l).
Proof.
  intros Hnl. revert x. induction l as [|y l IH]; intros x Hall.
  { simpl. apply split_on_no_sep. by apply Forall_inv in Hall. }
  apply Forall_cons in Hall as [Hx Hall]. apply Forall_cons in Hall as [Hy Hall].
  rewrite join_str_cons.
  change (String sep nl +:+ join_str (String sep nl) (y :: l))
    with (String sep (nl +:+ join_str (String sep nl) (y :: l))).
  rewrite split_on_app, (split_on_no_sep _ x), join_str_prefix, IH;
    [done| |done]. constructor; [|done]. unfold no_char in *. by rewrite str_forall_app, Hnl.
Qed.

Lemma containErrantTransactions_existsb p g :
  p ≠ "" → g ≠ "" →
  containErrantTransactions p g =
  Some (existsb (λ u, default "" (head (split_n2 ":" u)) <>s p) (split_on "," g)).
Proof.
  intros Hp Hg. unfold containErrantTransactions.
  destruct (p =s "") eqn:E1; bool_cases; [done|]. destruct (g =s "") eqn:E2; bool_cases; done.
Qed.

(** One [uuid:interval[:interval]...] of a GTID set. *)
Definition render_uuid_set (x : string * string) : string := x.1 +:+ ":" +:+ x.2.

(** mysqld separates the uuid sets of a GTID set by a comma, and by a comma and
    a newline in the values it computes. *)
Definition render_gtid_set (sep : string) (sets : list (string * string)) : string :=
  join_str sep (render_uuid_set <$> sets).

Definition gtid_text (sets : list (string * string)) : Prop :=
  NoDup sets.*1 ∧
  Forall (λ x, no_char "," x.1 = true ∧ no_char ":" x.1 = true ∧
               no_char (Ascii.ascii_of_nat 10) x.1 = true ∧ no_char "," x.2 = true) sets.

(** The errant-transaction test reads GTID sets correctly: on the text of
    a set of transactions grouped by server UUID, in either of the layouts
    mysqld prints, it is true exactly when some transaction comes from a server
    other than the primary. *)
Theorem contain_errant_transactions_spec p nl sets :
  p ≠ "" → no_char (Ascii.ascii_of_nat 10) p = true → nl = "" ∨ nl = newline → gtid_text sets →
  containErrantTransactions p (render_gtid_set ("," +:+ nl) sets) =
  Some (existsb (λ x, x.1 <>s p) sets).
Proof.
  intros Hp Hpn Hnl [Hnd Hall]. destruct sets as [|x sets].
  { unfold containErrantTransactions. apply string_eqb_false in Hp. by rewrite Hp. }
  assert (no_char "," nl = true) as Hc by (by destruct Hnl as [-> | ->]).
  assert (∀ y, y ∈ x :: sets → no_char "," (render_uuid_set y) = true ∧
            head (split_n2 ":" (render_uuid_set y)) = Some y.1) as Hr.
  { intros y Hy. destruct (proj1 (Forall_forall _ _) Hall y Hy) as (H1 & H2 & _ & H4). split.
    - unfold no_char, render_uuid_set in *. rewrite !str_forall_app, H1, H4. done.
    - by apply split_n2_head. }
  rewrite containErrantTransactions_existsb; [|done|].
  2:{ destruct (Hr x ltac:(left)) as [_ Hx]. unfold render_gtid_set.
      destruct x as [[|c u] w]; simpl; by destruct sets. }
  unfold render_gtid_set. change ("," +:+ nl) with (String "," nl). rewrite fmap_cons, split_on_join; [|done|].
  2:{ rewrite <- fmap_cons. apply Forall_fmap, Forall_forall. intros y Hy. by apply Hr. }
  simpl. destruct (Hr x ltac:(left)) as [_ ->]. simpl.
  destruct (x.1 =s p) eqn:Hxp; simpl; [|done]. bool_cases. f_equal.
  apply NoDup_cons in Hnd as [Hfirst _]. destruct sets as [|y sets]; [done|]. simpl.
  assert (y.1 ≠ p) as Hyp by (rewrite <- Hxp; set_solver).
  apply string_eqb_false in Hyp. rewrite Hyp. simpl.
  destruct Hnl as [-> | ->].
  - change ("" +:+ render_uuid_set y) with (render_uuid_set y).
    destruct (Hr y ltac:(right; left)) as [_ ->]. simpl. by rewrite Hyp.
  - change (newline +:+ render_uuid_set y) with ((newline +:+ y.1) +:+ String ":" y.2).
    rewrite split_n2_head.
    + destruct ((newline +:+ y.1) =s p) eqn:E; [bool_cases; by rewrite <- E in Hpn|].
      unfold default. simpl. simpl in E. by rewrite E.
    + destruct (proj1 (Forall_forall _ _) Hall y ltac:(right; left)) as (_ & H2 & _).
      unfold no_char in *. rewrite str_forall_app, H2. done.
Qed.

(** ** Counting the connected replicas *)

Lemma replicasInCluster_foldl base n rs k :
  int32_range base → int32_range (base + n) → 0 ≤ k → k + go_len rs < 2 ^ 31 →
  foldl (λ n' r, if (base <=? rh_ServerID r) && (rh_ServerID r <? wrap32 (base + n))
                 then wrap32 (n' + 1) else n') k rs =
  k + go_len (select (λ r, (base <=? rh_ServerID r) && (rh_ServerID r <? base + n)) rs).
Proof.
  intros Hb Hbn. revert k. induction rs as [|r rs IH]; intros k Hk Hlen.
  { unfold select, go_len. simpl. lia. }
  rewrite go_len_cons in Hlen. pose proof (go_len_nonneg rs).
  rewrite select_cons. simpl. rewrite wrap32_id by done.
  rewrite wrap32_id in IH by done.
  destruct (_ && _).
  - rewrite (wrap32_id (k + 1)) by (unfold int32_range; lia). rewrite IH by lia.
    rewrite go_len_cons. lia.
  - rewrite IH by lia. done.
Qed.

(** [replicasInCluster] counts the connected replicas whose server id is
    one of the cluster's, [ServerIDBase .. ServerIDBase + Replicas - 1], as long
    as that range fits an int32; when the end of the range overflows it, no
    replica is ever counted. *)
Theorem replicas_in_cluster_spec cluster rs :
  let base := ServerIDBase (Spec cluster) in
  let n := Replicas (Spec cluster) in
  0 ≤ base < 2 ^ 31 → 0 ≤ n < 2 ^ 31 → go_len rs < 2 ^ 31 →
  replicasInCluster cluster rs =
  if base + n <? 2 ^ 31
  then go_len (select (λ r, (base <=? rh_ServerID r) && (rh_ServerID r <? base + n)) rs)
  else 0.
Proof.
  intros base n Hb Hn Hlen. unfold replicasInCluster. fold base n.
  destruct (Z.ltb_spec (base + n) (2 ^ 31)).
  - rewrite replicasInCluster_foldl; unfold int32_range; lia.
  - clear Hlen. generalize 0 as k. induction rs as [|r rs IH]; intros k; [done|]. simpl.
    assert (wrap32 (base + n) = base + n - 2 ^ 32) as Hw.
    { unfold wrap32, wrap. change (2 ^ (32 - 1)) with (2 ^ 31).
      rewrite (Zmod_eq_full _ (2 ^ 32)) by lia.
      replace ((base + n + 2 ^ 31) / 2 ^ 32) with 1; [lia|].
      apply Z.div_unique with (base + n + 2 ^ 31 - 2 ^ 32); lia. }
    destruct (Z.leb_spec base (rh_ServerID r)); simpl; [|apply IH].
    destruct (Z.ltb_spec (rh_ServerID r) (wrap32 (base + n))); [lia|apply IH].
Qed.

(** ** The theorems at the sample cluster *)

Lemma sample_ss_wf demoted statuses : go_len statuses = 3 → wf (sample_ss demoted statuses).
Proof.
  intros Hlen. constructor; simpl; try done; try lia.
  - intros _. repeat constructor; eauto.
  - repeat constructor; eauto.
Qed.

Example sample_states :
  State <$> DecideState (sample_healthy true) = Some StateHealthy ∧
  (λ s, (NeedSwitch s, Candidate s)) <$> DecideState (sample_healthy true) = Some (true, 1) ∧
  State <$> DecideState sample_failed = Some StateFailed.
Proof. vm_compute. done. Qed.


Lemma decide_state_candidate_witness :
  ∃ ss', DecideState (sample_healthy true) = Some ss' ∧ Candidate ss' ≠ 0.
Proof.
  destruct (DecideState (sample_healthy true)) as [ss'|] eqn:E; [|by vm_compute in E].
  exists ss'. split; [done|].
  refine (proj1 (decide_state_candidate (sample_healthy true) ss' _ _ E _)).
  - by apply sample_ss_wf.
  - simpl. lia.
  - left. assert (State <$> DecideState (sample_healthy true) = Some StateHealthy) as H
      by (vm_compute; done).
    rewrite E in H. simpl in H. congruence.
Defined.

Lemma contain_errant_transactions_spec_witness :
  containErrantTransactions "aa-0" (render_gtid_set ("," +:+ newline) [("aa-0", "1-5"); ("bb-1", "7")])
  = Some true.
Proof.
  refine (contain_errant_transactions_spec "aa-0" newline [("aa-0", "1-5"); ("bb-1", "7")] _ _ _ _);
    [done|done|by right|].
  split; [|by repeat constructor].
  apply (bool_decide_unpack _). vm_compute. done.
Defined.

Lemma replicas_in_cluster_spec_witness :
  replicasInCluster (sample_cluster 3 0) (ReplicaHosts sample_primary_status) = 2.
Proof.
  refine (replicas_in_cluster_spec (sample_cluster 3 0) (ReplicaHosts sample_primary_status) _ _ _);
    vm_compute; try split; congruence.
Defined.
