(* ===== verification/Servers.v ===== *)
(** * Replicating MySQL servers

    What the statements of pkg/dbop do to the servers of a cluster, as the manual
    of MySQL describes them, and what the methods of its SQL operator therefore do.
    The servers go on replicating and executing between any two statements; only
    what statements set stays.  GTID sets are texts whose meaning is a parameter. *)

From stdpp Require Export functions list.
From S2P Require Import Prelude Prog Worlds GoLib Constants Api Password Dbop Gtid Status StatusSpec.
#[local] Open Scope Z_scope.

(** The transactions a GTID set stands for; only the empty text stands for none. *)
Class GtidSets := {
  transaction : Type;
  gtids : string → transaction → Prop;
  gtids_empty t : ¬ gtids "" t;
  gtids_nonempty s : s ≠ "" → ∃ t, gtids s t;
  gtids_union a b t : a ≠ "" → gtids (a +:+ "," +:+ b) t ↔ gtids a t ∨ gtids b t;
  included_dec :: RelDecision (gtid_subset gtids)
}.

Abbreviation included := (gtid_subset gtids).

#[export] Instance included_preorder {GS : GtidSets} : PreOrder included.
Proof. split; [by intros ??|intros a b c H1 H2 t Ht; by apply H2, H1]. Qed.

Lemma included_none {GS : GtidSets} s : included s "" → s = "".
Proof.
  intros H. destruct (decide (s = "")) as [|(t & Ht)%gtids_nonempty]; [done|]. by apply H, gtids_empty in Ht.
Qed.

(** ** The state of a server *)

Record server := {
  sv_vars : GlobalVariables;
  sv_channel : option ReplicaStatus;  (* its replication channel *)
  sv_clone : option CloneStatus
}.

(** All servers, by ordinal. *)
Abbreviation servers := (Z → server).

Definition with_vars (f : GlobalVariables → GlobalVariables) (sv : server) : server :=
  {| sv_vars := f (sv_vars sv); sv_channel := sv_channel sv; sv_clone := sv_clone sv |}.
Definition with_channel (f : option ReplicaStatus → option ReplicaStatus) (sv : server) : server :=
  {| sv_vars := sv_vars sv; sv_channel := f (sv_channel sv); sv_clone := sv_clone sv |}.

Definition set_modes (ro sro : bool) (gv : GlobalVariables) : GlobalVariables :=
  {| UUID := UUID gv; ExecutedGTID := ExecutedGTID gv; PurgedGTID := PurgedGTID gv; ReadOnly := ro; SuperReadOnly := sro;
     WaitForSlaveCount := WaitForSlaveCount gv; SemiSyncMasterEnabled := SemiSyncMasterEnabled gv;
     SemiSyncSlaveEnabled := SemiSyncSlaveEnabled gv |}.
Definition set_semisync (count : Z) (master slave : bool) (gv : GlobalVariables) : GlobalVariables :=
  {| UUID := UUID gv; ExecutedGTID := ExecutedGTID gv; PurgedGTID := PurgedGTID gv; ReadOnly := ReadOnly gv;
     SuperReadOnly := SuperReadOnly gv; WaitForSlaveCount := count; SemiSyncMasterEnabled := master;
     SemiSyncSlaveEnabled := slave |}.

Definition set_threads (io sql : string) (rs : ReplicaStatus) : ReplicaStatus :=
  {| LastIoErrno := LastIoErrno rs; LastIoError := LastIoError rs; LastSQLErrno := LastSQLErrno rs;
     LastSQLError := LastSQLError rs; SourceHost := SourceHost rs; RetrievedGtidSet := RetrievedGtidSet rs;
     ExecutedGtidSet := ExecutedGtidSet rs; ReplicaIORunning := io; ReplicaSQLRunning := sql;
     SecondsBehindSource := SecondsBehindSource rs |}.
Definition forget_relay_log (rs : ReplicaStatus) : ReplicaStatus :=
  {| LastIoErrno := 0; LastIoError := ""; LastSQLErrno := 0; LastSQLError := ""; SourceHost := SourceHost rs;
     RetrievedGtidSet := ""; ExecutedGtidSet := ExecutedGtidSet rs; ReplicaIORunning := ReplicaIORunning rs;
     ReplicaSQLRunning := ReplicaSQLRunning rs; SecondsBehindSource := None |}.
Definition new_channel (source : AccessInfo) (sv : server) : ReplicaStatus :=
  {| LastIoErrno := 0; LastIoError := ""; LastSQLErrno := 0; LastSQLError := ""; SourceHost := ai_Host source;
     RetrievedGtidSet := ""; ExecutedGtidSet := ExecutedGTID (sv_vars sv); ReplicaIORunning := "No";
     ReplicaSQLRunning := "No"; SecondsBehindSource := None |}.

(** ** Statements *)

(** The server after a statement; [None] when it fails. *)
Definition statement (q : string) (args : list sqlarg) (sv : server) : option server :=
  let vars f := Some (with_vars f sv) in
  let gv := sv_vars sv in
  if q =s "STOP REPLICA" then Some (with_channel (fmap (set_threads "No" "No")) sv) else
  if q =s "STOP REPLICA IO_THREAD" then Some (with_channel (fmap (λ rs, set_threads "No" (ReplicaSQLRunning rs) rs)) sv) else
  if q =s "START REPLICA" then
    match sv_channel sv with
    | None => None
    | Some _ => Some (with_channel (fmap (set_threads "Yes" "Yes")) sv)
    end else
  if q =s "RESET REPLICA" then Some (with_channel (fmap forget_relay_log) sv) else
  if q =s "SET GLOBAL super_read_only=1" then vars (set_modes true true) else
  if q =s "SET GLOBAL read_only=0" then vars (set_modes false false) else
  if q =s "SET GLOBAL rpl_semi_sync_slave_enabled=?" then
    match args with
    | [ArgBool b] => vars (set_semisync (WaitForSlaveCount gv) (SemiSyncMasterEnabled gv) b)
    | _ => None
    end else
  if q =s "SET GLOBAL rpl_semi_sync_master_enabled=OFF" then
    vars (set_semisync (WaitForSlaveCount gv) false (SemiSyncSlaveEnabled gv)) else
  if q =s "SET GLOBAL rpl_semi_sync_master_enabled=ON" then
    vars (set_semisync (WaitForSlaveCount gv) true (SemiSyncSlaveEnabled gv)) else
  if q =s "SET GLOBAL rpl_semi_sync_master_timeout=?" then Some sv else
  if q =s "SET GLOBAL rpl_semi_sync_master_wait_for_slave_count=?" then
    match args with
    | [ArgInt n] => vars (set_semisync n (SemiSyncMasterEnabled gv) (SemiSyncSlaveEnabled gv))
    | _ => None
    end else
  if q =s "KILL CONNECTION ?" then Some sv else None.

(** What a server is configured to do: all but what it has executed so far and
    how far its replication is. *)
Definition unexecuted (gv : GlobalVariables) : GlobalVariables :=
  {| UUID := UUID gv; ExecutedGTID := ""; PurgedGTID := PurgedGTID gv; ReadOnly := ReadOnly gv;
     SuperReadOnly := SuperReadOnly gv; WaitForSlaveCount := WaitForSlaveCount gv;
     SemiSyncMasterEnabled := SemiSyncMasterEnabled gv; SemiSyncSlaveEnabled := SemiSyncSlaveEnabled gv |}.
Definition link (sv : server) : option (string * string * string) :=
  (λ rs, (SourceHost rs, ReplicaIORunning rs, ReplicaSQLRunning rs)) <$> sv_channel sv.
Definition config (sv : server) : GlobalVariables * option (string * string * string) * option CloneStatus :=
  (unexecuted (sv_vars sv), link sv, sv_clone sv).

Definition executed (sv : server) : string := ExecutedGTID (sv_vars sv).
Definition purged (sv : server) : string := PurgedGTID (sv_vars sv).
Definition retrieved (sv : server) : string := default "" (RetrievedGtidSet <$> sv_channel sv).

(** What the server retrieved or executed. *)
Definition received {GS : GtidSets} (sv : server) (t : transaction) : Prop :=
  gtids (retrieved sv) t ∨ gtids (executed sv) t.

Definition receiving (sv : server) : bool :=
  match sv_channel sv with Some rs => ReplicaIORunning rs =s "Yes" | None => false end.
Definition applying (sv : server) : bool :=
  match sv_channel sv with Some rs => ReplicaSQLRunning rs =s "Yes" | None => false end.

(** The channel reports what the server executed. *)
Definition reported (sv : server) : Prop :=
  ∀ rs, sv_channel sv = Some rs → ExecutedGtidSet rs = executed sv.

(** The server executes what it retrieves. *)
Definition replicating (sv : server) : bool :=
  match sv_channel sv with Some rs => (ReplicaIORunning rs =s "Yes") && (ReplicaSQLRunning rs =s "Yes") | None => false end.

(** Nothing makes the server execute transactions. *)
Definition idle (sv : server) : Prop :=
  SuperReadOnly (sv_vars sv) = true ∧
  match sv_channel sv with Some rs => ReplicaSQLRunning rs ≠ "Yes" | None => True end.

(** ** The servers of a cluster *)

Section world.
Context {GS : GtidSets}.
(** Clients write on the server [p] only; [version] is that of all servers. *)
Context (cl : MySQLCluster) (p : Z) (up : Z → bool) (version : string).
Implicit Types (sv : server) (i j : Z).

(** Every server that is up retrieved and executed only what [p] has. *)
Definition within (S : servers) : Prop :=
  ∀ i, up i = true → included (executed (S i)) (executed (S p)) ∧ included (retrieved (S i)) (executed (S p)).

(** The replicas that are up received the transactions in one order. *)
Definition ordered (S : servers) : Prop :=
  ∀ i j, up i = true → i ≠ p → up j = true → j ≠ p →
    (∀ t, received (S i) t → received (S j) t) ∨ (∀ t, received (S j) t → received (S i) t).

(** [sv] went on by itself and is [sv'] now. *)
Definition goes_on sv sv' : Prop :=
  config sv' = config sv ∧ included (executed sv) (executed sv') ∧ (idle sv → executed sv' = executed sv) ∧
  included (retrieved sv) (retrieved sv') ∧ (reported sv → reported sv').

(** All went on: what a server that does not receive has stays, [p] apart. *)
Definition evolve (S S' : servers) : Prop :=
  (∀ i, goes_on (S i) (S' i)) ∧ (within S → within S') ∧ (within S → ordered S → ordered S') ∧
  (∀ i t, i ≠ p → receiving (S i) = false → received (S' i) t → received (S i) t).

(** [i] replicates from [j]. *)
Definition connected_to (S : servers) j i : bool :=
  (0 <=? i) && (i <? Replicas (Spec cl)) && negb (i =? j) && up i &&
  match link (S i) with
  | Some (host, io, _) => (host =s PodHostname cl j) && (io =s "Yes")
  | None => false
  end.

Definition server_id i : Z := ServerIDBase (Spec cl) + i.
Definition of_cluster (id : Z) : bool :=
  (ServerIDBase (Spec cl) <=? id) && (id <? ServerIDBase (Spec cl) + Replicas (Spec cl)).

(** What [SHOW REPLICAS] on [j] says about this cluster. *)
Definition replicas_shown (S : servers) j (hosts : list ReplicaHost) : Prop :=
  select of_cluster (rh_ServerID <$> hosts) ≡ₚ server_id <$> select (connected_to S j) (upto (Replicas (Spec cl))).

(** A statement sent to [i]. *)
Definition sql_world i : world sqlSig servers := λ S0 c r S',
  ∃ S, evolve S0 S ∧
  match c return sqlresp c → Prop with
  | SqlExec q args => λ r,
      if q =s "KILL CONNECTION ?" then S' = S ∧ (r = inr () ∨ ∃ e, r = inl e ∧ isNoSuchThread e = true) else
      match statement q args (S i) with
      | Some sv => r = inr () ∧ S' = <[i := sv]> S
      | None => (∃ e, r = inl e) ∧ S' = S
      end
  | SqlNamedExec q source => λ r,
      if bool_decide (q = changeSource84 ∨ q = changeMaster80)
      then r = inr () ∧ S' = <[i := with_channel (λ _, Some (new_channel source (S i))) (S i)]> S
      else (∃ e, r = inl e) ∧ S' = S
  | SqlGetString q args => λ r, S' = S ∧
      if q =s "SELECT SUBSTRING_INDEX(VERSION(), '.', 2)" then r = inr version else
      if q =s "SELECT GTID_SUBTRACT(?,?)" then
        match args with
        | [ArgStr a; ArgStr b] => ∃ d, r = inr d ∧ (included a b → d = "")
        | _ => ∃ e, r = inl e
        end
      else ∃ e, r = inl e
  | SqlGetBool q args => λ r, S' = S ∧
      if q =s "SELECT GTID_SUBSET(?,?)" then
        match args with
        | [ArgStr a; ArgStr b] => ∃ v : bool, r = inr v ∧ (v = true ↔ included a b)
        | _ => ∃ e, r = inl e
        end
      else if q =s "SELECT WAIT_FOR_EXECUTED_GTID_SET(?, ?)" then
        (* true is a timeout; a server that replicates catches up before, and one
           that applies executes what it retrieved *)
        match args with
        | ArgStr a :: _ => ∃ v : bool, r = inr v ∧ (v = false → included a (executed (S i))) ∧
            (included a (executed (S p)) → included (executed (S i)) (executed (S p)) →
             i = p ∨ replicating (S i) = true → v = false) ∧
            (i ≠ p → included a (retrieved (S i)) → applying (S i) = true → v = false)
        | _ => ∃ e, r = inl e
        end
      else ∃ e, r = inl e
  | SqlGetNullString _ => λ r, S' = S ∧ ∃ sessions, r = inr (Some (Itoa sessions)) ∧ 0 ≤ sessions < 2 ^ 63 ∧ (i ≠ p → sessions = 0)
  | SqlGetGlobalVariables _ => λ r, S' = S ∧ r = inr (sv_vars (S i))
  | SqlSelectReplicaHosts _ => λ r, S' = S ∧ ∃ hosts, r = inr hosts ∧ go_len hosts < 2 ^ 31 ∧ replicas_shown S i hosts
  | SqlGetReplicaStatus _ => λ r, S' = S ∧
      match sv_channel (S i) with
      | Some rs => r = inr rs
      | None => ∃ e, r = inl e ∧ is_no_rows e = true
      end
  | SqlGetCloneStatus _ => λ r, S' = S ∧
      match sv_clone (S i) with
      | Some cs => r = inr cs
      | None => ∃ e, r = inl e ∧ is_no_rows e = true
      end
  | SqlSelectProcesses _ => λ r, S' = S ∧ ∃ procs, r = inr procs
  | SqlClose => λ _, S' = S
  end r.

(** A method of the operator of instance [i]. *)
Definition op_world i : world {| call := opcall; resp := opresp |} servers := λ S m r S',
  if up i
  then runs_in (sql_world i)
         (invoke {| op_namespace := Namespace cl; op_name := PodName cl i; op_index := i; op_open := true |} m) S r S'
  else S' = S ∧ match m return opresp m → Prop with
                | GetStatus | SubtractGTID _ _ | IsSubsetGTID _ _ => λ r, ∃ e, r = inl e
                | _ => λ r, ∃ e, r = inl e
                end r.

(** ** Going on *)

Lemma goes_on_idle sv sv' : config sv' = config sv → idle sv → idle sv'.
Proof.
  intros Heq [Hs Hc]. split.
  - apply (f_equal (λ c, SuperReadOnly c.1.1)) in Heq. by rewrite <- Hs.
  - apply (f_equal (λ c, c.1.2)) in Heq. unfold config, link in Heq. cbn in Heq.
    destruct (sv_channel sv), (sv_channel sv'); simplify_eq/=; try done; congruence.
Qed.

Lemma receiving_config sv sv' : config sv' = config sv → receiving sv' = receiving sv.
Proof.
  intros Heq%(f_equal (λ c, c.1.2)). unfold config, link in Heq. cbn in Heq. unfold receiving.
  destruct (sv_channel sv), (sv_channel sv'); simplify_eq/=; congruence.
Qed.

Lemma applying_config sv sv' : config sv' = config sv → applying sv' = applying sv.
Proof.
  intros Heq%(f_equal (λ c, c.1.2)). unfold config, link in Heq. cbn in Heq. unfold applying.
  destruct (sv_channel sv), (sv_channel sv'); simplify_eq/=; congruence.
Qed.

#[export] Instance evolve_preorder : PreOrder evolve.
Proof.
  split.
  - intros S. by split_and!.
  - intros S S1 S2 (H1 & W1 & O1 & K1) (H2 & W2 & O2 & K2). split; [|split; [|split]]; [|auto..|].
    + intros i. unfold goes_on in *. destruct (H1 i) as (C1 & E1 & I1 & R1 & P1), (H2 i) as (C2 & E2 & I2 & R2 & P2). split_and!; [congruence|by etrans| |by etrans|auto].
      intros Hi. rewrite I2; [by apply I1|]. by eapply goes_on_idle.
    + intros i t Hi Hr Ht. apply K1, K2; [done..| |done]. destruct (H1 i) as (C1 & _). by rewrite (receiving_config (S i)).
Qed.

(** [i] was set to another configuration, and all went on. *)
Definition turns i f (S S' : servers) : Prop :=
  (∀ j, included (executed (S j)) (executed (S' j))) ∧
  (∀ j, config (S' j) = if bool_decide (j = i) then f (config (S j)) else config (S j)) ∧
  (within S → within S').

Lemma evolve_turns i S S' : evolve S S' → turns i id S S'.
Proof.
  intros (H & W & _). split_and!; [| |done].
  - intros j. by destruct (H j) as (_ & ? & _).
  - intros j. destruct (H j) as (-> & _). by case_bool_decide.
Qed.

Lemma turns_trans i f g S S1 S2 : turns i f S S1 → turns i g S1 S2 → turns i (g ∘ f) S S2.
Proof.
  intros (H1 & C1 & W1) (H2 & C2 & W2). split_and!; [| |auto].
  - intros j. transitivity (executed (S1 j)); [apply H1|apply H2].
  - intros j. rewrite C2, C1. by case_bool_decide.
Qed.

Lemma turns_ext i f g S S' : (f (config (S i)) = g (config (S i))) → turns i f S S' → turns i g S S'.
Proof.
  intros Hfg (H & C & W). split_and!; [done| |done]. intros j. rewrite C. case_bool_decide as E; [|done]. by rewrite E.
Qed.

(** [sv'] is [sv] with its configuration changed by [f]. *)
Definition sets f sv sv' : Prop :=
  executed sv' = executed sv ∧ included (retrieved sv') (retrieved sv) ∧ config sv' = f (config sv).

Lemma turns_insert i f S sv : sets f (S i) sv → turns i f S (<[i := sv]> S).
Proof.
  intros (He & Hr & Hc).
  assert (∀ j, executed ((<[i := sv]> S : servers) j) = executed (S j) ∧
               included (retrieved ((<[i := sv]> S : servers) j)) (retrieved (S j))) as Hsame.
  { intros j. destruct (decide (j = i)) as [->|]; [rewrite fn_lookup_insert|rewrite fn_lookup_insert_ne by done]; done. }
  split_and!.
  - intros j. by destruct (Hsame j) as [-> _].
  - intros j. case_bool_decide as E; [subst; by rewrite fn_lookup_insert|by rewrite fn_lookup_insert_ne].
  - intros HW j Hj. destruct (Hsame j) as [-> ?], (Hsame p) as [-> _]. split; [by apply HW|]. etrans; [done|]. by apply HW.
Qed.

(** ** The methods of the operator *)

Definition cfg : Type := GlobalVariables * option (string * string * string) * option CloneStatus.
Definition on_vars (f : GlobalVariables → GlobalVariables) (c : cfg) : cfg := (f c.1.1, c.1.2, c.2).
Definition on_link (f : option (string * string * string) → option (string * string * string)) (c : cfg) : cfg :=
  (c.1.1, f c.1.2, c.2).
Definition threads (io sql : string) : option (string * string * string) → option (string * string * string) :=
  fmap (λ l, (l.1.1, io, sql)).

Lemma evolve_config i S S' : evolve S S' → config (S' i) = config (S i).
Proof. intros [H _]. by destruct (H i) as (-> & _). Qed.

Lemma evolve_executed i S S' : evolve S S' → included (executed (S i)) (executed (S' i)).
Proof. intros [H _]. by destruct (H i) as (_ & ? & _). Qed.

Lemma evolve_within S S' : evolve S S' → within S → within S'.
Proof. by intros (_ & ? & _). Qed.

Lemma evolve_retrieved i S S' : evolve S S' → included (retrieved (S i)) (retrieved (S' i)).
Proof. intros [H _]. by destruct (H i) as (_ & _ & _ & ? & _). Qed.

Lemma replicating_config sv sv' : config sv' = config sv → replicating sv' = replicating sv.
Proof.
  intros Heq%(f_equal (λ c, c.1.2)). unfold config, link in Heq. cbn in Heq. unfold replicating.
  destruct (sv_channel sv), (sv_channel sv'); simplify_eq/=; congruence.
Qed.

Lemma evolve_then_turns i f S S1 S' : evolve S S1 → turns i f S1 S' → turns i f S S'.
Proof. intros H1 H2. exact (turns_trans i id f _ _ _ (evolve_turns i _ _ H1) H2). Qed.

(** A statement that sets [f], whenever the configuration is [ok]. *)
Lemma wpw_statement i q args f (ok : cfg → Prop) S Q :
  (q =s "KILL CONNECTION ?") = false → ok (config (S i)) →
  (∀ sv, ok (config sv) → ∃ sv', statement q args sv = Some sv' ∧ sets f sv sv') →
  (∀ S', turns i f S S' → Q (inr ()) S') →
  wpw (sql_world i) (sql (SqlExec q args)) S Q.
Proof.
  intros Hk Hok Hst HQ r S' (S1 & Hev & H). rewrite Hk in H.
  rewrite <- (evolve_config i S S1) in Hok by done. destruct (Hst _ Hok) as (sv' & Heq & Hset).
  rewrite Heq in H. destruct H as [-> ->]. apply HQ. eapply evolve_then_turns; [done|]. by apply turns_insert.
Qed.

Ltac solve_sets sv :=
  eexists; split; [reflexivity|]; unfold sets, config, link, retrieved; cbn;
  destruct (sv_channel sv); (split_and!; [done|first [reflexivity|by intros ? ?%gtids_empty]|done]).

Lemma StopReplicaIOThread_turns i S r S' :
  up i = true → op_world i S StopReplicaIOThread r S' →
  r = inr () ∧ turns i (on_link (fmap (λ l, (l.1.1, "No", l.2)))) S S'.
Proof.
  intros Hup. unfold op_world. rewrite Hup. revert r S'. apply wpw_runs_in. cbn [invoke operator_Operator].
  unfold operator_StopReplicaIOThread. wpw_norm. eapply (wpw_statement i _ _ _ (λ _, True)); [done|done| |intros S' H; by split].
  intros sv _. solve_sets sv.
Qed.

Lemma SetReadOnly_on i S r S' :
  up i = true → op_world i S (SetReadOnly true) r S' → r = inr () ∧ turns i (on_vars (set_modes true true)) S S'.
Proof.
  intros Hup. unfold op_world. rewrite Hup. revert r S'. apply wpw_runs_in. cbn [invoke operator_Operator].
  unfold operator_SetReadOnly. wpw_norm. eapply (wpw_statement i _ _ _ (λ _, True)); [done|done| |intros S' H; by split].
  intros sv _. solve_sets sv.
Qed.

Lemma SetReadOnly_off i S r S' :
  up i = true → op_world i S (SetReadOnly false) r S' →
  r = inr () ∧ turns i (on_link (threads "No" "No") ∘ on_vars (set_modes false false)) S S'.
Proof.
  intros Hup. unfold op_world. rewrite Hup. revert r S'. apply wpw_runs_in. cbn [invoke operator_Operator].
  unfold operator_SetReadOnly. wpw_norm.
  eapply (wpw_statement i _ _ (on_link (threads "No" "No")) (λ _, True)); [done|done| |intros S1 H1].
  { intros sv _. solve_sets sv. }
  wpw_norm. eapply (wpw_statement i _ _ id (λ _, True)); [done|done| |intros S2 H2].
  { intros sv _. solve_sets sv. }
  wpw_norm. eapply (wpw_statement i _ _ (on_vars (set_modes false false)) (λ _, True)); [done|done| |intros S3 H3].
  { intros sv _. solve_sets sv. }
  split; [done|]. pose proof (turns_trans _ _ _ _ _ _ (turns_trans _ _ _ _ _ _ H1 H2) H3) as H.
  eapply turns_ext; [|exact H]. done.
Qed.

Lemma ConfigurePrimary_turns i n S r S' :
  up i = true → op_world i S (ConfigurePrimary n) r S' →
  r = inr () ∧ turns i (on_vars (λ gv, set_semisync n true (SemiSyncSlaveEnabled gv) gv)) S S'.
Proof.
  intros Hup. unfold op_world. rewrite Hup. revert r S'. apply wpw_runs_in. cbn [invoke operator_Operator].
  unfold operator_ConfigurePrimary. wpw_norm.
  eapply (wpw_statement i _ _ id (λ _, True)); [done|done| |intros S1 H1]; [intros sv _; solve_sets sv|].
  wpw_norm. eapply (wpw_statement i _ _ (on_vars (λ gv, set_semisync n (SemiSyncMasterEnabled gv) (SemiSyncSlaveEnabled gv) gv)) (λ _, True));
    [done|done| |intros S2 H2]; [intros sv _; solve_sets sv|].
  wpw_norm. eapply (wpw_statement i _ _ (on_vars (λ gv, set_semisync (WaitForSlaveCount gv) true (SemiSyncSlaveEnabled gv) gv)) (λ _, True));
    [done|done| |intros S3 H3]; [intros sv _; solve_sets sv|].
  split; [done|]. pose proof (turns_trans _ _ _ _ _ _ (turns_trans _ _ _ _ _ _ H1 H2) H3) as H.
  eapply turns_ext; [|exact H]. done.
Qed.

(** Versions that MOCO supports. *)
Definition supported : Prop := version = "8.0" ∨ version = "8.4".

Lemma wpw_change_source i v source S Q :
  v = changeSource84 ∨ v = changeMaster80 →
  (∀ S', turns i (on_link (λ _, Some (ai_Host source, "No", "No"))) S S' → Q (inr ()) S') →
  wpw (sql_world i) (sql (SqlNamedExec v source)) S Q.
Proof.
  intros Hv HQ r S' (S1 & Hev & H). rewrite bool_decide_true in H by done. destruct H as [-> ->].
  apply HQ. eapply evolve_then_turns; [done|]. apply turns_insert. split_and!; [done| |done]. intros t Ht. by apply gtids_empty in Ht.
Qed.

Lemma ConfigureReplica_turns i source semisync S r S' :
  up i = true → supported → op_world i S (ConfigureReplica source semisync) r S' →
  r = inr () ∧ turns i (λ c, on_vars (λ gv, set_semisync (WaitForSlaveCount gv) false semisync gv)
                               (on_link (λ _, Some (ai_Host source, "Yes", "Yes")) c)) S S'.
Proof.
  intros Hup Hversion. unfold op_world. rewrite Hup. revert r S'. apply wpw_runs_in. cbn [invoke operator_Operator].
  unfold operator_ConfigureReplica. wpw_norm.
  eapply (wpw_statement i _ _ (on_link (threads "No" "No")) (λ _, True)); [done|done| |intros S1 H1].
  { intros sv _. solve_sets sv. }
  wpw_norm. intros v S2 (S1' & H2 & -> & ->). wpw_norm.
  assert (∃ cmd, (if version =s "8.4" then Ret (inr changeSource84)
                  else if version =s "8.0" then Ret (inr changeMaster80)
                  else Ret (inl (ErrNew ("unsupported version: " +:+ version)))) =
                 (Ret (inr cmd) : prog sqlSig (extres string)) ∧
                 (cmd = changeSource84 ∨ cmd = changeMaster80)) as (cmd & -> & Hcmd).
  { destruct Hversion as [->| ->]; simpl; eauto. }
  wpw_norm. apply wpw_change_source; [done|]. intros S3 H3. wpw_norm.
  eapply (wpw_statement i _ _ (on_vars (λ gv, set_semisync (WaitForSlaveCount gv) (SemiSyncMasterEnabled gv) semisync gv)) (λ _, True));
    [done|done| |intros S4 H4]; [intros sv _; solve_sets sv|].
  wpw_norm. eapply (wpw_statement i _ _ (on_vars (λ gv, set_semisync (WaitForSlaveCount gv) false (SemiSyncSlaveEnabled gv) gv)) (λ _, True));
    [done|done| |intros S5 H5]; [intros sv _; solve_sets sv|].
  pose proof (turns_trans _ _ _ _ _ _ (evolve_then_turns _ _ _ _ _ H2 H3) (turns_trans _ _ _ _ _ _ H4 H5)) as H.
  wpw_norm. eapply (wpw_statement i _ _ (on_link (threads "Yes" "Yes")) (λ c, is_Some c.1.2)); [done| | |intros S6 H6].
  - destruct H as (_ & Hc & _). specialize (Hc i). rewrite bool_decide_true in Hc by done. rewrite Hc. cbn. eauto.
  - intros sv [l Hl]. unfold config, link in Hl. cbn in Hl. destruct (sv_channel sv) as [rs|] eqn:E; [|done].
    eexists. split; [cbn; rewrite E; reflexivity|]. unfold sets, config, link, retrieved. cbn. rewrite E. by split_and!.
  - split; [done|]. pose proof (turns_trans _ _ _ _ _ _ H1 (turns_trans _ _ _ _ _ _ H H6)) as HH.
    eapply turns_ext; [|exact HH]. done.
Qed.

(** ** Methods that change nothing *)

Lemma WaitForGTID_evolves i g t S r S' :
  up i = true → within S → included g (executed (S p)) → i = p ∨ replicating (S i) = true →
  op_world i S (WaitForGTID g t) r S' → r = inr () ∧ evolve S S' ∧ included g (executed (S' i)).
Proof.
  intros Hup HW Hg Hi. unfold op_world. rewrite Hup. revert r S'. apply wpw_runs_in. cbn [invoke operator_Operator].
  unfold operator_WaitForGTID. wpw_norm. intros r S' (S1 & Hev & -> & v & -> & Hin & Hv & _).
  assert (v = false) as ->.
  { apply Hv; [etrans; [done|by apply evolve_executed]|by apply Hev|]. destruct Hi as [->|Hi]; [by left|]. right.
    by rewrite (replicating_config (S i)) by by apply evolve_config. }
  wpw_norm. auto.
Qed.

Lemma WaitForGTID_applies i g t S r S' :
  up i = true → i ≠ p → included g (retrieved (S i)) → applying (S i) = true →
  op_world i S (WaitForGTID g t) r S' → r = inr () ∧ evolve S S' ∧ included g (executed (S' i)).
Proof.
  intros Hup Hne Hg Hi. unfold op_world. rewrite Hup. revert r S'. apply wpw_runs_in. cbn [invoke operator_Operator].
  unfold operator_WaitForGTID. wpw_norm. intros r S' (S1 & Hev & -> & v & -> & Hin & _ & Hv).
  assert (v = false) as -> by (apply Hv; [done|etrans; [done|by apply evolve_retrieved]|]; by rewrite (applying_config (S i)) by by apply evolve_config).
  wpw_norm. auto.
Qed.

Lemma IsSubsetGTID_evolves i a b S r S' :
  up i = true → op_world i S (IsSubsetGTID a b) r S' → evolve S S' ∧ ∃ v : bool, r = inr v ∧ (v = true ↔ included a b).
Proof.
  intros Hup. unfold op_world. rewrite Hup. revert r S'. apply wpw_runs_in. cbn [invoke operator_Operator].
  unfold operator_IsSubsetGTID. wpw_norm. intros r S' (S1 & Hev & -> & v & -> & Hv). wpw_norm. eauto.
Qed.

Lemma SubtractGTID_evolves i a b S r S' :
  up i = true → op_world i S (SubtractGTID a b) r S' →
  evolve S S' ∧ ∃ d, r = inr d ∧ (included a b → d = "").
Proof.
  intros Hup. unfold op_world. rewrite Hup. revert r S'. apply wpw_runs_in. cbn [invoke operator_Operator].
  unfold operator_SubtractGTID. wpw_norm. intros r S' (S1 & Hev & -> & d & -> & Hd). wpw_norm. eauto.
Qed.

Lemma wpw_killLoop i procs S :
  wpw (sql_world i) (killLoop procs) S (λ r S', r = inr () ∧ evolve S S').
Proof.
  revert S. induction procs as [|q procs IH]; intros S; cbn [killLoop]; [by split|].
  destruct (spared q); [apply IH|]. wpw_norm. intros r S1 (S2 & Hev & H). cbn in H. destruct H as [-> H].
  assert (wpw (sql_world i) (killLoop procs) S2 (λ r S', r = inr () ∧ evolve S S')) as Hrest.
  { eapply wpw_conseq; [apply IH|]. intros r' S' [-> ?]. split; [done|]. by etrans. }
  destruct H as [->|(e & -> & He)]; [exact Hrest|]. cbn. by rewrite He.
Qed.

Lemma KillConnections_evolves i S r S' :
  up i = true → op_world i S KillConnections r S' → r = inr () ∧ evolve S S'.
Proof.
  intros Hup. unfold op_world. rewrite Hup. revert r S'. apply wpw_runs_in. cbn [invoke operator_Operator].
  unfold operator_KillConnections. wpw_norm. intros r S1 (S2 & Hev & -> & procs & ->). wpw_norm.
  eapply wpw_conseq; [apply wpw_killLoop|]. intros r' S' [-> ?]. split; [done|]. by etrans.
Qed.

Lemma OpClose_evolves i S r S' : op_world i S OpClose r S' → evolve S S'.
Proof.
  unfold op_world. destruct (up i); [|by intros [-> _]]. revert r S'. apply wpw_runs_in. cbn. by intros r S' (S1 & ? & ->).
Qed.

(** ** The status of an instance *)

(** The status [st], read between [S] and [S'], shows instance [i] as it is. *)
Record shows (S S' : servers) i (st : MySQLInstanceStatus) : Prop := {
  shows_errant : IsErrant st = false;
  shows_vars : unexecuted (GlobalVariables_ st) = unexecuted (sv_vars (S' i));
  shows_link : (λ rs, (SourceHost rs, ReplicaIORunning rs, ReplicaSQLRunning rs)) <$> ReplicaStatus_ st = link (S' i);
  shows_clone : CloneStatus_ st = sv_clone (S' i);
  shows_since : included (executed (S i)) (ExecutedGTID (GlobalVariables_ st));
  shows_retrieved rs : within S → ReplicaStatus_ st = Some rs → included (RetrievedGtidSet rs) (executed (S' p));
  shows_within : within S → included (ExecutedGTID (GlobalVariables_ st)) (executed (S' p));
  shows_sessions : i ≠ p → SemiSyncMasterWaitSessions (GlobalStatus_ st) = 0;
  shows_channel rs : ReplicaStatus_ st = Some rs → ∃ S1, evolve S S1 ∧ evolve S1 S' ∧ sv_channel (S1 i) = Some rs;
  shows_length : go_len (ReplicaHosts st) < 2 ^ 31;
  shows_hosts : replicas_shown S' i (ReplicaHosts st)
}.

Lemma config_link sv sv' : config sv' = config sv → link sv' = link sv.
Proof. by intros Heq%(f_equal (λ c, c.1.2)). Qed.
Lemma config_vars sv sv' : config sv' = config sv → unexecuted (sv_vars sv') = unexecuted (sv_vars sv).
Proof. by intros Heq%(f_equal (λ c, c.1.1)). Qed.
Lemma config_clone sv sv' : config sv' = config sv → sv_clone sv' = sv_clone sv.
Proof. by intros Heq%(f_equal (λ c, c.2)). Qed.

Lemma connected_to_link S S' j i : link (S' i) = link (S i) → connected_to S' j i = connected_to S j i.
Proof. intros H. unfold connected_to. by rewrite H. Qed.

Lemma replicas_shown_link S S' j hosts :
  (∀ i, link (S' i) = link (S i)) → replicas_shown S j hosts → replicas_shown S' j hosts.
Proof.
  intros H. unfold replicas_shown. intros ->.
  rewrite (select_ext (connected_to S' j) (connected_to S j)); [done|]. intros i _. by apply connected_to_link.
Qed.

Lemma shows_evolve S0 S S' i st : shows S0 S i st → evolve S S' → shows S0 S' i st.
Proof.
  intros [] Hev. constructor; try done.
  - rewrite shows_vars0. symmetry. by apply config_vars, evolve_config.
  - rewrite shows_link0. symmetry. by apply config_link, evolve_config.
  - rewrite shows_clone0. symmetry. by apply config_clone, evolve_config.
  - intros rs HW Hrs. etrans; [by eapply shows_retrieved0|]. by apply evolve_executed.
  - intros HW. etrans; [by apply shows_within0|]. by apply evolve_executed.
  - intros rs Hrs. destruct (shows_channel0 rs Hrs) as (S1 & ? & ? & ?). exists S1. split; [done|]. split; [by etrans|done].
  - eapply replicas_shown_link; [|done]. intros j. by apply config_link, evolve_config.
Qed.

Lemma shows_earlier S S0 S' i st : evolve S S0 → shows S0 S' i st → shows S S' i st.
Proof.
  intros Hev []. constructor; try done.
  - etrans; [by apply evolve_executed|done].
  - intros rs HW. apply shows_retrieved0. by apply (evolve_within S).
  - intros HW. apply shows_within0. by apply (evolve_within S).
  - intros rs Hrs. destruct (shows_channel0 rs Hrs) as (S1 & ? & ? & ?). exists S1. split; [by etrans|done].
Qed.

(** The number of waiting sessions as [GetStatus] reads it. *)
Lemma wpw_getGlobalStatus i S :
  wpw (sql_world i) getGlobalStatus S (λ r S', evolve S S' ∧
    ∃ n, r = inr {| SemiSyncMasterWaitSessions := n |} ∧ (i ≠ p → n = 0)).
Proof.
  unfold getGlobalStatus. wpw_norm. intros r S' (S1 & Hev & -> & n & -> & Hn & Hi). cbn [wpw]. rewrite Atoi_Itoa by done.
  cbn. eauto.
Qed.

Lemma wpw_getReplicaStatus i S :
  wpw (sql_world i) getReplicaStatus S (λ r S', evolve S S' ∧ r = inr (sv_channel (S' i))).
Proof.
  unfold getReplicaStatus. wpw_norm. intros r S' (S1 & Hev & -> & H).
  destruct (sv_channel (S1 i)) as [rs|] eqn:E; [by subst; cbn; rewrite E|]. destruct H as (e & -> & He).
  cbn. rewrite He. cbn. by rewrite E.
Qed.

Lemma wpw_getCloneStateStatus i S :
  wpw (sql_world i) getCloneStateStatus S (λ r S', evolve S S' ∧ r = inr (sv_clone (S' i))).
Proof.
  unfold getCloneStateStatus. wpw_norm. intros r S' (S1 & Hev & -> & H).
  destruct (sv_clone (S1 i)) as [cs|] eqn:E; [by subst; cbn; rewrite E|]. destruct H as (e & -> & He).
  cbn. rewrite He. cbn. by rewrite E.
Qed.

Lemma GetStatus_shows i S r S' :
  up i = true → op_world i S GetStatus r S' → evolve S S' ∧ ∃ st, r = inr st ∧ shows S S' i st.
Proof.
  intros Hup. unfold op_world. rewrite Hup. revert r S'. apply wpw_runs_in. cbn [invoke operator_Operator].
  change (opresp GetStatus) with (extres MySQLInstanceStatus). unfold operator_GetStatus, getGlobalVariablesStatus. wpw_norm.
  intros r1 S1 (S1' & E1 & -> & ->). wpw_norm.
  eapply wpw_conseq; [apply wpw_getGlobalStatus|]. intros ? S2 [E2 (n & -> & Hn)]. wpw_norm.
  intros r3 S3 (S3' & E3 & -> & hosts & -> & Hlen & Hhosts). wpw_norm.
  eapply wpw_conseq; [apply wpw_getReplicaStatus|]. intros ? S4 [E4 ->]. wpw_norm.
  eapply wpw_conseq; [apply wpw_getCloneStateStatus|]. intros ? S5 [E5 ->]. cbn [wpw].
  assert (evolve S3' S5) as E35 by by etrans.
  assert (evolve S1' S5) as E15 by (etrans; [exact E2|]; by etrans).
  assert (evolve S S4) as E04 by (etrans; [exact E1|]; etrans; [exact E2|]; by etrans).
  split; [by etrans|]. eexists. split; [done|]. constructor; cbn; try done.
  - symmetry. by apply config_vars, evolve_config.
  - change (link (S4 i) = link (S5 i)). symmetry. by apply config_link, evolve_config.
  - by apply evolve_executed.
  - intros rs HW Hrs. transitivity (executed (S4 p)); [|by apply evolve_executed]. apply (evolve_within _ _ E04) in HW. destruct (HW i Hup) as [_ H].
    unfold retrieved in H. by rewrite Hrs in H.
  - intros HW. transitivity (executed (S1' p)); [|by apply evolve_executed]. apply (evolve_within _ _ E1) in HW. by apply HW.
  - intros rs Hrs. exists S4. split; [done|]. by split.
  - eapply replicas_shown_link; [|exact Hhosts]. intros j. by apply config_link, evolve_config.
Qed.

(** ** There is always an answer *)

Definition host_of_id (id : Z) : ReplicaHost :=
  {| rh_ServerID := id; rh_Host := ""; rh_Port := MySQLPort; rh_SourceID := 0; rh_ReplicaUUID := ""; rh_User := ""; rh_Password := "" |}.

Lemma select_all {A} (f : A → bool) l : (∀ x, x ∈ l → f x = true) → select f l = l.
Proof.
  induction l as [|x l IH]; intros H; [done|]. rewrite select_cons, H by by left. f_equal. apply IH. intros y Hy. apply H. by right.
Qed.

Lemma replicas_shown_exists S j :
  Replicas (Spec cl) < 2 ^ 31 → ∃ hosts, go_len hosts < 2 ^ 31 ∧ replicas_shown S j hosts.
Proof.
  intros Hn. set (l := select (connected_to S j) (upto (Replicas (Spec cl)))).
  exists (host_of_id <$> (server_id <$> l)). split.
  - rewrite !go_len_fmap. unfold go_len. pose proof (sublist_length _ _ (select_sublist (connected_to S j) (upto (Replicas (Spec cl))))) as Hl.
    rewrite length_upto in Hl. unfold l. lia.
  - unfold replicas_shown. rewrite <- list_fmap_compose. change (rh_ServerID ∘ host_of_id) with (λ x : Z, x). rewrite list_fmap_id.
    rewrite select_all; [done|]. intros id (i & -> & Hi)%list_elem_of_fmap. apply elem_of_select in Hi as [_ Hi%elem_of_upto].
    unfold of_cluster, server_id. apply andb_true_iff. split; [by apply Z.leb_le; lia|by apply Z.ltb_lt; lia].
Qed.

(** The server that executed [g]. *)
Definition caught_up (g : string) sv : server :=
  {| sv_vars := {| UUID := UUID (sv_vars sv); ExecutedGTID := g; PurgedGTID := PurgedGTID (sv_vars sv); ReadOnly := ReadOnly (sv_vars sv);
       SuperReadOnly := SuperReadOnly (sv_vars sv); WaitForSlaveCount := WaitForSlaveCount (sv_vars sv);
       SemiSyncMasterEnabled := SemiSyncMasterEnabled (sv_vars sv); SemiSyncSlaveEnabled := SemiSyncSlaveEnabled (sv_vars sv) |};
     sv_channel := (λ rs, {| LastIoErrno := LastIoErrno rs; LastIoError := LastIoError rs; LastSQLErrno := LastSQLErrno rs;
       LastSQLError := LastSQLError rs; SourceHost := SourceHost rs; RetrievedGtidSet := RetrievedGtidSet rs; ExecutedGtidSet := g;
       ReplicaIORunning := ReplicaIORunning rs; ReplicaSQLRunning := ReplicaSQLRunning rs;
       SecondsBehindSource := SecondsBehindSource rs |}) <$> sv_channel sv;
     sv_clone := sv_clone sv |}.

Lemma replicating_applying sv : replicating sv = true → receiving sv = true ∧ applying sv = true.
Proof. unfold replicating, receiving, applying. destruct (sv_channel sv); [|done]. by intros [? ?]%andb_true_iff. Qed.

(** A server can execute more: all that [p] has, or what it retrieved. *)
Lemma catch_up i g S :
  i ≠ p → applying (S i) = true → included (executed (S i)) g →
  (∀ t, gtids g t → received (S i) t) ∨ (receiving (S i) = true ∧ g = executed (S p)) →
  evolve S (<[i := caught_up g (S i)]> S).
Proof.
  intros Hi Hrun Hin Hg. set (S' := <[i := caught_up g (S i)]> S).
  assert (∀ j, j ≠ i → S' j = S j) as Hother by (intros j Hj; by apply fn_lookup_insert_ne).
  assert (S' i = caught_up g (S i)) as Hself by apply fn_lookup_insert.
  assert (retrieved (caught_up g (S i)) = retrieved (S i)) as Hret by (unfold retrieved, caught_up; cbn; by destruct (sv_channel (S i))).
  assert (∀ t, received (S i) t → received (S' i) t) as Hgrows.
  { rewrite Hself. intros t [Ht|Ht]; [left; by rewrite Hret|right; by apply Hin]. }
  assert (within S → up i = true → included g (executed (S p))) as Hwg.
  { intros HW Hup t Ht. destruct Hg as [Hg|[_ ->]]; [|done]. destruct (HW i Hup), (Hg t Ht); auto. }
  split; [|split; [|split]].
  - intros j. destruct (decide (j = i)) as [->|Hj]; [rewrite Hself|by rewrite Hother]. split; [|split; [exact Hin|split; [|split; [by rewrite Hret|]]]].
    + unfold config, link, caught_up. cbn. by destruct (sv_channel (S i)).
    + intros [_ Hidle]. unfold applying in Hrun. destruct (sv_channel (S i)); [|done]. by bool_cases.
    + intros _ rs. cbn. by destruct (sv_channel (S i)); [intros [= <-]|].
  - intros HW j Hj. rewrite (Hother p) by done. destruct (decide (j = i)) as [->|Hne]; [rewrite Hself|rewrite Hother by done; by apply HW].
    split; [by apply Hwg|rewrite Hret; by apply HW].
  - intros HW HO j k Hj Hjp Hk Hkp. destruct Hg as [Hg|[_ Hg]].
    + assert (∀ j t, received (S' j) t ↔ received (S j) t) as Hsame; [|setoid_rewrite Hsame; by apply HO].
      intros l t. destruct (decide (l = i)) as [->|Hl]; [|by rewrite Hother]. split; [|apply Hgrows].
      rewrite Hself. intros [Ht|Ht]; [left; by rewrite <- Hret|by apply Hg].
    + assert (∀ l t, up l = true → l ≠ i → received (S' l) t → received (S' i) t) as Hall.
      { intros l t Hl Hne Ht. rewrite Hother in Ht by done. rewrite Hself. right. change (gtids g t). rewrite Hg.
        destruct (HW l Hl), Ht; auto. }
      destruct (decide (j = i)) as [->|Hji]; [|destruct (decide (k = i)) as [->|Hki]].
      * destruct (decide (k = i)) as [->|Hki]; [by left|right; intros t; by apply Hall].
      * left. intros t. by apply Hall.
      * rewrite !Hother by done. by apply HO.
  - intros j t Hj Hr. destruct (decide (j = i)) as [->|Hne]; [|by rewrite Hother]. rewrite Hself.
    destruct Hg as [Hg|[Hg _]]; [|congruence]. intros [Ht|Ht]; [left; by rewrite <- Hret|by apply Hg].
Qed.

Lemma sql_world_total i S c : Replicas (Spec cl) < 2 ^ 31 → ∃ r S', sql_world i S c r S'.
Proof.
  intros Hn. destruct c as [q args|q source|q args|q args|q|q|q|q|q|q|]; cbn [sqlresp].
  - destruct (q =s "KILL CONNECTION ?") eqn:Hk; [exists (inr ()), S, S; rewrite Hk; split; [done|]; split; [done|by left]|].
    destruct (statement q args (S i)) as [sv|] eqn:Hs; [exists (inr ()), (<[i := sv]> S), S|exists (inl ErrNop), S, S]; rewrite Hk, Hs; (split; [done|]; by eauto).
  - destruct (bool_decide (q = changeSource84 ∨ q = changeMaster80)) eqn:Hq; [eexists (inr ()), _, S|exists (inl ErrNop), S, S]; rewrite Hq; (split; [done|]; by eauto).
  - destruct (q =s "SELECT SUBSTRING_INDEX(VERSION(), '.', 2)") eqn:H1; [exists (inr version), S, S; rewrite H1; by split|].
    destruct (q =s "SELECT GTID_SUBTRACT(?,?)") eqn:H2; [|exists (inl ErrNop), S, S; rewrite H1, H2; (split; [done|]; by eauto)].
    destruct args as [|[a| |] [|[b| |] [|]]]; try (exists (inl ErrNop), S, S; rewrite H1, H2; (split; [done|]; by eauto)).
    exists (inr ""), S, S. rewrite H1, H2. split; [done|]; eauto.
  - destruct (q =s "SELECT GTID_SUBSET(?,?)") eqn:H1.
    { destruct args as [|[a| |] [|[b| |] [|]]]; try (exists (inl ErrNop), S, S; rewrite H1; (split; [done|]; by eauto)).
      exists (inr (bool_decide (included a b))), S, S. rewrite H1. split; [done|]. split; [done|]. eexists. split; [done|].
      apply bool_decide_eq_true. }
    destruct (q =s "SELECT WAIT_FOR_EXECUTED_GTID_SET(?, ?)") eqn:H2; [|exists (inl ErrNop), S, S; rewrite H1, H2; (split; [done|]; by eauto)].
    destruct args as [|[a| |] args]; try (exists (inl ErrNop), S, S; rewrite H1, H2; (split; [done|]; by eauto)).
    destruct (decide (included a (executed (S i)))) as [Ha|Ha].
    { exists (inr false), S, S. rewrite H1, H2. split; [done|]. split; [done|]. exists false. by split. }
    set (all := retrieved (S i) +:+ "," +:+ executed (S i)).
    destruct (decide (included a (executed (S p)) ∧ included (executed (S i)) (executed (S p)) ∧ replicating (S i) = true)) as [(Hp & Hi & Hr)|Hno];
      [|destruct (decide (i ≠ p ∧ included a (retrieved (S i)) ∧ applying (S i) = true)) as [(Hne & Hin & Hr)|Hno2]].
    + assert (i ≠ p) as Hne by by intros ->. eexists (inr false), _, (<[i := caught_up (executed (S p)) (S i)]> S). rewrite H1, H2.
      split; [apply replicating_applying in Hr as []; by apply catch_up; [..|right]|]. split; [done|]. exists false. split; [done|].
      rewrite fn_lookup_insert. by split_and!.
    + assert (∀ t, gtids all t ↔ received (S i) t) as Hall.
      { intros t. apply gtids_union. intros Hnil. rewrite Hnil in Hin. apply Ha. intros u Hu. by apply Hin, gtids_empty in Hu. }
      eexists (inr false), _, (<[i := caught_up all (S i)]> S). rewrite H1, H2. split.
      { apply catch_up; [done|done|intros t Ht; apply Hall; by right|left; intros t; by apply Hall]. }
      split; [done|]. exists false. split; [done|]. rewrite fn_lookup_insert. split; [|done]. intros _ t Ht. apply Hall. left. by apply Hin.
    + exists (inr true), S, S. rewrite H1, H2. split; [done|]. split; [done|]. exists true. split; [done|]. split; [done|]. split.
      * intros Hp Hi [->|Hr]; [done|]. exfalso. by apply Hno.
      * intros Hne Hin Hr. exfalso. by apply Hno2.
  - exists (inr (Some (Itoa 0))), S, S. split; [done|]. split; [done|]. exists 0. by split_and!.
  - exists (inr (sv_vars (S i))), S, S. by split_and!.
  - destruct (replicas_shown_exists S i Hn) as (hosts & ? & ?). exists (inr hosts), S, S. split; [done|]; eauto.
  - destruct (sv_channel (S i)) as [rs|] eqn:E; [exists (inr rs), S, S|exists (inl (ErrExt KindNoRows "")), S, S]; rewrite E; (split; [done|]; by eauto).
  - destruct (sv_clone (S i)) as [cs|] eqn:E; [exists (inr cs), S, S|exists (inl (ErrExt KindNoRows "")), S, S]; rewrite E; (split; [done|]; by eauto).
  - exists (inr []), S, S. split; [done|]; eauto.
  - exists (inr ()), S, S. by split.
Qed.

Lemma op_world_total i S m : Replicas (Spec cl) < 2 ^ 31 → ∃ r S', op_world i S m r S'.
Proof.
  intros Hn. unfold op_world. destruct (up i).
  - apply runs_in_total. intros S1 c. by apply sql_world_total.
  - destruct m; exists (inl ErrBadConnection), S; by eauto.
Qed.
End world.

(** ** The replicas of a primary that is gone

    What a failover does: the replicas stop receiving, and what each of them
    received stays.  Statuses read afterwards report it. *)

Section survivors.
Context {GS : GtidSets}.
Context (cl : MySQLCluster) (p : Z) (up : Z → bool) (version : string).
Implicit Types (S : servers) (i j : Z).

(** Servers went on and some stopped receiving; a server that does not receive has
    all it will have. *)
Record survives S S' : Prop := {
  v_vars i : (config (S' i)).1.1 = (config (S i)).1.1;
  v_applying i : applying (S' i) = applying (S i);
  v_executed i : included (executed (S i)) (executed (S' i));
  v_retrieved i : included (retrieved (S i)) (retrieved (S' i));
  v_reported i : reported (S i) → reported (S' i);
  v_within : within p up S → within p up S';
  v_ordered : within p up S → ordered p up S → ordered p up S';
  v_stopped i : i ≠ p → receiving (S i) = false →
    receiving (S' i) = false ∧ ∀ t, received (S' i) t → received (S i) t
}.

#[export] Instance survives_preorder : PreOrder survives.
Proof.
  split; [by constructor|]. intros S S1 S2 [] []. constructor; [congruence|congruence| | |auto..|].
  - intros i. transitivity (executed (S1 i)); auto.
  - intros i. transitivity (retrieved (S1 i)); auto.
  - intros i Hi Hr. destruct (v_stopped0 i Hi Hr) as [Hr1 H1], (v_stopped1 i Hi Hr1) as [Hr2 H2]. auto.
Qed.

Lemma evolve_survives S S' : evolve p up S S' → survives S S'.
Proof.
  intros Hev. pose proof Hev as (H & HW & HO & HK).
  constructor; intros; try (by apply (H i)); auto.
  - by rewrite (evolve_config p up i S S').
  - apply applying_config. by apply (evolve_config p up).
  - destruct (H i) as (Hc & _). split; [by rewrite (receiving_config _ _ Hc)|]. intros t. by apply HK.
Qed.

Lemma v_received S S' i t : survives S S' → received (S i) t → received (S' i) t.
Proof. intros [] [Ht|Ht]; [left; by apply v_retrieved0|right; by apply v_executed0]. Qed.

(** A server that does not receive keeps what it received. *)
Lemma v_same S S' i t : survives S S' → i ≠ p → receiving (S i) = false → received (S' i) t ↔ received (S i) t.
Proof. intros Hv Hi Hr. split; [by apply (v_stopped _ _ Hv)|by apply v_received]. Qed.

(** A statement that only concerns the threads. *)
Lemma survives_insert i S sv :
  executed sv = executed (S i) → retrieved sv = retrieved (S i) → (reported (S i) → reported sv) →
  (config sv).1.1 = (config (S i)).1.1 → applying sv = applying (S i) → (receiving (S i) = false → receiving sv = false) →
  survives S (<[i := sv]> S).
Proof.
  intros He Hr Hrep Hv Ha Hrec. set (S' := <[i := sv]> S : servers).
  assert (∀ j, (j = i ∧ S' j = sv) ∨ S' j = S j) as Hcase.
  { intros j. destruct (decide (j = i)) as [->|]; [left; split; [done|apply fn_lookup_insert]|right; by apply fn_lookup_insert_ne]. }
  assert (∀ j, executed (S' j) = executed (S j) ∧ retrieved (S' j) = retrieved (S j)) as Hsame by (intros j; by destruct (Hcase j) as [[-> ->]| ->]).
  assert (∀ j t, received (S' j) t ↔ received (S j) t) as Hrcv by (intros j t; unfold received; by destruct (Hsame j) as [-> ->]).
  constructor.
  - intros j. by destruct (Hcase j) as [[-> ->]| ->].
  - intros j. by destruct (Hcase j) as [[-> ->]| ->].
  - intros j. by destruct (Hsame j) as [-> _].
  - intros j. by destruct (Hsame j) as [_ ->].
  - intros j. destruct (Hcase j) as [[-> ->]| ->]; auto.
  - intros HW j Hj. destruct (Hsame j) as [-> ->], (Hsame p) as [-> _]. by apply HW.
  - intros _ HO j k Hj Hjp Hk Hkp. setoid_rewrite Hrcv. by apply HO.
  - intros j Hj Hf. split; [|intros t; by apply Hrcv]. destruct (Hcase j) as [[-> ->]| ->]; auto.
Qed.

Lemma StopReplicaIOThread_survives i S r S' :
  up i = true → op_world cl p up version i S StopReplicaIOThread r S' →
  r = inr () ∧ survives S S' ∧ receiving (S' i) = false.
Proof.
  intros Hup. unfold op_world. rewrite Hup. revert r S'. apply wpw_runs_in. cbn [invoke operator_Operator].
  unfold operator_StopReplicaIOThread. wpw_norm. intros r S' (S1 & Hev & -> & ->). split; [done|]. rewrite fn_lookup_insert. split.
  - etrans; [by apply evolve_survives|]. apply survives_insert; unfold retrieved, reported, applying, receiving; cbn; try done;
      destruct (sv_channel (S1 i)) as [rs|]; cbn; try done. intros Hrep rs' [= <-]. cbn. by apply Hrep.
  - unfold receiving. cbn. by destruct (sv_channel (S1 i)).
Qed.

(** ** What statuses report *)

(** The status [st] reports what instance [i] had received when it was stopped,
    and [S'] has all of it. *)
Record reports S S' i (st : MySQLInstanceStatus) rs : Prop := {
  t_status : ReplicaStatus_ st = Some rs;
  t_union t : gtids (unionGtids rs) t ↔ received (S i) t;
  t_retrieved : included (RetrievedGtidSet rs) (retrieved (S' i));
  t_executed : included (ExecutedGtidSet rs) (executed (S' i))
}.

Lemma reports_survives S S1 S2 i st rs : reports S S1 i st rs → survives S1 S2 → reports S S2 i st rs.
Proof. intros [] []. constructor; [done|done|by etrans|by etrans]. Qed.

Lemma union_received sv rs t : sv_channel sv = Some rs → reported sv → gtids (unionGtids rs) t ↔ received sv t.
Proof.
  intros Hrs Hrep. unfold received, retrieved, unionGtids. rewrite Hrs, <- (Hrep rs Hrs). cbn.
  destruct (RetrievedGtidSet rs) as [|c s] eqn:E; cbn [String.length Nat.eqb].
  - split; [by right|intros [Ht|Ht]; [by apply gtids_empty in Ht|done]].
  - by apply gtids_union.
Qed.

Lemma GetStatus_reports S0 i S r S' :
  up i = true → i ≠ p → receiving (S0 i) = false → survives S0 S → reported (S i) → applying (S i) = true →
  op_world cl p up version i S GetStatus r S' →
  evolve p up S S' ∧ ∃ st rs, r = inr st ∧ reports S0 S' i st rs.
Proof.
  intros Hup Hi Hr Hv Hrep Happ Hop. destruct (GetStatus_shows cl p up version i S r S' Hup Hop) as [Hev (st & -> & Hst)].
  split; [done|]. destruct (ReplicaStatus_ st) as [rs|] eqn:Hrs.
  - exists st, rs. split; [done|]. destruct (shows_channel _ _ _ _ _ _ _ Hst rs Hrs) as (S1 & E1 & E2 & Hch).
    assert (reported (S1 i)) as Hrep1 by (by apply (v_reported _ _ (evolve_survives _ _ E1))). constructor; [done| | |].
    + intros t. rewrite (union_received (S1 i)) by done. apply v_same; [|done..]. etrans; [exact Hv|by apply evolve_survives].
    + replace (RetrievedGtidSet rs) with (retrieved (S1 i)) by (unfold retrieved; by rewrite Hch). by apply (evolve_retrieved p up).
    + rewrite (Hrep1 rs Hch). by apply (evolve_executed p up).
  - exfalso. pose proof (shows_link _ _ _ _ _ _ _ Hst) as Hl. rewrite Hrs in Hl. cbn in Hl.
    rewrite (config_link (S i)) in Hl by by apply (evolve_config p up). unfold applying in Happ. unfold link in Hl. by destruct (sv_channel (S i)).
Qed.
End survivors.
