(* ===== verification/Gather.v ===== *)
(** * Gathering the status of a cluster (clustering/status.go, GatherStatus)

    [GatherStatus] reads the MySQLCluster, its passwords and Pods, connects to
    every instance, asks each for its status and classifies errant, delayed and
    hung replicas before [DecideState].  The goroutines that query the instances
    write one slot each and share nothing else, so the model runs them in the
    order of the ordinals. *)

From S2P Require Import Prelude Prog GoLib Constants Api Password Dbop Event Cluster Samples Status StatusSpec.
#[local] Open Scope Z_scope.

(** ** Connections *)

(** [net.JoinHostPort]. *)
Definition net_JoinHostPort (host port : string) : string :=
  if no_char ":" host then host +:+ ":" +:+ port else "[" +:+ host +:+ "]:" +:+ port.

(* pkg/dbop/operator.go :: defaultFactory.New *)
Definition defaultFactory_New (cluster : MySQLCluster) (index : Z) : prog clusterSig (outcome DBOp) :=
  r <-- kcall (Resolve index) ;;
  match r with
  | inl _ => Ret (Return (OpNop {| nop_name := Namespace cluster +:+ "/" +:+ PodName cluster index |}))
  | inr addr =>
      r <-- kcall (SqlOpen index (net_JoinHostPort addr (Itoa MySQLAdminPort))) ;;
      match r with
      | inl e => Ret (Error (ErrWrap ("failed to open " +:+ PodName cluster index) e))
      | inr _ => Ret (Return (OpSQL index))
      end
  end.

(** [Close] of every non-nil operator, its errors ignored. *)
(* clustering/status.go :: StatusSet.Close *)
Fixpoint closeOps (ops : list (option DBOp)) : prog clusterSig unit :=
  match ops with
  | [] => Ret ()
  | None :: rest => closeOps rest
  | Some op :: rest => _ <-- invoke op OpClose ;; closeOps rest
  end.

(** ** Pods by ordinal *)

(* clustering/status.go:176-187 GatherStatus *)
Fixpoint placePods (total : Z) (items : list Pod) (pods : list (option Pod))
    : outcome (list (option Pod)) :=
  match items with
  | [] => Return pods
  | pod :: rest =>
      match Atoi (last_field "-" (pod_Name pod)) with
      | None => Error (ErrNew ("bad pod name: " +:+ pod_Name pod))
      | Some index =>
          if (index <? 0) || (total <=? index)
          then Error (ErrNew ("index out of range: " +:+ Itoa index))
          else match set_at pods index (Some pod) with
               | None => Panic "index out of range"
               | Some pods' => placePods total rest pods'
               end
      end
  end.

(** [make([]*T, n)]. *)
Definition make_slice {A} (n : Z) : outcome (list (option A)) :=
  if n <? 0 then Panic "makeslice: len out of range" else Return (replicate (Z.to_nat n) None).

(** ** Querying the instances *)

(* clustering/status.go:23-24 statusCheckRetryMax *)
Definition statusCheckRetryMax : nat := 2.
Definition statusCheckRetryInterval : Z := 3000.

(** The loop of one goroutine, with [retries] retries left. *)
(* clustering/status.go:210-226 GatherStatus *)
Fixpoint queryStatus (op : DBOp) (retries : nat) : prog clusterSig (option MySQLInstanceStatus) :=
  r <-- invoke op GetStatus ;;
  match r with
  | inr ist => Ret (Some ist)
  | inl e =>
      if bool_decide (e = ErrNop) then Ret None else
      match retries with
      | O => Ret None
      | S retries => _ <-- kcall (Sleep statusCheckRetryInterval) ;; queryStatus op retries
      end
  end.

Fixpoint queryAll (ops : list (option DBOp)) : prog clusterSig (outcome (list (option MySQLInstanceStatus))) :=
  match ops with
  | [] => Ret (Return [])
  | None :: _ => Ret (Panic "nil pointer dereference")
  | Some op :: rest =>
      ist <-- queryStatus op statusCheckRetryMax ;;
      ists <-? queryAll rest ;;
      Ret (Return (ist :: ists))
  end.

(** ** Classification *)

(* clustering/status.go:242-261 GatherStatus *)
Definition detectDelay (cluster : MySQLCluster) (primary : Z)
    (statuses : list (option MySQLInstanceStatus)) : bool :=
  existsb (λ x : Z * option MySQLInstanceStatus,
    negb (x.1 =? primary) &&
    match x.2 with
    | None => false
    | Some st => match ReplicaStatus_ st with
                 | None => false
                 | Some rs => match SecondsBehindSource rs with
                              | None => false
                              | Some s => MaxDelaySecondsForPodDeletion (Spec cluster) <? s
                              end
                 end
    end) (indexed statuses).

Definition markErrant (statuses : list (option MySQLInstanceStatus)) (i : Z)
    : option (list (option MySQLInstanceStatus)) :=
  ist ← index_at statuses i;
  match ist with
  | None => Some statuses
  | Some st => set_at statuses i (Some (set_IsErrant true st))
  end.

(** One iteration of the loop over the replicas while the primary has data;
    [pst] is the primary's status. *)
(* clustering/status.go:266-282 GatherStatus *)
Definition errantStep (pst : MySQLInstanceStatus) (ss : StatusSet)
    (x : Z * option MySQLInstanceStatus) : prog clusterSig (outcome StatusSet) :=
  if x.1 =? Primary ss then Ret (Return ss) else
  match x.2 with
  | None => Ret (Return ss)
  | Some ist =>
      r <-? db_call ss (Primary ss) (SubtractGTID (ExecutedGTID (GlobalVariables_ ist)) (ss_ExecutedGTID ss)) ;;
      diff <-? check_res (ErrWrap ("failed to compare GTID for instance " +:+ Itoa x.1)) r ;;
      errant <-? or_panic (containErrantTransactions (UUID (GlobalVariables_ pst)) diff) "uuid must be set" ;;
      if (errant : bool) then
        statuses <-? or_panic (markErrant (MySQLStatus ss) x.1) "index out of range" ;;
        Ret (Return (set_gathered statuses (ss_ExecutedGTID ss) (Errants ss ++ [x.1]) (PreventPodDeletion ss) ss))
      else Ret (Return ss)
  end.

(** The errant replicas recorded in the MySQLCluster. *)
(* clustering/status.go:286-291 GatherStatus *)
Fixpoint restoreErrants (recorded : list Z) (ss : StatusSet) : option StatusSet :=
  match recorded with
  | [] => Some ss
  | index :: rest =>
      statuses ← markErrant (MySQLStatus ss) index;
      restoreErrants rest
        (set_gathered statuses (ss_ExecutedGTID ss) (Errants ss ++ [index]) (PreventPodDeletion ss) ss)
  end.

(* clustering/status.go:295-306 GatherStatus *)
Definition dropHungReplicas (primary : Z) (statuses : list (option MySQLInstanceStatus))
    : list (option MySQLInstanceStatus) :=
  (λ x : Z * option MySQLInstanceStatus,
     if x.1 =? primary then x.2 else
     match x.2 with
     | None => None
     | Some st => if 0 <? SemiSyncMasterWaitSessions (GlobalStatus_ st) then None else Some st
     end) <$> indexed statuses.

(** ** GatherStatus *)

(** The primary is asked once more, for its latest executed GTID set. *)
(* clustering/status.go:231-240 GatherStatus *)
Definition recheckPrimary (ss : StatusSet) : prog clusterSig (outcome StatusSet) :=
  opst <-? or_panic (index_at (MySQLStatus ss) (Primary ss)) "index out of range" ;;
  match opst with
  | None => Ret (Return ss)
  | Some _ =>
      _ <-- kcall (Sleep 100) ;;
      r <-? db_call ss (Primary ss) GetStatus ;;
      pst <-? check_res (ErrWrap "failed to re-check the primary instance") r ;;
      statuses <-? or_panic (set_at (MySQLStatus ss) (Primary ss) (Some pst)) "index out of range" ;;
      Ret (Return (set_gathered statuses (ExecutedGTID (GlobalVariables_ pst)) (Errants ss)
                     (PreventPodDeletion ss) ss))
  end.

(* clustering/status.go:264-292 GatherStatus *)
Definition detectErrants (ss : StatusSet) : prog clusterSig (outcome StatusSet) :=
  if ss_ExecutedGTID ss <>s "" then
    opst <-? or_panic (index_at (MySQLStatus ss) (Primary ss)) "index out of range" ;;
    match opst with
    | Some pst => for_range (indexed (MySQLStatus ss)) ss (errantStep pst)
    | None => Ret (Panic "nil pointer dereference")
    end
  else or_panic (restoreErrants (ErrantReplicaList (Status (Cluster ss))) ss) "index out of range".

(** After the connections are made: queries and classification. *)
Definition gatherInstances (ss : StatusSet) : prog clusterSig (outcome StatusSet) :=
  statuses <-? queryAll (DBOps ss) ;;
  ss <-? recheckPrimary (set_MySQLStatus statuses ss) ;;
  let prevent := if 0 <? MaxDelaySecondsForPodDeletion (Spec (Cluster ss))
                 then detectDelay (Cluster ss) (Primary ss) (MySQLStatus ss)
                 else PreventPodDeletion ss in
  ss <-? detectErrants (set_gathered (MySQLStatus ss) (ss_ExecutedGTID ss) (Errants ss) prevent ss) ;;
  or_panic (DecideState (set_MySQLStatus (dropHungReplicas (Primary ss) (MySQLStatus ss)) ss))
    "index out of range".

(** The deferred [if ss.State == StateUndecided { ss.Close() }]: [DecideState]
    is the last statement, so every other way out leaves the state undecided. *)
Definition closing (ops : list (option DBOp)) (p : prog clusterSig (outcome StatusSet))
    : prog clusterSig (outcome StatusSet) :=
  r <-- p ;;
  match r with
  | Return ss => if bool_decide (State ss = StateUndecided)
                 then _ <-- closeOps ops ;; Ret r else Ret r
  | _ => _ <-- closeOps ops ;; Ret r
  end.

(** [for i := 0; i < Replicas; i++ { ss.DBOps[i] = p.dbf.New(...) }]; on an
    error the operators made so far are closed. *)
(* clustering/status.go:195-201 GatherStatus *)
Fixpoint connectAll (cluster : MySQLCluster) (indices : list Z) (ops : list (option DBOp))
    : prog clusterSig (outcome (list (option DBOp))) :=
  match indices with
  | [] => Ret (Return ops)
  | i :: rest =>
      r <-- defaultFactory_New cluster i ;;
      match r with
      | Return op => connectAll cluster rest (ops ++ [Some op])
      | Error e => _ <-- closeOps ops ;; Ret (Error e)
      | Panic m => _ <-- closeOps ops ;; Ret (Panic m)
      end
  end.

(* clustering/status.go :: GatherStatus *)
Definition GatherStatus (name : NamespacedName) : prog clusterSig (outcome StatusSet) :=
  r <-- kcall GetCluster ;;
  cluster <-? check_res (ErrWrap "failed to get MySQLCluster") r ;;
  r <-- kcall (GetSecret (nn_Namespace name) (UserSecretName cluster)) ;;
  passwdSecret <-? check_res (ErrWrap "failed to get password secret") r ;;
  passwd <-? check_res id (NewMySQLPasswordFromSecret passwdSecret) ;;
  r <-- kcall (ListPods (nn_Namespace name)
                 [(LabelAppName, AppNameMySQL); (LabelAppInstance, nn_Name name)]) ;;
  items <-? check_res (ErrWrap "failed to list Pods") r ;;
  let n := Replicas (Spec cluster) in
  if negb (Offline (Spec cluster)) && negb (n =? go_len items)
  then Ret (Error (ErrNew ("too few pods; only " +:+ Itoa (go_len items) +:+ " pods exist")))
  else
  slots <-? Ret (make_slice n) ;;
  pods <-? Ret (placePods (go_len items) items slots) ;;
  ops <-? connectAll cluster (upto n) [] ;;
  closing ops
    (gatherInstances
       {| Primary := CurrentPrimaryIndex (Status cluster); Cluster := cluster; Password_ := passwd;
          Pods := pods; DBOps := ops; MySQLStatus := replicate (Z.to_nat n) None;
          ss_ExecutedGTID := ""; Errants := []; Candidates := []; NeedSwitch := false;
          PreventPodDeletion := false; Candidate := 0; State := StateUndecided |}).
