(* ===== verification/GatherSpec.v ===== *)
(** * What GatherStatus promises

    [GatherStatus] only reads, it closes every connection it opened when it
    fails, and, when the API server and mysqld answer as documented, it does not
    panic and returns a well-formed, decided status set whose entries are
    answers of the instances, with errant replicas marked and hung ones dropped. *)

From S2P Require Import Prelude Prog GoLib Constants Api Password Dbop Event Cluster Samples Status StatusSpec Gather.
#[local] Open Scope Z_scope.

(** ** Pods by ordinal *)

Lemma pod_ordinal c i :
  0 ≤ i < 2 ^ 63 → Atoi (last_field "-" (PodName c i)) = Some i.
Proof.
  intros Hi. unfold PodName. change ("-" +:+ Itoa i) with (String "-" (Itoa i)).
  rewrite last_field_app; [by apply Atoi_Itoa|].
  rewrite Itoa_nonneg by lia. apply (digits_no_sep _ _ 0); [done|]. rewrite digits_val_pretty_N. eauto.
Qed.

(** The names the StatefulSet controller gives: [items] are Pods of distinct
    ordinals [ords] of the cluster. *)
Definition named (c : MySQLCluster) (items : list Pod) (ords : list Z) : Prop :=
  Forall2 (λ pod i, pod_Name pod = PodName c i ∧ 0 ≤ i < 2 ^ 63) items ords ∧ NoDup ords.

Lemma placePods_named c total items ords pods :
  Forall2 (λ pod i, pod_Name pod = PodName c i ∧ 0 ≤ i < 2 ^ 63) items ords →
  total ≤ go_len pods →
  (∃ e, placePods total items pods = Error e) ∨
  (Forall (λ i, 0 ≤ i < total) ords ∧ ∃ pods', placePods total items pods = Return pods' ∧
     go_len pods' = go_len pods ∧
     ∀ i, i ∈ ords ∨ (∃ p, index_at pods i = Some (Some p)) → ∃ p, index_at pods' i = Some (Some p)).
Proof.
  intros Hnames. revert pods. induction Hnames as [|pod i items ords [Hname Hi] _ IH]; intros pods Hlen.
  { right. split; [done|]. exists pods. split_and!; [done|done|]. by intros i [?%elem_of_nil|?]. }
  simpl. rewrite Hname, pod_ordinal by done.
  destruct (Z.ltb_spec i 0); simpl; [lia|].
  destruct (Z.leb_spec total i); simpl; [by left; eauto|].
  destruct (set_at pods i (Some pod)) as [pods'|] eqn:Hset.
  2:{ unfold set_at in Hset. destruct (index_at pods i) eqn:E; [done|]. apply index_at_None in E. lia. }
  apply set_at_Some in Hset as [Hin ->].
  destruct (IH (<[Z.to_nat i:=Some pod]> pods)) as [?|(Hall & pods' & Heq & Hl & Hp)];
    [by rewrite go_len_insert|by left|].
  right. split; [constructor; [lia|done]|]. exists pods'. rewrite Hl, go_len_insert.
  split_and!; [done|done|]. intros j Hj. apply Hp.
  destruct (decide (j = i)) as [->|Hne]; [right; rewrite index_at_insert_eq by done; eauto|].
  rewrite index_at_insert_ne by (lia || congruence). set_solver.
Qed.

(** With as many Pods as instances, every slot is filled. *)
Lemma placePods_full c items ords (pods' : list (option Pod)) :
  named c items ords → Forall (λ i, 0 ≤ i < go_len items) ords →
  go_len pods' = go_len items →
  (∀ i, i ∈ ords → ∃ p, index_at pods' i = Some (Some p)) → Forall is_Some pods'.
Proof.
  intros [Hf2 Hnd] Hall Hlen Hp. apply Forall_lookup. intros k o Hk.
  assert (ords ≡ₚ upto (go_len items)) as Hperm.
  { apply submseteq_length_Permutation; [apply NoDup_submseteq; [done|]|].
    - intros i Hi. apply elem_of_upto. by apply (proj1 (Forall_forall _ _) Hall).
    - rewrite length_upto. apply Forall2_length in Hf2. unfold go_len. lia. }
  destruct (Hp (Z.of_nat k)) as [p Hkp].
  { rewrite Hperm, elem_of_upto, <- Hlen. apply lookup_lt_Some in Hk. unfold go_len. lia. }
  apply index_at_Some in Hkp as [_ Hkp]. rewrite Nat2Z.id, Hk in Hkp. simplify_eq. eauto.
Qed.

(** ** Calls of GatherStatus *)

(** Calls that change nothing outside the process. *)
Definition reads (c : ccall) : Prop :=
  match c with
  | GetCluster | GetSecret _ _ | ListPods _ _ | Resolve _ | SqlOpen _ _ | Sleep _ => True
  | DB _ (GetStatus | SubtractGTID _ _ | OpClose) => True
  | _ => False
  end.

Definition reads_only (h : trace clusterSig) (c : ccall) : Prop := reads c.

Definition occurred (h : trace clusterSig) (c : ccall) (r : cresp c) : Prop := @occurs clusterSig h c r.

(** The connection to instance [i] was opened, was closed. *)
Definition opened (h : trace clusterSig) (i : Z) : Prop := ∃ a, occurred h (SqlOpen i a) (inr ()).
Definition closed (h : trace clusterSig) (i : Z) : Prop := ∃ r, occurred h (DB i OpClose) r.

Lemma occurred_app h t c r : occurred (h ++ t) c r ↔ occurred h c r ∨ occurred t c r.
Proof. unfold occurred, occurs. apply elem_of_app. Qed.

Lemma occurred_singleton c c' r r' :
  occurred [@ev clusterSig c r] c' r' → @ev clusterSig c r = @ev clusterSig c' r'.
Proof. unfold occurred, occurs. rewrite list_elem_of_singleton. done. Qed.

Lemma opened_snoc h c r i :
  opened (h ++ [@ev clusterSig c r]) i → opened h i ∨ ∃ a, c = SqlOpen i a.
Proof.
  intros [a [?|Hs%occurred_singleton]%occurred_app]; [left; by exists a|].
  right. exists a. by apply (f_equal (projT1 (P := cresp))) in Hs.
Qed.

Lemma closed_app h t i : closed h i → closed (h ++ t) i.
Proof. intros [r ?]. exists r. apply occurred_app. by left. Qed.

Section gather.
Context (cl : MySQLCluster).

(** What the theorem assumes of the answers: the API server serves the cluster
    [cl] whose status refers to existing instances and Pods with the names the
    StatefulSet controller gives; an instance that answers has its UUID. *)
Definition good (c : ccall) : cresp c → Prop :=
  match c return cresp c → Prop with
  | GetCluster => λ r, match r with inr c => c = cl | inl _ => True end
  | ListPods _ _ => λ r, match r with
                         | inr items => go_len items ≤ Replicas (Spec cl) ∧ ∃ ords, named cl items ords
                         | inl _ => True
                         end
  | DB _ m => match m return opresp m → Prop with
              | GetStatus => λ r, match r with
                                  | inr st => IsErrant st = false ∧ UUID (GlobalVariables_ st) ≠ ""
                                  | inl _ => True
                                  end
              | _ => λ _, True
              end
  | _ => λ _, True
  end.

Definition G (h : trace clusterSig) : Prop := ∀ c r, occurred h c r → good c r.

Lemma G_app h t : G (h ++ t) → G h.
Proof. intros HG c r Ho. apply HG, occurred_app. by left. Qed.

Lemma G_last h c r : G (h ++ [@ev clusterSig c r]) → good c r.
Proof. intros HG. apply HG, occurred_app. right. by apply list_elem_of_singleton. Qed.

(** The cluster itself refers to existing instances only. *)
Definition sane : Prop :=
  1 ≤ Replicas (Spec cl) < 2 ^ 31 ∧
  0 ≤ CurrentPrimaryIndex (Status cl) < Replicas (Spec cl) ∧
  Forall (λ i, 0 ≤ i < Replicas (Spec cl)) (ErrantReplicaList (Status cl)).

(** ** The steps *)

(** Calls of the second half of [GatherStatus]: it opens no connection. *)
Definition queries (h : trace clusterSig) (c : ccall) : Prop :=
  reads c ∧ match c with SqlOpen _ _ => False | _ => True end.

Lemma wp_closeOps ops h :
  wp queries (closeOps ops) h
     (λ h' _, (∀ i, Some (OpSQL i) ∈ ops → closed h' i) ∧ ∃ t, h' = h ++ t).
Proof.
  apply wp_extends. revert h. induction ops as [|[op|] ops IH]; intros h; simpl.
  - intros i Hi. by apply elem_of_nil in Hi.
  - rewrite wp_bind. apply (wp_invoke _ _ OpClose).
    + intros j ->. split; [done|]. intros r. eapply wp_conseq; [apply wp_extends, IH|].
      intros h' [] [Hc [t ->]] i [Hi|?]%elem_of_cons; [|auto]. simplify_eq.
      apply closed_app. exists r. apply occurred_app. right. by apply list_elem_of_singleton.
    + intros n ->. eapply wp_conseq; [apply IH|].
      intros h' [] Hc i [Hi|?]%elem_of_cons; [done|auto].
  - eapply wp_conseq; [apply IH|]. intros h' [] Hc i [Hi|?]%elem_of_cons; [done|auto].
Qed.

Lemma queries_reads_only h c : queries h c → reads_only h c.
Proof. by intros [? _]. Qed.

(** Without [SqlOpen] no connection becomes open. *)
Lemma wp_queries {A} (p : prog clusterSig A) h Q :
  wp queries p h Q →
  wp reads_only p h (λ h' a, (Q h' a ∧ ∃ t, h' = h ++ t) ∧ ∀ i, opened h' i → opened h i).
Proof.
  intros Hwp. eapply wp_mono; [apply queries_reads_only|intros ?? H; exact H|].
  apply (wp_invariant queries (λ h', ∀ i, opened h' i → opened h i)); [|done|by apply wp_extends].
  intros h' c r HI Hc i [?|[a ->]]%opened_snoc; [auto|]. by destruct Hc.
Qed.

Lemma ev_SqlOpen_inl i a e i' a' :
  @ev clusterSig (SqlOpen i a) (inl e) ≠ @ev clusterSig (SqlOpen i' a') (inr ()).
Proof.
  intros Hs.
  apply (f_equal (λ x : event clusterSig,
    match projT1 x as c return cresp c → bool with
    | SqlOpen _ _ => λ r, match r with inl _ => true | inr _ => false end
    | _ => λ _, true
    end (projT2 x))) in Hs. done.
Qed.

Lemma wp_connectAll indices ops h :
  (∀ i, opened h i → Some (OpSQL i) ∈ ops) →
  wp reads_only (connectAll cl indices ops) h
     (λ h' o, (match o with
               | Return ops' => (∀ i, opened h' i → Some (OpSQL i) ∈ ops') ∧
                                ∃ new, ops' = ops ++ new ∧ Forall2 op_for indices new
               | Error _ => ∀ i, opened h' i → closed h' i
               | Panic _ => False
               end) ∧ ∃ t, h' = h ++ t).
Proof.
  intros Hops. apply wp_extends. revert ops h Hops.
  induction indices as [|j indices IH]; intros ops h Hops; simpl.
  { split; [done|]. exists []. by rewrite app_nil_r. }
  unfold kcall. wp_norm. split; [done|]. intros r.
  assert (∀ i, opened (h ++ [@ev clusterSig (Resolve j) r]) i → Some (OpSQL i) ∈ ops) as Hops1.
  { intros i [?|[a ?]]%opened_snoc; [auto|done]. }
  assert (∀ op h1, (∀ i, opened h1 i → Some (OpSQL i) ∈ ops ++ [Some op]) → op_for j (Some op) →
    wp reads_only (connectAll cl indices (ops ++ [Some op])) h1 (λ h' o,
      match o with
      | Return ops' => (∀ i, opened h' i → Some (OpSQL i) ∈ ops') ∧
                       ∃ new, ops' = ops ++ new ∧ Forall2 op_for (j :: indices) new
      | Error _ => ∀ i, opened h' i → closed h' i
      | Panic _ => False
      end)) as Hnext.
  { intros op h1 H1 Hop. eapply wp_conseq; [by apply IH|].
    intros h' [ops'|e|m]; [|done..]. intros [Ho (new & -> & Hf)]. split; [done|].
    exists (Some op :: new). rewrite <- app_assoc. split; [done|]. by constructor. }
  destruct r as [e|addr].
  { apply Hnext; [intros i Hi; apply elem_of_app; left; auto|right; eauto]. }
  unfold kcall. wp_norm. split; [done|]. intros r.
  destruct r as [e|[]].
  - cbn [wp]. rewrite wp_bind. eapply wp_conseq; [apply wp_queries, wp_closeOps|].
    intros h' [] [[[Hc _] _] Ho] i Hi. apply Hc, Hops1.
    destruct (opened_snoc _ _ _ _ (Ho _ Hi)) as [?|[a ?]]; [done|]. simplify_eq.
    destruct (Ho _ Hi) as [a' [?|Hs%occurred_singleton]%occurred_app]; [by exists a'|].
    by apply ev_SqlOpen_inl in Hs.
  - apply Hnext; [|by left]. intros i [?|[a ?]]%opened_snoc; apply elem_of_app; [by left; auto|].
    simplify_eq. right. by apply list_elem_of_singleton.
Qed.

Lemma wp_queryStatus op n h :
  wp queries (queryStatus op n) h
     (λ h' o, match o with
              | Some st => ∃ i, op = OpSQL i ∧ occurred h' (DB i GetStatus) (inr st)
              | None => True
              end).
Proof.
  revert h. induction n as [|n IH]; intros h; simpl; rewrite wp_bind;
    (apply (wp_invoke _ _ GetStatus);
     [intros i ->; split; [done|]; intros [e|st]; simpl
     |by intros m ->]).
  - by case_bool_decide.
  - exists i. split; [done|]. apply occurred_app. right. by apply list_elem_of_singleton.
  - case_bool_decide; simpl; [done|]. split; [done|]. intros []. apply IH.
  - exists i. split; [done|]. apply occurred_app. right. by apply list_elem_of_singleton.
Qed.

(** An answer of instance [i] is behind the status [o]. *)
Definition answered (h : trace clusterSig) (op : option DBOp) (o : option MySQLInstanceStatus) : Prop :=
  match o with
  | Some st => ∃ i, op = Some (OpSQL i) ∧ occurred h (DB i GetStatus) (inr st)
  | None => True
  end.

Lemma answered_app h t op o : answered h op o → answered (h ++ t) op o.
Proof. destruct o as [st|]; simpl; [|done]. intros (i & ? & ?). exists i. rewrite occurred_app. auto. Qed.

Lemma wp_queryAll ops h :
  wp queries (queryAll ops) h
     (λ h' o, match o with
              | Return ists => Forall2 (answered h') ops ists
              | Error _ => True
              | Panic _ => ¬ Forall is_Some ops
              end).
Proof.
  revert h. induction ops as [|[op|] ops IH]; intros h; cbn [queryAll wp]; [done| |].
  - rewrite wp_bind. eapply wp_conseq; [apply wp_queryStatus|]. intros h1 ist Hist.
    rewrite wp_bind_outcome. eapply wp_conseq; [apply wp_extends, IH|].
    intros h2 [ists|e|m] [H [t ->]]; simpl; [|done|by rewrite Forall_cons; tauto].
    constructor; [|done]. destruct ist as [st|]; [|done].
    destruct Hist as (i & -> & Ho). exists i. split; [done|]. apply occurred_app. by left.
  - simpl. rewrite Forall_cons. intros [[? ?] _]. done.
Qed.

(** ** Errant replicas *)

(** [sts] is [sts0] with the replicas of [es] marked errant. *)
Definition marked (es : list Z) (sts0 sts : list (option MySQLInstanceStatus)) : Prop :=
  go_len sts = go_len sts0 ∧
  ∀ i, index_at sts i =
       fmap (M := option) (fmap (M := option)
         (λ st, if bool_decide (i ∈ es) then set_IsErrant true st else st)) (index_at sts0 i).

Lemma marked_nil sts : marked [] sts sts.
Proof.
  split; [done|]. intros i. rewrite bool_decide_false by apply not_elem_of_nil.
  by destruct (index_at sts i) as [[?|]|].
Qed.

Lemma markErrant_marked es sts0 sts i :
  marked es sts0 sts → 0 ≤ i < go_len sts0 →
  ∃ sts', markErrant sts i = Some sts' ∧ marked (es ++ [i]) sts0 sts'.
Proof.
  intros [Hlen Hm] Hi. unfold markErrant. rewrite Hm.
  assert (∀ j, j ≠ i → bool_decide (j ∈ es ++ [i]) = bool_decide (j ∈ es)) as Hother
    by (intros j Hj; apply bool_decide_ext; set_solver).
  assert (bool_decide (i ∈ es ++ [i]) = true) as Hself by (apply bool_decide_eq_true; set_solver).
  destruct (proj2 (index_at_lt sts0 i) Hi) as [o Ho]. rewrite Ho. simpl.
  destruct o as [st|]; simpl.
  - unfold set_at. rewrite Hm, Ho. simpl. eexists. split; [done|]. split; [by rewrite go_len_insert|].
    intros j. destruct (decide (j = i)) as [->|Hne].
    + rewrite index_at_insert_eq by lia. rewrite Ho, Hself. simpl. by destruct (bool_decide (i ∈ es)).
    + rewrite index_at_insert_ne, Hm, Hother by (lia || done). done.
  - eexists. split; [done|]. split; [done|]. intros j. rewrite Hm.
    destruct (decide (j = i)) as [->|Hne]; [by rewrite Ho|]. by rewrite Hother.
Qed.

Lemma restoreErrants_marked recorded ss sts0 es :
  marked es sts0 (MySQLStatus ss) → Errants ss = es →
  Forall (λ i, 0 ≤ i < go_len sts0) recorded →
  ∃ sts, restoreErrants recorded ss =
         Some (set_gathered sts (ss_ExecutedGTID ss) (es ++ recorded) (PreventPodDeletion ss) ss) ∧
         marked (es ++ recorded) sts0 sts.
Proof.
  revert ss es. induction recorded as [|i recorded IH]; intros ss es Hm Hes Hall; simpl.
  { exists (MySQLStatus ss). rewrite app_nil_r. split; [|done]. destruct ss. simpl in *. by subst. }
  apply Forall_cons in Hall as [Hi Hall].
  destruct (markErrant_marked _ _ _ _ Hm Hi) as (sts & -> & Hm'). simpl.
  destruct (IH (set_gathered sts (ss_ExecutedGTID ss) (Errants ss ++ [i]) (PreventPodDeletion ss) ss)
              (es ++ [i])) as (sts' & -> & Hm''); [done|by simpl; rewrite Hes|done|].
  exists sts'. rewrite <- app_assoc in *. done.
Qed.

Lemma containErrantTransactions_total p g : p ≠ "" → ∃ b, containErrantTransactions p g = Some b.
Proof.
  intros Hp. unfold containErrantTransactions. apply string_eqb_false in Hp. rewrite Hp.
  destruct (g =s ""); eauto.
Qed.

(** [GTID_SUBTRACT] on the primary says whether instance [i] is errant. *)
Definition verdict (h : trace clusterSig) (j : Z) (gtid uuid : string) (st : MySQLInstanceStatus)
    (errant : bool) : Prop :=
  ∃ diff, occurred h (DB j (SubtractGTID (ExecutedGTID (GlobalVariables_ st)) gtid)) (inr diff) ∧
          containErrantTransactions uuid diff = Some errant.

Lemma verdict_app h t j gtid uuid st b : verdict h j gtid uuid st b → verdict (h ++ t) j gtid uuid st b.
Proof. intros (diff & Ho & Hc). exists diff. rewrite occurred_app. auto. Qed.

Definition errant_inv (ss : StatusSet) (j : Z) (uuid : string) (h : trace clusterSig)
    (seen : list (Z * option MySQLInstanceStatus)) (es : list Z)
    (sts : list (option MySQLInstanceStatus)) : Prop :=
  marked es (MySQLStatus ss) sts ∧ (∀ i, i ∈ es → i ∈ seen.*1 ∧ i ≠ Primary ss) ∧
  ∀ i st, i ≠ Primary ss → (i, Some st) ∈ seen →
          verdict h j (ss_ExecutedGTID ss) uuid st (bool_decide (i ∈ es)).

Lemma errant_inv_skip ss j uuid h t seen es sts x :
  errant_inv ss j uuid h seen es sts → x.1 = Primary ss ∨ x.2 = None →
  errant_inv ss j uuid (h ++ t) (seen ++ [x]) es sts.
Proof.
  intros (Hm & Hes & Hv) Hx. split_and!; [done| |].
  - intros i [??]%Hes. rewrite fmap_app. set_solver.
  - intros i st Hi [Hin|Hin%list_elem_of_singleton]%elem_of_app; [apply verdict_app; auto|].
    subst x. simpl in Hx. naive_solver.
Qed.

Lemma errant_inv_step ss j uuid h t seen es sts i st b sts' :
  errant_inv ss j uuid h seen es sts → i ∉ seen.*1 → i ≠ Primary ss →
  verdict (h ++ t) j (ss_ExecutedGTID ss) uuid st b →
  marked (if b then es ++ [i] else es) (MySQLStatus ss) sts' →
  errant_inv ss j uuid (h ++ t) (seen ++ [(i, Some st)]) (if b then es ++ [i] else es) sts'.
Proof.
  intros (Hm & Hes & Hv) Hnew Hne Hb Hm'. split_and!; [done| |].
  - intros k Hk. rewrite fmap_app. destruct b; set_solver.
  - intros k st' Hk [Hin|Hin%list_elem_of_singleton]%elem_of_app.
    + assert (k ≠ i) as Hki.
      { intros ->. apply Hnew, list_elem_of_fmap. by exists (i, Some st'). }
      replace (bool_decide (k ∈ if b then es ++ [i] else es)) with (bool_decide (k ∈ es));
        [apply verdict_app; auto|]. apply bool_decide_ext. destruct b; set_solver.
    + simplify_eq. replace (bool_decide _) with b; [done|]. symmetry. destruct b.
      * apply bool_decide_eq_true. set_solver.
      * apply bool_decide_eq_false. intros [? _]%Hes. done.
Qed.

Lemma wp_errants pst ss op h :
  Errants ss = [] →
  index_at (DBOps ss) (Primary ss) = Some (Some op) → op_for (Primary ss) (Some op) →
  wp queries (for_range (indexed (MySQLStatus ss)) ss (errantStep pst)) h
     (λ h' o, match o with
              | Return ss' => ∃ es sts,
                  ss' = set_gathered sts (ss_ExecutedGTID ss) es (PreventPodDeletion ss) ss ∧
                  errant_inv ss (Primary ss) (UUID (GlobalVariables_ pst)) h'
                    (indexed (MySQLStatus ss)) es sts
              | Error _ => True
              | Panic _ => UUID (GlobalVariables_ pst) = ""
              end).
Proof.
  intros Hnone Hop Hfor. eapply wp_for_range with
    (I := λ h' rest ss', ∃ seen es sts, indexed (MySQLStatus ss) = seen ++ rest ∧
       ss' = set_gathered sts (ss_ExecutedGTID ss) es (PreventPodDeletion ss) ss ∧
       errant_inv ss (Primary ss) (UUID (GlobalVariables_ pst)) h' seen es sts).
  - exists [], [], (MySQLStatus ss). split_and!; [done|by destruct ss; simpl in *; subst|].
    split_and!; [apply marked_nil|set_solver|]. intros i st _ Hin. by apply elem_of_nil in Hin.
  - intros h' ss' (seen & es & sts & Heq & -> & Hinv). rewrite app_nil_r in Heq. subst seen. eauto.
  - intros h' [i ist] rest ss' (seen & es & sts & Heq & -> & Hinv). unfold errantStep. simpl.
    assert (indexed (MySQLStatus ss) = (seen ++ [(i, ist)]) ++ rest) as Heq' by by rewrite <- app_assoc.
    destruct (i =? Primary ss) eqn:Hi; bool_cases.
    { exists (seen ++ [(i, ist)]), es, sts. split_and!; [done..|].
      rewrite <- (app_nil_r h'). apply errant_inv_skip; auto. }
    destruct ist as [st|].
    2:{ exists (seen ++ [(i, None)]), es, sts. split_and!; [done..|].
        rewrite <- (app_nil_r h'). apply errant_inv_skip; auto. }
    assert (i ∉ seen.*1) as Hnew.
    { pose proof (NoDup_indexed_fst (MySQLStatus ss)) as Hnd. rewrite Heq, fmap_app in Hnd.
      apply NoDup_app in Hnd as (_ & Hd & _). intros Hs. apply (Hd i Hs). simpl. left. }
    assert (0 ≤ i < go_len (MySQLStatus ss)) as Hrange.
    { apply index_at_lt. exists (Some st). apply elem_of_indexed. rewrite Heq. set_solver. }
    rewrite wp_bind_outcome. wp_db; [exact Hop|done|done| |by simpl].
    intros [e|diff]; wp_norm; [done|].
    destruct (containErrantTransactions (UUID (GlobalVariables_ pst)) diff) as [b|] eqn:Hb; wp_norm.
    2:{ destruct (decide (UUID (GlobalVariables_ pst) = "")) as [?|Hu]; [done|].
        destruct (containErrantTransactions_total _ diff Hu). congruence. }
    set (h1 := h' ++ _). destruct Hinv as [Hm Hrest].
    assert (verdict h1 (Primary ss) (ss_ExecutedGTID ss) (UUID (GlobalVariables_ pst)) st b) as Hv.
    { exists diff. split; [|done]. apply occurred_app. right. by apply list_elem_of_singleton. }
    destruct b.
    + destruct (markErrant_marked es _ sts i Hm Hrange) as (sts' & Hmk & Hm'). cbn [set_gathered MySQLStatus]. wp_norm. rewrite Hmk. wp_norm.
      exists (seen ++ [(i, Some st)]), (es ++ [i]), sts'. split_and!; [done..|].
      by apply (errant_inv_step _ _ _ _ _ seen es sts i st true).
    + exists (seen ++ [(i, Some st)]), es, sts. split_and!; [done..|].
      by apply (errant_inv_step _ _ _ _ _ seen es sts i st false).
Qed.

Lemma index_at_dropHung primary sts i :
  index_at (dropHungReplicas primary sts) i =
  ((λ o, if i =? primary then o else
        match o with
        | None => None
        | Some st => if 0 <? SemiSyncMasterWaitSessions (GlobalStatus_ st) then None else Some st
        end) <$> index_at sts i).
Proof.
  unfold index_at, dropHungReplicas. destruct (Z.ltb_spec i 0); [done|].
  rewrite list_lookup_fmap, indexed_lookup, Z2Nat.id by done.
  by destruct (sts !! Z.to_nat i) as [[st|]|].
Qed.

Lemma go_len_dropHung primary sts : go_len (dropHungReplicas primary sts) = go_len sts.
Proof. unfold dropHungReplicas. rewrite go_len_fmap. unfold go_len. by rewrite length_indexed. Qed.

(** ** The result *)

Record gathered (h : trace clusterSig) (ss : StatusSet) : Prop := {
  g_wf : wf ss;
  g_cluster : Cluster ss = cl;
  g_primary : Primary ss = CurrentPrimaryIndex (Status cl);
  g_need : NeedSwitch ss = false;
  (** every operator is a connection to its own instance or a placeholder *)
  g_ops : ∀ i o, index_at (DBOps ss) i = Some o → op_for i o;
  (** a status is an answer of its instance, marked when it is errant *)
  g_answers : ∀ i st, index_at (MySQLStatus ss) i = Some (Some st) →
    ∃ st0, occurred h (DB i GetStatus) (inr st0) ∧
           st = if bool_decide (i ∈ Errants ss) then set_IsErrant true st0 else st0;
  (** replicas waiting for semi-sync acknowledgements are treated as down *)
  g_hung : ∀ i st, i ≠ Primary ss → index_at (MySQLStatus ss) i = Some (Some st) →
    SemiSyncMasterWaitSessions (GlobalStatus_ st) ≤ 0;
  (** the executed GTID set is the primary's *)
  g_gtid : ss_ExecutedGTID ss =
    match primary_status ss with Some pst => ExecutedGTID (GlobalVariables_ pst) | None => "" end;
  (** errant replicas are those the primary's GTID_SUBTRACT shows, or the
      recorded ones when the primary has no data *)
  g_errants : if (ss_ExecutedGTID ss =s "") then Errants ss = ErrantReplicaList (Status cl)
    else (Primary ss ∉ Errants ss) ∧ ∃ pst, primary_status ss = Some pst ∧
      ∀ i st, i ≠ Primary ss → index_at (MySQLStatus ss) i = Some (Some st) →
        verdict h (Primary ss) (ss_ExecutedGTID ss) (UUID (GlobalVariables_ pst)) st
          (bool_decide (i ∈ Errants ss))
}.

Hypothesis cl_sane : sane.

(** What [GatherStatus] has established when it starts to query. *)
Record connected_set (ss : StatusSet) : Prop := {
  c_cluster : Cluster ss = cl;
  c_primary : Primary ss = CurrentPrimaryIndex (Status cl);
  c_pods : go_len (Pods ss) = Replicas (Spec cl);
  c_present : Offline (Spec cl) = false → Forall is_Some (Pods ss);
  c_ops_len : go_len (DBOps ss) = Replicas (Spec cl);
  c_ops : ∀ i o, index_at (DBOps ss) i = Some o → op_for i o;
  c_fresh : Candidates ss = [];
  c_need : NeedSwitch ss = false
}.

Lemma connected_set_gathered ss sts g es b :
  connected_set ss → connected_set (set_gathered sts g es b ss).
Proof. intros []. by constructor. Qed.

Lemma connected_ops ss : connected_set ss → Forall is_Some (DBOps ss).
Proof.
  intros Hc. apply Forall_lookup. intros k o Hk.
  destruct (c_ops ss Hc (Z.of_nat k) o) as [->|[n ->]]; [|eauto..].
  apply index_at_Some. rewrite Nat2Z.id. split; [lia|done].
Qed.

Lemma connected_primary_op ss :
  connected_set ss →
  ∃ op, index_at (DBOps ss) (Primary ss) = Some (Some op) ∧ op_for (Primary ss) (Some op).
Proof.
  intros Hc. destruct cl_sane as (_ & Hp & _).
  rewrite <- (c_ops_len ss Hc), <- (c_primary ss Hc), <- index_at_lt in Hp. destruct Hp as [o Ho].
  pose proof (c_ops ss Hc _ _ Ho) as Hfor. destruct o as [op|]; [eauto|].
  destruct Hfor as [?|[? ?]]; done.
Qed.

(** The statuses are answers of their instances, none marked yet. *)
Definition raw (h : trace clusterSig) (ss : StatusSet) : Prop :=
  go_len (MySQLStatus ss) = Replicas (Spec cl) ∧
  ∀ i st, index_at (MySQLStatus ss) i = Some (Some st) → occurred h (DB i GetStatus) (inr st).

Lemma raw_app h t ss : raw h ss → raw (h ++ t) ss.
Proof. intros [? H]. split; [done|]. intros i st Hi. apply occurred_app. left. auto. Qed.

Lemma queryAll_raw h ss sts :
  connected_set ss → Forall2 (answered h) (DBOps ss) sts → raw h (set_MySQLStatus sts ss).
Proof.
  intros Hc Hf. split; simpl.
  - rewrite <- (c_ops_len ss Hc). unfold go_len. by rewrite (Forall2_length _ _ _ Hf).
  - intros i st [Hi Hst]%index_at_Some.
    destruct (Forall2_lookup_r _ _ _ _ _ Hf Hst) as (o & Ho & Hans).
    destruct Hans as (j & -> & Hocc). assert (index_at (DBOps ss) i = Some (Some (OpSQL j))) as Hop
      by by apply index_at_Some.
    destruct (c_ops ss Hc _ _ Hop) as [?|[? ?]]; by simplify_eq.
Qed.

(** The executed GTID set is the one of the primary's status. *)
Definition gtid_of_primary (ss : StatusSet) : Prop :=
  ss_ExecutedGTID ss =
  match primary_status ss with Some pst => ExecutedGTID (GlobalVariables_ pst) | None => "" end.

Lemma wp_recheckPrimary h ss :
  connected_set ss → raw h ss → ss_ExecutedGTID ss = "" → Errants ss = [] →
  wp queries (recheckPrimary ss) h
     (λ h' o, match o with
              | Return ss' => connected_set ss' ∧ raw h' ss' ∧ gtid_of_primary ss' ∧ Errants ss' = []
              | Error _ => True
              | Panic _ => False
              end).
Proof.
  intros Hc Hraw Hg He. unfold recheckPrimary. destruct cl_sane as (_ & Hp & _).
  rewrite <- (c_primary ss Hc), <- (proj1 Hraw) in Hp.
  destruct (proj2 (index_at_lt _ _) Hp) as [opst Hopst]. rewrite Hopst. wp_norm.
  destruct opst as [pst0|]; cbn [wp].
  2:{ split_and!; [done..| |done]. unfold gtid_of_primary, primary_status. by rewrite Hopst. }
  unfold kcall. wp_norm. split; [done|]. intros [].
  destruct (connected_primary_op ss Hc) as (op & Hop & Hfor).
  wp_norm. wp_db; [exact Hop|done|done| |by simpl].
  intros [e|pst]; wp_norm; [done|].
  destruct (set_at (MySQLStatus ss) (Primary ss) (Some pst)) as [sts|] eqn:Hset; wp_norm.
  2:{ unfold set_at in Hset. by rewrite Hopst in Hset. }
  apply set_at_Some in Hset as [_ ->].
  split_and!; [by apply connected_set_gathered| | |done].
  - split; simpl; [rewrite go_len_insert; apply Hraw|]. intros i st Hi.
    destruct (decide (i = Primary ss)) as [->|Hne].
    + rewrite index_at_insert_eq in Hi by done. simplify_eq.
      apply occurred_app. right. by apply list_elem_of_singleton.
    + rewrite index_at_insert_ne in Hi by (lia || congruence).
      do 2 (apply occurred_app; left). by apply Hraw.
  - unfold gtid_of_primary, primary_status. simpl. by rewrite index_at_insert_eq.
Qed.

(** After the classification: the set before hung replicas are dropped. *)
Definition classified (h : trace clusterSig) (ss1 ss2 : StatusSet) : Prop :=
  ∃ es sts, ss2 = set_gathered sts (ss_ExecutedGTID ss1) es (PreventPodDeletion ss1) ss1 ∧
    marked es (MySQLStatus ss1) sts ∧
    if (ss_ExecutedGTID ss1 =s "") then es = ErrantReplicaList (Status cl)
    else (Primary ss1 ∉ es) ∧ ∃ pst, primary_status ss1 = Some pst ∧
      ∀ i st, i ≠ Primary ss1 → index_at (MySQLStatus ss1) i = Some (Some st) →
        verdict h (Primary ss1) (ss_ExecutedGTID ss1) (UUID (GlobalVariables_ pst)) st
          (bool_decide (i ∈ es)).

Lemma wp_detectErrants h ss :
  connected_set ss → raw h ss → gtid_of_primary ss → Errants ss = [] →
  wp queries (detectErrants ss) h
     (λ h' o, match o with
              | Return ss' => classified h' ss ss'
              | Error _ => True
              | Panic _ => ¬ G h'
              end).
Proof.
  intros Hc Hraw Hg He. unfold detectErrants, classified.
  destruct (ss_ExecutedGTID ss =s "") eqn:Hempty; simpl; bool_cases.
  - rewrite (c_cluster ss Hc). destruct cl_sane as (_ & _ & Hes). rewrite <- (proj1 Hraw) in Hes.
    destruct (restoreErrants_marked _ ss (MySQLStatus ss) [] (marked_nil _) He Hes) as (sts & -> & Hm).
    simpl. eauto.
  - unfold gtid_of_primary, primary_status in *.
    destruct (index_at (MySQLStatus ss) (Primary ss)) as [opst|] eqn:Hopst; [|done].
    wp_norm. simpl in Hg. destruct opst as [pst|]; [|done].
    destruct (connected_primary_op ss Hc) as (op & Hop & Hfor).
    eapply wp_conseq; [eapply wp_extends, wp_errants; done|].
    intros h' [ss'|e|m] [H [t ->]]; [|done|].
    + destruct H as (es & sts & -> & Hm & Hes & Hv). exists es, sts. split; [done|]. split; [done|].
      split; [intros [_ ?]%Hes; done|]. exists pst. split; [done|].
      intros i st Hi Hst. apply Hv; [done|]. by apply elem_of_indexed.
    + intros HG. apply G_app in HG. pose proof (proj2 Hraw _ _ Hopst) as Hocc.
      apply HG in Hocc. simpl in Hocc. naive_solver.
Qed.

Lemma dropHung_inv primary sts i st :
  index_at (dropHungReplicas primary sts) i = Some (Some st) →
  index_at sts i = Some (Some st) ∧
  (i ≠ primary → SemiSyncMasterWaitSessions (GlobalStatus_ st) ≤ 0).
Proof.
  rewrite index_at_dropHung. destruct (index_at sts i) as [[st'|]|]; simpl; [|by destruct (i =? primary)..].
  destruct (i =? primary) eqn:Hi; bool_cases; [naive_solver|].
  destruct (0 <? _) eqn:Hw; bool_cases; [done|]. naive_solver.
Qed.

Lemma marked_inv es sts0 sts i st :
  marked es sts0 sts → index_at sts i = Some (Some st) →
  ∃ st0, index_at sts0 i = Some (Some st0) ∧
         st = if bool_decide (i ∈ es) then set_IsErrant true st0 else st0.
Proof.
  intros [_ Hm]. rewrite Hm. destruct (index_at sts0 i) as [[st0|]|]; simpl; [|done..].
  intros [= <-]. eauto.
Qed.

Lemma set_IsErrant_vars b st : GlobalVariables_ (set_IsErrant b st) = GlobalVariables_ st.
Proof. done. Qed.

Lemma classified_gathered h ss1 ss2 :
  connected_set ss1 → raw h ss1 → gtid_of_primary ss1 → classified h ss1 ss2 →
  gathered h (set_MySQLStatus (dropHungReplicas (Primary ss2) (MySQLStatus ss2)) ss2).
Proof.
  intros Hc [Hlen Hraw] Hg (es & sts & -> & Hm & Hes). destruct cl_sane as (Hn & Hp & _).
  set (ss := set_MySQLStatus _ _).
  assert (primary_status ss =
          (λ st, if bool_decide (Primary ss1 ∈ es) then set_IsErrant true st else st) <$> primary_status ss1) as Hps.
  { unfold primary_status. simpl. rewrite index_at_dropHung, (proj2 Hm). simpl.
    destruct (index_at (MySQLStatus ss1) (Primary ss1)) as [o|]; simpl; [|done]. by rewrite Z.eqb_refl. }
  constructor; simpl; try apply Hc.
  - constructor; simpl; rewrite ?(c_cluster ss1 Hc), ?(c_primary ss1 Hc); try apply Hc; try done.
    + rewrite go_len_dropHung, (proj1 Hm). done.
    + by apply connected_ops.
  - intros i st [Hi _]%dropHung_inv. destruct (marked_inv _ _ _ _ _ Hm Hi) as (st0 & Hst0 & ->). eauto.
  - intros i st Hne [_ Hw]%dropHung_inv. auto.
  - rewrite Hps, Hg. destruct (primary_status ss1); simpl; [|done]. by destruct (bool_decide _).
  - destruct (ss_ExecutedGTID ss1 =s "") eqn:E; [done|]. bool_cases.
    destruct Hes as (Hnp & pst & Hpst & Hv). split; [done|]. exists pst.
    rewrite Hps, Hpst, bool_decide_false by done. split; [done|].
    intros i st Hne [Hi _]%dropHung_inv. destruct (marked_inv _ _ _ _ _ Hm Hi) as (st0 & Hst0 & ->).
    destruct (Hv i st0 Hne Hst0) as (diff & Ho & Hd). exists diff. split; [|done].
    by destruct (bool_decide (i ∈ es)).
Qed.

Lemma DecideState_total ss : wf ss → ∃ ss', DecideState ss = Some ss' ∧ State ss' ≠ StateUndecided.
Proof.
  intros Hwf. destruct (decideSwitch_spec ss Hwf) as (s & c & Hd & Hs & _ & Hoff & _).
  destruct (DecideState_inv ss s c Hwf Hd Hoff) as (ss' & -> & <- & _).
  exists ss'. split; [done|]. intros Heq. by rewrite Heq in Hs.
Qed.

Definition gather_result (h : trace clusterSig) (o : outcome StatusSet) : Prop :=
  match o with
  | Return ss => ∃ ss0, gathered h ss0 ∧ DecideState ss0 = Some ss ∧ State ss ≠ StateUndecided
  | Error _ => True
  | Panic _ => ¬ G h
  end.

Lemma wp_gatherInstances h ss :
  connected_set ss → ss_ExecutedGTID ss = "" → Errants ss = [] →
  wp queries (gatherInstances ss) h gather_result.
Proof.
  intros Hc Hg He. unfold gatherInstances. rewrite wp_bind_outcome.
  eapply wp_conseq; [apply wp_queryAll|]. intros h1 [sts|e|m] Hsts; simpl; [|done|].
  2:{ by apply connected_ops in Hc. }
  apply queryAll_raw in Hsts; [|done]. rewrite wp_bind_outcome.
  eapply wp_conseq; [apply wp_recheckPrimary; [by apply connected_set_gathered|done..]|].
  intros h2 [ss2|e|m]; simpl; [|done..]. intros (Hc2 & Hr2 & Hg2 & He2). rewrite wp_bind_outcome.
  set (ss3 := set_gathered _ _ _ _ ss2).
  eapply wp_conseq; [apply wp_extends, wp_detectErrants; [by apply connected_set_gathered|done..]|].
  intros h3 [ss4|e|m] [H [t ->]]; simpl; [|done|done].
  pose proof (classified_gathered _ ss3 ss4 (connected_set_gathered _ _ _ _ _ Hc2)
    (raw_app _ t _ Hr2) Hg2 H) as Hgath.
  destruct (DecideState_total _ (g_wf _ _ Hgath)) as (ss' & Hd & Hu). rewrite Hd. simpl. eauto.
Qed.

Lemma wp_closing ops p h :
  wp queries p h gather_result →
  wp queries (closing ops p) h (λ h' o, (∃ h1 t, h' = h1 ++ t ∧ gather_result h1 o) ∧
     match o with
     | Return _ => True
     | _ => ∀ i, Some (OpSQL i) ∈ ops → closed h' i
     end).
Proof.
  intros Hp. unfold closing. rewrite wp_bind. eapply wp_conseq; [exact Hp|].
  intros h1 [ss|e|m] Hres; simpl.
  - destruct Hres as (ss0 & ? & ? & Hu). rewrite bool_decide_false by done. simpl. split; [|done].
    exists h1, []. rewrite app_nil_r. split; [done|]. by exists ss0.
  - rewrite wp_bind. eapply wp_conseq; [apply wp_closeOps|]. intros h2 [] [Hcl [t ->]]. simpl. eauto.
  - rewrite wp_bind. eapply wp_conseq; [apply wp_closeOps|]. intros h2 [] [Hcl [t ->]]. simpl. eauto.
Qed.

Lemma connectAll_op_for n ops :
  Forall2 op_for (upto n) ops → 0 ≤ n →
  go_len ops = n ∧ ∀ i o, index_at ops i = Some o → op_for i o.
Proof.
  intros Hf Hn. split.
  - apply Forall2_length in Hf. rewrite length_upto in Hf. unfold go_len. lia.
  - intros i o [Hi Ho]%index_at_Some.
    destruct (Forall2_lookup_r _ _ _ _ _ Hf Ho) as (j & Hj & Hfor). unfold upto in Hj.
    rewrite list_lookup_fmap in Hj. destruct (seq 0 (Z.to_nat n) !! Z.to_nat i) eqn:E; [|done].
    apply lookup_seq in E as [-> _]. simpl in Hj. simplify_eq. by rewrite Z2Nat.id in Hfor.
Qed.

Definition gather_ok (h : trace clusterSig) (o : outcome StatusSet) : Prop :=
  match o with
  | Return ss => ∃ ss0, gathered h ss0 ∧ DecideState ss0 = Some ss
  | Error _ => True
  | Panic _ => False
  end.

Lemma gathered_app h t ss : gathered h ss → gathered (h ++ t) ss.
Proof.
  intros []. constructor; try done.
  - intros i st Hi. destruct (g_answers0 i st Hi) as (st0 & ? & ?). exists st0.
    rewrite occurred_app. auto.
  - destruct (ss_ExecutedGTID ss =s ""); [done|].
    destruct g_errants0 as (? & pst & ? & Hv). split; [done|]. exists pst. split; [done|].
    intros i st Hi Hst. apply verdict_app. auto.
Qed.

(** From the Pods on. *)
Lemma wp_GatherStatus_pods c pwd items h :
  c = cl → go_len items ≤ Replicas (Spec cl) → (∃ ords, named cl items ords) →
  (∀ i, ¬ opened h i) →
  negb (Offline (Spec cl)) && negb (Replicas (Spec cl) =? go_len items) = false →
  wp (λ _ _, True)
    (slots <-? Ret (make_slice (Replicas (Spec c))) ;;
     pods <-? Ret (placePods (go_len items) items slots) ;;
     ops <-? connectAll c (upto (Replicas (Spec c))) [] ;;
     closing ops
       (gatherInstances
          {| Primary := CurrentPrimaryIndex (Status c); Cluster := c; Password_ := pwd;
             Pods := pods; DBOps := ops; MySQLStatus := replicate (Z.to_nat (Replicas (Spec c))) None;
             ss_ExecutedGTID := ""; Errants := []; Candidates := []; NeedSwitch := false;
             PreventPodDeletion := false; Candidate := 0; State := StateUndecided |})) h
    (λ h' o, G h' → gather_ok h' o).
Proof.
  intros -> Hle [ords Hords] Hno Hcount. destruct cl_sane as (Hn & _ & _).
  unfold make_slice. destruct (Z.ltb_spec (Replicas (Spec cl)) 0); [lia|]. wp_norm.
  assert (go_len (replicate (Z.to_nat (Replicas (Spec cl))) (@None Pod)) = Replicas (Spec cl)) as Hlen
    by (unfold go_len; rewrite length_replicate; lia).
  destruct (placePods_named cl (go_len items) items ords (replicate (Z.to_nat (Replicas (Spec cl))) None))
    as [[e ->]|(Hall & pods & -> & Hpl & Hp)]; [apply Hords|lia|by wp_norm|].
  wp_norm. eapply wp_mono; [done|intros ?? HX; exact HX|].
  eapply wp_conseq; [apply wp_connectAll; intros i Hi; by apply Hno in Hi|].
  intros h1 [ops|e|m] [H1 [t1 ->]]; [|done|done].
  destruct H1 as [_ (new & -> & Hf)].
  destruct (connectAll_op_for (Replicas (Spec cl)) new Hf ltac:(lia)) as [Hol Hof].
  eapply wp_mono; [done|intros ?? HX; exact HX|].
  eapply wp_conseq; [apply wp_closing, wp_gatherInstances; [|done|done]|].
  - constructor; simpl; try done; [by rewrite Hpl|]. intros Hoff. rewrite Hoff in Hcount.
    simpl in Hcount. bool_cases.
    apply (placePods_full cl items ords); [done|done|lia|]. intros i Hi. apply Hp. by left.
  - intros h2 [ss|e|m] [(h3 & t & -> & Hres) _] HG; simpl in *; [|done|].
    + destruct Hres as (ss0 & Hg & Hd & _). exists ss0. split; [by apply gathered_app|done].
    + by apply Hres, (G_app _ t).
Qed.

Lemma wp_GatherStatus name :
  wp (λ _ _, True) (GatherStatus name) [] (λ h o, G h → gather_ok h o).
Proof.
  unfold GatherStatus, kcall. wp_norm. split; [done|]. intros [e|c]; wp_norm; [done|].
  split; [done|]. intros [e|sec]; wp_norm; [done|].
  destruct (NewMySQLPasswordFromSecret sec) as [e|pwd]; wp_norm; [done|].
  split; [done|]. intros [e|items]; wp_norm; [done|].
  match goal with |- wp _ _ ?h0 _ => set (h := h0) end.
  apply wp_assume; [apply G_app|]. intros HG.
  assert (c = cl) as Hc by exact (HG GetCluster (inr c) ltac:(unfold h, occurred, occurs; set_solver)).
  assert (good (ListPods (nn_Namespace name) [(LabelAppName, AppNameMySQL); (LabelAppInstance, nn_Name name)])
            (inr items)) as [Hle Hords] by (apply HG; unfold h, occurred, occurs; set_solver).
  destruct (negb _ && negb _) eqn:Hcount; [done|].
  apply wp_GatherStatus_pods; [done..| |by rewrite <- Hc].
  intros i [a Ho]. unfold h, occurred, occurs in Ho. simpl in Ho.
  repeat (apply elem_of_cons in Ho as [Ho|Ho]; [by apply (f_equal (projT1 (P := cresp))) in Ho|]).
  by apply elem_of_nil in Ho.
Qed.
End gather.

(** ** Every answer *)

Lemma wp_db_call_queries ss i m h (Q : trace clusterSig → outcome (opresp m) → Prop) :
  (∀ j, reads (DB j m)) → (∀ h' o, Q h' o) → wp queries (db_call ss i m) h Q.
Proof.
  intros Hr HQ. unfold db_call. destruct (index_at (DBOps ss) i) as [[[j|n]|]|]; simpl; done.
Qed.

Lemma wp_gatherInstances_any ss h : wp queries (gatherInstances ss) h (λ _ _, True).
Proof.
  unfold gatherInstances. rewrite wp_bind_outcome.
  eapply wp_conseq; [apply wp_queryAll|]. intros h1 [sts|e|m] _; [|done..].
  rewrite wp_bind_outcome.
  assert (∀ ss h, wp queries (recheckPrimary ss) h (λ _ _, True)) as Hre.
  { clear. intros ss h. unfold recheckPrimary, kcall. wp_norm.
    destruct (index_at (MySQLStatus ss) (Primary ss)) as [[pst|]|]; wp_norm; [|done..].
    split; [done|]. intros []. wp_norm. apply (wp_db_call_queries _ _ GetStatus); [done|].
    intros h' [[e|r]|e|m]; wp_norm; [done| |done..]. by destruct (set_at _ _ _); wp_norm. }
  eapply wp_conseq; [apply Hre|]. intros h2 [ss2|e|m] _; [|done..]. rewrite wp_bind_outcome.
  eapply wp_conseq with (Q := λ _ _, True); [|intros ? [] _; [by destruct (DecideState _)|done..]].
  unfold detectErrants. destruct (negb _); [|by destruct (restoreErrants _ _)]. wp_norm.
  destruct (index_at _ _) as [[pst|]|]; [|done..].
  eapply wp_for_range with (I := λ _ _ _, True); [done..|].
  intros h3 [i ist] rest ss3 _. unfold errantStep. simpl. destruct (i =? Primary ss3); [done|].
  destruct ist as [st|]; [|done]. wp_norm. eapply (wp_db_call_queries _ _ (SubtractGTID _ _)); [done|].
  intros h' [[e|r]|e|m]; wp_norm; [done| |done..].
  destruct (containErrantTransactions _ _) as [[]|]; wp_norm; [|done..].
  by destruct (markErrant _ _); wp_norm.
Qed.

Lemma wp_GatherStatus_any name :
  wp reads_only (GatherStatus name) []
     (λ h o, is_return o = false → ∀ i, opened h i → closed h i).
Proof.
  unfold GatherStatus, kcall.
  assert (∀ h : trace clusterSig, Forall (λ e, match projT1 e with SqlOpen _ _ => False | _ => True end) h →
            ∀ i, ¬ opened h i) as Hno.
  { intros h Hall i [a Ho]. by apply (proj1 (Forall_forall _ _) Hall) in Ho. }
  assert (∀ h (o : outcome StatusSet), Forall (λ e, match projT1 e with SqlOpen _ _ => False | _ => True end) h →
            is_return o = false → ∀ i, opened h i → closed h i) as Hdone.
  { intros h o Hall _ i Hi. by apply Hno in Hi. }
  wp_norm. split; [done|]. intros [e|c]; wp_norm; [refine (Hdone _ _ _); by repeat constructor|].
  split; [done|]. intros [e|sec]; wp_norm; [refine (Hdone _ _ _); by repeat constructor|].
  destruct (NewMySQLPasswordFromSecret sec) as [e|pwd]; wp_norm; [refine (Hdone _ _ _); by repeat constructor|].
  split; [done|]. intros [e|items]; wp_norm; [refine (Hdone _ _ _); by repeat constructor|].
  destruct (negb _ && negb _); [refine (Hdone _ _ _); by repeat constructor|].
  wp_norm. unfold make_slice. destruct (_ <? 0); wp_norm; [refine (Hdone _ _ _); by repeat constructor|].
  destruct (placePods _ _ _) as [pods|e|m]; wp_norm; [|refine (Hdone _ _ _); by repeat constructor..].
  eapply wp_conseq; [apply wp_connectAll; intros i Hi; exfalso; eapply Hno; [|done]; by repeat constructor|].
  intros h1 [ops|e|m] [H1 _]; [|by intros _|done]. destruct H1 as [Ho _].
  unfold closing. rewrite wp_bind.
  eapply wp_conseq; [apply wp_queries, wp_gatherInstances_any|].
  intros h2 o [_ Ho2]. destruct o as [ss|e|m]; simpl.
  - case_bool_decide; [|done]. rewrite wp_bind. eapply wp_mono; [apply queries_reads_only|done|].
    eapply wp_conseq; [apply wp_closeOps|done].
  - rewrite wp_bind. eapply wp_conseq; [apply wp_queries, wp_closeOps|].
    intros h3 [] [[[Hc _] _] Ho3]. simpl. auto.
  - rewrite wp_bind. eapply wp_conseq; [apply wp_queries, wp_closeOps|].
    intros h3 [] [[[Hc _] _] Ho3]. simpl. auto.
Qed.

(** ** Theorems *)

(** C14. [GatherStatus] is correct: when the API server serves a MySQLCluster
    that refers to existing instances and the Pods have the names of a
    StatefulSet, no execution panics, and a status set it returns is decided
    from a set that is well-formed, holds in every slot an operator for that
    very instance and an answer of that very instance, leaves out replicas that
    wait for acknowledgements, and marks as errant exactly the replicas whose
    GTID difference on the primary shows transactions of other servers (or the
    recorded ones while the primary has no data). *)
Theorem gather_status_correct cl name t o :
  sane cl → exec (GatherStatus name) t o → G cl t → gather_ok cl t o.
Proof.
  intros Hs Hex HG. destruct (wp_exec _ _ _ _ _ _ (wp_GatherStatus cl Hs name) Hex) as [H _].
  by apply H.
Qed.

(** Whatever the answers, [GatherStatus] changes nothing: it only reads
    API objects, opens and closes connections, and asks instances for their
    status and for GTID differences; and when it does not return a status set
    it has closed every connection it opened. *)
Theorem gather_status_reads_and_closes name t o :
  exec (GatherStatus name) t o →
  (∀ e, e ∈ t → reads (projT1 e)) ∧
  (is_return o = false → ∀ i, opened t i → closed t i).
Proof.
  intros Hex. destruct (wp_exec _ _ _ _ _ _ (wp_GatherStatus_any name) Hex) as [HQ HP].
  split; [|done]. intros [c r] He. apply list_elem_of_split in He as (t1 & t2 & ->).
  by apply (HP t1 c r t2).
Qed.

(** ** The sample cluster *)

Definition sample_name : NamespacedName := {| nn_Namespace := "default"; nn_Name := "test" |}.
Definition sample_gather : trace clusterSig * outcome StatusSet :=
  run (S := clusterSig) (sample_env (sample_cluster 3 0) sample_statuses) (GatherStatus sample_name) ().

Example sample_gather_state :
  match sample_gather.2 with Return ss => State ss | _ => StateUndecided end = StateHealthy.
Proof. vm_compute. done. Qed.

Lemma sample_gather_exec : exec (GatherStatus sample_name) sample_gather.1 sample_gather.2.
Proof. unfold sample_gather. apply run_exec. Qed.

Lemma sample_good c u : good (sample_cluster 3 0) c (sample_env (sample_cluster 3 0) sample_statuses c u).1.
Proof.
  destruct c as [| | | | | | |i m| | | | | | | | | | |]; simpl; try done.
  - split; [done|]. exists [0; 1; 2]. split; [|apply (bool_decide_unpack _); by vm_compute].
    repeat constructor; vm_compute; congruence.
  - destruct m; simpl; try done. destruct (index_at sample_statuses i) as [st|] eqn:E; [|done].
    apply index_at_Some in E as [_ E]. destruct (Z.to_nat i) as [|[|[|k]]]; simpl in E; by simplify_eq.
Qed.

Lemma gather_status_correct_witness :
  gather_ok (sample_cluster 3 0) sample_gather.1 sample_gather.2.
Proof.
  apply (gather_status_correct (sample_cluster 3 0) sample_name).
  - split_and!; simpl; [lia|lia|lia|lia|constructor].
  - exact sample_gather_exec.
  - intros c r. unfold sample_gather. apply (run_answers (S := clusterSig) _ (good (sample_cluster 3 0))). intros c' u. apply sample_good.
Defined.

Lemma gather_status_reads_and_closes_witness :
  Forall (λ e, reads (projT1 e)) sample_gather.1.
Proof.
  apply Forall_forall.
  exact (proj1 (gather_status_reads_and_closes sample_name _ _ sample_gather_exec)).
Defined.
