(* ===== verification/Operations.v ===== *)
(** * The operations of a manager process (clustering/operations.go)

    Cloning from an external instance, switchover, failover, and the
    configuration of primary and replicas, each as the sequence of calls it
    makes.  [retry.RetryOnConflict] of client-go is a parameter with the law its
    documentation gives. *)

From S2P Require Import Prelude Prog Worlds GoLib Constants Api Password Dbop Gtid Event Cluster Samples Status.
#[local] Open Scope Z_scope.

Section operations.
Context `{!ConflictRetry clusterSig}.

(** [if err := ss.DBOps[i].m(...); err != nil { return wrap(err) }]. *)
Definition db_do (ss : StatusSet) (i : Z) (m : opcall) (wrap : error → error)
    : prog clusterSig (outcome (match m with
                                | GetStatus => MySQLInstanceStatus
                                | SubtractGTID _ _ => string
                                | IsSubsetGTID _ _ => bool
                                | _ => unit
                                end)) :=
  r <-? db_call ss i m ;;
  Ret (match m return opresp m → outcome (match m with
                                          | GetStatus => MySQLInstanceStatus
                                          | SubtractGTID _ _ => string
                                          | IsSubsetGTID _ _ => bool
                                          | _ => unit
                                          end) with
       | GetStatus => λ r, match r with inr a => Return a | inl e => Error (wrap e) end
       | SubtractGTID _ _ => λ r, match r with inr a => Return a | inl e => Error (wrap e) end
       | IsSubsetGTID _ _ => λ r, match r with inr a => Return a | inl e => Error (wrap e) end
       | ConfigureReplica _ _ | ConfigurePrimary _ | StopReplicaIOThread | WaitForGTID _ _
       | SetReadOnly _ | KillConnections | OpClose =>
           λ r, match r with inr a => Return a | inl e => Error (wrap e) end
       end r).

(** The status of instance [i], which must be there. *)
Definition status_at (ss : StatusSet) (i : Z) : prog clusterSig (outcome MySQLInstanceStatus) :=
  or_panic (mjoin (index_at (MySQLStatus ss) i)) "index out of range or nil pointer dereference".

Definition pod_at (ss : StatusSet) (i : Z) : prog clusterSig (outcome Pod) :=
  or_panic (mjoin (index_at (Pods ss) i)) "index out of range or nil pointer dereference".

Definition instance (i : Z) (msg : string) : string := msg +:+ " " +:+ Itoa i.

(* clustering/operations.go:21-23 timeoutSeconds *)
Definition timeoutSeconds : Z := 50.
(* clustering/operations.go:25-28 waitForCloneRestartDuration *)
Definition waitForCloneRestartDuration : Z := 3000.
Definition waitForRoleChangeDuration : Z := 300.

(** ** Cloning from an external instance *)

(* clustering/operations.go :: managerProcess.isCloning *)
Definition process_isCloning (ss : StatusSet) : option bool :=
  opst ← index_at (MySQLStatus ss) (Primary ss);
  match opst with
  | None => Some true
  | Some pst =>
      match CloneStatus_ pst with
      | Some cs => Some (null_string (cs_State cs) <>s "Failed")
      | None => Some false
      end
  end.

(** [for range 60 { select {...}; if op.GetStatus() succeeds { break } }]:
    an early return happens only when the context is done. *)
(* clustering/operations.go:133-144 clone *)
Fixpoint waitRestart (op : DBOp) (n : nat) : prog clusterSig (outcome unit) :=
  match n with
  | O => Ret (Return ())
  | S n =>
      cancelled <-- kcall TickOrDone ;;
      if (cancelled : bool) then Ret (Error ErrCtxDone) else
      r <-- invoke op GetStatus ;;
      match r with
      | inr _ => Ret (Return ())
      | inl _ => waitRestart op n
      end
  end.

(** The request for the external donor, from the Secret. *)
(* clustering/operations.go:75-113 clone *)
Definition cloneRequest (cluster : MySQLCluster) (name : string) (data : gmap string string)
    : extres CloneRequest :=
  let missing (k : string) : error := ErrNew ("no " +:+ k +:+ " in secret " +:+ name) in
  match data !! CloneSourceHostKey with
  | None => inl (missing CloneSourceHostKey)
  | Some host =>
  match data !! CloneSourcePortKey with
  | None => inl (missing CloneSourcePortKey)
  | Some port =>
  let n := ParseInt port 32 in
  if negb n.2 then inl (ErrWrap ("bad port number in secret " +:+ name) (ErrNew "strconv.ParseInt")) else
  if n.1 <=? 0 then inl (ErrNew ("bad port number in secret " +:+ name)) else
  match data !! CloneSourceUserKey with
  | None => inl (missing CloneSourceUserKey)
  | Some user =>
  match data !! CloneSourcePasswordKey with
  | None => inl (missing CloneSourcePasswordKey)
  | Some pw =>
  match data !! CloneSourceInitUserKey with
  | None => inl (missing CloneSourceInitUserKey)
  | Some iu =>
  match data !! CloneSourceInitPasswordKey with
  | None => inl (missing CloneSourceInitPasswordKey)
  | Some ipw =>
      inr {| req_Host := host; req_Port := n.1; req_User := user; req_Password := pw;
             req_InitUser := iu; req_InitPassword := ipw;
             req_BootTimeout := Some (StartupWaitSeconds (Spec cluster)) |}
  end end end end end end.

(** The body between [agentf.New] and the deferred [ag.Close]. *)
Definition cloneBody (ss : StatusSet) (req : CloneRequest) : prog clusterSig (outcome bool) :=
  r <-- kcall (AgentClone (Primary ss) req) ;;
  _ <-? check_res (ErrWrap ("failed to clone data from " +:+ req_Host req)) r ;;
  op <-? or_panic (index_at (DBOps ss) (Primary ss)) "index out of range" ;;
  _ <-- kcall (Sleep waitForCloneRestartDuration) ;;
  match op with
  | None => Ret (Panic "nil pointer dereference")
  | Some op => _ <-? waitRestart op 60 ;; Ret (Return true)
  end.

(* clustering/operations.go :: managerProcess.clone *)
Definition clone (ss : StatusSet) : prog clusterSig (outcome bool) :=
  match ReplicationSourceSecretName (Spec (Cluster ss)) with
  | None => Ret (Panic "nil pointer dereference")
  | Some secretName =>
      let name := Namespace (Cluster ss) +:+ "/" +:+ secretName in
      r <-- kcall (GetSecret (Namespace (Cluster ss)) secretName) ;;
      secret <-? check_res (ErrWrap ("failed to get secret " +:+ name)) r ;;
      req <-? check_res id (cloneRequest (Cluster ss) name (secret_Data secret)) ;;
      r <-- kcall (AgentNew (Primary ss)) ;;
      _ <-? check_res (ErrWrap (instance (Primary ss) "failed to connect to moco-agent for instance")) r ;;
      res <-- cloneBody ss req ;;
      _ <-- kcall (AgentClose (Primary ss)) ;;
      Ret res
  end.

(** ** Recording a new primary *)

(** The function given to [RetryOnConflict] by switchover and failover. *)
(* clustering/operations.go:204-211 switchover *)
Definition setPrimary (candidate : Z) : prog clusterSig (extres unit) :=
  cluster <-! kcall GetCluster ;;
  kcall (UpdateStatus (set_CurrentPrimaryIndex candidate cluster)).

Definition recordPrimary (candidate : Z) : prog clusterSig (outcome unit) :=
  r <-- RetryOnConflict (setPrimary candidate) ;;
  check_res (ErrWrap "failed to set the current primary index") r.

(** ** Switchover *)

(** [go func() { done <- pdb.SetReadOnly(ctx, true) }()] and what arrives on
    [done]. *)
Definition spawnSetReadOnly (op : DBOp) : prog clusterSig unit :=
  match op with
  | OpSQL i => kcall (SpawnSetReadOnly i)
  | OpNop _ => Ret ()
  end.
Definition doneResult (op : DBOp) (r : extres unit) : extres unit :=
  match op with
  | OpSQL _ => r
  | OpNop _ => inl ErrNop
  end.

Definition readOnlyMsg (i : Z) : string := "failed to make instance " +:+ Itoa i +:+ " read-only".

(** Make the primary read-only, killing connections when that takes longer than
    the given time or fails. *)
(* clustering/operations.go:165-187 switchover *)
Definition demotePrimary (ss : StatusSet) (timeout : Z) : prog clusterSig (outcome unit) :=
  opdb <-? or_panic (index_at (DBOps ss) (Primary ss)) "index out of range" ;;
  match opdb with
  | None => Ret (Panic "nil pointer dereference")
  | Some pdb =>
      let readonlyErr := ErrWrap (readOnlyMsg (Primary ss)) in
      let killErr := ErrWrap (instance (Primary ss) "failed to kill connections in instance") in
      _ <-- spawnSetReadOnly pdb ;;
      sel <-- kcall (SelectDone timeout) ;;
      match sel with
      | Some r =>
          match doneResult pdb r with
          | inl e =>
              k <-- invoke pdb KillConnections ;;
              match k with
              | inl ke => Ret (Error (ErrWrap2 (readOnlyMsg (Primary ss)) e ke))
              | inr _ => Ret (Error (readonlyErr e))
              end
          | inr _ => Ret (Return ())
          end
      | None =>
          k <-- invoke pdb KillConnections ;;
          _ <-? check_res killErr (k : extres unit) ;;
          r <-- kcall RecvDone ;;
          check_res readonlyErr (doneResult pdb r)
      end
  end.

(* clustering/operations.go:218-225 switchover *)
Definition removeDemote (ss : StatusSet) : prog clusterSig (outcome unit) :=
  ppod <-? pod_at ss (Primary ss) ;;
  match pod_Annotations ppod !! AnnDemote with
  | None => Ret (Return ())
  | Some _ =>
      r <-- kcall (PatchPod ppod (set_pod_Annotations (delete AnnDemote (pod_Annotations ppod)) ppod)) ;;
      check_res (ErrWrap "failed to remove moco.cybozu.com/demote annotation") r
  end.

(* clustering/operations.go :: managerProcess.switchover *)
Definition switchover (ss : StatusSet) : prog clusterSig (outcome unit) :=
  match Atoi PreStopSeconds with
  | None => Ret (Error (ErrNew "strconv.Atoi"))
  | Some preStopSeconds =>
      _ <-? demotePrimary ss (Z.quot preStopSeconds 2) ;;
      _ <-- kcall (Sleep 100) ;;
      _ <-? db_do ss (Primary ss) KillConnections
              (ErrWrap (instance (Primary ss) "failed to kill connections in instance")) ;;
      pst <-? db_do ss (Primary ss) GetStatus (ErrWrap "failed to get the primary status") ;;
      _ <-? db_do ss (Candidate ss) (WaitForGTID (ExecutedGTID (GlobalVariables_ pst)) timeoutSeconds) id ;;
      _ <-? recordPrimary (Candidate ss) ;;
      _ <-- kcall (MetricInc switchoverCount) ;;
      removeDemote ss
  end.

(** ** Failover *)

(* clustering/operations.go:235-245 failover *)
Definition stopIOStep (ss : StatusSet) (u : unit) (x : Z * option MySQLInstanceStatus)
    : prog clusterSig (outcome unit) :=
  if x.1 =? Primary ss then Ret (Return ()) else
  match x.2 with
  | None => Ret (Return ())
  | Some _ => db_do ss x.1 StopReplicaIOThread
                (ErrWrap (instance x.1 "failed to stop replica IO thread for instance"))
  end.

(** The rechecked statuses and the last operator used. *)
(* clustering/operations.go:249-267 failover *)
Definition recheckStep (ss : StatusSet) (acc : list (option MySQLInstanceStatus) * option DBOp)
    (x : Z * option MySQLInstanceStatus)
    : prog clusterSig (outcome (list (option MySQLInstanceStatus) * option DBOp)) :=
  if x.1 =? Primary ss then Ret (Return acc) else
  match x.2 with
  | None => Ret (Return acc)
  | Some ist =>
      if IsErrant ist then Ret (Return acc) else
      newStatus <-? db_do ss x.1 GetStatus
                      (ErrWrap (instance x.1 "failed to recheck the status of instance")) ;;
      candidates <-? or_panic (set_at acc.1 x.1 (Some newStatus)) "index out of range" ;;
      Ret (Return (candidates, mjoin (index_at (DBOps ss) x.1)))
  end.

(** [ss.Candidate] is set, so the new status set is returned. *)
(* clustering/operations.go :: managerProcess.failover *)
Definition failover (ss : StatusSet) : prog clusterSig (outcome StatusSet) :=
  _ <-? for_range (indexed (MySQLStatus ss)) () (stopIOStep ss) ;;
  _ <-- kcall (Sleep 100) ;;
  acc <-? for_range (indexed (MySQLStatus ss)) (replicate (length (MySQLStatus ss)) None, None)
            (recheckStep ss) ;;
  r <-- FindTopRunner acc.2 acc.1 ;;
  candidate <-? Ret (match r with
                     | Error e => Error (ErrWrap "failed to choose the next primary" e)
                     | r => r
                     end) ;;
  cst <-? or_panic (mjoin (index_at acc.1 candidate)) "index out of range or nil pointer dereference" ;;
  rs <-? or_panic (ReplicaStatus_ cst) "nil pointer dereference" ;;
  let ss := set_Candidate candidate ss in
  _ <-? db_do ss candidate (WaitForGTID (RetrievedGtidSet rs) timeoutSeconds) id ;;
  _ <-? recordPrimary candidate ;;
  _ <-- kcall (MetricInc failoverCount) ;;
  Ret (Return ss).

(** ** Roles and annotations of Pods *)

(** Pods without a role, or whose role label is not the right one any more;
    the label of the latter is removed. *)
(* clustering/operations.go:302-322 removeRoleLabel *)
Definition removeRoleStep (ss : StatusSet) (noRoles : list Z) (x : Z * option Pod)
    : prog clusterSig (outcome (list Z)) :=
  pod <-? or_panic x.2 "nil pointer dereference" ;;
  let v := map_str (pod_Labels pod) LabelMocoRole in
  if v =s "" then Ret (Return (noRoles ++ [x.1])) else
  if (x.1 =? Primary ss) && (v =s RolePrimary) then Ret (Return noRoles) else
  keep <-? (if x.1 =? Primary ss then Ret (Return false)
            else errant <-? or_panic (isErrantReplica ss x.1) "index out of range" ;;
                 Ret (Return (negb errant && (v =s RoleReplica)))) ;;
  if (keep : bool) then Ret (Return noRoles) else
  r <-- kcall (PatchPod pod (set_pod_Labels (delete LabelMocoRole (pod_Labels pod)) pod)) ;;
  _ <-? check_res (ErrWrap ("failed to remove " +:+ LabelMocoRole +:+ " label from "
                            +:+ pod_Namespace pod +:+ "/" +:+ pod_Name pod)) r ;;
  Ret (Return (noRoles ++ [x.1])).

(* clustering/operations.go :: removeRoleLabel *)
Definition removeRoleLabel (ss : StatusSet) : prog clusterSig (outcome (list Z)) :=
  for_range (indexed (Pods ss)) [] (removeRoleStep ss).

Definition roleOf (ss : StatusSet) (i : Z) : string :=
  if i =? Primary ss then RolePrimary else RoleReplica.

(* clustering/operations.go:330-352 addRoleLabel *)
Definition addRoleStep (ss : StatusSet) (u : unit) (i : Z) : prog clusterSig (outcome unit) :=
  errant <-? or_panic (isErrantReplica ss i) "index out of range" ;;
  if (errant : bool) then Ret (Return ()) else
  pod <-? pod_at ss i ;;
  r <-- kcall (PatchPod pod (set_pod_Labels (<[LabelMocoRole := roleOf ss i]> (pod_Labels pod)) pod)) ;;
  check_res (ErrWrap ("failed to add " +:+ LabelMocoRole +:+ " label to pod "
                      +:+ pod_Namespace pod +:+ "/" +:+ pod_Name pod)) r.

(* clustering/operations.go :: addRoleLabel *)
Definition addRoleLabel (ss : StatusSet) (alive : list Z) : prog clusterSig (outcome unit) :=
  for_range alive () (addRoleStep ss).

(* clustering/operations.go :: removeAnnPreventDelete *)
Definition removeAnnPreventDelete (ss : StatusSet) : prog clusterSig (outcome unit) :=
  for_range (Pods ss) () (λ _ opod,
    pod <-? or_panic opod "nil pointer dereference" ;;
    match pod_Annotations pod !! AnnPreventDelete with
    | None => Ret (Return ())
    | Some _ =>
        r <-- kcall (PatchPod pod (set_pod_Annotations (delete AnnPreventDelete (pod_Annotations pod)) pod)) ;;
        check_res (ErrWrap "failed to remove moco.cybozu.com/prevent-delete annotation") r
    end).

(* clustering/operations.go :: addAnnPreventDelete *)
Definition addAnnPreventDelete (ss : StatusSet) : prog clusterSig (outcome unit) :=
  ppod <-? pod_at ss (Primary ss) ;;
  match pod_Annotations ppod !! AnnPreventDelete with
  | Some _ => Ret (Return ())
  | None =>
      r <-- kcall (PatchPod ppod (set_pod_Annotations
                     (<[AnnPreventDelete := "true"]> (pod_Annotations ppod)) ppod)) ;;
      check_res (ErrWrap "failed to add moco.cybozu.com/prevent-delete annotation") r
  end.

(** ** Configuration *)

(** Start replication from the external instance unless it runs already. *)
(* clustering/operations.go:481-504 configureIntermediatePrimary *)
Definition followSource (ss : StatusSet) (pst : MySQLInstanceStatus) (redo : bool)
    : prog clusterSig (outcome bool) :=
  match ReplicationSourceSecretName (Spec (Cluster ss)) with
  | None => Ret (Panic "nil pointer dereference")
  | Some secretName =>
      let name := Namespace (Cluster ss) +:+ "/" +:+ secretName in
      r <-- kcall (GetSecret (Namespace (Cluster ss)) secretName) ;;
      secret <-? check_res (ErrWrap ("failed to get secret " +:+ name)) r ;;
      match Atoi (map_str (secret_Data secret) CloneSourcePortKey) with
      | None => Ret (Error (ErrWrap ("invalid port number in secret " +:+ name) (ErrNew "strconv.Atoi")))
      | Some port =>
          let ai := {| ai_Host := map_str (secret_Data secret) CloneSourceHostKey; ai_Port := port;
                       ai_User := map_str (secret_Data secret) CloneSourceUserKey;
                       ai_Password := map_str (secret_Data secret) CloneSourcePasswordKey |} in
          let running := match ReplicaStatus_ pst with
                         | None => false
                         | Some rs => (ReplicaIORunning rs =s "Yes") && (SourceHost rs =s ai_Host ai)
                         end in
          if running then Ret (Return redo) else
          _ <-? db_do ss (Primary ss) (ConfigureReplica ai false) id ;; Ret (Return true)
      end
  end.

(* clustering/operations.go :: configureIntermediatePrimary *)
Definition configureIntermediatePrimary (ss : StatusSet) : prog clusterSig (outcome bool) :=
  pst <-? status_at ss (Primary ss) ;;
  redo <-? (if SuperReadOnly (GlobalVariables_ pst) then Ret (Return false)
            else _ <-? db_do ss (Primary ss) (SetReadOnly true) id ;; Ret (Return true)) ;;
  followSource ss pst redo.

(** Execute what was retrieved, when this used to be a replica. *)
(* clustering/operations.go:512-527 configurePrimary *)
Definition drainRetrieved (ss : StatusSet) (rs : ReplicaStatus) : prog clusterSig (outcome bool) :=
  redo <-? (if ReplicaIORunning rs =s "Yes" then
              _ <-? db_do ss (Primary ss) StopReplicaIOThread id ;;
              _ <-- kcall (Sleep 100) ;;
              Ret (Return true)
            else Ret (Return false)) ;;
  if RetrievedGtidSet rs <>s "" then
    _ <-? db_do ss (Primary ss) (WaitForGTID (RetrievedGtidSet rs) 0) id ;;
    Ret (Return true)
  else Ret (Return redo).

(* clustering/operations.go:529-542 configurePrimary *)
Definition enableSemiSync (ss : StatusSet) (pst : MySQLInstanceStatus) (redo : bool)
    : prog clusterSig (outcome bool) :=
  if Replicas (Spec (Cluster ss)) =? 1 then Ret (Return redo) else
  let waitFor := Z.quot (Replicas (Spec (Cluster ss))) 2 in
  if negb (SemiSyncMasterEnabled (GlobalVariables_ pst))
     || negb (WaitForSlaveCount (GlobalVariables_ pst) =? waitFor)
  then _ <-? db_do ss (Primary ss) (ConfigurePrimary waitFor) id ;; Ret (Return true)
  else Ret (Return redo).

(* clustering/operations.go :: configurePrimary *)
Definition configurePrimary (ss : StatusSet) : prog clusterSig (outcome bool) :=
  pst <-? status_at ss (Primary ss) ;;
  redo <-? match ReplicaStatus_ pst with
           | None => Ret (Return false)
           | Some rs => drainRetrieved ss rs
           end ;;
  enableSemiSync ss pst redo.

(** The address replicas clone from, and the request. *)
(* clustering/operations.go:581-587 configureReplica *)
Definition donorAddr (ss : StatusSet) (ppod : Pod) : string :=
  if pod_PodIP ppod =s "0.0.0.0" then PodHostname (Cluster ss) (Primary ss) else pod_PodIP ppod.

Definition replicaCloneRequest (ss : StatusSet) (addr : string) : CloneRequest :=
  {| req_Host := addr; req_Port := MySQLAdminPort; req_User := CloneDonorUser;
     req_Password := donor (Password_ ss); req_InitUser := AdminUser;
     req_InitPassword := admin (Password_ ss); req_BootTimeout := None |}.

(* clustering/operations.go:605-628 configureReplica *)
Definition cloneReplica (ss : StatusSet) (index : Z) (addr : string) : prog clusterSig (outcome unit) :=
  r <-- kcall (AgentClone index (replicaCloneRequest ss addr)) ;;
  match r with
  | inl e =>
      _ <-- kcall (Emit CloneFailed [Itoa index; error_string e]) ;;
      Ret (Error (ErrWrap (instance index "failed to clone data on instance") e))
  | inr _ =>
      _ <-- kcall (Emit CloneSucceeded [Itoa index]) ;;
      _ <-- kcall (Sleep waitForCloneRestartDuration) ;;
      op <-? or_panic (mjoin (index_at (DBOps ss) index)) "nil pointer dereference" ;;
      waitRestart op 60
  end.

(** The tail of [configureReplica]: check that the primary still has the
    binlogs the replica needs, then point the replica at the primary. *)
(* clustering/operations.go:630-653 configureReplica *)
Definition startReplica (ss : StatusSet) (index : Z) (st : MySQLInstanceStatus) (redo : bool)
    : prog clusterSig (outcome bool) :=
  pst <-? status_at ss (Primary ss) ;;
  sub <-? db_do ss index (SubtractGTID (PurgedGTID (GlobalVariables_ pst))
                                       (ExecutedGTID (GlobalVariables_ st))) id ;;
  if sub <>s "" then
    Ret (Error (ErrNew (instance (Primary ss) "new primary" +:+ " does not have binlog containing transactions "
                        +:+ sub +:+ " required for instance " +:+ Itoa index)))
  else
  let ai := {| ai_Host := PodHostname (Cluster ss) (Primary ss); ai_Port := MySQLPort;
               ai_User := ReplicationUser; ai_Password := replicator (Password_ ss) |} in
  let semisync := bool_decide (ReplicationSourceSecretName (Spec (Cluster ss)) = None) in
  let running := match ReplicaStatus_ st with
                 | None => false
                 | Some rs => (ReplicaIORunning rs =s "Yes") && (SourceHost rs =s ai_Host ai)
                              && Bool.eqb (SemiSyncSlaveEnabled (GlobalVariables_ st)) semisync
                 end in
  if running then Ret (Return redo) else
  _ <-? db_do ss index (ConfigureReplica ai semisync) id ;; Ret (Return true).

(* clustering/operations.go :: configureReplica *)
Definition configureReplica (ss : StatusSet) (index : Z) : prog clusterSig (outcome bool) :=
  st <-? status_at ss index ;;
  if IsErrant st then
    match ReplicaStatus_ st with
    | None => Ret (Return false)
    | Some rs =>
        if ReplicaIORunning rs <>s "Yes" then Ret (Return false) else
        _ <-? db_do ss index StopReplicaIOThread id ;; Ret (Return true)
    end
  else
  redo <-? (if SuperReadOnly (GlobalVariables_ st) then Ret (Return false) else
            _ <-? db_do ss index KillConnections
                    (ErrWrap (instance index "failed to kill connections in instance")) ;;
            _ <-? db_do ss index (SetReadOnly true) id ;;
            Ret (Return true)) ;;
  if (ExecutedGTID (GlobalVariables_ st) =s "") && (ss_ExecutedGTID ss <>s "")
     && bool_decide (ReplicaStatus_ st = None)
  then
    ppod <-? pod_at ss (Primary ss) ;;
    let addr := donorAddr ss ppod in
    if addr =s "" then
      Ret (Error (ErrNew ("pod " +:+ pod_Name ppod +:+ " has not been assigned an IP address")))
    else
    r <-- kcall (AgentNew index) ;;
    _ <-? check_res (ErrWrap (instance index "failed to connect moco-agent of instance")) r ;;
    res <-- (_ <-? cloneReplica ss index addr ;; startReplica ss index st true) ;;
    _ <-- kcall (AgentClose index) ;;
    Ret res
  else startReplica ss index st redo.

(** The instances with a changed role that are up and not errant. *)
(* clustering/operations.go:400-406 configure *)
Fixpoint aliveOf (ss : StatusSet) (noRoles : list Z) : option (list Z) :=
  match noRoles with
  | [] => Some []
  | i :: rest =>
      ist ← index_at (MySQLStatus ss) i;
      errant ← isErrantReplica ss i;
      alive ← aliveOf ss rest;
      Some (if negb (bool_decide (is_Some ist)) || errant then alive else i :: alive)
  end.

(* clustering/operations.go:433-446 configure *)
Definition configureReplicaStep (ss : StatusSet) (redo : bool) (x : Z * option MySQLInstanceStatus)
    : prog clusterSig (outcome bool) :=
  if x.1 =? Primary ss then Ret (Return redo) else
  match x.2 with
  | None => Ret (Return redo)
  | Some _ =>
      r <-- configureReplica ss x.1 ;;
      match r with
      | Return r => Ret (Return (redo || r))
      | Error e => Ret (Error (ErrWrap (instance x.1 "failed to configure replica instance") e))
      | Panic m => Ret (Panic m)
      end
  end.

(* clustering/operations.go:454-468 configure *)
Definition makeWritable (ss : StatusSet) (redo : bool) : prog clusterSig (outcome bool) :=
  match ReplicationSourceSecretName (Spec (Cluster ss)) with
  | Some _ => Ret (Return redo)
  | None =>
      pst <-? status_at ss (Primary ss) ;;
      if ReadOnly (GlobalVariables_ pst) then
        _ <-? db_do ss (Primary ss) (SetReadOnly false) (ErrWrap "failed to make the primary writable") ;;
        _ <-- kcall (Emit SetWritable []) ;;
        Ret (Return true)
      else Ret (Return redo)
  end.

(* clustering/operations.go :: configure *)
Definition configure (ss : StatusSet) : prog clusterSig (outcome bool) :=
  noRoles <-? removeRoleLabel ss ;;
  alive <-? or_panic (aliveOf ss noRoles) "index out of range" ;;
  _ <-- (if 0 <? go_len alive then kcall (Sleep waitForRoleChangeDuration) else Ret ()) ;;
  _ <-? for_range alive () (λ _ i,
          db_do ss i KillConnections (ErrWrap (instance i "failed to kill connections in instance"))) ;;
  redo <-? match ReplicationSourceSecretName (Spec (Cluster ss)) with
           | Some _ => configureIntermediatePrimary ss
           | None => configurePrimary ss
           end ;;
  redo <-? for_range (indexed (MySQLStatus ss)) redo (configureReplicaStep ss) ;;
  _ <-? addRoleLabel ss alive ;;
  makeWritable ss redo.
End operations.
