(* ===== verification/OpsSpec.v ===== *)
(** * Shared facts about the operations of a manager process

    The status sets the operations start from, and the rules for calls to the
    operators they hold. *)

From S2P Require Import Prelude Prog Worlds GoLib Constants Api Password Dbop Gtid Event Cluster Samples Status StatusSpec Gather GatherSpec Operations.
#[local] Open Scope Z_scope.

(** ** Decided status sets *)

(** A well-formed set after [DecideState]: the candidates aside, it is as
    [GatherStatus] built it. *)
Definition shape (ss : StatusSet) : Prop := wf (set_Candidates [] ss).

(** Every operator belongs to its instance. *)
Definition own_ops (ss : StatusSet) : Prop :=
  ∀ i o, index_at (DBOps ss) i = Some o → op_for i o.

Lemma DecideState_set ss ss' :
  DecideState ss = Some ss' → ∃ cs n c st, ss' = set_decision cs n c st ss.
Proof.
  unfold DecideState. destruct (decideSwitch ss) as [[st [|i cs]]|]; simpl; [naive_solver| |done].
  destruct (index_at (Pods ss) (Primary ss)) as [[p|]|]; simpl; [|done..].
  destruct (index_at (sort_ints (i :: cs)) 0); simpl; [|done]. naive_solver.
Qed.

(** The decided set of a well-formed one has the shape, and its state is the
    documented one. *)
Lemma decided_shape ss ss' :
  wf ss → DecideState ss = Some ss' → shape ss' ∧ state_spec ss' (State ss').
Proof.
  intros Hwf Hd. destruct (decideSwitch_spec ss Hwf) as (s & c & Hsw & Hs & _ & Hoff & _).
  destruct (DecideState_inv ss s c Hwf Hsw Hoff) as (ss1 & Heq & <- & _).
  rewrite Hd in Heq. injection Heq as <-.
  destruct (DecideState_set _ _ Hd) as (cs & n & c' & st & ->).
  split; [|exact Hs]. destruct Hwf. by constructor.
Qed.

Section ops.
Context (ss : StatusSet).
Hypothesis Hshape : shape ss.
Hypothesis Hops : own_ops ss.

Lemma shape_len : go_len (MySQLStatus ss) = Replicas (Spec (Cluster ss)).
Proof. exact (wf_status _ Hshape). Qed.

Lemma shape_op i :
  0 ≤ i < Replicas (Spec (Cluster ss)) →
  ∃ op, index_at (DBOps ss) i = Some (Some op) ∧ op_for i (Some op).
Proof.
  intros Hi. pose proof (wf_ops _ Hshape) as Hlen. simpl in Hlen.
  rewrite <- Hlen, <- index_at_lt in Hi. destruct Hi as [o Ho].
  pose proof (Hops _ _ Ho) as Hfor. destruct o as [op|]; [eauto|]. by destruct Hfor as [?|[? ?]].
Qed.

Lemma shape_status i ist :
  index_at (MySQLStatus ss) i = Some ist → 0 ≤ i < Replicas (Spec (Cluster ss)).
Proof.
  intros Hi. pose proof (wf_status _ Hshape) as Hlen. simpl in Hlen.
  rewrite <- Hlen, <- index_at_lt. eauto.
Qed.

Lemma wp_db_at P i m h (Q : trace clusterSig → outcome (opresp m) → Prop) :
  0 ≤ i < Replicas (Spec (Cluster ss)) → P h (DB i m) →
  (∀ r, Q (h ++ [@ev clusterSig (DB i m) r]) (Return r)) → Q h (Return (nop_response m)) →
  wp P (db_call ss i m) h Q.
Proof.
  intros Hi HP HQ HN. destruct (shape_op i Hi) as (op & Hop & Hfor).
  by eapply (wp_db_call P ss i m op).
Qed.
End ops.

(** [db_do] on instance [i]: the call is permitted, its error is returned, and
    on success the history records it. *)
Ltac wp_do :=
  unfold db_do; wp_norm;
  lazymatch goal with
  | |- wp ?P (db_call ?ss ?i ?m) ?h ?Q =>
      eapply (wp_db_at ss ltac:(eassumption) ltac:(eassumption) P i m h Q);
      [| |let e := fresh "e" in let a := fresh "a" in intros [e|a]; wp_norm|wp_norm]
  end.

(** A recorded call. *)
Lemma occurred_last h c r : occurred (h ++ [@ev clusterSig c r]) c r.
Proof. apply occurs_last. Qed.
Lemma occurred_weaken h t c r : occurred h c r → occurred (h ++ t) c r.
Proof. apply occurs_app_l. Qed.
#[export] Hint Resolve occurred_last occurred_weaken : moco.

(** Recording a primary: only the update of the API object, with the given
    index, and on success it has happened. *)
Lemma wp_recordPrimary {RC : ConflictRetry clusterSig} (P : trace clusterSig → ccall → Prop) c h :
  (∀ h', P h' GetCluster) →
  (∀ t cl, P (h ++ t) (UpdateStatus (set_CurrentPrimaryIndex c cl))) →
  wp P (recordPrimary c) h
     (λ h' o, match o with
              | Return _ => ∃ cl, occurred h' (UpdateStatus (set_CurrentPrimaryIndex c cl)) (inr ())
              | Error _ => True
              | Panic _ => False
              end).
Proof.
  intros HG HU. unfold recordPrimary. rewrite wp_bind.
  apply (wp_RetryOnConflict _ _ (λ h', ∃ t, h' = h ++ t)); [by exists []; rewrite app_nil_r|].
  intros h' [t ->]. unfold setPrimary, kcall. wp_norm. split; [done|].
  intros [e|cl]; wp_norm; [split; [done|]; intros _; exists (t ++ [@ev clusterSig GetCluster (inl e)]);
                           by rewrite app_assoc|].
  split; [rewrite <- app_assoc; apply HU|]. intros [e|[]]; wp_norm.
  - split; [done|]. intros _. eexists. by rewrite <- !app_assoc.
  - split; [|done]. exists cl. auto with moco.
Qed.

(** The sample cluster's operators. *)
Lemma sample_ss_own_ops demoted statuses : own_ops (sample_ss demoted statuses).
Proof.
  intros i o [Hi Ho]%index_at_Some. simpl in Ho. left.
  destruct (Z.to_nat i) as [|[|[|k]]] eqn:E; simpl in Ho; simplify_eq; repeat f_equal; lia.
Qed.
