(* ===== verification/FailoverSpec.v ===== *)
(** * Failover

    A failover promotes a replica only after every running replica stopped
    receiving from the old primary and the chosen one has executed what it
    received; and, with the semi-synchronous replication MOCO configures, the
    new primary has every transaction that was acknowledged to a client. *)

From S2P Require Import Prelude Prog Worlds GoLib Constants Api Password Dbop Gtid Event Cluster Samples Status StatusSpec Gather GatherSpec Operations OpsSpec.
#[local] Open Scope Z_scope.

Section failover.
Context {RC : ConflictRetry clusterSig}.
Context (ss : StatusSet).
Hypothesis Hshape : shape ss.
Hypothesis Hops : own_ops ss.

(** All running replicas have stopped their IO thread. *)
Definition all_stopped (h : trace clusterSig) : Prop :=
  ∀ i st, i ≠ Primary ss → index_at (MySQLStatus ss) i = Some (Some st) →
          occurred h (DB i StopReplicaIOThread) (inr ()).

(** Instance [c] answered the recheck with the replication status [rs]. *)
Definition rechecked (h : trace clusterSig) (c : Z) (rs : ReplicaStatus) : Prop :=
  c ≠ Primary ss ∧ ∃ st, occurred h (DB c GetStatus) (inr st) ∧ ReplicaStatus_ st = Some rs.

(** Instance [c] may be recorded as the primary. *)
Definition promotable (h : trace clusterSig) (c : Z) : Prop :=
  all_stopped h ∧
  ∃ rs, rechecked h c rs ∧ occurred h (DB c (WaitForGTID (RetrievedGtidSet rs) timeoutSeconds)) (inr ()).

(** The calls a failover may make after a history. *)
Definition failover_protocol (h : trace clusterSig) (c : ccall) : Prop :=
  match c with
  | DB i StopReplicaIOThread => i ≠ Primary ss
  | DB i GetStatus => i ≠ Primary ss ∧ all_stopped h
  | DB i (IsSubsetGTID _ _) => i ≠ Primary ss ∧ all_stopped h
  | DB i (WaitForGTID g _) => ∃ rs, g = RetrievedGtidSet rs ∧ rechecked h i rs ∧ all_stopped h
  | UpdateStatus cl => promotable h (CurrentPrimaryIndex (Status cl))
  | GetCluster | Sleep _ => True
  | MetricInc m => m = failoverCount
  | _ => False
  end.

Lemma all_stopped_app h t : all_stopped h → all_stopped (h ++ t).
Proof. intros H i st Hi Hst. apply occurred_weaken. eauto. Qed.

Lemma rechecked_app h t c rs : rechecked h c rs → rechecked (h ++ t) c rs.
Proof. intros (? & st & ? & ?). split; [done|]. exists st. auto with moco. Qed.

Lemma promotable_app h t c : promotable h c → promotable (h ++ t) c.
Proof.
  intros (? & rs & ? & ?). split; [by apply all_stopped_app|]. exists rs.
  split; [by apply rechecked_app|auto with moco].
Qed.

(** ** The loops *)

Lemma wp_stopIO h :
  wp failover_protocol (for_range (indexed (MySQLStatus ss)) () (stopIOStep ss)) h
     (λ h' o, match o with
              | Return _ => all_stopped h'
              | Error _ => True
              | Panic _ => False
              end).
Proof.
  eapply wp_for_range with (I := λ h' rest _, ∃ seen, indexed (MySQLStatus ss) = seen ++ rest ∧
    ∀ i st, i ≠ Primary ss → (i, Some st) ∈ seen → occurred h' (DB i StopReplicaIOThread) (inr ())).
  - exists []. split; [done|]. intros i st _ Hin. by apply elem_of_nil in Hin.
  - intros h' _ (seen & Heq & H) i st Hi Hst. rewrite app_nil_r in Heq. subst seen.
    eapply H; [done|]. by apply elem_of_indexed.
  - intros h' [i ist] rest [] (seen & Heq & H). unfold stopIOStep. simpl.
    assert (indexed (MySQLStatus ss) = (seen ++ [(i, ist)]) ++ rest) as Heq' by by rewrite <- app_assoc.
    destruct (i =? Primary ss) eqn:Hi; bool_cases.
    { exists (seen ++ [(i, ist)]). split; [done|].
      intros j st Hj [?|?%list_elem_of_singleton]%elem_of_app; [eauto|naive_solver]. }
    destruct ist as [st|].
    2:{ exists (seen ++ [(i, None)]). split; [done|].
        intros j st Hj [?|?%list_elem_of_singleton]%elem_of_app; [eauto|naive_solver]. }
    assert (index_at (MySQLStatus ss) i = Some (Some st)) as Hst
      by (apply elem_of_indexed; rewrite Heq; set_solver).
    wp_do; [by eapply shape_status|done|done| |done]. destruct a.
    exists (seen ++ [(i, Some st)]). split; [done|].
    intros j st' Hj [?|?%list_elem_of_singleton]%elem_of_app; [apply occurred_weaken; eauto|].
    simplify_eq. auto with moco.
Qed.

(** What the recheck loop has built when it is at [rest]. *)
Definition recheck_inv (h : trace clusterSig) (rest : list (Z * option MySQLInstanceStatus))
    (acc : list (option MySQLInstanceStatus) * option DBOp) : Prop :=
  all_stopped h ∧
  ∃ seen, indexed (MySQLStatus ss) = seen ++ rest ∧
    go_len acc.1 = go_len (MySQLStatus ss) ∧
    (∀ i st, index_at acc.1 i = Some (Some st) →
       i ≠ Primary ss ∧ occurred h (DB i GetStatus) (inr st)) ∧
    (∀ i ist, i ≠ Primary ss → (i, Some ist) ∈ seen → IsErrant ist = false →
       ∃ st, index_at acc.1 i = Some (Some st)) ∧
    match acc.2 with
    | None => ∀ i st, index_at acc.1 i ≠ Some (Some st)
    | Some op => ∃ j, op = OpSQL j ∧ j ≠ Primary ss
    end.

Lemma recheck_inv_skip h x rest acc :
  recheck_inv h (x :: rest) acc →
  x.1 = Primary ss ∨ x.2 = None ∨ (∃ ist, x.2 = Some ist ∧ IsErrant ist = true) →
  recheck_inv h rest acc.
Proof.
  intros (Hs & seen & Heq & Hlen & Hans & Hcov & Hop) Hx. split; [done|].
  exists (seen ++ [x]). rewrite <- app_assoc. split_and!; try done.
  intros i ist Hi [?|?%list_elem_of_singleton]%elem_of_app He; [eauto|]. subst x.
  destruct Hx as [?|[?|(? & ? & ?)]]; simplify_eq/=; congruence.
Qed.

Lemma recheck_inv_step h i ist rest acc st sts :
  recheck_inv h ((i, Some ist) :: rest) acc → i ≠ Primary ss →
  set_at acc.1 i (Some st) = Some sts → mjoin (index_at (DBOps ss) i) = Some (OpSQL i) →
  recheck_inv (h ++ [@ev clusterSig (DB i GetStatus) (inr st)]) rest
    (sts, mjoin (index_at (DBOps ss) i)).
Proof.
  intros (Hs & seen & Heq & Hlen & Hans & Hcov & Hop) Hi [Hr ->]%set_at_Some ->.
  split; [by apply all_stopped_app|]. exists (seen ++ [(i, Some ist)]). rewrite <- app_assoc.
  split_and!; simpl; [done|by rewrite go_len_insert| | |eauto].
  - intros j st' Hj. destruct (decide (j = i)) as [->|Hne].
    + rewrite index_at_insert_eq in Hj by done. simplify_eq. auto with moco.
    + rewrite index_at_insert_ne in Hj by (lia || congruence). apply Hans in Hj as [? ?]. auto with moco.
  - intros j ist' Hj Hin He. destruct (decide (j = i)) as [->|Hne].
    + rewrite index_at_insert_eq by done. eauto.
    + rewrite index_at_insert_ne by (lia || congruence).
      apply elem_of_app in Hin as [?|?%list_elem_of_singleton]; [eauto|naive_solver].
Qed.

Lemma wp_recheck h :
  all_stopped h →
  wp failover_protocol
     (for_range (indexed (MySQLStatus ss)) (replicate (length (MySQLStatus ss)) None, None) (recheckStep ss)) h
     (λ h' o, match o with
              | Return acc => recheck_inv h' [] acc
              | Error _ => True
              | Panic _ => False
              end).
Proof.
  intros Hs. eapply wp_for_range with (I := recheck_inv); [|done|].
  - assert (∀ i st, index_at (replicate (length (MySQLStatus ss)) None) i ≠ Some (Some (st : MySQLInstanceStatus))) as Hn.
    { intros i st [_ [? _]%lookup_replicate]%index_at_Some. done. }
    split; [done|]. exists []. split_and!; simpl; [done| | | |done].
    + unfold go_len. by rewrite length_replicate.
    + intros i st Hi. by apply Hn in Hi.
    + intros i ist _ Hin. by apply elem_of_nil in Hin.
  - intros h' [i ist] rest acc Hinv. unfold recheckStep. cbn [fst snd].
    destruct (i =? Primary ss) eqn:Hi; bool_cases; [eapply recheck_inv_skip; [done|by left]|].
    destruct ist as [ist|]; [|eapply recheck_inv_skip; [done|auto]].
    destruct (IsErrant ist) eqn:He; [eapply recheck_inv_skip; eauto 6|].
    pose proof Hinv as (Hst & seen & Heq & Hlen & Hrest).
    assert (index_at (MySQLStatus ss) i = Some (Some ist)) as Hist
      by (apply elem_of_indexed; rewrite Heq; set_solver).
    pose proof (shape_status ss Hshape _ _ Hist) as Hrange.
    unfold db_do. wp_norm. destruct (shape_op ss Hshape Hops i Hrange) as (op & Hop & Hfor).
    destruct Hfor as [[= ->]|[n [= ->]]]; [|unfold db_call; by rewrite Hop].
    wp_db; [exact Hop|by left|done| |by wp_norm].
    intros [e|st]; wp_norm; [done|].
    assert (is_Some (set_at acc.1 i (Some st))) as [sts Hset].
    { unfold set_at. rewrite <- (shape_len ss Hshape), <- Hlen in Hrange.
      apply index_at_lt in Hrange as [x ->]. eauto. }
    rewrite Hset. wp_norm. eapply recheck_inv_step; [done..|]. by rewrite Hop.
Qed.

(** ** The whole operation *)

Section meaning.
Context {tx : Type} (gtids : string → tx → Prop).

(** mysqld's [GTID_SUBSET] answers by the meaning of GTID sets. *)
Definition sound (h : trace clusterSig) : Prop :=
  ∀ i a b v, occurred h (DB i (IsSubsetGTID a b)) (inr v) → (v = true ↔ gtid_subset gtids a b).

Lemma sound_app h t : sound (h ++ t) → sound h.
Proof. intros H i a b v Ho. eapply H. by apply occurred_weaken. Qed.

(** The rechecked statuses [cands] are complete, and [c], with the replication
    status [rs], is the most advanced of them. *)
Definition chosen (h : trace clusterSig) (cands : list (option MySQLInstanceStatus)) (c : Z)
    (rs : ReplicaStatus) : Prop :=
  (∀ i st, index_at cands i = Some (Some st) → occurred h (DB i GetStatus) (inr st)) ∧
  (∀ i ist, i ≠ Primary ss → index_at (MySQLStatus ss) i = Some (Some ist) → IsErrant ist = false →
     ∃ st, index_at cands i = Some (Some st)) ∧
  (c ≠ Primary ss ∧ ∃ st, index_at cands c = Some (Some st) ∧ ReplicaStatus_ st = Some rs) ∧
  (sound h → top_runner gtids cands c).

Definition failed_over (h : trace clusterSig) (o : outcome StatusSet) : Prop :=
  match o with
  | Return ss' => ∃ c rs cands, ss' = set_Candidate c ss ∧ chosen h cands c rs ∧
      occurred h (DB c (WaitForGTID (RetrievedGtidSet rs) timeoutSeconds)) (inr ()) ∧
      ∃ cl, occurred h (UpdateStatus (set_CurrentPrimaryIndex c cl)) (inr ())
  | Error _ => True
  | Panic _ => False
  end.

Lemma wp_choose h acc :
  recheck_inv h [] acc →
  wp failover_protocol (FindTopRunner acc.2 acc.1) h
     (λ h' r, (∃ t, h' = h ++ t) ∧
              match r with
              | Return c => (∃ g, candidate_gtids acc.1 c g) ∧ (sound h' → top_runner gtids acc.1 c)
              | Error _ => True
              | Panic _ => False
              end).
Proof.
  intros (Hs & seen & _ & _ & _ & _ & Hop).
  assert (∀ op, acc.2 = Some op → ∃ j, op = OpSQL j ∧ j ≠ Primary ss) as Hop'
    by (intros op Ho; by rewrite Ho in Hop).
  assert (acc.2 = None → ∀ i st, index_at acc.1 i ≠ Some (Some st)) as Hnil
    by (intros Ho; by rewrite Ho in Hop).
  clear Hop.
  apply (wp_protocol (λ h' c, all_stopped h' → failover_protocol h' c) _ all_stopped);
    [auto|intros; by apply all_stopped_app|done|].
  eapply wp_conseq; [apply wp_and; [|apply (wp_FindTopRunner gtids _ sound (λ _ _, True))]|].
  - apply wp_FindTopRunner_candidate; [|exact Hnil]. intros op h' a b Q Ho HQ.
    destruct (Hop' op Ho) as (j & -> & Hj). simpl. split; [done|]. intros r. apply HQ.
  - apply sound_app.
  - intros op h' a b Ho. destruct (Hop' op Ho) as (j & -> & Hj). simpl. split; [done|].
    intros [e|v]; (split; [eauto|]); [done|]. intros Hsd. by eapply Hsd, occurred_last.
  - exact Hnil.
  - intros h' [c|e|m] [H1 [Ht H2]]; [|done..]. auto.
Qed.

Lemma wp_failover h : wp failover_protocol (failover ss) h failed_over.
Proof.
  unfold failover, kcall. rewrite wp_bind_outcome.
  eapply wp_conseq; [apply wp_stopIO|]. intros h1 [[]|e|m] H1; [|done..].
  wp_norm. split; [done|]. intros []. wp_norm.
  eapply wp_conseq; [apply wp_recheck; by apply all_stopped_app|].
  intros h2 [acc|e|m] H2; [|done..]. wp_norm.
  eapply wp_conseq; [by apply wp_choose|]. intros h3 [c|e|m] [[t3 ->] H3]; wp_norm; [|done..].
  destruct H3 as [(g & st & rs & Hst & Hrs & _) Htop].
  destruct H2 as (Hs & seen & Heq & Hlen & Hans & Hcov & _). rewrite app_nil_r in Heq. subst seen.
  rewrite Hst. simpl. wp_norm. rewrite Hrs. wp_norm.
  destruct (Hans c st Hst) as [Hc Hocc].
  assert (0 ≤ c < Replicas (Spec (Cluster ss))) as Hrange
    by (rewrite <- (shape_len ss Hshape), <- Hlen, <- index_at_lt; eauto).
  assert (rechecked (h2 ++ t3) c rs) as Hre by (split; [done|]; exists st; auto with moco).
  pose proof (all_stopped_app _ t3 Hs) as Hs3.
  assert (chosen (h2 ++ t3) acc.1 c rs) as Hch.
  { split_and!; [intros i st' Hi; by apply occurred_weaken, Hans| |done|by exists st|done].
    intros i ist Hi Hist He. eapply Hcov; [done| |done]. by apply elem_of_indexed. }
  unfold db_do. change (db_call (set_Candidate c ss)) with (db_call ss).
  wp_do; [done|by exists rs|done| |done]. destruct a.
  set (h4 := (h2 ++ t3) ++ _).
  assert (promotable h4 c) as Hprom.
  { split; [by apply all_stopped_app|]. exists rs. split; [by apply rechecked_app|]. apply occurred_last. }
  eapply wp_conseq; [apply wp_extends, wp_recordPrimary; [done|intros t' cl; by apply promotable_app]|].
  intros h5 [[]|e|m] [H5 [t5 ->]]; wp_norm; [|done..].
  destruct H5 as [cl Hup]. split; [done|]. intros []. exists c, rs, acc.1.
  split_and!; [done| |do 2 apply occurred_weaken; apply occurred_last|exists cl; by apply occurred_weaken].
  destruct Hch as (C1 & C2 & C3 & C4). split_and!; [|done|apply C3|apply C3|].
  - intros i st' Hi. do 3 apply occurred_weaken. by apply C1.
  - intros Hsd. apply C4. by do 3 apply sound_app in Hsd.
Qed.
End meaning.
End failover.

(** The replicas with data and those that acknowledged share one: together
    they are more than all replicas. *)
Lemma failover_quorum ss acked :
  shape ss → half ss < go_len (replicas_with ss (λ _, hasData)) →
  NoDup acked → (∀ i, i ∈ acked → 0 ≤ i < Replicas (Spec (Cluster ss)) ∧ i ≠ Primary ss) →
  half ss ≤ go_len acked →
  ∃ j, j ∈ replicas_with ss (λ _, hasData) ∧ j ∈ acked.
Proof.
  intros Hs Hdata Hnd Hin Hlen. pose proof (wf_primary _ Hs) as Hp. simpl in Hp.
  pose proof (wf_replicas _ Hs) as Hn. simpl in Hn.
  set (U := filter (λ i, i ≠ Primary ss) (upto (Replicas (Spec (Cluster ss))))).
  assert (length U < Z.to_nat (Replicas (Spec (Cluster ss))))%nat as HU.
  { rewrite <- length_upto. apply (length_filter_lt _ _ (Primary ss)); [by apply elem_of_upto|tauto]. }
  apply (quorum_intersect U); [apply NoDup_replicas_with|done| | |].
  - intros i (Hi & st & Hst & _)%elem_of_replicas_with. apply list_elem_of_filter. split; [done|].
    apply elem_of_upto. by eapply shape_status.
  - intros i [? ?]%Hin. apply list_elem_of_filter. split; [done|]. by apply elem_of_upto.
  - unfold half, go_len in *. pose proof (Z.div_mod (Replicas (Spec (Cluster ss))) 2 ltac:(lia)).
    pose proof (Z.mod_pos_bound (Replicas (Spec (Cluster ss))) 2 ltac:(lia)). lia.
Qed.

(** ** Theorems *)

(** C8. A failover follows its protocol in every execution: it never calls the
    old primary, it asks replicas for their status only after all running
    replicas stopped receiving, and it records an instance as the primary only
    when that instance is a rechecked replica that has executed everything it
    retrieved.  It does not panic, and when it succeeds the new primary is
    recorded in the API. *)
Theorem failover_follows_protocol {RC : ConflictRetry clusterSig} ss t o :
  shape ss → own_ops ss → exec (failover ss) t o →
  (∀ t1 c r t2, t = t1 ++ @ev clusterSig c r :: t2 → failover_protocol ss t1 c) ∧
  match o with
  | Return ss' => promotable ss t (Candidate ss') ∧
      ∃ cl, occurred t (UpdateStatus (set_CurrentPrimaryIndex (Candidate ss') cl)) (inr ())
  | Error _ => True
  | Panic _ => False
  end.
Proof.
  intros Hs Ho Hex.
  destruct (wp_exec _ _ _ _ _ _ (wp_failover ss Hs Ho (λ (_ : string) (_ : unit), True) []) Hex) as [HQ HP].
  split; [exact HP|]. destruct o as [ss'|e|m]; [|done..].
  destruct HQ as (c & rs & cands & -> & _ & _ & cl & Hup). simpl in *. split; [|by exists cl].
  apply list_elem_of_split in Hup as (t1 & t2 & ->). apply promotable_app.
  exact (HP t1 _ _ t2 eq_refl).
Qed.

(** C1. No acknowledged transaction is lost by a failover.  In a Failed
    cluster, when the failover succeeds and mysqld compares GTID sets correctly,
    a transaction that was received by [Replicas / 2] replicas - the number of
    acknowledgements the primary waits for, see [configurePrimary] - is among
    those the new primary retrieved or executed, and the new primary executed
    what it retrieved before it was recorded. *)
Theorem failover_keeps_acknowledged {RC : ConflictRetry clusterSig} {tx : Type} (gtids : string → tx → Prop)
    ss t ss' x acked :
  shape ss → own_ops ss → doc_failed ss →
  exec (failover ss) t (Return ss') → sound gtids t → (∀ y, ¬ gtids "" y) →
  NoDup acked → (∀ i, i ∈ acked → 0 ≤ i < Replicas (Spec (Cluster ss)) ∧ i ≠ Primary ss) →
  half ss ≤ go_len acked →
  (∀ i st, i ∈ acked → occurred t (DB i GetStatus) (inr st) →
     ∃ rs, ReplicaStatus_ st = Some rs ∧ gtids (unionGtids rs) x) →
  ∃ rs, rechecked ss t (Candidate ss') rs ∧ gtids (unionGtids rs) x ∧
        occurred t (DB (Candidate ss') (WaitForGTID (RetrievedGtidSet rs) timeoutSeconds)) (inr ()).
Proof.
  intros Hs Ho [_ Hdata] Hex Hsound Hempty Hnd Hin Hlen Hack.
  destruct (wp_exec _ _ _ _ _ _ (wp_failover ss Hs Ho gtids []) Hex) as [HQ _]. simpl in HQ.
  destruct HQ as (c & rs & cands & -> & (Hans & Hcov & (Hc & st & Hst & Hrs) & Htop) & Hwait & _). simpl.
  destruct (Htop Hsound) as (g & (st1 & rs1 & Hst1 & Hrs1 & -> & _) & Hall).
  rewrite Hst in Hst1. injection Hst1 as <-. rewrite Hrs in Hrs1. injection Hrs1 as <-.
  assert (∃ j, j ∈ replicas_with ss (λ _, hasData) ∧ j ∈ acked) as (j & Hj & Hja)
    by by apply failover_quorum.
  apply elem_of_replicas_with in Hj as (Hjp & ist & Hist & Hd).
  unfold hasData in Hd. destruct (ReplicaStatus_ ist) as [r0|]; [|done]. bool_cases.
  destruct (Hcov j ist Hjp Hist ltac:(done)) as [stj Hstj].
  destruct (Hack j stj Hja (Hans _ _ Hstj)) as (rsj & Hrsj & Hx).
  exists rs. split_and!; [|apply (Hall j (unionGtids rsj)); [|done]|done].
  - split; [done|]. exists st. auto.
  - exists stj, rsj. split_and!; [done..|]. intros Heq. rewrite Heq in Hx. by apply Hempty in Hx.
Qed.

(** ** The sample cluster *)

Definition sample_failed_set : StatusSet := default sample_failed (DecideState sample_failed).
Definition sample_failover : trace clusterSig * outcome StatusSet :=
  run (S := clusterSig)
    (sample_env (sample_cluster 3 0)
       [sample_primary_status; sample_replica_status "p0:1-4"; sample_replica_status "p0:1-5"])
    (@failover retry_five sample_failed_set) ().

Lemma sample_failed_shape :
  shape sample_failed_set ∧ own_ops sample_failed_set ∧ doc_failed sample_failed_set.
Proof.
  assert (wf sample_failed) as Hwf by by apply sample_ss_wf.
  assert (DecideState sample_failed = Some sample_failed_set) as Hd by (vm_compute; done).
  destruct (decided_shape _ _ Hwf Hd) as [Hs Hst]. split_and!; [done| |].
  - destruct (DecideState_set _ _ Hd) as (cs & n & c & st & Heq). rewrite Heq.
    intros i o [Hi Ho]%index_at_Some. simpl in Ho. left.
    destruct (Z.to_nat i) as [|[|[|k]]] eqn:E; simpl in Ho; simplify_eq; repeat f_equal; lia.
  - assert (State sample_failed_set = StateFailed) as HS by (vm_compute; done).
    rewrite HS in Hst. apply Hst.
Qed.

Definition sample_new_primary : StatusSet := set_Candidate 2 sample_failed_set.

Lemma sample_failover_exec : exec (@failover retry_five sample_failed_set) sample_failover.1 sample_failover.2.
Proof. unfold sample_failover. apply run_exec. Qed.

Lemma sample_failover_result : sample_failover.2 = Return sample_new_primary.
Proof. vm_compute. done. Qed.

Definition sample_gtids (s : string) (k : Z) : Prop := 0 < k ≤ gtid_count s.

Lemma sample_gtids_subset a b : gtid_subset sample_gtids a b ↔ gtid_count a ≤ gtid_count b.
Proof.
  unfold gtid_subset, sample_gtids, gtid_count. split; [|intros; lia].
  intros H. specialize (H (Z.max 0 (default 0 (Atoi (last_field "-" a))))). lia.
Qed.

Lemma sample_failover_sound : sound sample_gtids sample_failover.1.
Proof.
  intros i a b v Ho. unfold sample_failover in Ho.
  apply (run_answers (S := clusterSig) _ (λ c, match c return cresp c → Prop with
    | DB i m => match m return opresp m → Prop with
                | IsSubsetGTID a b => λ r, r = inr (gtid_count a <=? gtid_count b)
                | _ => λ _, True
                end
    | _ => λ _, True
    end)) in Ho.
  - injection Ho as ->. rewrite sample_gtids_subset. apply Z.leb_le.
  - intros [] u; simpl; try done. by destruct m.
Qed.

Lemma failover_follows_protocol_witness :
  promotable sample_failed_set sample_failover.1 2.
Proof.
  pose proof (failover_follows_protocol (RC := retry_five) sample_failed_set sample_failover.1 _
    (proj1 sample_failed_shape) (proj1 (proj2 sample_failed_shape)) sample_failover_exec) as [_ H].
  rewrite sample_failover_result in H. exact (proj1 H).
Defined.

Lemma failover_keeps_acknowledged_witness :
  ∃ rs, rechecked sample_failed_set sample_failover.1 2 rs ∧ sample_gtids (unionGtids rs) 5 ∧
        occurred sample_failover.1 (DB 2 (WaitForGTID (RetrievedGtidSet rs) timeoutSeconds)) (inr ()).
Proof.
  pose proof sample_failover_exec as Hex. rewrite sample_failover_result in Hex.
  refine (failover_keeps_acknowledged (RC := retry_five) sample_gtids sample_failed_set sample_failover.1
    sample_new_primary 5 [2] (proj1 sample_failed_shape) (proj1 (proj2 sample_failed_shape))
    (proj2 (proj2 sample_failed_shape)) Hex sample_failover_sound _ _ _ _ _).
  - intros y Hy. unfold sample_gtids in Hy. vm_compute in Hy. destruct Hy as [Hy1 Hy2]. by destruct y.
  - apply NoDup_singleton.
  - intros i ->%list_elem_of_singleton. vm_compute. split; [split|]; congruence.
  - vm_compute. congruence.
  - intros i st ->%list_elem_of_singleton Ho. unfold sample_failover in Ho.
    apply (run_answers (S := clusterSig) _ (λ c, match c return cresp c → Prop with
      | DB i m => match m return opresp m → Prop with
                  | GetStatus => λ r, i = 2 → r = inr (sample_replica_status "p0:1-5")
                  | _ => λ _, True
                  end
      | _ => λ _, True
      end)) in Ho.
    + specialize (Ho eq_refl). injection Ho as ->. eexists. split; [done|]. vm_compute. split; congruence.
    + intros [] u; simpl; try done. destruct m; try done. by intros ->.
Defined.
