(* ===== verification/SwitchoverSpec.v ===== *)
(** * Switchover

    A switchover hands the primary role over without losing a write: the old
    primary is made read-only, its connections are killed, its executed GTID set
    is read after that, the candidate executes that set, and only then the
    candidate is recorded as the primary. *)

From S2P Require Import Prelude Prog Worlds GoLib Constants Api Password Dbop Gtid Event Cluster Samples Status StatusSpec Gather GatherSpec Operations OpsSpec.
#[local] Open Scope Z_scope.

Section switchover.
Context {RC : ConflictRetry clusterSig}.
Context (ss : StatusSet).
Hypothesis Hshape : shape ss.
Hypothesis Hops : own_ops ss.
Hypothesis Hcand : 0 ≤ Candidate ss < Replicas (Spec (Cluster ss)).
Hypothesis Honline : Offline (Spec (Cluster ss)) = false.

(** The outcome of [SetReadOnly(true)] arrived, without an error. *)
Definition readonly_ok (e : event clusterSig) : Prop :=
  (∃ s, e = @ev clusterSig (SelectDone s) (Some (inr ()))) ∨ e = @ev clusterSig RecvDone (inr ()).

(** In this order: [SetReadOnly(true)] on the primary and its success, ... *)
Definition readonly_first (h : trace clusterSig) (l : trace clusterSig) : Prop :=
  ∃ e, readonly_ok e ∧ @ev clusterSig (SpawnSetReadOnly (Primary ss)) () :: e :: l `sublist_of` h.

Definition killed : event clusterSig := @ev clusterSig (DB (Primary ss) KillConnections) (inr ()).
Definition status_read (pst : MySQLInstanceStatus) : event clusterSig :=
  @ev clusterSig (DB (Primary ss) GetStatus) (inr pst).
Definition waited (pst : MySQLInstanceStatus) : event clusterSig :=
  @ev clusterSig (DB (Candidate ss)
    (WaitForGTID (ExecutedGTID (GlobalVariables_ pst)) timeoutSeconds)) (inr ()).

Definition switchover_protocol (h : trace clusterSig) (c : ccall) : Prop :=
  match c with
  | SpawnSetReadOnly i => i = Primary ss
  | DB i KillConnections => i = Primary ss
  | DB i GetStatus => i = Primary ss ∧ readonly_first h [killed]
  | DB i (WaitForGTID g _) =>
      i = Candidate ss ∧ ∃ pst, g = ExecutedGTID (GlobalVariables_ pst) ∧
                                readonly_first h [killed; status_read pst]
  | UpdateStatus cl => CurrentPrimaryIndex (Status cl) = Candidate ss ∧
      ∃ pst, readonly_first h [killed; status_read pst; waited pst]
  | PatchPod pod modified =>
      index_at (Pods ss) (Primary ss) = Some (Some pod) ∧
      modified = set_pod_Annotations (delete AnnDemote (pod_Annotations pod)) pod ∧
      ∃ cl, occurred h (UpdateStatus (set_CurrentPrimaryIndex (Candidate ss) cl)) (inr ())
  | SelectDone _ | RecvDone | Sleep _ | GetCluster => True
  | MetricInc m => m = switchoverCount
  | _ => False
  end.

Lemma readonly_first_app h t l : readonly_first h l → readonly_first (h ++ t) l.
Proof. intros (e & He & Hsub). exists e. split; [done|]. by apply sublist_inserts_r. Qed.

Lemma readonly_first_snoc h l x : readonly_first h l → readonly_first (h ++ [x]) (l ++ [x]).
Proof.
  intros (e & He & Hsub). exists e. split; [done|].
  rewrite 2!app_comm_cons. by apply sublist_app.
Qed.

Lemma readonly_first_done h c r :
  readonly_ok (@ev clusterSig c r) → @ev clusterSig (SpawnSetReadOnly (Primary ss)) () ∈ h →
  readonly_first (h ++ [@ev clusterSig c r]) [].
Proof.
  intros Hok Hin. exists (@ev clusterSig c r). split; [done|].
  change [?a; ?b] with ([a] ++ [b]). apply sublist_app; [|done].
  by apply singleton_sublist_l.
Qed.

Lemma primary_op :
  ∃ op, index_at (DBOps ss) (Primary ss) = Some (Some op) ∧ op_for (Primary ss) (Some op).
Proof. apply shape_op; [done..|]. exact (wf_primary _ Hshape). Qed.

Lemma wp_demotePrimary h timeout :
  wp switchover_protocol (demotePrimary ss timeout) h
     (λ h' o, match o with
              | Return _ => readonly_first h' []
              | Error _ => True
              | Panic _ => False
              end).
Proof.
  unfold demotePrimary. destruct primary_op as (op & Hop & Hfor). rewrite Hop. wp_norm.
  destruct Hfor as [[= ->]|[n [= ->]]]; unfold kcall; wp_norm.
  - split; [done|]. intros []. wp_norm. split; [done|]. intros [[e|[]]|]; simpl.
    + wp_norm. split; [done|]. intros [ke|[]]; by wp_norm.
    + apply readonly_first_done; [left; eauto|set_solver].
    + split; [done|]. intros [ke|[]]; wp_norm; [done|]. split; [done|].
      intros [e|[]]; wp_norm; [done|]. apply readonly_first_done; [by right|set_solver].
  - split; [done|]. intros [r|]; simpl; done.
Qed.

Lemma wp_removeDemote h cl :
  occurred h (UpdateStatus (set_CurrentPrimaryIndex (Candidate ss) cl)) (inr ()) →
  wp switchover_protocol (removeDemote ss) h
     (λ _ o, match o with Panic _ => False | _ => True end).
Proof.
  intros Hup. unfold removeDemote, pod_at.
  destruct (wf_pod _ (Primary ss) Hshape Honline (wf_primary _ Hshape)) as [p Hp]. simpl in Hp.
  rewrite Hp. simpl. wp_norm. destruct (pod_Annotations p !! AnnDemote); [|done].
  unfold kcall. wp_norm. split; [|by intros [e|[]]; wp_norm]. split_and!; [done..|]. by exists cl.
Qed.

Lemma wp_switchover h :
  wp switchover_protocol (switchover ss) h
     (λ h' o, match o with
              | Return _ => ∃ cl, occurred h' (UpdateStatus (set_CurrentPrimaryIndex (Candidate ss) cl)) (inr ())
              | Error _ => True
              | Panic _ => False
              end).
Proof.
  unfold switchover, kcall. change (Atoi PreStopSeconds) with (Some 20). wp_norm.
  eapply wp_conseq; [apply wp_demotePrimary|]. intros h1 [[]|e|m] H1; [|done..]. wp_norm.
  split; [done|]. intros []. apply readonly_first_app with (t := [@ev clusterSig (Sleep 100) ()]) in H1.
  pose proof (wf_primary _ Hshape) as Hp. simpl in Hp.
  wp_do; [done|done|done| |done]. destruct a.
  apply readonly_first_snoc with (x := killed) in H1. simpl in H1.
  wp_do; [done|done|done| |done]. apply readonly_first_snoc with (x := status_read a) in H1. simpl in H1.
  wp_do; [done|by split; [|exists a]|done| |done]. destruct a0.
  apply readonly_first_snoc with (x := waited a) in H1. simpl in H1.
  eapply wp_conseq; [apply wp_recordPrimary; [done|]|].
  { intros t cl. split; [done|]. exists a. by apply readonly_first_app. }
  intros h2 [[]|e|m] H2; wp_norm; [|done..]. destruct H2 as [cl Hup]. split; [done|]. intros [].
  eapply wp_conseq; [apply wp_extends, (wp_removeDemote _ cl); auto with moco|].
  intros h3 [[]|e|m] [H3 [t ->]]; [|done..]. exists cl. auto with moco.
Qed.
End switchover.

(** ** Theorems *)

(** C6. A switchover loses no write: in every execution, the API records the
    candidate as the primary only after, in this order, the old primary was made
    read-only, its connections were killed, its executed GTID set was read, and
    the candidate executed that set; the demotion mark is removed only after the
    record.  It calls no other instance, does not panic, and records the new
    primary when it succeeds. *)
Theorem switchover_follows_protocol {RC : ConflictRetry clusterSig} ss t o :
  shape ss → own_ops ss → 0 ≤ Candidate ss < Replicas (Spec (Cluster ss)) →
  Offline (Spec (Cluster ss)) = false → exec (switchover ss) t o →
  (∀ t1 c r t2, t = t1 ++ @ev clusterSig c r :: t2 → switchover_protocol ss t1 c) ∧
  match o with
  | Return _ => ∃ cl, occurred t (UpdateStatus (set_CurrentPrimaryIndex (Candidate ss) cl)) (inr ())
  | Error _ => True
  | Panic _ => False
  end.
Proof.
  intros Hs Ho Hc Hoff Hex.
  destruct (wp_exec _ _ _ _ _ _ (wp_switchover ss Hs Ho Hc Hoff []) Hex) as [HQ HP]. by split.
Qed.

(** ** The sample cluster *)

Definition sample_switch_set : StatusSet := default (sample_healthy true) (DecideState (sample_healthy true)).
Definition sample_switchover : trace clusterSig * outcome unit :=
  run (S := clusterSig) (sample_env (sample_cluster 3 0) sample_statuses)
    (@switchover retry_five sample_switch_set) ().

Lemma sample_switchover_exec :
  exec (@switchover retry_five sample_switch_set) sample_switchover.1 sample_switchover.2.
Proof. unfold sample_switchover. apply run_exec. Qed.

Lemma switchover_follows_protocol_witness :
  ∃ cl, occurred sample_switchover.1 (UpdateStatus (set_CurrentPrimaryIndex 1 cl)) (inr ()).
Proof.
  assert (DecideState (sample_healthy true) = Some sample_switch_set) as Hd by (vm_compute; done).
  assert (wf (sample_healthy true)) as Hwf by by apply sample_ss_wf.
  assert (own_ops sample_switch_set) as Hown.
  { destruct (DecideState_set _ _ Hd) as (cs & n & c & st & ->). exact (sample_ss_own_ops true _). }
  pose proof (switchover_follows_protocol (RC := retry_five) sample_switch_set _ _
    (proj1 (decided_shape _ _ Hwf Hd)) Hown ltac:(vm_compute; split; congruence) eq_refl
    sample_switchover_exec) as [_ H].
  assert (sample_switchover.2 = Return ()) as Heq by (vm_compute; done).
  rewrite Heq in H. exact H.
Defined.
