(* ===== verification/ConfigureSpec.v ===== *)
(** * Configuration of a cluster

    What [configure] may do to the instances: a single writer, no clone over
    data, replicas pointed at the primary only when its binlogs suffice, and the
    quorum of semi-synchronous replication. *)

From S2P Require Import Prelude Prog GoLib Constants Api Password Dbop Gtid Event Cluster Samples Status StatusSpec Gather GatherSpec Operations OpsSpec.
#[local] Open Scope Z_scope.

Section configure.
Context (ss : StatusSet) (pst : MySQLInstanceStatus).
Hypothesis Hshape : shape ss.
Hypothesis Hops : own_ops ss.
Hypothesis Honline : Offline (Spec (Cluster ss)) = false.
Hypothesis Hpst : index_at (MySQLStatus ss) (Primary ss) = Some (Some pst).

Definition intermediate : Prop := is_Some (ReplicationSourceSecretName (Spec (Cluster ss))).

(** Instance [i] is a running replica without errant transactions. *)
Definition good_replica (i : Z) (st : MySQLInstanceStatus) : Prop :=
  i ≠ Primary ss ∧ index_at (MySQLStatus ss) i = Some (Some st) ∧ IsErrant st = false.

(** Every such replica is super-read-only. *)
Definition replicas_read_only (h : trace clusterSig) : Prop :=
  ∀ i st, good_replica i st →
    SuperReadOnly (GlobalVariables_ st) = true ∨ occurred h (DB i (SetReadOnly true)) (inr ()).

(** The binlogs of the primary cover what replica [i] still needs. *)
Definition binlogs_suffice (h : trace clusterSig) (i : Z) (st : MySQLInstanceStatus) : Prop :=
  occurred h (DB i (SubtractGTID (PurgedGTID (GlobalVariables_ pst))
                                 (ExecutedGTID (GlobalVariables_ st)))) (inr "").

(** The permitted calls on instance [i]. *)
Definition configure_db (h : trace clusterSig) (i : Z) (m : opcall) : Prop :=
  match m with
  | SetReadOnly false => i = Primary ss ∧ ¬ intermediate ∧ replicas_read_only h
  | SetReadOnly true => (i = Primary ss ∧ intermediate) ∨ ∃ st, good_replica i st
  | KillConnections => isErrantReplica ss i = Some false ∨ ∃ st, good_replica i st
  | ConfigureReplica ai semisync =>
      (i = Primary ss ∧ intermediate ∧ semisync = false) ∨
      ∃ st, good_replica i st ∧ binlogs_suffice h i st ∧
            ai_Host ai = PodHostname (Cluster ss) (Primary ss) ∧ (semisync = true ↔ ¬ intermediate)
  | ConfigurePrimary n => i = Primary ss ∧ ¬ intermediate ∧ n = half ss
  | StopReplicaIOThread =>
      (i = Primary ss ∧ ¬ intermediate) ∨
      ∃ st, i ≠ Primary ss ∧ index_at (MySQLStatus ss) i = Some (Some st) ∧ IsErrant st = true
  | WaitForGTID _ _ => i = Primary ss ∧ ¬ intermediate
  | GetStatus | SubtractGTID _ _ => ∃ st, good_replica i st
  | IsSubsetGTID _ _ | OpClose => False
  end.

(** A role label for instance [i]: its connections were killed before. *)
Definition labelled (h : trace clusterSig) (i : Z) (pod modified : Pod) : Prop :=
  isErrantReplica ss i = Some false ∧
  modified = set_pod_Labels (<[LabelMocoRole := roleOf ss i]> (pod_Labels pod)) pod ∧
  occurred h (DB i KillConnections) (inr ()).

Definition configure_protocol (h : trace clusterSig) (c : ccall) : Prop :=
  match c with
  | DB i m => configure_db h i m
  | PatchPod pod modified =>
      ∃ i, index_at (Pods ss) i = Some (Some pod) ∧
           (modified = set_pod_Labels (delete LabelMocoRole (pod_Labels pod)) pod ∨
            labelled h i pod modified)
  | AgentClone i _ =>
      ∃ st, good_replica i st ∧ ExecutedGTID (GlobalVariables_ st) = "" ∧ ReplicaStatus_ st = None ∧
            ss_ExecutedGTID ss ≠ ""
  | AgentNew i | AgentClose i => i ≠ Primary ss
  | GetSecret _ _ | Sleep _ | TickOrDone | Emit _ _ => True
  | _ => False
  end.

Definition no_panic {A} (o : outcome A) : Prop :=
  match o with Panic _ => False | _ => True end.

(** ** Roles *)

Lemma isErrantReplica_total i ist :
  index_at (MySQLStatus ss) i = Some ist → ∃ b, isErrantReplica ss i = Some b.
Proof. intros Hi. unfold isErrantReplica. rewrite Hi. simpl. destruct ist as [st|]; [destruct (IsErrant st)|]; eauto. Qed.

Lemma slots i p : index_at (Pods ss) i = Some p → ∃ ist, index_at (MySQLStatus ss) i = Some ist.
Proof.
  intros Hp. assert (is_Some (index_at (Pods ss) i)) as Hi by eauto. rewrite index_at_lt in Hi.
  apply index_at_lt. rewrite (shape_len ss Hshape). rewrite (wf_pods _ Hshape : go_len (Pods ss) = _) in Hi. done.
Qed.

Lemma wp_removeRoleLabel h :
  wp configure_protocol (removeRoleLabel ss) h
     (λ _ o, match o with
             | Return noRoles => ∀ i, i ∈ noRoles → ∃ p, index_at (Pods ss) i = Some (Some p)
             | Error _ => True
             | Panic _ => False
             end).
Proof.
  unfold removeRoleLabel. eapply wp_for_range with (I := λ _ rest noRoles,
    rest ⊆ indexed (Pods ss) ∧ ∀ i, i ∈ noRoles → ∃ p, index_at (Pods ss) i = Some (Some p)).
  - split; [done|]. intros i Hi. by apply elem_of_nil in Hi.
  - naive_solver.
  - intros h' [i opod] rest noRoles [Hsub Hno].
    assert (rest ⊆ indexed (Pods ss)) as Hrest by set_solver.
    assert (index_at (Pods ss) i = Some opod) as Hi by (apply elem_of_indexed; set_solver).
    destruct opod as [pod|].
    2:{ pose proof (wf_present _ Hshape Honline) as Hall. simpl in Hall. apply index_at_Some in Hi as [_ Hi].
        by destruct (Forall_lookup_1 _ _ _ _ Hall Hi). }
    assert (∀ j, j ∈ noRoles ++ [i] → ∃ p, index_at (Pods ss) j = Some (Some p)) as Hno'.
    { intros j [?|?%list_elem_of_singleton]%elem_of_app; [auto|subst; eauto]. }
    unfold removeRoleStep, kcall. cbn [fst snd]. wp_norm.
    destruct (_ =s ""); [done|]. destruct (_ && _); [done|]. wp_norm.
    destruct (slots _ _ Hi) as [ist Hist]. destruct (isErrantReplica_total _ _ Hist) as [b Hb].
    destruct (i =? Primary ss); wp_norm.
    + split; [exists i; by split; [|left]|]. intros [e|[]]; by wp_norm.
    + rewrite Hb. wp_norm. destruct (negb b && _); [done|]. wp_norm.
      split; [exists i; by split; [|left]|]. intros [e|[]]; by wp_norm.
Qed.

Lemma wp_addRoleLabel h alive :
  (∀ i, i ∈ alive → (∃ p, index_at (Pods ss) i = Some (Some p)) ∧
                    occurred h (DB i KillConnections) (inr ())) →
  wp configure_protocol (addRoleLabel ss alive) h (λ _ o, no_panic o).
Proof.
  intros Halive. unfold addRoleLabel. eapply wp_for_range with (I := λ h' rest _,
    ∀ i, i ∈ rest → (∃ p, index_at (Pods ss) i = Some (Some p)) ∧
                    occurred h' (DB i KillConnections) (inr ())); [done..|].
  intros h' i rest [] Hrest. destruct (Hrest i ltac:(left)) as [[p Hp] Hk].
  destruct (slots _ _ Hp) as [ist Hist]. destruct (isErrantReplica_total _ _ Hist) as [b Hb].
  unfold addRoleStep, pod_at, kcall. wp_norm. rewrite Hb. wp_norm.
  destruct b; wp_norm; [intros j Hj; apply Hrest; by right|].
  rewrite Hp. simpl. wp_norm. split; [exists i; split; [done|]; by right|].
  intros [e|[]]; wp_norm; [done|]. intros j Hj. destruct (Hrest j ltac:(by right)). auto with moco.
Qed.

(** ** The primary *)

Lemma wp_status_primary (Q : trace clusterSig → outcome MySQLInstanceStatus → Prop) P h :
  Q h (Return pst) → wp P (status_at ss (Primary ss)) h Q.
Proof. intros HQ. unfold status_at. by rewrite Hpst. Qed.

Lemma primary_range : 0 ≤ Primary ss < Replicas (Spec (Cluster ss)).
Proof. exact (wf_primary _ Hshape). Qed.

Lemma wp_configureIntermediatePrimary h :
  intermediate →
  wp configure_protocol (configureIntermediatePrimary ss) h (λ _ o, no_panic o).
Proof.
  intros Hint. unfold configureIntermediatePrimary.
  rewrite wp_bind_outcome. apply wp_status_primary.
  assert (∀ redo h', wp configure_protocol (followSource ss pst redo) h' (λ _ o, no_panic o)) as Htail.
  { intros redo h'. pose proof Hint as [name Hname]. unfold followSource, kcall. rewrite Hname.
    wp_norm. split; [done|]. intros [e|secret]; wp_norm; [done|].
    destruct (Atoi _) as [port|]; wp_norm; [|done]. cbn zeta.
    destruct (match ReplicaStatus_ pst with None => _ | Some rs => _ end); [done|].
    wp_do; [apply primary_range|by left|done|done|done]. }
  destruct (SuperReadOnly _); wp_norm; [apply Htail|].
  wp_do; [apply primary_range|by left; split|done|apply Htail|done].
Qed.

Lemma wp_enableSemiSync redo h :
  ¬ intermediate → wp configure_protocol (enableSemiSync ss pst redo) h (λ _ o, no_panic o).
Proof.
  intros Hint. unfold enableSemiSync. destruct (_ =? 1); [done|]. cbn zeta. destruct (_ || _); [|done].
  wp_do; [apply primary_range| |done|done|done]. split_and!; [done..|]. exact (wf_waits _ Hshape).
Qed.

Lemma wp_drainRetrieved rs h :
  ¬ intermediate → wp configure_protocol (drainRetrieved ss rs) h (λ _ o, no_panic o).
Proof.
  intros Hint. unfold drainRetrieved, kcall. rewrite wp_bind_outcome.
  eapply wp_conseq with (Q := λ _ o, no_panic o).
  - destruct (_ =s "Yes"); [|done]. wp_do; [apply primary_range|by left|done| |done].
    split; [done|by intros []].
  - intros h' [redo|e|m] H; [|done..]. destruct (negb _); [|done].
    wp_do; [apply primary_range|done|done|done|done].
Qed.

Lemma wp_configurePrimary h :
  ¬ intermediate → wp configure_protocol (configurePrimary ss) h (λ _ o, no_panic o).
Proof.
  intros Hint. unfold configurePrimary. rewrite wp_bind_outcome. apply wp_status_primary.
  rewrite wp_bind_outcome. eapply wp_conseq with (Q := λ _ o, no_panic o).
  - destruct (ReplicaStatus_ pst); [by apply wp_drainRetrieved|done].
  - intros h' [redo|e|m] H; [|done..]. by apply wp_enableSemiSync.
Qed.

(** ** A replica *)

Lemma wp_waitRestart i op n h :
  op_for i (Some op) → (∃ st, good_replica i st) →
  wp configure_protocol (waitRestart op n) h (λ _ o, no_panic o).
Proof.
  intros Hfor Hi. revert h. induction n as [|n IH]; intros h; [done|]. simpl.
  split; [done|]. intros [|]; [done|].
  rewrite wp_bind. apply (wp_invoke _ _ GetStatus).
  - intros j ->. assert (j = i) as -> by (destruct Hfor as [?|[? ?]]; congruence).
    split; [done|]. intros [e|r]; [apply IH|done].
  - intros m ->. apply IH.
Qed.

Lemma wp_startReplica i st redo h :
  good_replica i st →
  wp configure_protocol (startReplica ss i st redo) h (λ _ o, no_panic o).
Proof.
  intros Hi. pose proof Hi as (Hne & Hst & He). unfold startReplica. rewrite wp_bind_outcome.
  apply wp_status_primary. pose proof (shape_status ss Hshape _ _ Hst) as Hr.
  wp_do; [done|by exists st|done| |done]. destruct (a =s "") eqn:Ha; simpl; [|done]. bool_cases. subst a.
  cbn zeta. destruct (match ReplicaStatus_ st with None => _ | Some rs => _ end); [done|].
  wp_do; [done| |done|done|done]. right. exists st. split_and!; [done|apply occurred_last|done|].
  rewrite bool_decide_eq_true. unfold intermediate. by rewrite <- eq_None_not_Some.
Qed.

Lemma wp_cloneReplica i st addr h :
  good_replica i st → ExecutedGTID (GlobalVariables_ st) = "" → ReplicaStatus_ st = None →
  ss_ExecutedGTID ss ≠ "" →
  wp configure_protocol (cloneReplica ss i addr) h (λ _ o, no_panic o).
Proof.
  intros Hgood Hx Hrs Hg. unfold cloneReplica, kcall. wp_norm. split; [by exists st|].
  intros [e|[]]; wp_norm; [by split|]. split; [done|]. intros []. wp_norm. split; [done|]. intros [].
  destruct (shape_op ss Hshape Hops i) as (op & Hop & Hfor); [by eapply shape_status; [|apply Hgood]|].
  wp_norm. rewrite Hop. cbn [mjoin option_join]. wp_norm. eapply wp_waitRestart; [done|by exists st].
Qed.

(** After a replica is configured it is read-only, unless it is errant. *)
Lemma wp_configureReplica i st h :
  i ≠ Primary ss → index_at (MySQLStatus ss) i = Some (Some st) →
  wp configure_protocol (configureReplica ss i) h
     (λ h' o, no_panic o ∧
              (is_return o = true → IsErrant st = false →
               SuperReadOnly (GlobalVariables_ st) = true ∨ occurred h' (DB i (SetReadOnly true)) (inr ()))).
Proof.
  intros Hne Hst. pose proof (shape_status ss Hshape _ _ Hst) as Hr.
  unfold configureReplica, status_at. rewrite Hst. cbn [mjoin option_join]. wp_norm.
  destruct (IsErrant st) eqn:He.
  { destruct (ReplicaStatus_ st) as [rs|]; [|done]. destruct (negb _); [done|].
    wp_do; [done|right; eauto|done|done|done]. }
  assert (good_replica i st) as Hgood by done. rewrite wp_bind_outcome.
  eapply wp_conseq with (Q := λ h' o, no_panic o ∧ (is_return o = true →
    SuperReadOnly (GlobalVariables_ st) = true ∨ occurred h' (DB i (SetReadOnly true)) (inr ()))).
  { destruct (SuperReadOnly _); [by simpl; auto|]. unfold kcall.
    wp_do; [done|right; eauto|done| |done]. wp_do; [done|right; eauto|done| |done].
    destruct a0. split; [done|]. intros _. right. apply occurred_last. }
  intros h1 [redo|e|m] [Hnp Hro]; [|done..]. specialize (Hro eq_refl).
  eapply wp_conseq with (Q := λ h' o, no_panic o ∧ ∃ t, h' = h1 ++ t);
    [apply wp_extends|intros h' o [Ho [t ->]]; split; [done|]; intros _ _; destruct Hro; auto with moco].
  destruct (_ && _ && _) eqn:Hclone; [|by apply wp_startReplica]. bool_cases.
  unfold pod_at. destruct (wf_pod _ (Primary ss) Hshape Honline primary_range) as [p Hp]. simpl in Hp.
  rewrite Hp. cbn [mjoin option_join]. wp_norm. cbn zeta. destruct (_ =s ""); [done|]. unfold kcall. wp_norm.
  split; [done|]. intros [e|[]]; wp_norm; [done|].
  eapply wp_conseq; [by apply (wp_cloneReplica i st)|]. intros h' [[]|e|m] Hc; [|by wp_norm|done].
  eapply wp_conseq; [by apply wp_startReplica|]. intros h'' o Ho. wp_norm.
  split; [done|]. intros []. exact Ho.
Qed.

(** ** The whole operation *)

Lemma aliveOf_spec noRoles :
  (∀ i, i ∈ noRoles → ∃ p, index_at (Pods ss) i = Some (Some p)) →
  ∃ alive, aliveOf ss noRoles = Some alive ∧
    ∀ i, i ∈ alive → (∃ p, index_at (Pods ss) i = Some (Some p)) ∧ isErrantReplica ss i = Some false.
Proof.
  induction noRoles as [|i noRoles IH]; intros H; [exists []; split; [done|]; intros i Hi; by apply elem_of_nil in Hi|].
  destruct (H i ltac:(left)) as [p Hp]. destruct (slots _ _ Hp) as [ist Hist].
  destruct (isErrantReplica_total _ _ Hist) as [b Hb].
  destruct IH as (alive & Ha & Hall); [intros; apply H; by right|].
  simpl. rewrite Hist, Hb, Ha. simpl. eexists. split; [done|].
  destruct (negb _); simpl; [done|]. destruct b; [done|].
  intros j [->|?]%elem_of_cons; eauto.
Qed.

Lemma wp_killAll alive h :
  (∀ i, i ∈ alive → (∃ p, index_at (Pods ss) i = Some (Some p)) ∧ isErrantReplica ss i = Some false) →
  wp configure_protocol
     (for_range alive () (λ _ i,
        db_do ss i KillConnections (ErrWrap (instance i "failed to kill connections in instance")))) h
     (λ h' o, no_panic o ∧ (is_return o = true →
        ∀ i, i ∈ alive → occurred h' (DB i KillConnections) (inr ()))).
Proof.
  intros Ha. eapply wp_for_range with (I := λ h' rest _, ∃ seen, alive = seen ++ rest ∧
    ∀ i, i ∈ seen → occurred h' (DB i KillConnections) (inr ())).
  - exists []. split; [done|]. intros i Hi. by apply elem_of_nil in Hi.
  - intros h' [] (seen & -> & Hk). rewrite app_nil_r. done.
  - intros h' i rest [] (seen & Heq & Hk). destruct (Ha i) as [[p Hp] He]; [set_solver|].
    destruct (slots _ _ Hp) as [ist Hist].
    wp_do; [by eapply shape_status|by left|done| |done]. destruct a.
    exists (seen ++ [i]). rewrite <- app_assoc. split; [done|].
    intros j [?|Hj%list_elem_of_singleton]%elem_of_app; [|subst j]; auto with moco.
Qed.

Lemma wp_configureReplicas redo h :
  wp configure_protocol (for_range (indexed (MySQLStatus ss)) redo (configureReplicaStep ss)) h
     (λ h' o, no_panic o ∧ (is_return o = true → replicas_read_only h')).
Proof.
  eapply wp_for_range with (I := λ h' rest _, ∃ seen, indexed (MySQLStatus ss) = seen ++ rest ∧
    ∀ i st, i ≠ Primary ss → (i, Some st) ∈ seen → IsErrant st = false →
      SuperReadOnly (GlobalVariables_ st) = true ∨ occurred h' (DB i (SetReadOnly true)) (inr ())).
  - exists []. split; [done|]. intros i st _ Hin. by apply elem_of_nil in Hin.
  - intros h' r (seen & Heq & H). rewrite app_nil_r in Heq. subst seen. split; [done|].
    intros _ i st (Hne & Hst & He). eapply H; [done| |done]. by apply elem_of_indexed.
  - intros h' [i ist] rest r (seen & Heq & H). unfold configureReplicaStep. cbn [fst snd].
    assert (indexed (MySQLStatus ss) = (seen ++ [(i, ist)]) ++ rest) as Heq' by by rewrite <- app_assoc.
    destruct (i =? Primary ss) eqn:Hi; bool_cases.
    { exists (seen ++ [(i, ist)]). split; [done|].
      intros j st Hj [?|?%list_elem_of_singleton]%elem_of_app; [eauto|congruence]. }
    destruct ist as [st|].
    2:{ exists (seen ++ [(i, None)]). split; [done|].
        intros j st Hj [?|?%list_elem_of_singleton]%elem_of_app; [eauto|congruence]. }
    assert (index_at (MySQLStatus ss) i = Some (Some st)) as Hst
      by (apply elem_of_indexed; rewrite Heq; set_solver).
    rewrite wp_bind. eapply wp_conseq; [apply wp_extends; by apply (wp_configureReplica i st)|].
    intros h'' [r'|e|m] [[Hnp Hro] [t ->]]; [|done..]. wp_norm. specialize (Hro eq_refl).
    exists (seen ++ [(i, Some st)]). split; [done|].
    intros j st' Hj [Hin|Hin%list_elem_of_singleton]%elem_of_app He; [|simplify_eq; auto].
    destruct (H j st' Hj Hin He); auto with moco.
Qed.

Lemma wp_makeWritable redo h :
  replicas_read_only h → wp configure_protocol (makeWritable ss redo) h (λ _ o, no_panic o).
Proof.
  intros Hro. unfold makeWritable, kcall.
  destruct (ReplicationSourceSecretName _) as [n|] eqn:Hn; [done|]. rewrite wp_bind_outcome.
  apply wp_status_primary. destruct (ReadOnly _); [|done].
  wp_do; [apply primary_range| |done| |done]; [|by split].
  split_and!; [done| |done]. unfold intermediate. rewrite Hn. by intros [].
Qed.

Lemma replicas_read_only_app h t : replicas_read_only h → replicas_read_only (h ++ t).
Proof. intros H i st Hg. destruct (H i st Hg); auto with moco. Qed.

Lemma wp_configure h : wp configure_protocol (configure ss) h (λ _ o, no_panic o).
Proof.
  unfold configure, kcall. rewrite wp_bind_outcome.
  eapply wp_conseq; [apply wp_removeRoleLabel|]. intros h1 [noRoles|e|m] H1; [|done..].
  destruct (aliveOf_spec noRoles H1) as (alive & -> & Halive). wp_norm.
  eapply wp_conseq with (Q := λ _ _, True); [by destruct (0 <? go_len alive)|]. intros h2 [] _.
  rewrite wp_bind_outcome. eapply wp_conseq; [by apply wp_killAll|].
  intros h3 [[]|e|m] [H3 Hk]; [|done..]. specialize (Hk eq_refl). rewrite wp_bind_outcome.
  eapply wp_conseq with (Q := λ h' o, no_panic o ∧ ∃ t, h' = h3 ++ t).
  { apply wp_extends. destruct (ReplicationSourceSecretName _) as [n|] eqn:Hn.
    - apply wp_configureIntermediatePrimary. unfold intermediate. rewrite Hn. eauto.
    - apply wp_configurePrimary. unfold intermediate. rewrite Hn. by intros []. }
  intros h4 [redo|e|m] [H4 [t4 ->]]; [|done..]. rewrite wp_bind_outcome.
  eapply wp_conseq; [apply wp_extends, wp_configureReplicas|].
  intros h5 [redo'|e|m] [[H5 Hro] [t5 ->]]; [|done..]. specialize (Hro eq_refl). rewrite wp_bind_outcome.
  eapply wp_conseq; [apply wp_extends, wp_addRoleLabel|].
  { intros i Hi. split; [apply (Halive i Hi)|]. auto with moco. }
  intros h6 [[]|e|m] [H6 [t6 ->]]; [|done..]. apply wp_makeWritable. by apply replicas_read_only_app.
Qed.
End configure.

(** ** Theorems *)


(** ** The sample cluster *)

Definition sample_configure_set : StatusSet := default sample_incomplete (DecideState sample_incomplete).
Definition sample_configure : trace clusterSig * outcome bool :=
  run (S := clusterSig)
    (sample_env (sample_cluster 3 0)
       [sample_readonly_primary; sample_replica_status "p0:1-5"; sample_new_instance])
    (configure sample_configure_set) ().

Lemma sample_configure_exec : exec (configure sample_configure_set) sample_configure.1 sample_configure.2.
Proof. unfold sample_configure. apply run_exec. Qed.

Example sample_configure_calls :
  State sample_configure_set = StateIncomplete ∧ sample_configure.2 = Return true ∧
  (projT1 <$> sample_configure.1) =
    [DB 1 (SubtractGTID "" "p0:1-5");
     DB 2 KillConnections; DB 2 (SetReadOnly true);
     AgentNew 2; AgentClone 2 (replicaCloneRequest sample_configure_set "10.1.2.3");
     Emit CloneSucceeded ["2"]; Sleep 3000; TickOrDone; DB 2 GetStatus;
     DB 2 (SubtractGTID "" "");
     DB 2 (ConfigureReplica {| ai_Host := "moco-test-0.moco-test.default.svc"; ai_Port := 3306;
                               ai_User := "moco-repl"; ai_Password := "c" |} true);
     AgentClose 2; DB 0 (SetReadOnly false); Emit SetWritable []].
Proof. vm_compute. done. Qed.


(** ** A clone from a primary that purged binary logs *)

Definition purged_primary : MySQLInstanceStatus :=
  {| IsErrant := false; GlobalVariables_ := {| UUID := "p0"; ExecutedGTID := "p0:1-5"; PurgedGTID := "p0:1-3"; ReadOnly := false;
       SuperReadOnly := false; WaitForSlaveCount := 1; SemiSyncMasterEnabled := true; SemiSyncSlaveEnabled := true |};
     GlobalStatus_ := GlobalStatus_ sample_primary_status; ReplicaHosts := ReplicaHosts sample_primary_status;
     ReplicaStatus_ := None; CloneStatus_ := None |}.

(** [GTID_SUBTRACT] of a set and the empty set is the set. *)
Definition purged_env (statuses : list MySQLInstanceStatus) (c : ccall) (u : unit) : cresp c * unit :=
  match c return cresp c * unit with
  | DB i m => match m return cresp (DB i m) * unit with
              | SubtractGTID a b => (inr (if b =s "" then a else ""), u)
              | m => sample_env (sample_cluster 3 0) statuses (DB i m) u
              end
  | c => sample_env (sample_cluster 3 0) statuses c u
  end.

(** The new instance 2 is cloned and then compared by the GTID set it had before,
    so the round fails although nothing is missing. *)
Example clone_reported_as_missing_binlogs :
  let ss := sample_ss false [Some purged_primary; Some (sample_replica_status "p0:1-5"); Some sample_new_instance] in
  let r := run (S := clusterSig) (purged_env [purged_primary; sample_replica_status "p0:1-5"; sample_replica_status "p0:1-5"])
             (configureReplica ss 2) () in
  (projT1 <$> r.1) = [DB 2 KillConnections; DB 2 (SetReadOnly true); AgentNew 2; AgentClone 2 (replicaCloneRequest ss "10.1.2.3");
                      Emit CloneSucceeded ["2"]; Sleep 3000; TickOrDone; DB 2 GetStatus; DB 2 (SubtractGTID "p0:1-3" ""); AgentClose 2] ∧
  ∃ e, r.2 = Error e.
Proof. vm_compute. split; [done|by eexists]. Qed.
