(* ===== verification/Process.v ===== *)
(** * One round of a manager process (clustering/process.go)

    [updateStatus] publishes the decided state in the MySQLCluster, [do] gathers
    the status, publishes it and runs the operation the state calls for.
    [meta.SetStatusCondition] and [equality.Semantic.DeepEqual] of apimachinery
    are parameters with the laws their documentation gives (K8s.v). *)

From S2P Require Import Prelude Prog Worlds GoLib Constants Api K8s Password Dbop Gtid Event Cluster Samples Status StatusSpec Gather Operations.
#[local] Open Scope Z_scope.

Section process.
Context {RC : ConflictRetry clusterSig} {AM : ApiMachinery}.

(** ** updateStatus *)

(* clustering/process.go:267-275 updateCond *)
Definition updateCond (st : ClusterState) (typ : string) (val : ConditionStatus) : Condition :=
  {| cond_Type := typ; cond_Status := val; cond_ObservedGeneration := 0;
     cond_Reason := ClusterState_String st;
     cond_Message := "the current state is " +:+ ClusterState_String st |}.

(** The statuses of the conditions Initialized, Available and Healthy. *)
(* clustering/process.go:284-299 updateStatus *)
Definition stateConditions (st : ClusterState) : ConditionStatus * ConditionStatus * ConditionStatus :=
  match st with
  | StateCloning | StateRestoring => (ConditionFalse, ConditionFalse, ConditionFalse)
  | StateHealthy => (ConditionTrue, ConditionTrue, ConditionTrue)
  | StateDegraded => (ConditionTrue, ConditionTrue, ConditionFalse)
  | _ => (ConditionTrue, ConditionFalse, ConditionFalse)
  end.

Definition clusteringActive : Condition :=
  {| cond_Type := ConditionClusteringActive; cond_Status := ConditionTrue; cond_ObservedGeneration := 0;
     cond_Reason := "ClusteringActive"; cond_Message := "clustering is active" |}.

(* clustering/process.go:326-331 updateStatus *)
Definition syncedReplicas (ss : StatusSet) : Z :=
  go_len (select (λ opod, match opod with Some pod => isPodReady pod | None => false end) (Pods ss)).

(** The new status of the cluster object [cluster]. *)
(* clustering/process.go:301-343 updateStatus *)
Definition newStatus (ss : StatusSet) (cluster : MySQLCluster) : MySQLClusterStatus :=
  let st := Status cluster in
  let '(isInitialized, isAvailable, isHealthy) := stateConditions (State ss) in
  let conds := Conditions st in
  let conds := SetStatusCondition conds (updateCond (State ss) ConditionInitialized isInitialized) in
  let conds := SetStatusCondition conds (updateCond (State ss) ConditionAvailable isAvailable) in
  let conds := SetStatusCondition conds (updateCond (State ss) ConditionHealthy isHealthy) in
  let conds := SetStatusCondition conds clusteringActive in
  {| Conditions := conds; CurrentPrimaryIndex := CurrentPrimaryIndex st;
     SyncedReplicas := syncedReplicas ss; ErrantReplicas := go_len (Errants ss);
     ErrantReplicaList := Errants ss; Backup := Backup st; RestoredTime := RestoredTime st;
     Cloned := Cloned st ||
               (bool_decide (is_Some (ReplicationSourceSecretName (Spec cluster)))
                && negb (bool_decide (State ss = StateCloning)));
     ReconcileInfo_ := ReconcileInfo_ st |}.

Definition gauge (b : bool) : Z := if b then 1 else 0.

(** The function given to [RetryOnConflict]. *)
(* clustering/process.go:277-352 updateStatus *)
Definition updateStatusFn (ss : StatusSet) : prog clusterSig (extres unit) :=
  cluster <-! kcall GetCluster ;;
  let '(_, isAvailable, isHealthy) := stateConditions (State ss) in
  _ <-- kcall (MetricSet available (gauge (bool_decide (isAvailable = ConditionTrue)))) ;;
  _ <-- kcall (MetricSet healthy (gauge (bool_decide (isHealthy = ConditionTrue)))) ;;
  _ <-- kcall (MetricSet replicas (go_len (Pods ss))) ;;
  _ <-- kcall (MetricSet readyReplicas (syncedReplicas ss)) ;;
  _ <-- kcall (MetricSet errantReplicas (go_len (Errants ss))) ;;
  if Semantic_DeepEqual (Status cluster) (newStatus ss cluster) then Ret (inr ())
  else kcall (UpdateStatus (set_Status (newStatus ss cluster) cluster)).

(* clustering/process.go:256-264 updateStatus *)
Definition backupMetrics (bs : BackupStatus) : prog clusterSig unit :=
  match bk_Time bs with
  | None => Ret ()
  | Some t =>
      _ <-- kcall (MetricSet backupTimestamp t) ;;
      _ <-- kcall (MetricSet backupElapsed (bk_Elapsed bs)) ;;
      _ <-- kcall (MetricSet backupDumpSize (bk_DumpSize bs)) ;;
      _ <-- kcall (MetricSet backupBinlogSize (bk_BinlogSize bs)) ;;
      _ <-- kcall (MetricSet backupWorkDirUsage (bk_WorkDirUsage bs)) ;;
      kcall (MetricSet backupWarnings (go_len (bk_Warnings bs)))
  end.

(* clustering/process.go :: updateStatus *)
Definition updateStatus (ss : StatusSet) : prog clusterSig (extres unit) :=
  _ <-- backupMetrics (Backup (Status (Cluster ss))) ;;
  RetryOnConflict (updateStatusFn ss).

(** ** do *)

(** [if err := op(); err != nil { event.Emit(err); return wrap(err) }]. *)
Definition with_event {A} (p : prog clusterSig (outcome A)) (failed : MOCOEvent) (msg : string)
    : prog clusterSig (outcome A) :=
  r <-- p ;;
  match r with
  | Error e => _ <-- kcall (Emit failed [error_string e]) ;; Ret (Error (ErrWrap msg e))
  | r => Ret r
  end.

(** The switch on the state. *)
(* clustering/process.go:200-253 do *)
Definition operate (ss : StatusSet) : prog clusterSig (outcome bool) :=
  match State ss with
  | StateOffline => Ret (Return false)
  | StateCloning =>
      busy <-? or_panic (process_isCloning ss) "index out of range" ;;
      if (busy : bool) then Ret (Return false) else
      redo <-? with_event (clone ss) InitCloneFailed "failed to clone data" ;;
      _ <-- kcall (Emit InitCloneSucceeded []) ;;
      Ret (Return redo)
  | StateRestoring => Ret (Return false)
  | StateHealthy | StateDegraded =>
      if NeedSwitch ss && negb (PreventPodDeletion ss) then
        _ <-? with_event (switchover ss) SwitchOverFailed "failed to switchover" ;;
        _ <-- kcall (Emit SwitchOverSucceeded [Itoa (Candidate ss)]) ;;
        Ret (Return true)
      else if bool_decide (State ss = StateDegraded) then configure ss
      else Ret (Return false)
  | StateFailed =>
      ss <-? with_event (failover ss) FailOverFailed "failed to failover" ;;
      _ <-- kcall (Emit FailOverSucceeded [Itoa (Candidate ss)]) ;;
      Ret (Return true)
  | StateLost => Ret (Return false)
  | StateIncomplete => configure ss
  | StateUndecided => Ret (Return false)
  end.

(** Between [GatherStatus] and the deferred [ss.Close()]. *)
(* clustering/process.go:184-198 do *)
Definition doGathered (ss : StatusSet) : prog clusterSig (outcome bool) :=
  r <-- updateStatus ss ;;
  _ <-? check_res (ErrWrap "failed to update status fields in MySQLCluster") r ;;
  r <-- (if PreventPodDeletion ss then addAnnPreventDelete ss else removeAnnPreventDelete ss) ;;
  _ <-? Ret (match r with
             | Error e => Error (ErrWrap (if PreventPodDeletion ss
                                          then "failed to add annotation to prevent pod deletion"
                                          else "failed to remove annotation to prevent pod deletion") e)
             | r => r
             end) ;;
  operate ss.

(* clustering/process.go :: do *)
Definition do (name : NamespacedName) : prog clusterSig (outcome bool) :=
  ss <-? GatherStatus name ;;
  r <-- doGathered ss ;;
  _ <-- closeOps (DBOps ss) ;;
  Ret r.
End process.
