(* ===== verification/ProcessSpec.v ===== *)
(** * What one round of a manager process promises

    The conditions it publishes are the documented ones; a round does not panic
    unless the cluster is offline with Pods missing; and it changes instances
    only by the operation that the decided state calls for. *)

From S2P Require Import Prelude Prog Worlds GoLib Constants Api K8s Password Dbop Gtid Event Cluster Samples Status StatusSpec Gather GatherSpec Operations OpsSpec FailoverSpec SwitchoverSpec ConfigureSpec Process.
#[local] Open Scope Z_scope.

Section process.
Context {RC : ConflictRetry clusterSig} {AM : ApiMachinery}.

(** ** updateStatus *)

Definition condition_status (typ : string) (st : MySQLClusterStatus) : option ConditionStatus :=
  cond_Status <$> find_condition typ (Conditions st).

Definition truth (b : bool) : ConditionStatus := if b then ConditionTrue else ConditionFalse.

(** The status published for the state of [ss], given the object [old]. *)
Record published (ss : StatusSet) (old : MySQLCluster) (st : MySQLClusterStatus) : Prop := {
  pub_initialized : condition_status ConditionInitialized st =
    Some (truth (negb (bool_decide (State ss = StateCloning)) && negb (bool_decide (State ss = StateRestoring))));
  pub_available : condition_status ConditionAvailable st =
    Some (truth (bool_decide (State ss = StateHealthy) || bool_decide (State ss = StateDegraded)));
  pub_healthy : condition_status ConditionHealthy st = Some (truth (bool_decide (State ss = StateHealthy)));
  pub_reason : cond_Reason <$> find_condition ConditionHealthy (Conditions st) = Some (ClusterState_String (State ss));
  pub_active : condition_status ConditionClusteringActive st = Some ConditionTrue;
  pub_other : ∀ typ, typ ∉ [ConditionInitialized; ConditionAvailable; ConditionHealthy; ConditionClusteringActive] →
    find_condition typ (Conditions st) = find_condition typ (Conditions (Status old));
  pub_errants : ErrantReplicaList st = Errants ss ∧ ErrantReplicas st = go_len (Errants ss);
  pub_cloned : Cloned (Status old) = true → Cloned st = true;
  pub_rest : CurrentPrimaryIndex st = CurrentPrimaryIndex (Status old) ∧ Backup st = Backup (Status old) ∧
    RestoredTime st = RestoredTime (Status old) ∧ ReconcileInfo_ st = ReconcileInfo_ (Status old)
}.

Lemma find_set typ conds c :
  find_condition typ (SetStatusCondition conds c) =
  if cond_Type c =s typ then Some c else find_condition typ conds.
Proof.
  destruct (cond_Type c =s typ) eqn:E; bool_cases; [subst; apply SetStatusCondition_same|].
  apply SetStatusCondition_other. congruence.
Qed.

Lemma newStatus_published ss old : published ss old (newStatus ss old).
Proof.
  unfold newStatus. destruct (stateConditions (State ss)) as [[i a] h] eqn:Hst.
  assert (i = truth (negb (bool_decide (State ss = StateCloning)) && negb (bool_decide (State ss = StateRestoring))) ∧
          a = truth (bool_decide (State ss = StateHealthy) || bool_decide (State ss = StateDegraded)) ∧
          h = truth (bool_decide (State ss = StateHealthy))) as (-> & -> & ->)
    by (destruct (State ss); vm_compute in Hst; by simplify_eq).
  constructor; unfold condition_status; cbn [Conditions]; rewrite ?find_set; try done.
  - intros typ Hn. rewrite !find_set. cbn [cond_Type updateCond clusteringActive].
    repeat match goal with |- context [if ?a =s typ then _ else _] =>
      destruct (a =s typ) eqn:?; bool_cases; [set_solver|] end. done.
  - intros H. cbn [Cloned]. by rewrite H.
Qed.

(** The calls of [updateStatus]. *)
Definition status_protocol (ss : StatusSet) (h : trace clusterSig) (c : ccall) : Prop :=
  match c with
  | GetCluster | MetricSet _ _ => True
  | UpdateStatus cl => ∃ old, occurred h GetCluster (inr old) ∧ cl = set_Status (newStatus ss old) old
  | _ => False
  end.

(** The API holds the published status. *)
Definition status_recorded (ss : StatusSet) (h : trace clusterSig) (r : extres unit) : Prop :=
  match r with
  | inr _ => ∃ old, occurred h GetCluster (inr old) ∧
      (Status old = newStatus ss old ∨
       occurred h (UpdateStatus (set_Status (newStatus ss old) old)) (inr ()))
  | inl _ => True
  end.

Lemma wp_updateStatus ss h :
  wp (status_protocol ss) (updateStatus ss) h (status_recorded ss).
Proof.
  unfold updateStatus. rewrite wp_bind.
  eapply wp_conseq with (Q := λ _ _, True).
  { unfold backupMetrics, kcall. destruct (bk_Time _); [|done]. by repeat (simpl; split; [done|intros []]). }
  intros h0 [] _. apply (wp_RetryOnConflict _ _ (λ _, True)); [done|].
  intros h1 _. unfold updateStatusFn, kcall. wp_norm. split; [done|]. intros [e|old]; wp_norm; [done|].
  destruct (stateConditions (State ss)) as [[i a] b].
  do 5 (wp_norm; split; [done|]; intros []).
  destruct (Semantic_DeepEqual _ _) eqn:Heq; wp_norm.
  - apply Semantic_DeepEqual_eq in Heq. split; [|done]. exists old. split; [|by left].
    unfold occurred, occurs. set_solver.
  - split; [exists old; split; [unfold occurred, occurs; set_solver|done]|].
    intros [e|[]]; (split; [|done]); [done|]. exists old.
    split; [unfold occurred, occurs; set_solver|right; apply occurred_last].
Qed.

(** ** clone *)

Definition clone_protocol (ss : StatusSet) (h : trace clusterSig) (c : ccall) : Prop :=
  match c with
  | GetSecret _ _ | Sleep _ | TickOrDone | Emit _ _ => True
  | AgentNew i | AgentClone i _ | AgentClose i | DB i GetStatus => i = Primary ss
  | _ => False
  end.

Lemma wp_waitRestart_clone ss op n h :
  op_for (Primary ss) (Some op) →
  wp (clone_protocol ss) (waitRestart op n) h (λ _ o, no_panic o).
Proof.
  intros Hfor. revert h. induction n as [|n IH]; intros h; [done|]. simpl.
  split; [done|]. intros [|]; [done|]. rewrite wp_bind. apply (wp_invoke _ _ GetStatus).
  - intros j ->. assert (j = Primary ss) as -> by (destruct Hfor as [?|[? ?]]; congruence).
    split; [done|]. intros [e|r]; [apply IH|done].
  - intros m ->. apply IH.
Qed.

Lemma wp_clone ss h :
  shape ss → own_ops ss → is_Some (ReplicationSourceSecretName (Spec (Cluster ss))) →
  wp (clone_protocol ss) (clone ss) h (λ _ o, no_panic o).
Proof.
  intros Hs Ho [name Hname]. unfold clone, kcall. rewrite Hname. wp_norm. split; [done|].
  intros [e|secret]; wp_norm; [done|]. destruct (cloneRequest _ _ _) as [e|req]; wp_norm; [done|].
  split; [done|]. intros [e|[]]; wp_norm; [done|]. unfold cloneBody, kcall. wp_norm. split; [done|].
  intros [e|[]]; wp_norm; [by split|].
  destruct (shape_op ss Hs Ho (Primary ss) (wf_primary _ Hs)) as (op & Hop & Hfor). rewrite Hop. wp_norm.
  split; [done|]. intros []. wp_norm. eapply wp_conseq; [by apply wp_waitRestart_clone|].
  intros h' [[]|e|m] HX; [by wp_norm; split|by wp_norm; split|done].
Qed.

(** ** operate *)

(** What each state permits. *)
Definition operate_protocol (ss : StatusSet) (pst : MySQLInstanceStatus) (h : trace clusterSig) (c : ccall) : Prop :=
  match State ss with
  | StateOffline | StateRestoring | StateLost | StateUndecided => False
  | StateCloning => clone_protocol ss h c
  | StateHealthy | StateDegraded =>
      if NeedSwitch ss && negb (PreventPodDeletion ss)
      then switchover_protocol ss h c ∨ ∃ e args, c = Emit e args
      else State ss = StateDegraded ∧ configure_protocol ss pst h c
  | StateFailed => failover_protocol ss h c ∨ ∃ e args, c = Emit e args
  | StateIncomplete => configure_protocol ss pst h c
  end.

Lemma wp_with_event {A} (P : trace clusterSig → ccall → Prop) (p : prog clusterSig (outcome A)) e msg h Q :
  (∀ h args, P h (Emit e args)) → (∀ h x, Q h (Error x)) →
  wp P p h (λ h' o, match o with Error _ => True | o => Q h' o end) →
  wp P (with_event p e msg) h Q.
Proof.
  intros HP HQ Hp. unfold with_event, kcall. rewrite wp_bind. eapply wp_conseq; [exact Hp|].
  intros h' [a|x|m] HX; simpl; [done| |done]. split; [done|]. intros []. apply HQ.
Qed.

Lemma wp_operate ss pst h :
  shape ss → own_ops ss → Offline (Spec (Cluster ss)) = false →
  state_spec ss (State ss) → default pst (primary_status ss) = pst →
  (NeedSwitch ss = true → 0 ≤ Candidate ss < Replicas (Spec (Cluster ss))) →
  wp (operate_protocol ss pst) (operate ss) h (λ _ o, no_panic o).
Proof.
  intros Hs Ho Hoff Hspec Hpst Hcand.
  assert (∀ st, primary_status ss = Some st →
            index_at (MySQLStatus ss) (Primary ss) = Some (Some pst)) as Hps.
  { intros st Hst. rewrite Hst in Hpst. simpl in Hpst. subst st.
    rewrite <- Hst. exact (wf_primary_status _ Hs). }
  assert (operate_protocol ss pst = λ h c, operate_protocol ss pst h c) as Heta by done.
  unfold operate, operate_protocol in *. clear Heta.
  destruct (State ss) eqn:HS; simpl in Hspec; try done.
  - (* Incomplete *)
    destruct Hspec as (_ & _ & _ & Hng). apply wp_configure; [done..|].
    destruct (primary_status ss) as [st|] eqn:E; [by eapply Hps|]. exfalso. apply Hng. by left.
  - (* Healthy *)
    destruct (NeedSwitch ss && negb (PreventPodDeletion ss)) eqn:Hn; [|by rewrite bool_decide_false].
    bool_cases. rewrite wp_bind_outcome. apply wp_with_event; [eauto|done|].
    eapply wp_mono; [by left|..|by apply wp_switchover; auto].
    intros h' [[]|e|m] HX; [|done..]. simpl. split; [right; eauto|done].
  - (* Cloning *)
    unfold process_isCloning. rewrite (wf_primary_status _ Hs : index_at (MySQLStatus ss) (Primary ss) = _).
    destruct Hspec as (_ & Hsome & _).
    assert (∀ h, wp (clone_protocol ss) (with_event (clone ss) InitCloneFailed "failed to clone data") h
      (λ h' o, match o with
               | Return a => wp (clone_protocol ss) (_ <-- kcall (Emit InitCloneSucceeded []) ;; Ret (Return a)) h' (λ _ o, no_panic o)
               | Error e => True
               | Panic m => False
               end)) as Hclone.
    { intros h'. apply wp_with_event; [done|done|]. eapply wp_conseq; [by apply wp_clone|].
      intros h'' [a|e|m] HX; [|done..]. simpl. done. }
    cbn [mbind option_bind]. destruct (primary_status _) as [st|]; [|done].
    destruct (CloneStatus_ st) as [cs|]; wp_norm; [destruct (null_string _ <>s _); wp_norm; [done|]|];
      (eapply wp_conseq; [apply Hclone|]); by intros h' [].
  - (* Degraded *)
    destruct (NeedSwitch ss && negb (PreventPodDeletion ss)) eqn:Hn.
    + bool_cases. rewrite wp_bind_outcome. apply wp_with_event; [eauto|done|].
      eapply wp_mono; [by left|..|by apply wp_switchover; auto].
      intros h' [[]|e|m] HX; [|done..]. simpl. split; [right; eauto|done].
    + rewrite bool_decide_true by done.
      destruct Hspec as (_ & _ & _ & _ & (st & Hst & _) & _).
      eapply wp_mono; [..|apply (wp_configure ss pst); eauto]; [by intros ???|done].
  - (* Failed *)
    rewrite wp_bind_outcome. apply wp_with_event; [eauto|done|].
    eapply wp_mono; [by left|..|apply (wp_failover ss Hs Ho (λ (_ : string) (_ : unit), True))].
    intros h' [ss'|e|m] HX; [|done..]. simpl. split; [right; eauto|done].
Qed.

(** ** do *)

Lemma decided_candidate ss0 ss :
  wf ss0 → NeedSwitch ss0 = false → DecideState ss0 = Some ss → NeedSwitch ss = true →
  0 ≤ Candidate ss < Replicas (Spec (Cluster ss)).
Proof.
  intros Hwf Hn Hd Hs. destruct (DecideState_set _ _ Hd) as (cs & n & c & st & Heq).
  destruct (decideSwitch_spec ss0 Hwf) as (s & cands & Hsw & _ & Hsub & Hoff & _).
  destruct (DecideState_inv ss0 s cands Hwf Hsw Hoff) as (ss1 & Heq1 & _ & Hc).
  rewrite Hd in Heq1. injection Heq1 as <-. destruct cands as [|i cands].
  - unfold DecideState in Hd. rewrite Hsw in Hd. simpl in Hd. injection Hd as <-. simpl in Hs. congruence.
  - destruct (Hc ltac:(done)) as (Hin & _). apply Hsub, elem_of_replicas_with in Hin as (_ & st' & Hst & _).
    assert (is_Some (index_at (MySQLStatus ss0) (Candidate ss))) as Hr by eauto.
    rewrite index_at_lt, (wf_status _ Hwf) in Hr. by rewrite Heq in Hr |- *.
Qed.

Lemma wp_annotations ss h :
  shape ss → Offline (Spec (Cluster ss)) = false →
  wp (λ _ _, True) (if PreventPodDeletion ss then addAnnPreventDelete ss else removeAnnPreventDelete ss) h
     (λ _ o, no_panic o).
Proof.
  intros Hs Hoff. destruct (PreventPodDeletion ss).
  - unfold addAnnPreventDelete, pod_at, kcall.
    destruct (wf_pod _ (Primary ss) Hs Hoff (wf_primary _ Hs)) as [p Hp]. simpl in Hp. rewrite Hp.
    cbn [mjoin option_join]. wp_norm. destruct (_ !! _); [done|]. wp_norm. split; [done|].
    by intros [e|[]]; wp_norm.
  - unfold removeAnnPreventDelete, kcall. pose proof (wf_present _ Hs Hoff : Forall is_Some (Pods ss)) as Hall.
    eapply wp_for_range with (I := λ _ rest _, Forall is_Some rest); [done|done|].
    intros h' o rest [] [[p ->] Hrest]%Forall_cons. wp_norm. destruct (_ !! _); [|done]. wp_norm.
    split; [done|]. by intros [e|[]]; wp_norm.
Qed.

Lemma wp_doGathered ss0 ss h :
  wf ss0 → NeedSwitch ss0 = false → own_ops ss0 → Offline (Spec (Cluster ss0)) = false →
  DecideState ss0 = Some ss →
  wp (λ _ _, True) (doGathered ss) h (λ _ o, no_panic o).
Proof.
  intros Hwf Hn Ho Hoff Hd. destruct (decided_shape _ _ Hwf Hd) as [Hs Hspec].
  pose proof (decided_candidate _ _ Hwf Hn Hd) as Hcand.
  destruct (DecideState_set _ _ Hd) as (cs & n & c & st & Heq).
  assert (own_ops ss) as Hown by by rewrite Heq.
  assert (Offline (Spec (Cluster ss)) = false) as Hoff' by by rewrite Heq.
  unfold doGathered. rewrite wp_bind. eapply wp_mono; [done|..|apply (wp_updateStatus ss)].
  intros h1 [e|[]] _; wp_norm; [done|].
  eapply wp_conseq; [by apply wp_annotations|]. intros h2 [[]|e|m] HX; wp_norm; [|done..].
  eapply wp_mono; [..|apply (wp_operate ss (default sample_new_instance (primary_status ss)));
                      [done..| |done]]; [done|done|]. by destruct (primary_status ss).
Qed.

Lemma wp_do cl name :
  sane cl → Offline (Spec cl) = false →
  wp (λ _ _, True) (do name) [] (λ h o, G cl h → no_panic o).
Proof.
  intros Hsane Hoff. unfold do. rewrite wp_bind_outcome.
  eapply wp_conseq; [by apply (wp_GatherStatus cl)|]. intros h1 [ss|e|m] H1; simpl; [|done|auto].
  apply (wp_assume (G cl)); [apply G_app|]. intros HG.
  destruct (H1 HG) as (ss0 & Hg & Hd). rewrite wp_bind.
  eapply wp_conseq.
  { apply (wp_doGathered ss0 ss); [apply Hg|apply Hg|exact (g_ops _ _ _ Hg)| |done].
    by rewrite (g_cluster _ _ _ Hg). }
  intros h2 o Hnp. rewrite wp_bind. eapply wp_mono; [done|..|apply wp_closeOps].
  intros h3 [] _. by wp_norm.
Qed.
End process.

(** ** Theorems *)

(** The published status is the documented one.  In every execution of
    [updateStatus], a status update carries the conditions of the state
    (Available for Healthy and Degraded, Healthy for Healthy, Initialized unless
    Cloning or Restoring), with the state's name as the reason, the errant
    replicas found, and everything else as it was read, in particular the primary
    index; and when it succeeds the API holds that status. *)
Theorem update_status_publishes {RC : ConflictRetry clusterSig} {AM : ApiMachinery} ss t r :
  exec (updateStatus ss) t r →
  (∀ cl x, occurred t (UpdateStatus cl) x →
     ∃ old, occurred t GetCluster (inr old) ∧ Spec cl = Spec old ∧ published ss old (Status cl)) ∧
  (r = inr () → ∃ old st, occurred t GetCluster (inr old) ∧ published ss old st ∧
     (Status old = st ∨ occurred t (UpdateStatus (set_Status st old)) (inr ()))).
Proof.
  intros Hex. destruct (wp_exec _ _ _ _ _ _ (wp_updateStatus ss []) Hex) as [HQ HP]. split.
  - intros cl x Ho. apply list_elem_of_split in Ho as (t1 & t2 & ->).
    destruct (HP _ _ _ _ eq_refl) as (old & Hold & ->). exists old. split_and!; [|done|apply newStatus_published].
    by apply occurred_weaken.
  - intros ->. destruct HQ as (old & Hold & Hrec). exists old, (newStatus ss old).
    split_and!; [done|apply newStatus_published|done].
Qed.

(** C25. The decided state bounds what a round may do.  In every execution of
    the operation of a round: an Offline, Restoring or Lost cluster is left
    alone; in Healthy and Degraded the primary changes only by a switchover, and
    only when its Pod is to go and no replica is too far behind; in Failed only
    a failover runs; Incomplete and Degraded clusters are configured; and none of
    these operations panics. *)
Theorem operate_by_state {RC : ConflictRetry clusterSig} ss0 ss pst t o :
  wf ss0 → NeedSwitch ss0 = false → own_ops ss0 → Offline (Spec (Cluster ss0)) = false →
  DecideState ss0 = Some ss → default pst (primary_status ss) = pst →
  exec (operate ss) t o →
  (∀ t1 c r t2, t = t1 ++ @ev clusterSig c r :: t2 → operate_protocol ss pst t1 c) ∧ no_panic o.
Proof.
  intros Hwf Hn Ho Hoff Hd Hpst Hex. destruct (decided_shape _ _ Hwf Hd) as [Hs Hspec].
  pose proof (decided_candidate _ _ Hwf Hn Hd) as Hcand.
  destruct (DecideState_set _ _ Hd) as (cs & n & c & st & Heq).
  assert (own_ops ss) as Hown by by rewrite Heq.
  assert (Offline (Spec (Cluster ss)) = false) as Hoff' by by rewrite Heq.
  destruct (wp_exec _ _ _ _ _ _ (wp_operate ss pst [] Hs Hown Hoff' Hspec Hpst Hcand) Hex) as [HQ HP].
  by split.
Qed.


(** A round of an offline cluster panics: with [spec.offline] set and its
    Pods gone, which is what taking a cluster offline leads to, the round ends in
    a nil dereference in [removeAnnPreventDelete] before it reaches the case of
    the Offline state.  All answers are in order, so the online condition of
    [round_does_not_panic] is needed. *)
Theorem offline_round_panics :
  let r := run (S := clusterSig) sample_offline_env
             (@do retry_five apimachinery_inplace {| nn_Namespace := "default"; nn_Name := "test" |}) () in
  sane sample_offline ∧ G sample_offline r.1 ∧ r.2 = Panic "nil pointer dereference".
Proof.
  cbn zeta. split_and!.
  - split_and!; simpl; [lia|lia|lia|lia|constructor].
  - intros c r. apply (run_answers (S := clusterSig) _ (good sample_offline)).
    clear. intros c u. destruct c as [| | | | | | |i m| | | | | | | | | | |]; simpl; try done.
    + split; [done|]. exists []. split; constructor.
    + destruct m; simpl; try done. unfold index_at. rewrite lookup_nil. by destruct (i <? 0).
  - vm_compute. done.
Qed.

(** ** The sample cluster *)

Definition sample_update : trace clusterSig * extres unit :=
  run (S := clusterSig) (sample_env (sample_cluster 3 0) sample_statuses)
    (@updateStatus retry_five apimachinery_inplace sample_configure_set) ().
Lemma sample_update_exec :
  exec (@updateStatus retry_five apimachinery_inplace sample_configure_set) sample_update.1 sample_update.2.
Proof. unfold sample_update. apply run_exec. Qed.

Lemma update_status_publishes_witness :
  ∃ old st, occurred sample_update.1 GetCluster (inr old) ∧
    @published sample_configure_set old st ∧
    (Status old = st ∨ occurred sample_update.1 (UpdateStatus (set_Status st old)) (inr ())).
Proof.
  apply (proj2 (@update_status_publishes retry_five apimachinery_inplace sample_configure_set _ _ sample_update_exec)).
  vm_compute. done.
Defined.

Definition sample_operate : trace clusterSig * outcome bool :=
  run (S := clusterSig) (sample_env (sample_cluster 3 0) sample_statuses)
    (@operate retry_five sample_switch_set) ().
Lemma sample_operate_exec : exec (@operate retry_five sample_switch_set) sample_operate.1 sample_operate.2.
Proof. unfold sample_operate. apply run_exec. Qed.

Lemma operate_by_state_witness :
  operate_protocol sample_switch_set sample_primary_status [] (SpawnSetReadOnly 0) ∧
  no_panic sample_operate.2.
Proof.
  assert (DecideState (sample_healthy true) = Some sample_switch_set) as Hd by (vm_compute; done).
  assert (wf (sample_healthy true)) as Hwf by by apply sample_ss_wf.
  destruct (@operate_by_state retry_five (sample_healthy true) sample_switch_set sample_primary_status
    _ _ Hwf eq_refl (sample_ss_own_ops true _) eq_refl Hd eq_refl sample_operate_exec) as [HP HQ].
  split; [|exact HQ]. apply (HP [] (SpawnSetReadOnly 0) () (drop 1 sample_operate.1)). vm_compute. done.
Defined.

Definition sample_round : trace clusterSig * outcome bool :=
  run (S := clusterSig) (sample_env (sample_cluster 3 0) sample_statuses)
    (@do retry_five apimachinery_inplace sample_name) ().
Lemma sample_round_exec : exec (@do retry_five apimachinery_inplace sample_name) sample_round.1 sample_round.2.
Proof. unfold sample_round. apply run_exec. Qed.

