(* ===== verification/ClusterWorld.v ===== *)
(** * A cluster in a healthy world

    The calls of a manager process answered by an API server, agents and servers
    that work: a state of the API objects and of the servers, and the world
    [cluster_world] over it.  Instances that are not [up] answer nothing; writes
    of clients go to the instance [p]. *)

From S2P Require Import Prelude Prog Worlds GoLib Constants Api Password Dbop Gtid Event Cluster Samples Status StatusSpec Servers.
From S2P Require Import Gather GatherSpec Operations.
#[local] Open Scope Z_scope.

Record cluster_state := {
  cs_status : MySQLClusterStatus;
  cs_pods : Z → Pod;
  cs_servers : servers;
  cs_pending : option Z  (* the instance a goroutine makes read-only *)
}.

Definition with_status (st : MySQLClusterStatus) (w : cluster_state) : cluster_state :=
  {| cs_status := st; cs_pods := cs_pods w; cs_servers := cs_servers w; cs_pending := cs_pending w |}.
Definition with_pods (pods : Z → Pod) (w : cluster_state) : cluster_state :=
  {| cs_status := cs_status w; cs_pods := pods; cs_servers := cs_servers w; cs_pending := cs_pending w |}.
Definition with_servers (S : servers) (w : cluster_state) : cluster_state :=
  {| cs_status := cs_status w; cs_pods := cs_pods w; cs_servers := S; cs_pending := cs_pending w |}.
Definition with_pending (o : option Z) (w : cluster_state) : cluster_state :=
  {| cs_status := cs_status w; cs_pods := cs_pods w; cs_servers := cs_servers w; cs_pending := o |}.

(** A merge patch made of two versions of a map, applied to a third. *)
Definition merge_patch (orig modified cur : gmap string string) : gmap string string :=
  filter (λ kv, orig !! kv.1 = modified !! kv.1) cur ∪ filter (λ kv, orig !! kv.1 ≠ modified !! kv.1) modified.

Lemma lookup_merge_patch orig modified cur k :
  merge_patch orig modified cur !! k = if bool_decide (orig !! k = modified !! k) then cur !! k else modified !! k.
Proof.
  unfold merge_patch. rewrite lookup_union, !map_lookup_filter.
  destruct (orig !! k) eqn:Ho, (cur !! k) eqn:Hc, (modified !! k) eqn:Hm; cbn; case_bool_decide;
    repeat (case_guard; cbn in *); congruence.
Qed.

Definition patch_pod (orig modified pod : Pod) : Pod :=
  if pod_Name pod =s pod_Name orig
  then set_pod_Labels (merge_patch (pod_Labels orig) (pod_Labels modified) (pod_Labels pod))
         (set_pod_Annotations (merge_patch (pod_Annotations orig) (pod_Annotations modified) (pod_Annotations pod)) pod)
  else pod.

(** ** Slots by ordinal *)

Lemma placePods_at cl (f : Z → Pod) ords pods :
  (∀ i, i ∈ ords → 0 ≤ i < go_len pods ∧ i < 2 ^ 63 ∧ pod_Name (f i) = PodName cl i) →
  ∃ pods', placePods (go_len pods) (f <$> ords) pods = Return pods' ∧ go_len pods' = go_len pods ∧
    ∀ i, 0 ≤ i < go_len pods → index_at pods' i = if bool_decide (i ∈ ords) then Some (Some (f i)) else index_at pods i.
Proof.
  revert pods. induction ords as [|i ords IH]; intros pods Hin; cbn; [by exists pods|].
  destruct (Hin i ltac:(left)) as (Hr & H63 & ->). rewrite pod_ordinal by lia.
  destruct (Z.ltb_spec i 0); [lia|]. destruct (Z.leb_spec (go_len pods) i); [lia|]. cbn.
  destruct (proj2 (index_at_lt pods i) Hr) as [o Ho]. unfold set_at. rewrite Ho.
  destruct (IH (<[Z.to_nat i := Some (f i)]> pods)) as (pods' & Heq & Hlen & Hat).
  { intros j Hj. rewrite go_len_insert. apply Hin. by right. }
  rewrite go_len_insert in Heq, Hlen, Hat. exists pods'. split_and!; [done|done|]. intros j Hj. rewrite Hat by done.
  destruct (decide (j = i)) as [->|Hne].
  - rewrite index_at_insert_eq by done. rewrite (bool_decide_true (i ∈ i :: ords)) by by left. by case_bool_decide.
  - rewrite index_at_insert_ne by lia. rewrite (bool_decide_ext (j ∈ i :: ords) (j ∈ ords)); [done|]. set_solver.
Qed.

Lemma Forall2_upto {A} (R : Z → A → Prop) n l :
  0 ≤ n → Forall2 R (upto n) l → go_len l = n ∧ ∀ i, 0 ≤ i < n → ∃ x, index_at l i = Some x ∧ R i x.
Proof.
  intros Hn Hf. split.
  - apply Forall2_length in Hf. rewrite length_upto in Hf. unfold go_len. lia.
  - intros i Hi. assert (upto n !! Z.to_nat i = Some i) as Hu.
    { unfold upto. rewrite list_lookup_fmap, lookup_seq_lt by lia. cbn. by rewrite Z2Nat.id by lia. }
    destruct (Forall2_lookup_l _ _ _ _ _ Hf Hu) as (x & Hx & HR). exists x. split; [|done]. apply index_at_Some. split; [lia|done].
Qed.

Section world.
Context {GS : GtidSets}.
Context (cl : MySQLCluster) (p : Z) (up : Z → bool) (version : string) (secret : Secret) (pwd : MySQLPassword).

Definition cluster_of (w : cluster_state) : MySQLCluster := set_Status (cs_status w) cl.

(** [i] can be cloned from at the address of the request. *)
Definition serves_clone (w : cluster_state) (req : CloneRequest) (i : Z) : Prop :=
  0 ≤ i < Replicas (Spec cl) ∧ up i = true ∧ (req_Host req = pod_PodIP (cs_pods w i) ∨ req_Host req = PodHostname cl i) ∧
  req_Port req = MySQLAdminPort ∧ req_User req = CloneDonorUser ∧ req_Password req = donor pwd.

(** A server that has restarted with the data of [donor]: read-only by its
    my.cnf, and not replicating. *)
Definition cloned (donor sv : server) : Prop :=
  executed sv = executed donor ∧ ReadOnly (sv_vars sv) = true ∧ SuperReadOnly (sv_vars sv) = true ∧ UUID (sv_vars sv) ≠ "" ∧
  retrieved sv = "" ∧ replicating sv = false.

Definition cluster_world : world clusterSig cluster_state := λ w c r w',
  match c return cresp c → Prop with
  | GetCluster => λ r, w' = w ∧ r = inr (cluster_of w)
  | GetSecret _ _ => λ r, w' = w ∧ r = inr secret
  | ListPods _ _ => λ r, w' = w ∧ ∃ pods, r = inr pods ∧ pods ≡ₚ cs_pods w <$> upto (Replicas (Spec cl))
  | PatchPod orig modified => λ r, r = inr () ∧ w' = with_pods (patch_pod orig modified ∘ cs_pods w) w
  | UpdateStatus c => λ r, r = inr () ∧ w' = with_status (Status c) w
  | Resolve i => λ r, w' = w ∧ if up i then ∃ a, r = inr a else True
  | SqlOpen _ _ => λ r, w' = w ∧ r = inr ()
  | DB i m => λ r, ∃ S', op_world cl p up version i (cs_servers w) m r S' ∧ w' = with_servers S' w
  | SpawnSetReadOnly i => λ _, w' = with_pending (Some i) w
  | SelectDone _ => λ r,
      match cs_pending w with
      | Some i => (r = None ∧ w' = w) ∨
          ∃ x S', r = Some x ∧ op_world cl p up version i (cs_servers w) (SetReadOnly true) x S' ∧
                  w' = with_pending None (with_servers S' w)
      | None => r = None ∧ w' = w
      end
  | RecvDone => λ r,
      match cs_pending w with
      | Some i => ∃ S', op_world cl p up version i (cs_servers w) (SetReadOnly true) r S' ∧
                  w' = with_pending None (with_servers S' w)
      | None => w' = w
      end
  | AgentNew i => λ r, w' = w ∧ if up i then r = inr () else ∃ e, r = inl e
  | AgentClone i req => λ r,
      (∃ S j sv, evolve p up (cs_servers w) S ∧ serves_clone w req j ∧ cloned (S j) sv ∧ r = inr () ∧
         w' = with_servers (<[i := sv]> S) w) ∨
      ((∀ j, ¬ serves_clone w req j) ∧ (∃ e, r = inl e) ∧ w' = w)
  | TickOrDone => λ r, w' = w ∧ r = false
  | AgentClose _ | Sleep _ | Emit _ _ | MetricInc _ | MetricSet _ _ => λ _, w' = w
  end r.

(** ** Clusters that can be healed *)

(** What does not change: an online cluster without an external source, whose
    instance [p] is up or not. *)
Record served (live : bool) : Prop := {
  h_replicas : 1 ≤ Replicas (Spec cl) < 2 ^ 31;
  h_ids : 0 ≤ ServerIDBase (Spec cl) ∧ ServerIDBase (Spec cl) + Replicas (Spec cl) < 2 ^ 31;
  h_online : Offline (Spec cl) = false;
  h_source : ReplicationSourceSecretName (Spec cl) = None;
  h_primary : 0 ≤ p < Replicas (Spec cl);
  h_up : up p = live;
  h_version : supported version;
  h_secret : NewMySQLPasswordFromSecret secret = inr pwd
}.

(** The API objects and the data of the servers are in order; how the servers are
    configured is left open. *)
Record intact (w : cluster_state) : Prop := {
  i_current : CurrentPrimaryIndex (cs_status w) = p;
  i_restored : Restore (Spec cl) = None ∨ is_Some (RestoredTime (cs_status w));
  i_errants : ErrantReplicaList (cs_status w) = [];
  i_pods i : 0 ≤ i < Replicas (Spec cl) →
    pod_Name (cs_pods w i) = PodName cl i ∧ pod_PodIP (cs_pods w i) ≠ "" ∧ (up i = true → isPodReady (cs_pods w i) = true);
  i_within : within p up (cs_servers w);
  i_uuid : UUID (sv_vars (cs_servers w p)) ≠ "";
  i_binlogs i : 0 ≤ i < Replicas (Spec cl) → up i = true →
    included (purged (cs_servers w p)) (executed (cs_servers w i))
}.

(** Only the servers went on. *)
Definition drifts (w w' : cluster_state) : Prop :=
  w' = with_servers (cs_servers w') w ∧ evolve p up (cs_servers w) (cs_servers w').

#[export] Instance drifts_preorder : PreOrder drifts.
Proof.
  split; [intros w; split; [by destruct w|done]|]. intros w w1 w2 [H1 E1] [H2 E2]. split; [|by etrans].
  rewrite H2, H1. by destruct w2, w1.
Qed.

Lemma drifts_servers w S : evolve p up (cs_servers w) S → drifts w (with_servers S w).
Proof. by split. Qed.

Lemma purged_config sv sv' : config sv' = config sv → purged sv' = purged sv.
Proof. intros H%(f_equal (λ c, PurgedGTID c.1.1)). exact H. Qed.
Lemma uuid_config sv sv' : config sv' = config sv → UUID (sv_vars sv') = UUID (sv_vars sv).
Proof. intros H%(f_equal (λ c, UUID c.1.1)). exact H. Qed.

Lemma intact_drifts w w' : intact w → drifts w w' → intact w'.
Proof.
  intros [] [-> Hev]. cbn in Hev. constructor; cbn; try done.
  - by apply Hev.
  - by erewrite uuid_config by by apply (evolve_config p up).
  - intros i Hi Hup. erewrite purged_config by by apply (evolve_config p up). etrans; [by apply i_binlogs0|]. by apply (evolve_executed p up).
Qed.

Abbreviation wpc := (wpw cluster_world).

(** A method called through the operator of an instance that is up. *)
Lemma wpc_db ss i m w Q :
  index_at (DBOps ss) i = Some (Some (OpSQL i)) →
  (∀ r S', op_world cl p up version i (cs_servers w) m r S' → Q (Return r) (with_servers S' w)) →
  wpc (db_call ss i m) w Q.
Proof. intros Hop HQ. unfold db_call. rewrite Hop. cbn. intros r w' (S' & HS & ->). by apply HQ. Qed.

(** ** There is always an answer *)

#[export] Instance serves_clone_dec w req j : Decision (serves_clone w req j).
Proof. apply _. Defined.

Definition restarted (donor : server) : server :=
  {| sv_vars := {| UUID := "restarted"; ExecutedGTID := executed donor; PurgedGTID := executed donor; ReadOnly := true;
                   SuperReadOnly := true; WaitForSlaveCount := 1; SemiSyncMasterEnabled := false; SemiSyncSlaveEnabled := false |};
     sv_channel := None; sv_clone := Some {| Dbop.cs_State := Some "Completed" |} |}.

Lemma clone_total w index req : ∃ r w', cluster_world w (AgentClone index req) r w'.
Proof.
  destruct (decide (Exists (serves_clone w req) (upto (Replicas (Spec cl))))) as [He|Hno].
  - apply Exists_exists in He as (j & _ & Hj). eexists (inr ()), _. left.
    exists (cs_servers w), j, (restarted (cs_servers w j)). split_and!; done.
  - exists (inl ErrNop), w. right. split; [|by eauto]. intros j Hj. apply Hno, Exists_exists. exists j. split; [|done].
    apply elem_of_upto, Hj.
Qed.

Lemma cluster_world_total w c : Replicas (Spec cl) < 2 ^ 31 → ∃ r w', cluster_world w c r w'.
Proof.
  intros Hn. destruct c as [|ns nm|ns l|o m|c|i|i a|i m|i|t| |i|i req|i|ms| |e args|m|m v]; cbn [cresp].
  - exists (inr (cluster_of w)), w. done.
  - exists (inr secret), w. done.
  - exists (inr (cs_pods w <$> upto (Replicas (Spec cl)))), w. split; [done|]. eauto.
  - eexists (inr ()), _. done.
  - eexists (inr ()), _. done.
  - exists (inr ""), w. split; [done|]. destruct (up i); eauto.
  - exists (inr ()), w. done.
  - destruct (op_world_total cl p up version i (cs_servers w) m Hn) as (r & S' & H). eexists r, _. exists S'. done.
  - eexists tt, _. done.
  - destruct (cs_pending w) as [i|] eqn:E; (exists None, w; cbn; rewrite E; auto).
  - destruct (cs_pending w) as [i|] eqn:E; [|exists (inr ()), w; cbn; by rewrite E].
    destruct (op_world_total cl p up version i (cs_servers w) (SetReadOnly true) Hn) as (r & S' & H). eexists r, _. cbn. rewrite E. exists S'. done.
  - destruct (up i) eqn:E; [exists (inr ()), w|exists (inl ErrNop), w]; cbn; rewrite E; eauto.
  - apply clone_total.
  - by exists tt, w.
  - by exists tt, w.
  - by exists false, w.
  - by exists tt, w.
  - by exists tt, w.
  - by exists tt, w.
Qed.
Lemma cluster_world_refines : Replicas (Spec cl) < 2 ^ 31 → refines cluster_world cluster_world.
Proof. intros Hn. split; [intros w c; by apply cluster_world_total|done]. Qed.
End world.
#[global] Arguments h_replicas {cl p up version secret pwd live} _.
#[global] Arguments h_ids {cl p up version secret pwd live} _.
#[global] Arguments h_online {cl p up version secret pwd live} _.
#[global] Arguments h_source {cl p up version secret pwd live} _.
#[global] Arguments h_primary {cl p up version secret pwd live} _.
#[global] Arguments h_up {cl p up version secret pwd live} _.
#[global] Arguments h_version {cl p up version secret pwd live} _.
#[global] Arguments h_secret {cl p up version secret pwd live} _.

(** A cluster whose instance [p] is up. *)
Abbreviation healable cl p up version secret pwd := (served cl p up version secret pwd true).
