(* ===== verification/GatherWorld.v ===== *)
(** * Gathering the status in a healthy world

    In the world of ClusterWorld.v [GatherStatus] succeeds, changes nothing, and
    the status set shows the servers as they are when it returns. *)

From S2P Require Import Prelude Prog Worlds GoLib Constants Api Password Dbop Gtid Event Cluster Samples Status StatusSpec Servers.
From S2P Require Import Gather GatherSpec Operations OpsSpec ClusterWorld.
#[local] Open Scope Z_scope.

Section gather.
Context {GS : GtidSets}.
Context (cl : MySQLCluster) (p : Z) (up : Z → bool) (version : string) (secret : Secret) (pwd : MySQLPassword).
Context {live : bool}.
Hypothesis Hheal : served cl p up version secret pwd live.

#[local] Abbreviation wpc := (wpw (cluster_world cl p up version secret pwd)).
#[local] Abbreviation n := (Replicas (Spec cl)).
#[local] Abbreviation shown := (shows cl p up).

Definition op_up i (o : option DBOp) : Prop := op_for i o ∧ (up i = true → o = Some (OpSQL i)).

Lemma wpc_connectAll c indices ops w :
  wpc (connectAll c indices ops) w
    (λ o w', w' = w ∧ ∃ new, o = Return (ops ++ new) ∧ Forall2 op_up indices new).
Proof.
  revert ops. induction indices as [|i indices IH]; intros ops; cbn [connectAll].
  { split; [done|]. exists []. by rewrite app_nil_r. }
  rewrite wpw_bind. unfold defaultFactory_New, kcall. wpw_norm. intros r w' [-> Hr].
  assert (∀ op, op_up i (Some op) → wpc (connectAll c indices (ops ++ [Some op])) w
    (λ o w', w' = w ∧ ∃ new, o = Return (ops ++ new) ∧ Forall2 op_up (i :: indices) new)) as Hrest.
  { intros op Hop. eapply wpw_conseq; [apply IH|]. intros o w' (-> & new & -> & Hnew). split; [done|].
    exists (Some op :: new). rewrite <- app_assoc. split; [done|]. by constructor. }
  destruct r as [e|a]; cbn [wpw].
  - apply Hrest. split; [right; eauto|]. intros Hup. cbn in Hr. rewrite Hup in Hr. by destruct Hr.
  - intros r w' [-> ->]. cbn [wpw]. apply Hrest. by split; [left|].
Qed.

(** What a query of instance [i] gives. *)
Definition queried (S S' : servers) i (ist : option MySQLInstanceStatus) : Prop :=
  if up i then ∃ st, ist = Some st ∧ shown S S' i st else ist = None.

Lemma queried_evolve S S1 S' i ist : queried S S1 i ist → evolve p up S1 S' → queried S S' i ist.
Proof. unfold queried. destruct (up i); [|done]. intros (st & -> & H) Hev. exists st. split; [done|]. by eapply shows_evolve. Qed.

Lemma queried_earlier S S1 S' i ist : evolve p up S S1 → queried S1 S' i ist → queried S S' i ist.
Proof. unfold queried. destruct (up i); [|done]. intros Hev (st & -> & H). exists st. split; [done|]. by eapply shows_earlier. Qed.

Lemma wpc_queryStatus i op k w :
  op_up i (Some op) →
  wpc (queryStatus op k) w (λ ist w', drifts p up w w' ∧ queried (cs_servers w) (cs_servers w') i ist).
Proof.
  intros [Hfor Hsql]. unfold queried. destruct (up i) eqn:Hup.
  - specialize (Hsql eq_refl). injection Hsql as ->. destruct k; cbn; intros r w' (S' & HS & ->);
      destruct (GetStatus_shows cl p up version i _ _ _ Hup HS) as [Hev (st & -> & Hst)]; cbn; (split; [by apply drifts_servers|eauto]).
  - destruct Hfor as [[= ->]|[m [= ->]]]; [|destruct k; by cbn].
    revert w. induction k as [|k IH]; intros w; cbn; intros r w' (S' & HS & ->); unfold op_world in HS; rewrite Hup in HS;
      destruct HS as [-> [e ->]]; cbn; case_bool_decide; cbn.
    1-3: split; [|done]; by apply drifts_servers.
    intros _ w'' ->. eapply wpw_conseq; [apply IH|]. intros ist w' [Hd ->]. split; [|done]. etrans; [by apply drifts_servers|done].
Qed.

Lemma wpc_queryAll indices ops w :
  Forall2 op_up indices ops →
  wpc (queryAll ops) w (λ o w', drifts p up w w' ∧
    ∃ sts, o = Return sts ∧ Forall2 (queried (cs_servers w) (cs_servers w')) indices sts).
Proof.
  intros Hops. revert w. induction Hops as [|i [op|] indices ops Hop Hops IH]; intros w; cbn [queryAll].
  - split; [done|]. exists []. by split; [|constructor].
  - rewrite wpw_bind. eapply wpw_conseq; [by apply wpc_queryStatus|]. intros ist w1 [Hd1 H1]. wpw_norm.
    eapply wpw_conseq; [apply IH|]. intros o w2 [Hd2 (sts & -> & H2)]. cbn. split; [by etrans|].
    exists (ist :: sts). split; [done|]. constructor; [eapply queried_evolve; [done|apply Hd2]|].
    eapply Forall2_impl; [exact H2|]. intros j o Ho. eapply queried_earlier; [apply Hd1|done].
  - destruct Hop as [[?|[? ?]] _]; done.
Qed.

(** ** The status set *)

(** [ss] shows the servers as they were between [S] and the state [w]. *)
Record shows_all (S : servers) (w : cluster_state) (ss : StatusSet) : Prop := {
  a_since : evolve p up S (cs_servers w);
  a_primary : Primary ss = p;
  a_cluster : Cluster ss = cluster_of cl w;
  a_password : Password_ ss = pwd;
  a_pods : go_len (Pods ss) = n ∧ ∀ i, 0 ≤ i < n → index_at (Pods ss) i = Some (Some (cs_pods w i));
  a_ops : go_len (DBOps ss) = n ∧ ∀ i, 0 ≤ i < n → ∃ o, index_at (DBOps ss) i = Some o ∧ op_up i o;
  a_status : go_len (MySQLStatus ss) = n ∧
    ∀ i, 0 ≤ i < n → ∃ ist, index_at (MySQLStatus ss) i = Some ist ∧ queried S (cs_servers w) i ist;
  a_errants : Errants ss = []
}.

Lemma shows_all_drifts S w w' ss : shows_all S w ss → drifts p up w w' → shows_all S w' ss.
Proof.
  intros [] [-> Hev]. cbn in Hev. constructor; cbn; try done; [by etrans|]. split; [apply a_status0|]. intros i Hi.
  destruct (proj2 a_status0 i Hi) as (ist & Hist & Hq). exists ist. split; [done|]. by eapply queried_evolve.
Qed.

Lemma shows_all_gathered S w ss gtid es prevent :
  shows_all S w ss → es = [] → shows_all S w (set_gathered (MySQLStatus ss) gtid es prevent ss).
Proof. intros [] ->. by constructor. Qed.

Lemma shows_all_primary S w ss :
  up p = true → shows_all S w ss → ∃ pst, index_at (MySQLStatus ss) (Primary ss) = Some (Some pst) ∧ shown S (cs_servers w) p pst.
Proof.
  intros Hup H. rewrite (a_primary _ _ _ H). destruct (proj2 (a_status _ _ _ H) p (h_primary Hheal)) as (ist & Hist & Hq).
  unfold queried in Hq. rewrite Hup in Hq. destruct Hq as (st & -> & Hst). eauto.
Qed.

Lemma shows_all_op S w ss i :
  shows_all S w ss → 0 ≤ i < n → up i = true → index_at (DBOps ss) i = Some (Some (OpSQL i)).
Proof. intros H Hi Hup. destruct (proj2 (a_ops _ _ _ H) i Hi) as (o & -> & _ & Ho). by rewrite Ho. Qed.

Lemma wpc_recheckPrimary S w ss :
  up p = true → shows_all S w ss →
  wpc (recheckPrimary ss) w (λ o w', drifts p up w w' ∧ ∃ pst, shown (cs_servers w) (cs_servers w') p pst ∧
    ∃ ss', o = Return ss' ∧ shows_all S w' ss' ∧ ss_ExecutedGTID ss' = ExecutedGTID (GlobalVariables_ pst) ∧
      index_at (MySQLStatus ss') p = Some (Some pst) ∧ Candidates ss' = Candidates ss ∧ NeedSwitch ss' = NeedSwitch ss ∧ PreventPodDeletion ss' = PreventPodDeletion ss ∧
      (∀ i, i ≠ p → index_at (MySQLStatus ss') i = index_at (MySQLStatus ss) i)).
Proof.
  intros Hup Hall. destruct (shows_all_primary _ _ _ Hup Hall) as (pst0 & Hp0 & Hst0).
  unfold recheckPrimary, kcall. rewrite Hp0. cbn. intros _ w1 ->. wpw_norm. rewrite (a_primary _ _ _ Hall) in *.
  destruct Hheal. eapply (wpc_db cl p up version secret pwd ss p GetStatus); [by eapply shows_all_op|]. intros r S' HS. cbn in r, HS |- *.
  destruct (GetStatus_shows cl p up version p _ _ _ Hup HS) as [Hev (pst & -> & Hpst)]. cbn.
  unfold set_at. rewrite Hp0. cbn. split; [by apply drifts_servers|]. exists pst. split; [done|]. eexists. split; [done|].
  pose proof (shows_all_drifts _ _ (with_servers S' w) _ Hall (drifts_servers p up w S' Hev)) as [].
  assert (0 ≤ p < go_len (MySQLStatus ss)) as Hr by (destruct a_status0 as [-> _]; done).
  split_and!; cbn; [|done|by apply index_at_insert_eq|done|done|done|intros i Hi; by rewrite index_at_insert_ne by (congruence || lia)].
  constructor; cbn; try done. rewrite go_len_insert. split; [apply a_status0|]. intros i Hi.
  destruct (decide (i = p)) as [->|Hne]; [rewrite index_at_insert_eq by done|rewrite index_at_insert_ne by (congruence || lia); by apply a_status0].
  eexists. split; [done|]. unfold queried. rewrite Hup. exists pst. split; [done|].
  eapply shows_earlier; [apply Hall|done].
Qed.

(** ** Classification *)

(** The primary [pst] has all the replicas executed. *)
Definition covers (ss : StatusSet) : Prop :=
  ∃ pst, index_at (MySQLStatus ss) p = Some (Some pst) ∧ ss_ExecutedGTID ss = ExecutedGTID (GlobalVariables_ pst) ∧
    UUID (GlobalVariables_ pst) ≠ "" ∧
    ∀ i st, 0 ≤ i < n → i ≠ p → index_at (MySQLStatus ss) i = Some (Some st) →
      included (ExecutedGTID (GlobalVariables_ st)) (ss_ExecutedGTID ss).

Lemma covers_data ss i st :
  covers ss → 0 ≤ i < n → i ≠ p → index_at (MySQLStatus ss) i = Some (Some st) →
  ss_ExecutedGTID ss = "" → ExecutedGTID (GlobalVariables_ st) = "".
Proof. intros (pst & _ & _ & _ & H) Hi Hp Hst Hg. apply included_none. rewrite <- Hg. by eapply H. Qed.

Lemma wpc_detectErrants S w ss :
  up p = true → shows_all S w ss → covers ss → ErrantReplicaList (Status (Cluster ss)) = [] →
  wpc (detectErrants ss) w (λ o w', drifts p up w w' ∧ o = Return ss).
Proof.
  intros Hup Hall (pst & Hp & Hg & Hu & Hcov) Hnone. destruct Hheal. unfold detectErrants. rewrite (a_primary _ _ _ Hall), Hp.
  destruct (ss_ExecutedGTID ss =s "") eqn:He; cbn; [by rewrite Hnone|]. wpw_norm.
  apply wpw_for_range with (I := λ rest acc w', rest ⊆ indexed (MySQLStatus ss) ∧ acc = ss ∧ drifts p up w w'); [done|by intros acc w' (_ & -> & ?)|].
  intros [i ist] rest acc w1 (Hin & -> & Hd). unfold errantStep. cbn [fst snd]. rewrite (a_primary _ _ _ Hall).
  assert (rest ⊆ indexed (MySQLStatus ss)) as Hrest by set_solver.
  destruct (i =? p) eqn:Hi; bool_cases; [by exists ss|]. destruct ist as [st|]; [|by exists ss].
  assert ((i, Some st) ∈ indexed (MySQLStatus ss)) as Hst%elem_of_indexed by set_solver.
  pose proof (a_status _ _ _ Hall) as [Hlen _].
  assert (0 ≤ i < n) as Hr by (rewrite <- Hlen; apply index_at_lt; eauto). wpw_norm.
  eapply (wpc_db cl p up version secret pwd ss p (SubtractGTID _ _)); [by eapply shows_all_op|]. intros r S' HS. cbn in r, HS |- *.
  destruct (SubtractGTID_evolves cl p up version p _ _ _ _ _ Hup HS) as [Hev (d & -> & Hd')]. cbn.
  rewrite Hd' by by eapply Hcov. unfold containErrantTransactions. rewrite (proj2 (string_eqb_false _ _) Hu). cbn.
  exists ss. split; [done|]. split; [done|]. split; [done|]. etrans; [done|]. by apply drifts_servers.
Qed.

Lemma shows_all_dropHung S w ss : shows_all S w ss → shows_all S w (set_MySQLStatus (dropHungReplicas p (MySQLStatus ss)) ss).
Proof.
  intros []. constructor; cbn; try done. rewrite go_len_dropHung. split; [apply a_status0|]. intros i Hi.
  destruct (proj2 a_status0 i Hi) as (ist & Hist & Hq). exists ist. split; [|done]. rewrite index_at_dropHung, Hist. cbn. f_equal.
  destruct (i =? p) eqn:E; [done|]. bool_cases. destruct ist as [st|]; [|done]. unfold queried in Hq. destruct (up i); [|done].
  destruct Hq as (st' & [= <-] & Hst). by rewrite (shows_sessions _ _ _ _ _ _ _ Hst).
Qed.

Lemma covers_dropHung S w ss : shows_all S w ss → covers ss → covers (set_MySQLStatus (dropHungReplicas p (MySQLStatus ss)) ss).
Proof.
  intros Hall (pst & Hp & Hg & Hu & Hcov). exists pst. cbn. rewrite index_at_dropHung, Hp. cbn. rewrite Z.eqb_refl. split_and!; [done..|].
  intros i st Hi Hne [Hst _]%dropHung_inv. by eapply Hcov.
Qed.

Lemma shows_all_wf S w ss : shows_all S w ss → Candidates ss = [] → wf ss.
Proof.
  intros [] Hc. destruct Hheal. constructor; rewrite ?a_cluster0, ?a_primary0; cbn; try done; try apply a_pods0; try apply a_ops0; try apply a_status0.
  - intros _. apply Forall_lookup. intros i o Ho. assert (index_at (Pods ss) (Z.of_nat i) = Some o) as Hi by (apply index_at_Some; rewrite Nat2Z.id; split; [lia|done]).
    destruct a_pods0 as [Hlen Hat]. rewrite Hat in Hi; [by simplify_eq|]. rewrite <- Hlen. apply index_at_lt. eauto.
  - apply Forall_lookup. intros i o Ho. assert (index_at (DBOps ss) (Z.of_nat i) = Some o) as Hi by (apply index_at_Some; rewrite Nat2Z.id; split; [lia|done]).
    destruct a_ops0 as [Hlen Hat]. assert (0 ≤ Z.of_nat i < n) as Hr by (rewrite <- Hlen; apply index_at_lt; eauto).
    destruct (Hat _ Hr) as (o' & Ho' & Hfor & _). simplify_eq. destruct Hfor as [->|[? ->]]; eauto.
Qed.

(** What [GatherStatus] returns. *)
Record gathered_now (S : servers) (w : cluster_state) (ss : StatusSet) : Prop := {
  n_shows : shows_all S w ss;
  n_covers : covers ss;
  n_shape : shape ss;
  n_ops : own_ops ss;
  n_state : state_spec ss (State ss);
  n_decided : ∃ ss0, wf ss0 ∧ DecideState ss0 = Some ss;
  n_switch : NeedSwitch ss = false ∨ NeedSwitch ss = needSwitch (cs_pods w p);
  n_prevent : MaxDelaySecondsForPodDeletion (Spec cl) ≤ 0 → PreventPodDeletion ss = false
}.

Lemma DecideState_needSwitch S w ss0 ss :
  shows_all S w ss0 → NeedSwitch ss0 = false → DecideState ss0 = Some ss →
  NeedSwitch ss = false ∨ NeedSwitch ss = needSwitch (cs_pods w p).
Proof.
  intros Hall Hns. unfold DecideState. destruct (decideSwitch ss0) as [[st [|c cs]]|]; cbn; [|intros Hd|done].
  { intros [= <-]. by left. }
  right. rewrite (a_primary _ _ _ Hall) in Hd. rewrite (proj2 (a_pods _ _ _ Hall)) in Hd by apply Hheal. cbn in Hd.
  destruct (_ !! Z.to_nat 0) as [cand|]; [|done]. by injection Hd as <-.
Qed.

Lemma gathered_now_decided S w ss0 ss :
  shows_all S w ss0 → covers ss0 → Candidates ss0 = [] → NeedSwitch ss0 = false →
  (MaxDelaySecondsForPodDeletion (Spec cl) ≤ 0 → PreventPodDeletion ss0 = false) → DecideState ss0 = Some ss → gathered_now S w ss.
Proof.
  intros Hall Hcov Hc Hns Hprev Hd. pose proof (shows_all_wf _ _ _ Hall Hc) as Hwf. destruct (decided_shape _ _ Hwf Hd) as [Hsh Hst].
  assert (own_ops ss0) as Hown.
  { intros i o Hi. destruct (a_ops _ _ _ Hall) as [Hlen Hat]. assert (0 ≤ i < n) as Hr by (rewrite <- Hlen; apply index_at_lt; eauto).
    destruct (Hat _ Hr) as (o' & Ho' & ? & _). by simplify_eq. }
  destruct (DecideState_set _ _ Hd) as (cs & m & c & st & Heq). constructor; [|..|by eauto| |]; try done; rewrite Heq; [destruct Hall; by constructor|done..| |done].
  rewrite <- Heq. by eapply DecideState_needSwitch.
Qed.

(** The status set before the instances are asked. *)
Record prepared (w : cluster_state) (ss : StatusSet) : Prop := {
  q_primary : Primary ss = p;
  q_cluster : Cluster ss = cluster_of cl w;
  q_password : Password_ ss = pwd;
  q_errants : Errants ss = [];
  q_candidates : Candidates ss = [];
  q_switch : NeedSwitch ss = false;
  q_prevent : PreventPodDeletion ss = false;
  q_gtid : ss_ExecutedGTID ss = "";
  q_pods : go_len (Pods ss) = n ∧ ∀ i, 0 ≤ i < n → index_at (Pods ss) i = Some (Some (cs_pods w i));
  q_ops : Forall2 op_up (upto n) (DBOps ss)
}.

Lemma wpc_queried w ss :
  prepared w ss →
  wpc (queryAll (DBOps ss)) w (λ o w', drifts p up w w' ∧
    ∃ sts, o = Return sts ∧ shows_all (cs_servers w) w' (set_MySQLStatus sts ss)).
Proof.
  intros []. assert (0 ≤ n) as Hn by (destruct Hheal; lia). eapply wpw_conseq; [by apply wpc_queryAll|].
  intros ? w1 [Hd1 (sts & -> & Hsts)]. split; [done|]. exists sts. split; [done|]. destruct Hd1 as [Hw1 Hev].
  constructor; cbn; try done; [by rewrite q_cluster0, Hw1|by rewrite Hw1|by apply Forall2_upto|by apply Forall2_upto].
Qed.

Lemma wpc_gatherInstances w ss :
  up p = true → prepared w ss → intact cl p up w →
  wpc (gatherInstances ss) w (λ o w', drifts p up w w' ∧ ∃ ss', o = Return ss' ∧ gathered_now (cs_servers w) w' ss').
Proof.
  intros Hup Hpre Hok. pose proof Hpre as []. unfold gatherInstances. rewrite wpw_bind_outcome. eapply wpw_conseq; [by apply wpc_queried|].
  intros ? w1 [Hd1 (sts & -> & Hall)]. rewrite wpw_bind_outcome.
  eapply wpw_conseq; [by apply wpc_recheckPrimary|]. intros ? w2 [Hd2 (pst & Hpst & ss2 & -> & Hall2 & Hg & Hst2 & Hc2 & Hns2 & Hprev2 & Hsame)].
  rewrite wpw_bind_outcome. set (ss3 := set_gathered _ _ _ _ ss2).
  assert (shows_all (cs_servers w) w2 ss3) as Hall3 by (apply shows_all_gathered; [done|apply Hall2]).
  assert (covers ss3) as Hcov.
  { exists pst. split_and!; [done|done| |].
    - replace (UUID (GlobalVariables_ pst)) with (UUID (sv_vars (cs_servers w2 p))).
      + rewrite (uuid_config (cs_servers w p)); [apply Hok|]. apply (evolve_config p up). exact (a_since _ _ _ Hall3).
      + symmetry. apply (f_equal UUID (shows_vars _ _ _ _ _ _ _ Hpst)).
    - intros i st Hi Hne Hst. cbn in Hst. rewrite Hsame in Hst by done. cbn. rewrite Hg. etrans; [|apply (shows_since _ _ _ _ _ _ _ Hpst)].
      destruct (proj2 (a_status _ _ _ Hall) i Hi) as (ist & Hist & Hq). cbn in Hist, Hst. unfold queried in Hq. destruct (up i); [|naive_solver].
      destruct Hq as (st' & -> & Hsh). simplify_eq. apply (shows_within _ _ _ _ _ _ _ Hsh). apply Hok. }
  eapply wpw_conseq; [eapply wpc_detectErrants; [done|done|done|]|].
  { rewrite (a_cluster _ _ _ Hall3). cbn. destruct Hd2 as [-> _], Hd1 as [-> _]. apply Hok. }
  intros ? w3 [Hd3 ->]. rewrite (a_primary _ _ _ Hall3).
  pose proof (shows_all_dropHung _ _ _ (shows_all_drifts _ _ _ _ Hall3 Hd3)) as Hall4.
  assert (Candidates ss3 = []) as Hc3 by by cbn; rewrite Hc2.
  destruct (DecideState_total _ (shows_all_wf _ _ _ Hall4 Hc3)) as (ss' & Hd & _). rewrite Hd. cbn.
  split; [etrans; [done|]; by etrans|]. exists ss'. split; [done|].
  eapply gathered_now_decided; [exact Hall4|by eapply covers_dropHung|done|by cbn; rewrite Hns2| |done].
  intros Hmax. cbn. rewrite (a_cluster _ _ _ Hall2). cbn. destruct (Z.ltb_spec 0 (MaxDelaySecondsForPodDeletion (Spec cl))); [lia|]. by rewrite Hprev2.
Qed.

Lemma wpc_GatherStatus_with (good : cluster_state → StatusSet → Prop) name w :
  intact cl p up w →
  (∀ ss, prepared w ss →
     wpc (gatherInstances ss) w (λ o w', drifts p up w w' ∧ ∃ ss', o = Return ss' ∧ good w' ss' ∧ State ss' ≠ StateUndecided)) →
  wpc (GatherStatus name) w (λ o w', drifts p up w w' ∧ ∃ ss, o = Return ss ∧ good w' ss).
Proof.
  intros Hok Hgood. pose proof Hheal as []. unfold GatherStatus, kcall. wpw_norm. intros r w1 [-> ->]. wpw_norm.
  intros r w1 [-> ->]. wpw_norm. rewrite h_secret. wpw_norm. intros r w1 (-> & pods & -> & Hperm). wpw_norm.
  destruct (Permutation_map_inv _ _ Hperm) as (ords & -> & Hords). rewrite go_len_fmap.
  change (Replicas (Spec (cluster_of cl w))) with n. change (Offline (Spec (cluster_of cl w))) with (Offline (Spec cl)).
  assert (go_len ords = n) as Hlen.
  { apply Permutation_length in Hords. rewrite length_upto in Hords. unfold go_len. lia. }
  rewrite h_online, Hlen, Z.eqb_refl. cbn [negb andb]. unfold make_slice. destruct (Z.ltb_spec n 0); [lia|]. wpw_norm.
  set (slots := replicate (Z.to_nat n) None).
  assert (go_len slots = n) as Hslots by (unfold slots, go_len; rewrite length_replicate; lia).
  destruct (placePods_at cl (cs_pods w) ords slots) as (pods & Hpl & Hpl_len & Hat).
  { intros i Hi. rewrite <- Hords in Hi. apply elem_of_upto in Hi. rewrite Hslots. split; [done|]. split; [lia|]. by apply Hok. }
  rewrite Hslots in Hpl, Hpl_len, Hat. change (map (cs_pods w) ords) with (cs_pods w <$> ords). rewrite Hpl. wpw_norm.
  eapply wpw_conseq; [apply wpc_connectAll|]. intros ? ? (-> & ops & -> & Hops). unfold closing. wpw_norm.
  eapply wpw_conseq; [apply Hgood|].
  - constructor; try done; [apply Hok|]. split; [done|]. intros i Hi. cbn. rewrite Hat by done. rewrite bool_decide_true; [done|].
    rewrite <- Hords. by apply elem_of_upto.
  - intros ? w' [Hd (ss & -> & Hss & Hu)]. rewrite bool_decide_false by done. cbn. eauto.
Qed.
End gather.

Section up.
Context {GS : GtidSets}.
Context (cl : MySQLCluster) (p : Z) (up : Z → bool) (version : string) (secret : Secret) (pwd : MySQLPassword).
Hypothesis Hheal : healable cl p up version secret pwd.

Lemma wpc_GatherStatus name w :
  intact cl p up w →
  wpw (cluster_world cl p up version secret pwd) (GatherStatus name) w
    (λ o w', drifts p up w w' ∧ ∃ ss, o = Return ss ∧ gathered_now cl p up pwd (cs_servers w) w' ss).
Proof.
  intros Hok. eapply (wpc_GatherStatus_with cl p up version secret pwd Hheal); [done|]. intros ss Hpre.
  eapply wpw_conseq; [apply (wpc_gatherInstances cl p up version secret pwd Hheal); [apply Hheal|done|done]|].
  intros ? w' [Hd (ss' & -> & Hnow)]. split; [done|]. exists ss'. split; [done|]. split; [done|].
  pose proof (n_state _ _ _ _ _ _ _ Hnow) as Hst. intros Hu. by rewrite Hu in Hst.
Qed.
End up.
