(* ===== verification/ConfigureWorld.v ===== *)
(** * Configuring in a healthy world

    In the world of ClusterWorld.v [configure] succeeds: afterwards every replica
    that is up is read-only and replicates from the primary, which waits for half
    of them and is writable, whatever the servers were configured to do before. *)

From S2P Require Import Prelude Prog Worlds GoLib Constants Api K8s Password Dbop Gtid Event Cluster Samples Status StatusSpec Servers.
From S2P Require Import Gather GatherSpec Operations OpsSpec ClusterWorld GatherWorld.
#[local] Open Scope Z_scope.

Section heal.
Context {GS : GtidSets}.
Context (cl : MySQLCluster) (p : Z) (up : Z → bool) (version : string) (secret : Secret) (pwd : MySQLPassword).
Hypothesis Hheal : healable cl p up version secret pwd.

#[local] Abbreviation wpc := (wpw (cluster_world cl p up version secret pwd)).
#[local] Abbreviation n := (Replicas (Spec cl)).

(** ** What a round changes *)

(** The server of [i] was configured, the others went on. *)
Record reconfigures i (S S' : servers) : Prop := {
  rc_others j : j ≠ i → config (S' j) = config (S j);
  rc_purged : purged (S' p) = purged (S p);
  rc_uuid : UUID (sv_vars (S' p)) = UUID (sv_vars (S p));
  rc_executed : included (executed (S p)) (executed (S' p));
  rc_within : within p up S → within p up S';
  rc_binlogs : (∀ j, 0 ≤ j < n → up j = true → included (purged (S p)) (executed (S j))) →
               ∀ j, 0 ≤ j < n → up j = true → included (purged (S p)) (executed (S' j))
}.

#[export] Instance reconfigures_preorder i : PreOrder (reconfigures i).
Proof.
  split; [by constructor|]. intros S S1 S2 [] []. constructor; [|congruence|congruence|by etrans|auto|].
  - intros j Hj. rewrite rc_others1 by done. auto.
  - rewrite rc_purged0 in rc_binlogs1. auto.
Qed.

Lemma turns_reconfigures i f S S' :
  (i = p → ∀ c, PurgedGTID (f c).1.1 = PurgedGTID c.1.1 ∧ UUID (f c).1.1 = UUID c.1.1) →
  turns p up i f S S' → reconfigures i S S'.
Proof.
  intros Hf (He & Hc & Hw). specialize (Hc p) as Hcp. constructor; [|..|apply He|done|].
  - intros j Hj. by rewrite Hc, bool_decide_false.
  - apply (f_equal (λ c, PurgedGTID c.1.1)) in Hcp. change (purged (S' p) = PurgedGTID (if bool_decide (p = i) then f (config (S p)) else config (S p)).1.1) in Hcp.
    rewrite Hcp. case_bool_decide as E; [|done]. by rewrite (proj1 (Hf (eq_sym E) _)).
  - apply (f_equal (λ c, UUID c.1.1)) in Hcp. change (UUID (sv_vars (S' p)) = UUID (if bool_decide (p = i) then f (config (S p)) else config (S p)).1.1) in Hcp.
    rewrite Hcp. case_bool_decide as E; [|done]. by rewrite (proj2 (Hf (eq_sym E) _)).
  - intros Hb j Hj Hup. etrans; [by apply Hb|apply He].
Qed.

Lemma evolve_reconfigures i S S' : evolve p up S S' → reconfigures i S S'.
Proof. intros H. eapply turns_reconfigures; [|by apply evolve_turns]. done. Qed.

Lemma intact_servers i w S : intact cl p up w → reconfigures i (cs_servers w) S → intact cl p up (with_servers S w).
Proof.
  intros [] []. constructor; cbn; try done; [by auto|congruence|]. rewrite rc_purged0. auto.
Qed.

(** Pods got labels and annotations, other than those that ask for a switch. *)
Definition same_pod (pod pod' : Pod) : Prop :=
  pod_Name pod' = pod_Name pod ∧ pod_PodIP pod' = pod_PodIP pod ∧ isPodReady pod' = isPodReady pod ∧ needSwitch pod' = needSwitch pod.

Definition relabels (w w' : cluster_state) : Prop :=
  w' = with_pods (cs_pods w') w ∧ ∀ i, same_pod (cs_pods w i) (cs_pods w' i).

#[export] Instance relabels_preorder : PreOrder relabels.
Proof.
  split; [intros w; split; [by destruct w|by intros]|]. intros w w1 w2 [H1 P1] [H2 P2]. split; [rewrite H2, H1; by destruct w2, w1|].
  intros i. destruct (P1 i) as (?&?&?&?), (P2 i) as (?&?&?&?). split_and!; congruence.
Qed.

Lemma intact_relabels w w' : intact cl p up w → relabels w w' → intact cl p up w'.
Proof.
  intros [] [-> Hp]. constructor; cbn in *; try done. intros i Hi. destruct (Hp i) as (-> & -> & -> & _). auto.
Qed.

Lemma patch_relabels w orig modified :
  pod_Annotations orig !! AnnDemote = pod_Annotations modified !! AnnDemote →
  relabels w (with_pods (patch_pod orig modified ∘ cs_pods w) w).
Proof.
  intros Hann. split; [done|]. intros i. cbn. unfold patch_pod. destruct (_ =s _); [|done]. split_and!; try done.
  unfold needSwitch, map_str. cbn. rewrite lookup_merge_patch, bool_decide_true by done. done.
Qed.

Lemma wpc_patch w orig modified Q :
  pod_Annotations orig !! AnnDemote = pod_Annotations modified !! AnnDemote →
  (∀ w', relabels w w' → Q (inr ()) w') → wpc (kcall (PatchPod orig modified)) w Q.
Proof. intros Hann HQ r w' [-> ->]. apply HQ. by apply patch_relabels. Qed.

(** ** The slots of a gathered set *)

Section round.
Context (S0 : servers) (w0 : cluster_state) (ss : StatusSet).
Hypothesis Hnow : gathered_now cl p up pwd S0 w0 ss.
Hypothesis Hbinlogs : ∀ i, 0 ≤ i < n → up i = true → included (purged (S0 p)) (executed (S0 i)).

#[local] Abbreviation Hall := (n_shows cl p up pwd S0 w0 ss Hnow).

Lemma slot_range {A} (l : list A) i x : go_len l = n → (i, x) ∈ indexed l → 0 ≤ i < n.
Proof. intros <- Hi%elem_of_indexed. apply index_at_lt. eauto. Qed.

Lemma slot_status i ist : index_at (MySQLStatus ss) i = Some ist → 0 ≤ i < n ∧ queried cl p up S0 (cs_servers w0) i ist.
Proof.
  intros Hi. destruct (a_status _ _ _ _ _ _ _ Hall) as [Hlen Hat].
  assert (0 ≤ i < n) as Hr by (rewrite <- Hlen; apply index_at_lt; eauto). split; [done|].
  destruct (Hat i Hr) as (x & Hx & Hq). by simplify_eq.
Qed.

Lemma slot_up i st : index_at (MySQLStatus ss) i = Some (Some st) → 0 ≤ i < n ∧ up i = true ∧ shows cl p up S0 (cs_servers w0) i st.
Proof.
  intros [Hr Hq]%slot_status. unfold queried in Hq. destruct (up i); [|done]. destruct Hq as (x & [= <-] & ?). done.
Qed.

Lemma slot_primary : ∃ pst, index_at (MySQLStatus ss) (Primary ss) = Some (Some pst) ∧ shows cl p up S0 (cs_servers w0) p pst.
Proof. eapply (shows_all_primary cl p up version secret pwd); [exact Hheal|apply Hheal|apply Hall]. Qed.

Lemma slot_op i : 0 ≤ i < n → up i = true → index_at (DBOps ss) i = Some (Some (OpSQL i)).
Proof. by eapply (shows_all_op cl p up pwd), Hall. Qed.

Lemma not_errant i : 0 ≤ i < n → isErrantReplica ss i = Some false.
Proof.
  intros Hi. unfold isErrantReplica. destruct (proj2 (a_status _ _ _ _ _ _ _ Hall) i Hi) as (ist & Hist & Hq). rewrite Hist. cbn.
  rewrite (a_errants _ _ _ _ _ _ _ Hall). rewrite bool_decide_false by set_solver. unfold queried in Hq. destruct ist as [st|]; [|done].
  destruct (up i); [|done]. destruct Hq as (x & [= <-] & Hs). by rewrite (shows_errant _ _ _ _ _ _ _ Hs).
Qed.

(** ** Role labels *)

Lemma wpc_removeRoleLabel w :
  wpc (removeRoleLabel ss) w (λ o w', relabels w w' ∧ ∃ noRoles, o = Return noRoles ∧ ∀ i, i ∈ noRoles → 0 ≤ i < n).
Proof.
  pose proof (a_pods _ _ _ _ _ _ _ Hall) as [Hlen Hat].
  apply wpw_for_range with (I := λ rest acc w', rest ⊆ indexed (Pods ss) ∧ relabels w w' ∧ ∀ i, i ∈ acc → 0 ≤ i < n).
  { split; [done|]. split; [done|]. intros i Hi. by apply elem_of_nil in Hi. }
  { intros acc w' (_ & Hr & Ha). eauto. }
  intros [i opod] rest acc w1 (Hin & Hrel & Hacc). unfold removeRoleStep. cbn [fst snd].
  assert (rest ⊆ indexed (Pods ss)) as Hrest by set_solver.
  assert ((i, opod) ∈ indexed (Pods ss)) as Hi by set_solver. pose proof (slot_range _ _ _ Hlen Hi) as Hr.
  apply elem_of_indexed in Hi. rewrite Hat in Hi by done. injection Hi as <-. wpw_norm.
  assert (∀ j, j ∈ acc ++ [i] → 0 ≤ j < n) as Hacc' by (intros j [?| ->%list_elem_of_singleton]%elem_of_app; auto).
  destruct (_ =s ""); [cbn; eauto 10|]. destruct (_ && _); [cbn; eauto 10|]. wpw_norm.
  assert (wpc (if i =? Primary ss then Ret (Return false)
     else errant <-? or_panic (isErrantReplica ss i) "index out of range" ;;
          Ret (Return (negb errant && (map_str (pod_Labels (cs_pods w0 i)) LabelMocoRole =s RoleReplica)))) w1
     (λ o w', w' = w1 ∧ ∃ keep, o = Return keep)) as Hkeep.
  { destruct (i =? Primary ss); [cbn; eauto|]. rewrite not_errant by done. cbn. eauto. }
  eapply wpw_conseq; [exact Hkeep|]. intros ? ? (-> & keep & ->). destruct keep; [cbn; eauto 10|]. wpw_norm.
  apply wpc_patch; [done|]. intros w2 Hrel2. cbn. exists (acc ++ [i]). split; [done|]. split; [done|]. split; [by etrans|done].
Qed.

Lemma wpc_addRoleLabel w alive :
  (∀ i, i ∈ alive → 0 ≤ i < n) → wpc (addRoleLabel ss alive) w (λ o w', relabels w w' ∧ o = Return ()).
Proof.
  intros Halive. apply wpw_for_range with (I := λ rest _ w', rest ⊆ alive ∧ relabels w w'); [done|by intros [] w' (_ & Hr)|].
  intros i rest [] w1 (Hin & Hrel). assert (0 ≤ i < n) as Hi by (apply Halive; set_solver).
  unfold addRoleStep. rewrite not_errant by done. wpw_norm. unfold pod_at.
  rewrite (proj2 (a_pods _ _ _ _ _ _ _ Hall) i Hi). wpw_norm. apply wpc_patch; [done|]. intros w2 Hrel2. cbn.
  exists (). split; [done|]. split; [set_solver|]. by etrans.
Qed.

Lemma aliveOf_up noRoles :
  (∀ i, i ∈ noRoles → 0 ≤ i < n) → ∃ alive, aliveOf ss noRoles = Some alive ∧ ∀ i, i ∈ alive → 0 ≤ i < n ∧ up i = true.
Proof.
  induction noRoles as [|i noRoles IH]; intros Hin; cbn.
  { exists []. split; [done|]. intros i Hi. by apply elem_of_nil in Hi. }
  destruct (proj2 (a_status _ _ _ _ _ _ _ Hall) i (Hin i ltac:(left))) as (ist & Hist & Hq). rewrite Hist, not_errant by (apply Hin; left). cbn.
  destruct IH as (alive & -> & Halive); [intros j Hj; apply Hin; by right|]. cbn. destruct ist as [st|]; cbn; [|by eauto].
  eexists. split; [done|]. intros j [->|Hj]%elem_of_cons; [|auto].
  split; [apply Hin; left|]. unfold queried in Hq. by destruct (up i).
Qed.

(** ** Statements sent to an instance *)

Ltac by_op H := unfold db_do; wpw_norm; eapply (wpc_db cl p up version secret pwd); [by apply slot_op|];
  intros r S' HS; eapply H in HS; [|done..].

Lemma wpc_kill i wrap w Q :
  0 ≤ i < n → up i = true → (∀ S', evolve p up (cs_servers w) S' → Q (Return ()) (with_servers S' w)) →
  wpc (db_do ss i KillConnections wrap) w Q.
Proof. intros Hi Hup HQ. by_op KillConnections_evolves. destruct HS as [-> H]. by apply HQ. Qed.

Lemma wpc_stopIO i wrap w Q :
  0 ≤ i < n → up i = true →
  (∀ S', turns p up i (on_link (fmap (λ l, (l.1.1, "No", l.2)))) (cs_servers w) S' → Q (Return ()) (with_servers S' w)) →
  wpc (db_do ss i StopReplicaIOThread wrap) w Q.
Proof. intros Hi Hup HQ. by_op StopReplicaIOThread_turns. destruct HS as [-> H]. by apply HQ. Qed.

Lemma wpc_readonly i wrap w Q :
  0 ≤ i < n → up i = true →
  (∀ S', turns p up i (on_vars (set_modes true true)) (cs_servers w) S' → Q (Return ()) (with_servers S' w)) →
  wpc (db_do ss i (SetReadOnly true) wrap) w Q.
Proof. intros Hi Hup HQ. by_op SetReadOnly_on. destruct HS as [-> H]. by apply HQ. Qed.

Lemma wpc_writable i wrap w Q :
  0 ≤ i < n → up i = true →
  (∀ S', turns p up i (on_link (threads "No" "No") ∘ on_vars (set_modes false false)) (cs_servers w) S' → Q (Return ()) (with_servers S' w)) →
  wpc (db_do ss i (SetReadOnly false) wrap) w Q.
Proof. intros Hi Hup HQ. by_op SetReadOnly_off. destruct HS as [-> H]. by apply HQ. Qed.

Lemma wpc_primary i k wrap w Q :
  0 ≤ i < n → up i = true →
  (∀ S', turns p up i (on_vars (λ gv, set_semisync k true (SemiSyncSlaveEnabled gv) gv)) (cs_servers w) S' → Q (Return ()) (with_servers S' w)) →
  wpc (db_do ss i (ConfigurePrimary k) wrap) w Q.
Proof. intros Hi Hup HQ. by_op ConfigurePrimary_turns. destruct HS as [-> H]. by apply HQ. Qed.

Lemma wpc_replica i source semisync wrap w Q :
  0 ≤ i < n → up i = true →
  (∀ S', turns p up i (λ c, on_vars (λ gv, set_semisync (WaitForSlaveCount gv) false semisync gv)
                           (on_link (λ _, Some (ai_Host source, "Yes", "Yes")) c)) (cs_servers w) S' → Q (Return ()) (with_servers S' w)) →
  wpc (db_do ss i (ConfigureReplica source semisync) wrap) w Q.
Proof.
  intros Hi Hup HQ. pose proof (h_version Hheal). by_op ConfigureReplica_turns. destruct HS as [-> H']. by apply HQ.
Qed.

Lemma wpc_wait i g t wrap w Q :
  0 ≤ i < n → up i = true → within p up (cs_servers w) → included g (executed (cs_servers w p)) →
  i = p ∨ replicating (cs_servers w i) = true →
  (∀ S', evolve p up (cs_servers w) S' → included g (executed (S' i)) → Q (Return ()) (with_servers S' w)) →
  wpc (db_do ss i (WaitForGTID g t) wrap) w Q.
Proof. intros Hi Hup HW Hg Hr HQ. by_op WaitForGTID_evolves. destruct HS as (-> & H & H'). by apply HQ. Qed.

Lemma wpc_status i wrap w Q :
  0 ≤ i < n → up i = true →
  (∀ st S', evolve p up (cs_servers w) S' → shows cl p up (cs_servers w) S' i st → Q (Return st) (with_servers S' w)) →
  wpc (db_do ss i GetStatus wrap) w Q.
Proof. intros Hi Hup HQ. by_op GetStatus_shows. destruct HS as (H & st & -> & Hst). by apply HQ. Qed.

Lemma wpc_subtract i a b wrap w Q :
  0 ≤ i < n → up i = true → included a b →
  (∀ S', evolve p up (cs_servers w) S' → Q (Return "") (with_servers S' w)) →
  wpc (db_do ss i (SubtractGTID a b) wrap) w Q.
Proof. intros Hi Hup Hin HQ. by_op SubtractGTID_evolves. destruct HS as (H & d & -> & Hd). rewrite Hd by done. by apply HQ. Qed.

(** ** Replicas *)

(** A configuration that replicates from [p] as it should. *)
Definition follows (c : cfg) : Prop :=
  SuperReadOnly c.1.1 = true ∧ SemiSyncSlaveEnabled c.1.1 = true ∧ ∃ sql, c.1.2 = Some (PodHostname cl p, "Yes", sql).

(** The configuration a status shows. *)
Definition status_config (st : MySQLInstanceStatus) : cfg :=
  (unexecuted (GlobalVariables_ st), (λ rs, (SourceHost rs, ReplicaIORunning rs, ReplicaSQLRunning rs)) <$> ReplicaStatus_ st, CloneStatus_ st).

Lemma shows_config S S' i st : shows cl p up S S' i st → status_config st = config (S' i).
Proof. intros []. unfold status_config, config. by f_equal; [f_equal|]. Qed.

(** The binary logs of the primary suffice for the replica. *)
Lemma binlogs_suffice_for i pst st :
  index_at (MySQLStatus ss) (Primary ss) = Some (Some pst) → index_at (MySQLStatus ss) i = Some (Some st) →
  included (PurgedGTID (GlobalVariables_ pst)) (ExecutedGTID (GlobalVariables_ st)).
Proof.
  intros Hp Hi. destruct (slot_up _ _ Hi) as (Hr & Hup & Hst). destruct slot_primary as (pst' & Hp' & Hpst). simplify_eq.
  etrans; [|apply (shows_since _ _ _ _ _ _ _ Hst)].
  replace (PurgedGTID (GlobalVariables_ pst)) with (purged (S0 p)); [by apply Hbinlogs|].
  rewrite <- (purged_config (S0 p) (cs_servers w0 p)) by apply (evolve_config p up), Hall.
  symmetry. exact (f_equal PurgedGTID (shows_vars _ _ _ _ _ _ _ Hpst)).
Qed.

Lemma wpc_startReplica i st redo w (Q : outcome bool → cluster_state → Prop) :
  i ≠ p → index_at (MySQLStatus ss) i = Some (Some st) → SuperReadOnly (config (cs_servers w i)).1.1 = true →
  (ReplicaStatus_ st = None ∨ (status_config st).1.2 = (config (cs_servers w i)).1.2 ∧
     SemiSyncSlaveEnabled (GlobalVariables_ st) = SemiSyncSlaveEnabled (config (cs_servers w i)).1.1) →
  (∀ redo' S', reconfigures i (cs_servers w) S' → follows (config (S' i)) → Q (Return redo') (with_servers S' w)) →
  wpc (startReplica ss i st redo) w Q.
Proof.
  intros Hip Hi Hro Hseen HQ. destruct (slot_up _ _ Hi) as (Hr & Hup & Hst). destruct slot_primary as (pst & Hp & Hpst).
  unfold startReplica, status_at. rewrite Hp. wpw_norm. cbn [or_panic mjoin option_join wpw]. wpw_norm. apply wpc_subtract; [done|done|by eapply binlogs_suffice_for|].
  intros S1 H1. cbn. rewrite (a_cluster _ _ _ _ _ _ _ Hall), (a_primary _ _ _ _ _ _ _ Hall). change (PodHostname (cluster_of cl w0) p) with (PodHostname cl p).
  change (ReplicationSourceSecretName (Spec (cluster_of cl w0))) with (ReplicationSourceSecretName (Spec cl)).
  rewrite (h_source Hheal), (bool_decide_true (None = None)) by done.
  pose proof (evolve_config _ _ i _ _ H1) as Hc1.
  destruct (match ReplicaStatus_ st with Some _ => _ | None => false end) eqn:Hrun; cbn [wpw].
  - apply HQ; [by apply evolve_reconfigures|]. rewrite Hc1. destruct (ReplicaStatus_ st) as [rs|] eqn:Hrs; [|done].
    destruct Hseen as [?|[Hl Hs]]; [done|]. apply andb_true_iff in Hrun as [[Hio Hh]%andb_true_iff Hss]. bool_cases. apply eqb_prop in Hss.
    split; [done|]. split; [congruence|]. unfold status_config in Hl. rewrite Hrs in Hl.
    eexists. etrans; [symmetry; exact Hl|]. cbn. by rewrite Hio, Hh.
  - wpw_norm. apply wpc_replica; [done|done|]. intros S2 H2. cbn. apply HQ.
    + etrans; [by apply evolve_reconfigures|]. eapply turns_reconfigures; [|exact H2]. done.
    + destruct H2 as (_ & Hc & _). rewrite Hc, bool_decide_true by done. cbn in Hc1. cbn. rewrite Hc1. split; [done|]. split; [done|]. eauto.
Qed.

Lemma wpc_waitRestart i k w Q :
  up i = true → (∀ S', evolve p up (cs_servers w) S' → Q (Return ()) (with_servers S' w)) →
  wpc (waitRestart (OpSQL i) k) w Q.
Proof.
  intros Hup HQ. destruct k as [|k]; cbn.
  - specialize (HQ (cs_servers w)). destruct w. by apply HQ.
  - intros r0 w1 [-> ->] r w2 (S' & HS & ->). destruct (GetStatus_shows cl p up version i _ _ _ Hup HS) as [Hev (st & -> & _)]. by apply HQ.
Qed.

(** A clone: [i] is another server, the others went on. *)
Lemma clone_reconfigures i j S S1 sv :
  i ≠ p → 0 ≤ j < n → up j = true → evolve p up S S1 → cloned (S1 j) sv → reconfigures i S (<[i := sv]> S1).
Proof.
  intros Hi Hj Hup Hev (He & _ & _ & _ & Hr & _). etrans; [by apply evolve_reconfigures|].
  assert ((<[i := sv]> S1 : servers) p = S1 p) as Hp by by apply fn_lookup_insert_ne.
  constructor; rewrite ?Hp; try done.
  - intros k Hk. by rewrite fn_lookup_insert_ne.
  - intros HW k Hk. rewrite Hp.
    destruct (decide (k = i)) as [->|Hne]; [rewrite fn_lookup_insert|rewrite fn_lookup_insert_ne by done; by apply HW].
    rewrite He, Hr. split; [by apply HW|]. intros t Ht. by apply gtids_empty in Ht.
  - intros Hb k Hk Hupk. destruct (decide (k = i)) as [->|Hne]; [rewrite fn_lookup_insert, He|rewrite fn_lookup_insert_ne by done]; auto.
Qed.

Lemma wpc_cloneReplica i addr w Q :
  i ≠ p → 0 ≤ i < n → up i = true → addr = pod_PodIP (cs_pods w p) ∨ addr = PodHostname cl p →
  (∀ S', reconfigures i (cs_servers w) S' → SuperReadOnly (config (S' i)).1.1 = true → Q (Return ()) (with_servers S' w)) →
  wpc (cloneReplica ss i addr) w Q.
Proof.
  intros Hip Hi Hup Haddr HQ. unfold cloneReplica, kcall. wpw_norm. intros r w1 Hclone.
  assert (∃ S1 j sv, evolve p up (cs_servers w) S1 ∧ serves_clone cl up pwd w (replicaCloneRequest ss addr) j ∧
    cloned (S1 j) sv ∧ r = inr () ∧ w1 = with_servers (<[i := sv]> S1) w) as (S1 & j & sv & Hev & (Hj & Hupj & _) & Hcl & -> & ->).
  { destruct Hclone as [?|[Hno _]]; [done|]. exfalso. apply (Hno p). destruct Hheal. unfold serves_clone. cbn.
    rewrite (a_password _ _ _ _ _ _ _ Hall). done. }
  wpw_norm. intros _ w1 ->. wpw_norm. intros _ w1 ->. wpw_norm. rewrite slot_op by done. cbn [or_panic mjoin option_join wpw].
  apply wpc_waitRestart; [done|]. intros S2 H2. cbn in H2 |- *. apply HQ.
  - etrans; [by eapply clone_reconfigures|by apply evolve_reconfigures].
  - rewrite (evolve_config p up i _ _ H2), fn_lookup_insert. apply Hcl.
Qed.

Lemma wpc_configureReplica i st w Q :
  i ≠ p → index_at (MySQLStatus ss) i = Some (Some st) → status_config st = config (cs_servers w i) →
  (∀ j, 0 ≤ j < n → pod_PodIP (cs_pods w0 j) ≠ "" ∧ same_pod (cs_pods w0 j) (cs_pods w j)) →
  (∀ redo S', reconfigures i (cs_servers w) S' → follows (config (S' i)) → Q (Return redo) (with_servers S' w)) →
  wpc (configureReplica ss i) w Q.
Proof.
  intros Hip Hi Hcfg Hpods HQ. destruct (slot_up _ _ Hi) as (Hr & Hup & Hst).
  unfold configureReplica, status_at. rewrite Hi. wpw_norm. cbn [or_panic mjoin option_join wpw].
  rewrite (shows_errant _ _ _ _ _ _ _ Hst), wpw_bind_outcome.
  assert (wpc (if SuperReadOnly (GlobalVariables_ st) then Ret (Return false) else
            _ <-? db_do ss i KillConnections (ErrWrap (instance i "failed to kill connections in instance")) ;;
            _ <-? db_do ss i (SetReadOnly true) id ;; Ret (Return true)) w
    (λ o w1, ∃ redo S1, o = Return redo ∧ w1 = with_servers S1 w ∧ reconfigures i (cs_servers w) S1 ∧
       SuperReadOnly (config (S1 i)).1.1 = true ∧ (config (S1 i)).1.2 = (config (cs_servers w i)).1.2 ∧
       SemiSyncSlaveEnabled (config (S1 i)).1.1 = SemiSyncSlaveEnabled (config (cs_servers w i)).1.1)) as Hread.
  { destruct (SuperReadOnly (GlobalVariables_ st)) eqn:Hro.
    - exists false, (cs_servers w). split; [done|]. split; [by destruct w|]. rewrite <- Hcfg. by split_and!.
    - wpw_norm. apply wpc_kill; [done|done|]. intros S1 H1. wpw_norm. apply wpc_readonly; [done|done|]. intros S2 H2. cbn.
      exists true, S2. split; [done|]. split; [done|]. cbn in H2.
      pose proof (turns_trans _ _ _ _ _ _ _ _ (evolve_turns p up i _ _ H1) H2) as H. split.
      + eapply turns_reconfigures; [|exact H]. done.
      + destruct H as (_ & Hc & _). specialize (Hc i). rewrite bool_decide_true in Hc by done. split_and!;
          [exact (f_equal (λ c, SuperReadOnly c.1.1) Hc)|exact (f_equal (λ c, c.1.2) Hc)|exact (f_equal (λ c, SemiSyncSlaveEnabled c.1.1) Hc)]. }
  eapply wpw_conseq; [exact Hread|]. clear Hread. intros ? ? (redo & S1 & -> & -> & H1 & Hro & Hl & Hs).
  destruct (_ && bool_decide (ReplicaStatus_ st = None)) eqn:Hclone.
  - apply andb_true_iff in Hclone as [_ Hnone%bool_decide_eq_true].
    pose proof (h_primary Hheal) as Hp. destruct (Hpods p Hp) as (Hip0 & _ & Hip1 & _).
    unfold pod_at. rewrite (a_primary _ _ _ _ _ _ _ Hall), (proj2 (a_pods _ _ _ _ _ _ _ Hall) p Hp). wpw_norm. cbn [or_panic mjoin option_join wpw].
    assert (donorAddr ss (cs_pods w0 p) ≠ "" ∧ (donorAddr ss (cs_pods w0 p) = pod_PodIP (cs_pods w p) ∨ donorAddr ss (cs_pods w0 p) = PodHostname cl p)) as [Hne Haddr].
    { unfold donorAddr. rewrite (a_cluster _ _ _ _ _ _ _ Hall), (a_primary _ _ _ _ _ _ _ Hall), Hip1. destruct (_ =s "0.0.0.0"); [|by eauto].
      split; [|by right]. unfold PodHostname, PodName. done. }
    rewrite (proj2 (string_eqb_false _ _) Hne). unfold kcall. wpw_norm. intros r w1 [-> Hag]. rewrite Hup in Hag. subst r. wpw_norm.
    apply wpc_cloneReplica; [done|done|done|exact Haddr|]. intros S2 H2 Hro2. cbn in H2. wpw_norm.
    apply wpc_startReplica; [done|done|done|by left|]. intros redo' S3 H3 Hf. cbn. intros _ w1 ->. cbn. apply HQ; [|done].
    cbn in H3. etrans; [exact H1|]. by etrans.
  - apply wpc_startReplica; [done|done|done| |].
    + right. change (cs_servers (with_servers S1 w)) with S1. by rewrite Hl, Hs, <- Hcfg.
    + intros redo' S2 H2 Hf. cbn in H2 |- *. apply HQ; [by etrans|done].
Qed.

Lemma wpc_configureReplicas w redo :
  intact cl p up w → (∀ j, 0 ≤ j < n → pod_PodIP (cs_pods w0 j) ≠ "" ∧ same_pod (cs_pods w0 j) (cs_pods w j)) →
  (∀ i st, i ≠ p → index_at (MySQLStatus ss) i = Some (Some st) → status_config st = config (cs_servers w i)) →
  wpc (for_range (indexed (MySQLStatus ss)) redo (configureReplicaStep ss)) w
    (λ o w', ∃ redo' S', o = Return redo' ∧ w' = with_servers S' w ∧ intact cl p up w' ∧ config (S' p) = config (cs_servers w p) ∧
       ∀ i, 0 ≤ i < n → i ≠ p → up i = true → follows (config (S' i))).
Proof.
  intros Hok Hpods Hcfg.
  apply wpw_for_range with (I := λ rest _ w', ∃ seen S', indexed (MySQLStatus ss) = seen ++ rest ∧ w' = with_servers S' w ∧
    intact cl p up w' ∧ config (S' p) = config (cs_servers w p) ∧
    (∀ i st, i ≠ p → (i, Some st) ∈ seen → follows (config (S' i))) ∧
    (∀ i st, i ≠ p → (i, Some st) ∈ rest → status_config st = config (S' i))).
  - exists [], (cs_servers w). split; [done|]. split; [by destruct w|]. split_and!; [done|done| |].
    + intros i st _ Hi. by apply elem_of_nil in Hi.
    + intros i st Hi Hin%elem_of_indexed. by apply Hcfg.
  - intros redo' w' (seen & S' & Heq & -> & Hok' & Hp & Hf & _). rewrite app_nil_r in Heq. subst seen.
    exists redo', S'. split_and!; try done. intros i Hi Hne Hup.
    destruct (proj2 (a_status _ _ _ _ _ _ _ Hall) i Hi) as (ist & Hist & Hq). unfold queried in Hq. rewrite Hup in Hq.
    destruct Hq as (st & -> & _). by eapply Hf, elem_of_indexed.
  - intros [i ist] rest redo' w' (seen & S' & Heq & -> & Hok' & Hp & Hf & Hr). unfold configureReplicaStep. cbn [fst snd].
    rewrite (a_primary _ _ _ _ _ _ _ Hall).
    assert (indexed (MySQLStatus ss) = (seen ++ [(i, ist)]) ++ rest) as Heq' by by rewrite <- app_assoc.
    assert (∀ j st, j ≠ p → (j, Some st) ∈ rest → status_config st = config (S' j)) as Hr' by (intros; apply Hr; set_solver).
    assert (i = p ∨ ist = None → ∃ acc, Return redo' = Return acc ∧ ∃ seen S'', indexed (MySQLStatus ss) = seen ++ rest ∧
      with_servers S' w = with_servers S'' w ∧ intact cl p up (with_servers S' w) ∧ config (S'' p) = config (cs_servers w p) ∧
      (∀ j st, j ≠ p → (j, Some st) ∈ seen → follows (config (S'' j))) ∧
      (∀ j st, j ≠ p → (j, Some st) ∈ rest → status_config st = config (S'' j))) as Hskip.
    { intros Hi. exists redo'. split; [done|]. exists (seen ++ [(i, ist)]), S'. split_and!; try done.
      intros j st Hj [?|?%list_elem_of_singleton]%elem_of_app; [by eapply Hf|]. naive_solver. }
    destruct (i =? p) eqn:Hip; bool_cases; [by apply Hskip; left|]. destruct ist as [st|]; [|by apply Hskip; right].
    assert ((i, Some st) ∈ indexed (MySQLStatus ss)) as Hin%elem_of_indexed by (rewrite Heq; set_solver).
    wpw_norm. apply wpc_configureReplica with (st := st); [done|done| |exact Hpods|].
    { apply Hr; [done|by left]. }
    intros redo2 S2 H2 Hf2. cbn in H2 |- *. eexists. split; [done|]. exists (seen ++ [(i, Some st)]), S2.
    split; [done|]. split; [done|]. split; [by eapply (intact_servers i (with_servers S' w))|].
    split; [by rewrite (rc_others _ _ _ H2)|]. pose proof (NoDup_indexed_fst (MySQLStatus ss)) as Hnd. rewrite Heq', !fmap_app in Hnd.
    apply NoDup_app in Hnd as (Hnd & Hdis & _). cbn in Hnd, Hdis. apply list.NoDup_app in Hnd as (_ & Hdis' & _). split.
    + intros j st' Hj [Hin'| ?%list_elem_of_singleton]%elem_of_app; [|by simplify_eq]. rewrite (rc_others _ _ _ H2); [by eapply Hf|].
      intros ->. apply (Hdis' i); [|by left]. apply list_elem_of_fmap. by exists (i, Some st').
    + intros j st' Hj Hin'. rewrite (rc_others _ _ _ H2); [by apply Hr'|].
      intros ->. apply (Hdis i); [set_solver|]. apply list_elem_of_fmap. by exists (i, Some st').
Qed.

(** ** The primary *)

(** A configuration that waits for half of the replicas. *)
Definition waits_for_half (c : cfg) : Prop :=
  n ≠ 1 → SemiSyncMasterEnabled c.1.1 = true ∧ WaitForSlaveCount c.1.1 = n / 2.

Lemma wpc_enableSemiSync pst redo w (Q : outcome bool → cluster_state → Prop) :
  SemiSyncMasterEnabled (GlobalVariables_ pst) = SemiSyncMasterEnabled (config (cs_servers w p)).1.1 →
  WaitForSlaveCount (GlobalVariables_ pst) = WaitForSlaveCount (config (cs_servers w p)).1.1 →
  (∀ redo' S', reconfigures p (cs_servers w) S' → waits_for_half (config (S' p)) →
     ReadOnly (config (S' p)).1.1 = ReadOnly (config (cs_servers w p)).1.1 → Q (Return redo') (with_servers S' w)) →
  wpc (enableSemiSync ss pst redo) w Q.
Proof.
  intros Hm Hc HQ. pose proof Hheal as []. unfold enableSemiSync. rewrite (a_cluster _ _ _ _ _ _ _ Hall), (a_primary _ _ _ _ _ _ _ Hall).
  change (Replicas (Spec (cluster_of cl w0))) with n. rewrite Z.quot_div_nonneg by lia.
  assert (∀ redo', waits_for_half (config (cs_servers w p)) → Q (Return redo') w) as Hsame.
  { intros redo' Hw. specialize (HQ redo' (cs_servers w)). destruct w. by apply HQ. }
  destruct (n =? 1) eqn:H1; bool_cases; [by apply Hsame; intros ?|].
  destruct (_ || _) eqn:Hset; cbn [wpw].
  - wpw_norm. apply wpc_primary; [done|done|]. intros S1 H. cbn. pose proof H as (_ & Hcp & _). specialize (Hcp p).
    rewrite bool_decide_true in Hcp by done. apply HQ.
    + eapply turns_reconfigures; [|exact H]. done.
    + intros _. rewrite Hcp. done.
    + by rewrite Hcp.
  - apply orb_false_iff in Hset as [Hs1 Hs2]. bool_cases. apply Hsame. intros _. rewrite <- Hm, <- Hc. split; [|done]. by destruct (SemiSyncMasterEnabled _).
Qed.

Lemma wpc_configurePrimary pst w (Q : outcome bool → cluster_state → Prop) :
  index_at (MySQLStatus ss) p = Some (Some pst) → status_config pst = config (cs_servers w p) → within p up (cs_servers w) →
  (∀ rs, ReplicaStatus_ pst = Some rs → included (RetrievedGtidSet rs) (executed (cs_servers w p))) →
  (∀ redo' S', reconfigures p (cs_servers w) S' → waits_for_half (config (S' p)) →
     ReadOnly (config (S' p)).1.1 = ReadOnly (config (cs_servers w p)).1.1 → Q (Return redo') (with_servers S' w)) →
  wpc (configurePrimary ss) w Q.
Proof.
  intros Hpst Hcfg HW Hret HQ. pose proof Hheal as []. unfold configurePrimary, status_at. rewrite (a_primary _ _ _ _ _ _ _ Hall), Hpst.
  wpw_norm. cbn [or_panic mjoin option_join wpw]. rewrite wpw_bind_outcome.
  assert (wpc (match ReplicaStatus_ pst with None => Ret (Return false) | Some rs => drainRetrieved ss rs end) w
    (λ o w', ∃ redo S', o = Return redo ∧ w' = with_servers S' w ∧ reconfigures p (cs_servers w) S' ∧ (config (S' p)).1.1 = (config (cs_servers w p)).1.1)) as Hdrain.
  { destruct (ReplicaStatus_ pst) as [rs|] eqn:Hrs; [|exists false, (cs_servers w); split; [done|]; split; [by destruct w|by split]].
    unfold drainRetrieved. rewrite (a_primary _ _ _ _ _ _ _ Hall), wpw_bind_outcome.
    assert (wpc (if ReplicaIORunning rs =s "Yes" then _ <-? db_do ss p StopReplicaIOThread id ;; _ <-- kcall (Sleep 100) ;; Ret (Return true)
                 else Ret (Return false)) w
      (λ o w', ∃ redo S', o = Return redo ∧ w' = with_servers S' w ∧ reconfigures p (cs_servers w) S' ∧ (config (S' p)).1.1 = (config (cs_servers w p)).1.1)) as Hstop.
    { destruct (_ =s "Yes"); [|exists false, (cs_servers w); split; [done|]; split; [by destruct w|by split]].
      wpw_norm. apply wpc_stopIO; [done|done|]. intros S1 H. unfold kcall. wpw_norm. intros _ w1 ->. exists true, S1. split_and!; [done..| |].
      - eapply turns_reconfigures; [|exact H]. done.
      - destruct H as (_ & Hc & _). specialize (Hc p). rewrite bool_decide_true in Hc by done. by rewrite Hc. }
    eapply wpw_conseq; [exact Hstop|]. intros ? ? (redo & S1 & -> & -> & H1 & Hc1).
    destruct (RetrievedGtidSet rs <>s ""); [|by exists redo, S1]. wpw_norm.
    apply wpc_wait; [done|done|by apply H1| |by left|].
    - etrans; [by apply Hret|]. apply H1.
    - intros S2 H2 _. cbn in H2 |- *. exists true, S2. split_and!; [done..| |].
      + etrans; [exact H1|]. by apply evolve_reconfigures.
      + exact (eq_trans (f_equal (λ c, c.1.1) (evolve_config p up p _ _ H2)) Hc1). }
  eapply wpw_conseq; [exact Hdrain|]. intros ? ? (redo & S1 & -> & -> & H1 & Hc1).
  apply wpc_enableSemiSync.
  - change (cs_servers (with_servers S1 w)) with S1. rewrite Hc1, <- Hcfg. done.
  - change (cs_servers (with_servers S1 w)) with S1. rewrite Hc1, <- Hcfg. done.
  - change (cs_servers (with_servers S1 w)) with S1. intros redo' S2 H2 Hw Hro. apply HQ; [by etrans|done|by rewrite Hro, Hc1].
Qed.

Lemma wpc_makeWritable pst redo w (Q : outcome bool → cluster_state → Prop) :
  index_at (MySQLStatus ss) p = Some (Some pst) → ReadOnly (GlobalVariables_ pst) = ReadOnly (config (cs_servers w p)).1.1 →
  waits_for_half (config (cs_servers w p)) →
  (∀ redo' S', reconfigures p (cs_servers w) S' → waits_for_half (config (S' p)) → ReadOnly (config (S' p)).1.1 = false →
     Q (Return redo') (with_servers S' w)) →
  wpc (makeWritable ss redo) w Q.
Proof.
  intros Hpst Hro Hw HQ. pose proof Hheal as []. unfold makeWritable, status_at.
  rewrite (a_cluster _ _ _ _ _ _ _ Hall), (a_primary _ _ _ _ _ _ _ Hall), Hpst.
  change (ReplicationSourceSecretName (Spec (cluster_of cl w0))) with (ReplicationSourceSecretName (Spec cl)). rewrite h_source.
  wpw_norm. cbn [or_panic mjoin option_join wpw]. destruct (ReadOnly (GlobalVariables_ pst)) eqn:E.
  - wpw_norm. apply wpc_writable; [done|done|]. intros S1 H. unfold kcall. wpw_norm. intros _ w1 ->.
    pose proof H as (_ & Hc & _). specialize (Hc p). rewrite bool_decide_true in Hc by done. cbn [wpw]. apply HQ.
    + eapply turns_reconfigures; [|exact H]. done.
    + intros Hn. rewrite Hc. by apply Hw.
    + by rewrite Hc.
  - specialize (HQ redo (cs_servers w)). destruct w. by apply HQ.
Qed.

(** ** The whole configuration *)

Definition configured (S : servers) : Prop :=
  (∀ i, 0 ≤ i < n → i ≠ p → up i = true → follows (config (S i))) ∧
  waits_for_half (config (S p)) ∧ ReadOnly (config (S p)).1.1 = false.

(** [w'] came from [w] by configuring servers and labelling Pods. *)
Definition reached (w w' : cluster_state) : Prop :=
  cs_status w' = cs_status w ∧ ∀ i, same_pod (cs_pods w i) (cs_pods w' i).

#[export] Instance reached_preorder : PreOrder reached.
Proof.
  split; [by split|]. intros w w1 w2 [H1 P1] [H2 P2]. split; [congruence|].
  intros i. destruct (P1 i) as (?&?&?&?), (P2 i) as (?&?&?&?). split_and!; congruence.
Qed.

Lemma reached_servers w S : reached w (with_servers S w).
Proof. by split. Qed.
Lemma reached_relabels w w' : relabels w w' → reached w w'.
Proof. intros [-> H]. by split. Qed.

Lemma wpc_killAll w alive :
  (∀ i, i ∈ alive → 0 ≤ i < n ∧ up i = true) →
  wpc (for_range alive () (λ _ i, db_do ss i KillConnections (ErrWrap (instance i "failed to kill connections in instance")))) w
    (λ o w', o = Return () ∧ ∃ S', w' = with_servers S' w ∧ evolve p up (cs_servers w) S').
Proof.
  intros Halive. apply wpw_for_range with (I := λ rest _ w', rest ⊆ alive ∧ ∃ S', w' = with_servers S' w ∧ evolve p up (cs_servers w) S').
  - split; [done|]. exists (cs_servers w). by destruct w.
  - by intros [] w' (_ & H).
  - intros i rest [] w' (Hin & S' & -> & Hev). destruct (Halive i ltac:(set_solver)) as [Hi Hup].
    apply wpc_kill; [done|done|]. intros S2 H2. cbn in H2. exists (). split; [done|]. split; [set_solver|]. exists S2. split; [done|]. by etrans.
Qed.

Lemma wpc_configure w :
  within p up S0 → intact cl p up w → cs_servers w = cs_servers w0 →
  (∀ j, 0 ≤ j < n → pod_PodIP (cs_pods w0 j) ≠ "" ∧ same_pod (cs_pods w0 j) (cs_pods w j)) →
  wpc (configure ss) w
    (λ o w', (∃ redo, o = Return redo) ∧ intact cl p up w' ∧ reached w w' ∧ configured (cs_servers w')).
Proof.
  intros HW0 Hok Hsv Hpods. destruct slot_primary as (pst & Hpst & Hshow).
  pose proof (a_primary _ _ _ _ _ _ _ Hall) as Hprim. rewrite Hprim in Hpst.
  assert (∀ i st, index_at (MySQLStatus ss) i = Some (Some st) → status_config st = config (cs_servers w i)) as Hcfg.
  { intros i st Hi. rewrite Hsv. by eapply shows_config, slot_up. }
  unfold configure. rewrite wpw_bind_outcome. eapply wpw_conseq; [apply wpc_removeRoleLabel|].
  intros ? w1 [Hrel1 (noRoles & -> & Hno)]. wpw_norm. destruct (aliveOf_up noRoles Hno) as (alive & -> & Halive). cbn [or_panic wpw].
  wpw_norm. eapply wpw_conseq with (Q := λ _ w', w' = w1); [destruct (0 <? go_len alive); [by intros [] w' ->|done]|]. intros [] ? ->.
  wpw_norm. eapply wpw_conseq; [by apply wpc_killAll|]. intros ? ? (-> & S2 & -> & H2).
  destruct Hrel1 as [Hw1 Hp1]. pose proof (intact_relabels _ _ Hok (conj Hw1 Hp1)) as Hok1.
  assert (cs_servers w1 = cs_servers w) as Hsv1 by by rewrite Hw1. rewrite Hsv1 in H2.
  assert (intact cl p up (with_servers S2 w1)) as Hok2.
  { apply (intact_servers p); [done|]. rewrite Hsv1. by apply evolve_reconfigures. }
  assert (∀ i st, index_at (MySQLStatus ss) i = Some (Some st) → status_config st = config (S2 i)) as Hcfg2.
  { intros i st Hi. rewrite (evolve_config p up i _ _ H2). by apply Hcfg. }
  rewrite (a_cluster _ _ _ _ _ _ _ Hall). change (ReplicationSourceSecretName (Spec (cluster_of cl w0))) with (ReplicationSourceSecretName (Spec cl)).
  rewrite (h_source Hheal), wpw_bind_outcome. eapply wpc_configurePrimary; [exact Hpst|by apply Hcfg2|by apply Hok2| |].
  { intros rs Hrs. transitivity (executed (cs_servers w0 p)); [by eapply (shows_retrieved _ _ _ _ _ _ _ Hshow)|].
    rewrite <- Hsv. by apply (evolve_executed p up). }
  intros redo S3 H3 Hw3 Hro3. cbn in H3, Hro3. rewrite wpw_bind_outcome.
  change (with_servers S3 (with_servers S2 w1)) with (with_servers S3 w1).
  assert (intact cl p up (with_servers S3 w1)) as Hok3 by by apply (intact_servers p (with_servers S2 w1)).
  eapply wpw_conseq; [apply wpc_configureReplicas; [done| |]|].
  - intros j Hj. destruct (Hpods j Hj) as [? Hs]. split; [done|]. cbn. destruct Hs as (?&?&?&?), (Hp1 j) as (?&?&?&?). split_and!; congruence.
  - intros i st Hi Hst. cbn. rewrite (rc_others _ _ _ H3) by done. by apply Hcfg2.
  - intros ? ? (redo4 & S4 & -> & -> & Hok4 & Hp4 & Hf4). cbn in Hp4. wpw_norm.
    eapply wpw_conseq; [apply wpc_addRoleLabel; intros i Hi; by apply Halive|]. intros ? w5 [[Hw5 Hp5] ->].
    pose proof (intact_relabels _ _ Hok4 (conj Hw5 Hp5)) as Hok5. assert (cs_servers w5 = S4) as Hsv5 by by rewrite Hw5.
    apply wpc_makeWritable with (pst := pst); [exact Hpst| | |].
    + rewrite Hsv5, Hp4. etrans; [|symmetry; exact Hro3]. exact (f_equal (λ c, ReadOnly c.1.1) (Hcfg2 _ _ Hpst)).
    + by rewrite Hsv5, Hp4.
    + intros redo6 S6 H6 Hw6 Hro6. rewrite Hsv5 in H6. split; [by eexists|]. split; [apply (intact_servers p); [done|by rewrite Hsv5]|]. split.
      * etrans; [by apply (reached_relabels w w1)|]. etrans; [apply (reached_servers w1 S4)|].
        etrans; [by apply (reached_relabels (with_servers S4 w1) w5)|]. apply reached_servers.
      * split; [|done]. intros i Hi Hne Hup. cbn. rewrite (rc_others _ _ _ H6) by done. by apply Hf4.
Qed.
End round.
End heal.
