(* ===== verification/HealSpec.v ===== *)
(** * A round heals a cluster

    In the world of ClusterWorld.v a round of a manager process whose cluster is
    Healthy, Degraded or Incomplete, however its servers are configured, leaves
    servers that the next round finds Healthy, or Degraded when some instances are
    down. *)

From S2P Require Import Prelude Prog Worlds GoLib Constants Api K8s Password Dbop Gtid Event Cluster Samples Status StatusSpec Servers.
From S2P Require Import Gather GatherSpec Operations OpsSpec Process ProcessSpec ClusterWorld GatherWorld ConfigureWorld.
#[local] Open Scope Z_scope.

Lemma select_fmap {A B} (g : A → B) (f : B → bool) l : go_len (select f (g <$> l)) = go_len (select (λ x, f (g x)) l).
Proof.
  induction l as [|x l IH]; [done|]. rewrite fmap_cons, !select_cons. destruct (f (g x)); [by rewrite !go_len_cons, IH|done].
Qed.

Lemma go_len_perm {A} (l k : list A) : l ≡ₚ k → go_len l = go_len k.
Proof. intros H. unfold go_len. by rewrite H. Qed.

Lemma go_len_same_elements (l k : list Z) : NoDup l → NoDup k → (∀ x, x ∈ l ↔ x ∈ k) → go_len l = go_len k.
Proof. intros H1 H2 H. by apply go_len_perm, NoDup_Permutation. Qed.

Lemma NoDup_select {A} (f : A → bool) (l : list A) : NoDup l → NoDup (select f l).
Proof. intros H. eapply sublist_NoDup; [done|apply select_sublist]. Qed.

(** All of the indices but one are selected when there are so many. *)
Lemma select_others (f : Z → bool) m p i :
  0 ≤ p < m → f p = false → m - 1 ≤ go_len (select f (upto m)) → 0 ≤ i < m → i ≠ p → f i = true.
Proof.
  intros Hp Hfp Hlen Hi Hne. destruct (f i) eqn:E; [done|]. exfalso.
  assert (p :: i :: select f (upto m) ⊆+ upto m) as Hsub.
  { apply NoDup_submseteq.
    - apply NoDup_cons. split; [|apply NoDup_cons; split; [|apply NoDup_select, NoDup_upto]].
      + intros [->|[Hs _]%elem_of_select]%elem_of_cons; congruence.
      + intros [Hs _]%elem_of_select. congruence.
    - intros x [->|[->|[_ Hx]%elem_of_select]%elem_of_cons]%elem_of_cons; [by apply elem_of_upto..|done]. }
  apply submseteq_length in Hsub. cbn in Hsub. rewrite length_upto in Hsub. unfold go_len in Hlen. lia.
Qed.

(** ** Publishing the status *)

Section publish.
Context {GS : GtidSets} {RC : ConflictRetry clusterSig} {AM : ApiMachinery}.
Context (cl : MySQLCluster) (p : Z) (up : Z → bool) (version : string) (secret : Secret) (pwd : MySQLPassword).

#[local] Abbreviation wpc := (wpw (cluster_world cl p up version secret pwd)).

Lemma wpc_closeOps ops w : wpc (closeOps ops) w (λ _ w', drifts p up w w').
Proof.
  revert w. induction ops as [|[[i|o]|] ops IH]; intros w; cbn [closeOps]; [cbn; reflexivity|..|apply IH].
  - cbn. intros r w1 (S' & HS & ->). apply OpClose_evolves in HS. eapply wpw_conseq; [apply IH|]. intros [] w' Hd.
    etrans; [by apply drifts_servers|done].
  - cbn. apply IH.
Qed.

Context {live : bool}.
Hypothesis Hheal : served cl p up version secret pwd live.
Context (S0 : servers) (w0 : cluster_state) (ss : StatusSet).
Hypothesis Hall : shows_all cl p up pwd S0 w0 ss.
Hypothesis Hok0 : intact cl p up w0.

Lemma wpc_metric m v w (Q : unit → cluster_state → Prop) : Q () w → wpc (kcall (MetricSet m v)) w Q.
Proof. intros HQ [] w' ->. exact HQ. Qed.

Lemma wpc_backupMetrics bs w : wpc (backupMetrics bs) w (λ _ w', w' = w).
Proof. unfold backupMetrics. destruct (bk_Time bs); [|done]. by repeat (rewrite wpw_bind; apply wpc_metric); apply wpc_metric. Qed.

Lemma wpc_updateStatus :
  wpc (updateStatus ss) w0 (λ r w', r = inr () ∧ ∃ st, w' = with_status st w0 ∧ intact cl p up w').
Proof.
  unfold updateStatus. rewrite wpw_bind. eapply wpw_conseq; [apply wpc_backupMetrics|]. intros _ ? ->.
  apply wpw_RetryOnConflict with (I := λ w, w = w0); [done|]. intros w ->. unfold updateStatusFn, kcall. wpw_norm.
  intros r w1 [-> ->]. cbn [wpw bind]. destruct (stateConditions (State ss)) as [[ini ava] hea]. cbn [wpw bind perform].
  do 5 (intros [] w1 ->). cbn [wpw].
  destruct (Semantic_DeepEqual _ _); cbn [wpw].
  - split; [|done]. split; [done|]. exists (cs_status w0). destruct w0. by split.
  - intros r w1 [-> ->]. split; [|done]. split; [done|]. eexists. split; [done|]. destruct Hok0. unfold newStatus.
    destruct (stateConditions (State ss)) as [[ini' ava'] hea']. constructor; cbn; try done. apply Hall.
Qed.

Lemma wpc_annotate w :
  wpc (if PreventPodDeletion ss then addAnnPreventDelete ss else removeAnnPreventDelete ss) w (λ o w', relabels w w' ∧ o = Return ()).
Proof.
  pose proof (a_pods _ _ _ _ _ _ _ Hall) as [Hlen Hat]. pose proof Hheal as [].
  assert (AnnPreventDelete ≠ AnnDemote) as Hne by done. destruct (PreventPodDeletion ss).
  - unfold addAnnPreventDelete, pod_at. rewrite (a_primary _ _ _ _ _ _ _ Hall), Hat by done. wpw_norm. cbn [or_panic mjoin option_join wpw].
    destruct (_ !! AnnPreventDelete); [done|]. wpw_norm. apply wpc_patch; [cbn; by rewrite lookup_insert_ne|done].
  - apply wpw_for_range with (I := λ rest _ w', (∀ o, o ∈ rest → is_Some o) ∧ relabels w w').
    + split; [|done]. intros o (i & Hi)%list_elem_of_lookup.
      assert (index_at (Pods ss) (Z.of_nat i) = Some o) as Hio by (apply index_at_Some; rewrite Nat2Z.id; split; [lia|done]).
      rewrite Hat in Hio; [|rewrite <- Hlen; apply index_at_lt; eauto]. injection Hio as <-. eauto.
    + by intros [] w' [_ H].
    + intros opod rest [] w' [Hsome Hrel]. destruct (Hsome opod) as [pod ->]; [by left|]. cbn [or_panic]. wpw_norm.
      assert (∀ o, o ∈ rest → is_Some o) as Hrest by (intros; apply Hsome; by right).
      destruct (_ !! AnnPreventDelete); [|by exists ()]. wpw_norm. apply wpc_patch; [cbn; by rewrite lookup_delete_ne|].
      intros w2 H2. cbn. exists (). split; [done|]. split; [done|]. by etrans.
Qed.

Lemma online_not_initial : ¬ (doc_offline ss ∨ doc_cloning ss ∨ doc_restoring ss).
Proof.
  destruct Hheal. unfold doc_offline, doc_cloning, doc_restoring. rewrite (a_cluster _ _ _ _ _ _ _ Hall). cbn.
  rewrite h_online, h_source. pose proof (i_restored _ _ _ _ Hok0) as Hr. intros [?|[[[? ?] _]|[Hrs Hn]]]; [done..|].
  destruct Hr as [Hr|[t Ht]]; [rewrite Hr in Hrs; by destruct Hrs|congruence].
Qed.
End publish.

Section heal.
Context {GS : GtidSets}.
Context (cl : MySQLCluster) (p : Z) (up : Z → bool) (version : string) (secret : Secret) (pwd : MySQLPassword).
Hypothesis Hheal : healable cl p up version secret pwd.

#[local] Abbreviation wpc := (wpw (cluster_world cl p up version secret pwd)).
#[local] Abbreviation n := (Replicas (Spec cl)).

(** The replicas that are up. *)
Definition alive : list Z := select (λ i, up i && negb (i =? p)) (upto n).

Lemma elem_of_alive i : i ∈ alive ↔ 0 ≤ i < n ∧ up i = true ∧ i ≠ p.
Proof. unfold alive. rewrite elem_of_select, elem_of_upto, andb_true_iff, negb_true_iff, Z.eqb_neq. tauto. Qed.

Lemma NoDup_alive : NoDup alive.
Proof. apply NoDup_select, NoDup_upto. Qed.

(** The configuration that a Healthy or Degraded state shows. *)
Definition settled (S : servers) : Prop :=
  (∀ i, i ∈ alive → SuperReadOnly (config (S i)).1.1 = true ∧ ∃ sql, (config (S i)).1.2 = Some (PodHostname cl p, "Yes", sql)) ∧
  ReadOnly (config (S p)).1.1 = false.

Lemma configured_settled S : configured cl p up S → settled S.
Proof. intros (Hf & _ & Hro). split; [|done]. intros i (Hi & Hup & Hne)%elem_of_alive. by destruct (Hf i Hi Hne Hup) as (? & _ & ?). Qed.

Lemma settled_config S S' : (∀ i, config (S' i) = config (S i)) → settled S → settled S'.
Proof. intros Heq [H1 H2]. split; [|by rewrite Heq]. intros i Hi. rewrite Heq. auto. Qed.

(** ** Counting connections *)

Lemma replicas_counted S (st : MySQLInstanceStatus) st' :
  shows cl p up S st' p st →
  replicasInCluster cl (ReplicaHosts st) = go_len (select (connected_to cl up st' p) (upto n)).
Proof.
  intros Hst. destruct Hheal. unfold replicasInCluster.
  rewrite replicasInCluster_foldl; [|unfold int32_range; lia..|pose proof (shows_length _ _ _ _ _ _ _ Hst); lia].
  rewrite Z.add_0_l. pose proof (shows_hosts _ _ _ _ _ _ _ Hst) as Hperm. unfold replicas_shown in Hperm.
  apply go_len_perm in Hperm. rewrite go_len_fmap, select_fmap in Hperm. exact Hperm.
Qed.

Lemma settled_connected S : settled S → go_len (select (connected_to cl up S p) (upto n)) = go_len alive.
Proof.
  intros [Hs _]. apply go_len_same_elements; [apply NoDup_select, NoDup_upto|apply NoDup_alive|].
  intros i. rewrite elem_of_select, elem_of_upto, elem_of_alive. split.
  - intros [Hc Hi]. unfold connected_to in Hc. repeat (apply andb_true_iff in Hc as [Hc ?]). bool_cases. done.
  - intros (Hi & Hup & Hne). split; [|done]. destruct (Hs i) as (_ & sql & Hl); [by apply elem_of_alive|]. cbn in Hl.
    unfold connected_to. rewrite Hl, Hup. cbn. rewrite (proj2 (string_eqb_true _ _) eq_refl).
    rewrite (proj2 (Z.leb_le 0 i)), (proj2 (Z.ltb_lt i n)), (proj2 (Z.eqb_neq i p)) by (lia || done). done.
Qed.

(** ** What the next round finds *)

Section found.
Context (S0 : servers) (w : cluster_state) (ss : StatusSet).
Hypothesis Hnow : gathered_now cl p up pwd S0 w ss.
Hypothesis Hok : intact cl p up w.

#[local] Abbreviation Hall := (n_shows cl p up pwd S0 w ss Hnow).

Lemma found_status i st : index_at (MySQLStatus ss) i = Some (Some st) → 0 ≤ i < n ∧ up i = true ∧ status_config st = config (cs_servers w i).
Proof.
  intros Hi. destruct (slot_up cl p up pwd S0 w ss Hnow i st Hi) as (Hr & Hup & Hst). split_and!; [apply Hr..|done|].
  by eapply (shows_config cl p up).
Qed.

Lemma found_primary : ∃ pst, primary_status ss = Some pst ∧ status_config pst = config (cs_servers w p) ∧
  connected ss pst = go_len (select (connected_to cl up (cs_servers w) p) (upto n)).
Proof.
  destruct (slot_primary cl p up version secret pwd Hheal S0 w ss Hnow) as (pst & Hp & Hst). exists pst. unfold primary_status, connected.
  rewrite Hp. split; [done|]. split; [by eapply (shows_config cl p up)|]. rewrite (a_cluster _ _ _ _ _ _ _ Hall).
  exact (replicas_counted S0 pst (cs_servers w) Hst).
Qed.

Lemma found_ready i : 0 ≤ i < n → up i = true → ready_at ss i = true.
Proof.
  intros Hi Hup. unfold ready_at. rewrite (proj2 (a_pods _ _ _ _ _ _ _ Hall) i Hi). by apply Hok.
Qed.

Lemma not_initial : ¬ (doc_offline ss ∨ doc_cloning ss ∨ doc_restoring ss).
Proof. exact (online_not_initial cl p up version secret pwd Hheal S0 w ss Hall Hok). Qed.

Lemma not_lost : ¬ primary_lost_data ss.
Proof.
  intros [Hg (i & st & Hi & Hst & Hne)]. apply Hne. rewrite (a_primary _ _ _ _ _ _ _ Hall) in Hi.
  destruct (found_status i st Hst) as (Hr & _). by eapply (covers_data cl p), Hg; [apply Hnow|..].
Qed.

Lemma not_gone : ¬ primary_gone ss.
Proof. destruct found_primary as (pst & Hp & _). intros [?|?]; [congruence|by apply not_lost]. Qed.

(** A status that shows a replica of [p] is synced. *)
Lemma found_synced i st :
  index_at (MySQLStatus ss) i = Some (Some st) → SuperReadOnly (config (cs_servers w i)).1.1 = true →
  (∃ io sql, (config (cs_servers w i)).1.2 = Some (PodHostname cl p, io, sql)) → synced ss st = true.
Proof.
  intros Hi Hro (io & sql & Hl). destruct (found_status i st Hi) as (_ & _ & Hcfg). rewrite <- Hcfg in Hro, Hl. unfold synced.
  destruct (slot_up cl p up pwd S0 w ss Hnow i st Hi) as (_ & _ & Hst). rewrite (shows_errant _ _ _ _ _ _ _ Hst).
  rewrite (a_cluster _ _ _ _ _ _ _ Hall), (a_primary _ _ _ _ _ _ _ Hall). change (PodHostname (cluster_of cl w) p) with (PodHostname cl p).
  unfold status_config in Hro, Hl. cbn in Hro, Hl. rewrite Hro. destruct (ReplicaStatus_ st) as [rs|]; [|done]. cbn in Hl. injection Hl as -> _ _.
  by rewrite (proj2 (string_eqb_true _ _) eq_refl).
Qed.

Lemma found_writable pst :
  status_config pst = config (cs_servers w p) → ReadOnly (config (cs_servers w p)).1.1 = false → primaryModeOk ss pst = true.
Proof.
  intros Hc Hro. destruct Hheal. unfold primaryModeOk. rewrite (a_cluster _ _ _ _ _ _ _ Hall). cbn. rewrite h_source.
  rewrite <- Hc in Hro. cbn in Hro. by rewrite Hro.
Qed.

Lemma settled_modes pst : settled (cs_servers w) → primary_status ss = Some pst → primaryModeOk ss pst = true ∧ connected ss pst = go_len alive.
Proof.
  intros Hs Hp. destruct found_primary as (pst' & Hp' & Hc & Hn). rewrite Hp in Hp'. injection Hp' as <-.
  split; [by apply found_writable, Hs|]. by rewrite Hn, settled_connected.
Qed.

Lemma settled_replica i :
  settled (cs_servers w) → i ∈ alive → ∃ st, index_at (MySQLStatus ss) i = Some (Some st) ∧ synced ss st = true ∧ ready_at ss i = true.
Proof.
  intros [Hs _] Hi. destruct (Hs i Hi) as (Hro & sql & Hl). apply elem_of_alive in Hi as (Hr & Hup & Hne).
  destruct (proj2 (a_status _ _ _ _ _ _ _ Hall) i Hr) as (ist & Hist & Hq). unfold queried in Hq. rewrite Hup in Hq. destruct Hq as (st & -> & _).
  exists st. split; [done|]. split; [|by apply found_ready]. eapply found_synced; eauto.
Qed.

Lemma all_up i : n - 1 ≤ go_len alive → 0 ≤ i < n → i ≠ p → i ∈ alive.
Proof.
  intros Hlen Hi Hne. destruct Hheal. apply elem_of_alive. split; [done|]. split; [|done].
  assert (up i && negb (i =? p) = true) as H; [|by apply andb_true_iff in H as [? _]].
  apply (select_others (λ i, up i && negb (i =? p)) n p); [done| |exact Hlen|done|done]. by rewrite Z.eqb_refl, andb_false_r.
Qed.

Lemma settled_healthy : settled (cs_servers w) → go_len alive = n - 1 → State ss = StateHealthy.
Proof.
  intros Hs Hlen. pose proof Hheal as []. apply (state_spec_unique ss); [apply Hnow|]. split; [apply not_initial|].
  unfold doc_healthy. rewrite (a_cluster _ _ _ _ _ _ _ Hall), (a_primary _ _ _ _ _ _ _ Hall).
  change (Replicas (Spec (cluster_of cl w))) with n. split_and!.
  - intros i Hi. destruct (decide (i = p)) as [->|Hne]; [by apply found_ready|].
    apply found_ready; [done|]. by apply (all_up i ltac:(lia) Hi), elem_of_alive in Hne as (_ & ? & _).
  - intros i Hi Hne. destruct (settled_replica i Hs) as (st & ? & ? & _); [apply all_up; [lia|done..]|]. eauto.
  - destruct found_primary as (pst & Hp & _). exists pst. destruct (settled_modes pst Hs Hp) as [? ->]. done.
Qed.

(** The replicas a round can switch to are those that are up. *)
Lemma settled_synced i : settled (cs_servers w) → i ∈ replicas_with ss (ready_synced ss) ↔ i ∈ alive.
Proof.
  intros Hs. rewrite elem_of_replicas_with, (a_primary _ _ _ _ _ _ _ Hall). split.
  - intros (Hi & st & Hst & _). apply elem_of_alive. by destruct (found_status i st Hst) as (? & ? & _).
  - intros Hi. destruct (settled_replica i Hs Hi) as (st & Hst & Hsy & Hr). apply elem_of_alive in Hi as (_ & _ & Hi). split; [done|].
    exists st. split; [done|]. unfold ready_synced. by rewrite Hr.
Qed.

Lemma settled_degraded : settled (cs_servers w) → n / 2 ≤ go_len alive → go_len alive ≠ n - 1 → State ss = StateDegraded.
Proof.
  intros Hs Hhalf Hne. pose proof Hheal as []. destruct found_primary as (pst & Hp & _). destruct (settled_modes pst Hs Hp) as [Hmode Hconn].
  assert (go_len (replicas_with ss (ready_synced ss)) = go_len alive) as Hcount.
  { apply go_len_same_elements; [apply NoDup_replicas_with|apply NoDup_alive|]. intros i. by apply settled_synced. }
  assert (StatusSpec.half ss = n / 2) as Hh by by unfold StatusSpec.half; rewrite (a_cluster _ _ _ _ _ _ _ Hall).
  apply (state_spec_unique ss); [apply Hnow|]. split; [apply not_initial|]. split.
  - unfold doc_healthy. intros (_ & _ & pst' & Hp' & _ & Hc). rewrite Hp in Hp'. injection Hp' as <-. rewrite Hconn in Hc.
    rewrite (a_cluster _ _ _ _ _ _ _ Hall) in Hc. done.
  - unfold doc_degraded. rewrite (a_primary _ _ _ _ _ _ _ Hall), Hcount, Hh, (a_cluster _ _ _ _ _ _ _ Hall).
    change (Replicas (Spec (cluster_of cl w))) with n. split_and!; [by apply found_ready|apply not_lost| |done|done].
    exists pst. by rewrite Hconn.
Qed.

Lemma settled_state :
  settled (cs_servers w) → n / 2 ≤ go_len alive → State ss = if go_len alive =? n - 1 then StateHealthy else StateDegraded.
Proof. intros Hs Hhalf. destruct (_ =? _) eqn:E; bool_cases; [by apply settled_healthy|by apply settled_degraded]. Qed.

(** A Healthy state comes from settled servers. *)
Lemma healthy_settled : doc_healthy ss → settled (cs_servers w).
Proof.
  intros (Hready & Hrep & pst & Hp & Hmode & Hconn). destruct found_primary as (pst' & Hp' & Hc & Hn). rewrite Hp in Hp'. injection Hp' as <-.
  rewrite (a_cluster _ _ _ _ _ _ _ Hall) in Hrep, Hconn. rewrite (a_primary _ _ _ _ _ _ _ Hall) in Hrep. pose proof Hheal as []. split.
  - intros i (Hi & Hup & Hne)%elem_of_alive. destruct (Hrep i Hi Hne) as (st & Hst & Hsy). destruct (found_status i st Hst) as (_ & _ & Hcfg).
    assert (connected_to cl up (cs_servers w) p i = true) as Hcon.
    { apply (select_others _ n p); [done| | |done|done].
      - unfold connected_to. by rewrite Z.eqb_refl, andb_false_r.
      - rewrite <- Hn, Hconn. reflexivity. }
    unfold connected_to in Hcon. apply andb_true_iff in Hcon as [_ Hcon]. rewrite <- Hcfg. unfold synced in Hsy.
    apply andb_true_iff in Hsy as [[Hro _]%andb_true_iff _]. split; [exact Hro|]. rewrite Hcfg. cbn.
    destruct (link (cs_servers w i)) as [[[h io] sql]|]; [|done]. apply andb_true_iff in Hcon as [Hh%string_eqb_true Hio%string_eqb_true].
    exists sql. by rewrite Hh, Hio.
  - rewrite <- Hc. unfold primaryModeOk in Hmode. rewrite (a_cluster _ _ _ _ _ _ _ Hall) in Hmode. cbn in Hmode. rewrite h_source in Hmode.
    by apply negb_true_iff in Hmode.
Qed.

Lemma found_state : State ss = StateHealthy ∨ State ss = StateDegraded ∨ State ss = StateIncomplete.
Proof.
  pose proof (n_state _ _ _ _ _ _ _ Hnow) as Hst. pose proof not_initial. pose proof not_gone.
  destruct (State ss); cbn in Hst; unfold doc_failed, doc_lost in Hst; tauto || auto.
Qed.
End found.

(** ** A round *)

Section round.
Context {RC : ConflictRetry clusterSig} {AM : ApiMachinery}.
Context (S0 : servers) (w0 : cluster_state) (ss : StatusSet).
Hypothesis Hnow : gathered_now cl p up pwd S0 w0 ss.
Hypothesis Hok0 : intact cl p up w0.

#[local] Abbreviation Hall := (n_shows cl p up pwd S0 w0 ss Hnow).

Lemma calm_no_switch : needSwitch (cs_pods w0 p) = false → NeedSwitch ss = false.
Proof. intros Hcalm. by destruct (n_switch _ _ _ _ _ _ _ Hnow) as [?| ->]. Qed.

Lemma wpc_doGathered :
  within p up S0 → (∀ i, 0 ≤ i < n → up i = true → included (purged (S0 p)) (executed (S0 i))) → needSwitch (cs_pods w0 p) = false →
  wpc (doGathered ss) w0 (λ o w', (∃ redo, o = Return redo) ∧ intact cl p up w' ∧ settled (cs_servers w') ∧
    (∀ i, same_pod (cs_pods w0 i) (cs_pods w' i)) ∧
    (cs_servers w' = cs_servers w0 ∨ configured cl p up (cs_servers w'))).
Proof.
  intros HW0 Hbin Hcalm. pose proof (calm_no_switch Hcalm) as Hns. unfold doGathered. rewrite wpw_bind.
  eapply wpw_conseq; [exact (wpc_updateStatus cl p up version secret pwd S0 w0 ss Hall Hok0)|]. intros ? ? (-> & st & -> & Hok1). wpw_norm.
  eapply wpw_conseq; [exact (wpc_annotate cl p up version secret pwd Hheal S0 w0 ss Hall _)|]. intros ? w2 [Hrel ->]. cbn [wpw].
  pose proof (intact_relabels cl p up _ _ Hok1 Hrel) as Hok2. destruct Hrel as [Hw2 Hp2].
  assert (cs_servers w2 = cs_servers w0) as Hsv by by rewrite Hw2.
  assert (State ss = StateDegraded ∨ State ss = StateIncomplete → wpc (configure ss) w2
    (λ o w', (∃ redo, o = Return redo) ∧ intact cl p up w' ∧ settled (cs_servers w') ∧ (∀ i, same_pod (cs_pods w0 i) (cs_pods w' i)) ∧
       (cs_servers w' = cs_servers w0 ∨ configured cl p up (cs_servers w')))) as Hconf.
  { intros _. eapply wpw_conseq; [eapply (wpc_configure cl p up version secret pwd); [exact Hheal|exact Hnow|done..|]|].
    - intros j Hj. split; [by apply Hok0|apply Hp2].
    - intros o w' (Ho & Hok' & [_ Hpods] & Hc). split; [done|]. split; [done|].
      split; [by apply configured_settled|]. split; [|by right]. intros i. destruct (Hp2 i) as (?&?&?&?), (Hpods i) as (?&?&?&?). cbn in *. split_and!; congruence. }
  unfold operate. rewrite Hns. cbn [andb]. destruct (found_state S0 w0 ss Hnow Hok0) as [Hs|[Hs|Hs]]; rewrite Hs in *.
  - cbn. rewrite bool_decide_false by done. split; [by eexists|]. split; [done|]. split; [|by split; [|left]].
    rewrite Hsv. pose proof (n_state _ _ _ _ _ _ _ Hnow) as Hd. rewrite Hs in Hd. by apply (healthy_settled S0 w0 ss Hnow), Hd.
  - rewrite bool_decide_true by done. apply Hconf. by left.
  - apply Hconf. by right.
Qed.
End round.

Lemma wpc_do {RC : ConflictRetry clusterSig} {AM : ApiMachinery} name w :
  intact cl p up w → needSwitch (cs_pods w p) = false →
  wpc (do name) w (λ o w', (∃ redo, o = Return redo) ∧ intact cl p up w' ∧ settled (cs_servers w') ∧
    (∀ i, same_pod (cs_pods w i) (cs_pods w' i)) ∧
    ((∀ i, config (cs_servers w' i) = config (cs_servers w i)) ∨ configured cl p up (cs_servers w'))).
Proof.
  intros Hok Hcalm. unfold do. rewrite wpw_bind_outcome. eapply wpw_conseq; [by apply (wpc_GatherStatus cl p up version secret pwd)|].
  intros ? w0 [Hd (ss & -> & Hnow)]. pose proof (intact_drifts cl p up _ _ Hok Hd) as Hok0. pose proof Hd as [Hw0 _].
  assert (cs_pods w0 = cs_pods w) as Hpods by by rewrite Hw0. rewrite wpw_bind.
  eapply wpw_conseq; [eapply wpc_doGathered; [exact Hnow|exact Hok0|apply Hok|apply Hok|by rewrite Hpods]|].
  intros o w1 (Ho & Hok1 & Hs1 & Hp1 & Hc1). rewrite wpw_bind. eapply wpw_conseq; [apply wpc_closeOps|]. intros [] w2 Hd2. cbn.
  split; [done|]. split; [by eapply intact_drifts|]. pose proof Hd2 as [Hw2 Hev2].
  assert (∀ i, config (cs_servers w2 i) = config (cs_servers w1 i)) as Hcfg by (intros i; by apply (evolve_config p up)). split_and!.
  - by eapply settled_config.
  - intros i. rewrite Hw2. cbn. rewrite <- Hpods. apply Hp1.
  - destruct Hc1 as [Hc1|Hc1]; [left|right].
    + intros i. rewrite Hcfg, Hc1. apply (evolve_config p up), Hd.
    + split; [intros i Hi Hne Hup|split]; rewrite Hcfg; by apply Hc1.
Qed.
End heal.

(** ** Theorems *)


(** ** A cluster that restarted *)

(** The first transactions of one server: the longest of the sets in the text. *)
Definition gtid_max (s : string) : Z := foldr Z.max 0 (gtid_count <$> split_on "," s).
Definition first_transactions (s : string) (k : Z) : Prop := s ≠ "" ∧ 0 ≤ k ≤ gtid_max s.

Lemma gtid_max_nonneg s : 0 ≤ gtid_max s.
Proof. unfold gtid_max. induction (gtid_count <$> _); cbn; lia. Qed.

Lemma gtid_max_union a b : gtid_max (a +:+ "," +:+ b) = Z.max (gtid_max a) (gtid_max b).
Proof.
  unfold gtid_max. change ("," +:+ b) with (String "," b). rewrite split_on_app, fmap_app, foldr_app. pose proof (gtid_max_nonneg b) as Hb.
  unfold gtid_max in Hb. induction (gtid_count <$> split_on "," a); cbn; lia.
Qed.

Lemma first_included a b : gtid_subset first_transactions a b ↔ a = "" ∨ (b ≠ "" ∧ gtid_max a ≤ gtid_max b).
Proof.
  unfold gtid_subset, first_transactions. split.
  - intros H. destruct (decide (a = "")) as [|Ha]; [by left|right]. pose proof (gtid_max_nonneg a).
    destruct (H (gtid_max a)) as [Hb Hk]; [split; [done|]|split; [done|]]; lia.
  - intros [->|[Hb Hle]] k [Ha Hk]; [done|]. split; [done|lia].
Qed.

#[refine] Definition one_source : GtidSets := {| transaction := Z; gtids := first_transactions |}.
Proof.
  - intros k [H _]. done.
  - intros s Hs. exists 0. split; [done|]. pose proof (gtid_max_nonneg s). lia.
  - intros a b k Ha. unfold first_transactions. rewrite gtid_max_union. pose proof (gtid_max_nonneg a). pose proof (gtid_max_nonneg b).
    assert (a +:+ "," +:+ b ≠ "") as Hne by (destruct a; [by destruct Ha|discriminate]).
    split; [|intros [[_ Hk]|[_ Hk]]; (split; [done|lia])].
    intros [_ Hk]. destruct (decide (k ≤ gtid_max a)); [by left; split; [|lia]|]. right. split; [|lia]. intros ->. change (gtid_max "") with 0 in *. lia.
  - intros a b. destruct (decide (a = "" ∨ (b ≠ "" ∧ gtid_max a ≤ gtid_max b))) as [H|H]; [left|right]; by rewrite first_included.
Defined.

Definition sample_server (gtid : string) (ro : bool) (source : option string) : server :=
  {| sv_vars := sample_gv gtid ro;
     sv_channel := (λ host, {| LastIoErrno := 0; LastIoError := ""; LastSQLErrno := 0; LastSQLError := ""; SourceHost := host;
                               RetrievedGtidSet := gtid; ExecutedGtidSet := gtid; ReplicaIORunning := "Yes"; ReplicaSQLRunning := "Yes";
                               SecondsBehindSource := None |}) <$> source;
     sv_clone := None |}.

(** The primary is read-only, instance 1 is writable and follows instance 2,
    and instance 2 is empty. *)
Definition restarted_servers : servers := λ i,
  if i =? 0 then sample_server "p0:1-5" true None
  else if i =? 1 then sample_server "p0:1-4" false (Some "moco-test-2.moco-test.default.svc")
  else sample_server "" false None.

Definition restarted_cluster : cluster_state :=
  {| cs_status := sample_cluster_status 0; cs_pods := λ i, sample_pod i true false; cs_servers := restarted_servers; cs_pending := None |}.

Lemma sample_healable (up : Z → bool) :
  up 0 = true → healable (sample_cluster 3 0) 0 up "8.4" (ToSecret sample_password) sample_password.
Proof. intros Hup. constructor; try done; cbn; try lia; by right. Qed.

Lemma restarted_within : within (GS := one_source) 0 (λ _, true) restarted_servers.
Proof.
  intros i _. change (gtid_subset first_transactions (executed (restarted_servers i)) "p0:1-5" ∧
                    gtid_subset first_transactions (retrieved (restarted_servers i)) "p0:1-5"). rewrite !first_included.
  unfold restarted_servers. destruct (i =? 0); [|destruct (i =? 1)]; cbn; split; try (by left); right; split; try done; vm_compute; discriminate.
Qed.

Lemma restarted_intact : intact (GS := one_source) (sample_cluster 3 0) 0 (λ _, true) restarted_cluster.
Proof.
  constructor; cbn; try done; [by left|exact restarted_within|]. intros i Hi _ t Ht. by destruct Ht.
Qed.

