(* ===== verification/HandoverSpec.v ===== *)
(** * A primary that is to step down is replaced

    In the world of ClusterWorld.v the round after the primary's Pod was demoted
    switches over: the first replica is recorded as the primary, it has every
    transaction, and the cluster is one that HealSpec.v heals, with clients writing
    on the new primary. *)

From S2P Require Import Prelude Prog Worlds GoLib Constants Api K8s Password Dbop Gtid Event Cluster Samples Status StatusSpec Servers.
From S2P Require Import Gather GatherSpec Operations OpsSpec Process ProcessSpec ClusterWorld GatherWorld ConfigureWorld HealSpec.
#[local] Open Scope Z_scope.

Section handover.
Context {GS : GtidSets} {RC : ConflictRetry clusterSig} {AM : ApiMachinery}.
Context (cl : MySQLCluster) (p : Z) (up : Z → bool) (version : string) (secret : Secret) (pwd : MySQLPassword).
Hypothesis Hheal : healable cl p up version secret pwd.

#[local] Abbreviation wpc := (wpw (cluster_world cl p up version secret pwd)).
#[local] Abbreviation n := (Replicas (Spec cl)).

(** The instance to switch to: the first replica that is up. *)
Definition successor (c : Z) : Prop := c ∈ alive cl p up ∧ ∀ i, i ∈ alive cl p up → c ≤ i.

(** The servers replicate, and no binary log is missing anywhere. *)
Record replicates (S : servers) : Prop := {
  r_settled : settled cl p up S;
  r_running i : i ∈ alive cl p up → replicating (S i) = true;
  r_quiet : match link (S p) with Some (_, _, sql) => sql ≠ "Yes" | None => True end;
  r_uuids i : i ∈ alive cl p up → UUID (sv_vars (S i)) ≠ "";
  r_binlogs i j : 0 ≤ i < n → 0 ≤ j < n → up i = true → up j = true → included (purged (S i)) (executed (S j))
}.

(** The primary's Pod, and no other, is to go. *)
Record demoted (w : cluster_state) : Prop := {
  d_primary : needSwitch (cs_pods w p) = true;
  d_others i : 0 ≤ i < n → i ≠ p → needSwitch (cs_pods w i) = false;
  d_delay : MaxDelaySecondsForPodDeletion (Spec cl) ≤ 0;
  d_enough : n / 2 ≤ go_len (alive cl p up);
  d_several : 1 < n
}.

Lemma replicates_evolve S S' : replicates S → evolve p up S S' → replicates S'.
Proof.
  intros [] Hev. assert (∀ i, config (S' i) = config (S i)) as Hc by (intros i; by apply (evolve_config p up)). constructor.
  - by eapply settled_config.
  - intros i Hi. rewrite (replicating_config _ _ (Hc i)). auto.
  - by rewrite (config_link _ _ (Hc p)).
  - intros i Hi. rewrite (uuid_config _ _ (Hc i)). auto.
  - intros i j Hi Hj Hui Huj. rewrite (purged_config _ _ (Hc i)). transitivity (executed (S j)); [exact (r_binlogs0 i j Hi Hj Hui Huj)|]. by apply (evolve_executed p up).
Qed.

(** [p] became read-only and [c] has all that [p] executed. *)
Definition handed_over (c : Z) (S S' : servers) : Prop :=
  turns p up p (on_vars (set_modes true true)) S S' ∧ included (executed (S' p)) (executed (S' c)).

Lemma read_only_idle S S' : replicates S → turns p up p (on_vars (set_modes true true)) S S' → idle (S' p).
Proof.
  intros Hrep (_ & Hc & _). specialize (Hc p). rewrite bool_decide_true in Hc by done. split.
  - exact (f_equal (λ c, SuperReadOnly c.1.1) Hc).
  - apply (f_equal (λ c, c.1.2)) in Hc. pose proof (r_quiet _ Hrep) as Hq. unfold config, link in Hc, Hq. cbn in Hc.
    destruct (sv_channel (S' p)), (sv_channel (S p)); simplify_eq/=; congruence.
Qed.

Lemma idle_evolve S S' : idle (S p) → evolve p up S S' → executed (S' p) = executed (S p).
Proof. intros Hi [H _]. by apply (H p). Qed.

Lemma handed_over_evolve c S S1 S2 : replicates S → handed_over c S S1 → evolve p up S1 S2 → handed_over c S S2.
Proof.
  intros Hrep [Ht Hin] Hev. split; [exact (turns_trans p up p _ id _ _ _ Ht (evolve_turns p up p _ _ Hev))|].
  rewrite (idle_evolve S1 S2); [|by eapply read_only_idle|done]. transitivity (executed (S1 c)); [done|]. by apply (evolve_executed p up).
Qed.

(** Removing the annotation leaves the other Pods alone. *)
Definition undemoted (pods pods' : Z → Pod) : Prop := ∀ i, 0 ≤ i < n →
  pod_Name (pods' i) = pod_Name (pods i) ∧ pod_PodIP (pods' i) = pod_PodIP (pods i) ∧
  isPodReady (pods' i) = isPodReady (pods i) ∧ (i ≠ p → needSwitch (pods' i) = needSwitch (pods i)).

(** The cluster after a switchover from [p] to [c]. *)
Record switched (c : Z) (w w' : cluster_state) : Prop := {
  sw_servers : handed_over c (cs_servers w) (cs_servers w');
  sw_current : CurrentPrimaryIndex (cs_status w') = c;
  sw_restored : RestoredTime (cs_status w') = RestoredTime (cs_status w);
  sw_errants : ErrantReplicaList (cs_status w') = ErrantReplicaList (cs_status w);
  sw_pods : undemoted (cs_pods w) (cs_pods w')
}.

Lemma switched_drifts c w w1 w2 : replicates (cs_servers w) → switched c w w1 → drifts p up w1 w2 → switched c w w2.
Proof. intros Hrep [] [-> Hev]. cbn in Hev. constructor; cbn; try done. by eapply handed_over_evolve. Qed.

(** The new primary has everything, so the cluster is in order around it. *)
Lemma switched_intact c w w' :
  c ∈ alive cl p up → intact cl p up w → replicates (cs_servers w) → switched c w w' → intact cl c up w'.
Proof.
  intros Hc [] Hrep [[(He & Hcfg & Hw) Hin] ? ? ? Hpods].
  assert (config (cs_servers w' c) = config (cs_servers w c)) as Hcc.
  { rewrite Hcfg, bool_decide_false; [done|]. intros ->. by apply elem_of_alive in Hc as (_ & _ & ?). }
  pose proof (proj1 (elem_of_alive _ _ _ _) Hc) as (Hr & Hup & _). constructor; [done|by rewrite sw_restored0|congruence| | | |].
  - intros i Hi. destruct (Hpods i Hi) as (-> & -> & -> & _). auto.
  - intros i Hui. destruct (Hw i_within i Hui) as [H1 H2]. split; (transitivity (executed (cs_servers w' p)); done).
  - rewrite (uuid_config _ _ Hcc). by apply Hrep.
  - intros i Hi Hui. rewrite (purged_config _ _ Hcc). transitivity (executed (cs_servers w i)); [|apply He]. by apply (r_binlogs _ Hrep).
Qed.

Section round.
Context (S0 : servers) (w0 : cluster_state) (ss : StatusSet).
Hypothesis Hnow : gathered_now cl p up pwd S0 w0 ss.
Hypothesis Hok0 : intact cl p up w0.

#[local] Abbreviation Hall := (n_shows cl p up pwd S0 w0 ss Hnow).

Lemma op_primary : index_at (DBOps ss) (Primary ss) = Some (Some (OpSQL p)).
Proof. rewrite (a_primary _ _ _ _ _ _ _ Hall). destruct Hheal. eapply (shows_all_op cl p up pwd); [exact Hall|done|done]. Qed.

Lemma wpc_demotePrimary t w :
  wpc (demotePrimary ss t) w (λ o w', o = Return () ∧ ∃ S', w' = with_servers S' (with_pending None w) ∧
    turns p up p (on_vars (set_modes true true)) (cs_servers w) S').
Proof.
  pose proof Hheal as []. unfold demotePrimary. rewrite op_primary. wpw_norm. cbn [or_panic wpw spawnSetReadOnly]. unfold kcall. wpw_norm.
  intros [] w1 ->. wpw_norm. intros r w2 H. cbn in H. destruct H as [[-> ->]|(x & S1 & -> & H & ->)].
  - cbn [invoke DBOp_Operator]. unfold kcall. wpw_norm. intros r w2 (S1 & H1 & ->).
    destruct (KillConnections_evolves cl p up version p _ _ _ h_up H1) as [-> Hev]. cbn in Hev. wpw_norm.
    intros r w3 (S2 & H2 & ->). destruct (SetReadOnly_on cl p up version p _ _ _ h_up H2) as [-> Ht]. cbn in Ht |- *.
    split; [done|]. exists S2. split; [done|]. by eapply evolve_then_turns.
  - destruct (SetReadOnly_on cl p up version p _ _ _ h_up H) as [-> Ht]. cbn in Ht |- *. split; [done|]. by exists S1.
Qed.

Lemma wpc_recordPrimary c w :
  wpc (recordPrimary c) w (λ o w', o = Return () ∧ ∃ st, w' = with_status st w ∧ CurrentPrimaryIndex st = c ∧
    RestoredTime st = RestoredTime (cs_status w) ∧ ErrantReplicaList st = ErrantReplicaList (cs_status w)).
Proof.
  unfold recordPrimary. rewrite wpw_bind. apply wpw_RetryOnConflict with (I := λ w', w' = w); [done|]. intros ? ->.
  unfold setPrimary, kcall. wpw_norm. intros r w1 [-> ->]. cbn [wpw]. intros r w1 [-> ->]. split; [|done]. cbn. split; [done|]. by eexists.
Qed.

Lemma PodName_inj i j : 0 ≤ i → 0 ≤ j → PodName cl i = PodName cl j → i = j.
Proof.
  unfold PodName. intros Hi Hj Heq. apply Itoa_inj. remember (PrefixedName cl) as pre. clear Heqpre.
  induction pre as [|c pre IH]; [by injection Heq|]. injection Heq as Heq. by apply IH.
Qed.

Lemma wpc_removeDemote w :
  (∀ i, 0 ≤ i < n → pod_Name (cs_pods w i) = PodName cl i) →
  wpc (removeDemote ss) w (λ o w', o = Return () ∧ w' = with_pods (cs_pods w') w ∧ undemoted (cs_pods w) (cs_pods w') ∧
    (is_Some (pod_Annotations (cs_pods w0 p) !! AnnDemote) → pod_Annotations (cs_pods w' p) !! AnnDemote = None)).
Proof.
  intros Hnames. pose proof Hheal as []. unfold removeDemote, pod_at.
  rewrite (a_primary _ _ _ _ _ _ _ Hall), (proj2 (a_pods _ _ _ _ _ _ _ Hall) p h_primary). wpw_norm. cbn [or_panic mjoin option_join wpw].
  destruct (_ !! AnnDemote) eqn:Hann; [|split; [done|]; split; [by destruct w|]; split; [done|intros [? ?]; congruence]].
  wpw_norm. intros r w' [-> ->]. pose proof (proj1 (i_pods _ _ _ _ Hok0 p h_primary)) as Hn0.
  split; [done|]. split; [done|]. split.
  - intros i Hi. cbn. unfold patch_pod. destruct (_ =s _) eqn:E; [|done]. split_and!; try done. intros Hne. exfalso. apply Hne. bool_cases.
    rewrite Hnames, Hn0 in E by done. apply PodName_inj in E; [done|lia|lia].
  - intros _. cbn. unfold patch_pod. cbn. rewrite Hnames, Hn0 by done. rewrite (proj2 (string_eqb_true _ _) eq_refl). cbn.
    rewrite lookup_merge_patch, lookup_delete_eq, Hann. by rewrite bool_decide_false.
Qed.

Lemma wpc_switchover c w :
  Candidate ss = c → c ∈ alive cl p up → intact cl p up w → replicates (cs_servers w) →
  wpc (switchover ss) w (λ o w', o = Return () ∧ switched c w w' ∧
    (is_Some (pod_Annotations (cs_pods w0 p) !! AnnDemote) → pod_Annotations (cs_pods w' p) !! AnnDemote = None)).
Proof.
  intros Hcand Hc Hok Hrep. pose proof Hheal as []. pose proof (proj1 (elem_of_alive _ _ _ _) Hc) as (Hr & Hup & Hne).
  unfold switchover. destruct (Atoi PreStopSeconds) eqn:E; [|by vm_compute in E]. rewrite Hcand, (a_primary _ _ _ _ _ _ _ Hall).
  wpw_norm. eapply wpw_conseq; [apply wpc_demotePrimary|]. intros ? w1 (-> & S1 & -> & H1). wpw_norm. intros [] w2 ->. wpw_norm.
  eapply (wpc_kill cl p up version secret pwd); [exact Hnow|done|done|]. cbn. intros S2 E2. wpw_norm.
  eapply (wpc_status cl p up version secret pwd); [exact Hnow|done|done|]. cbn. intros pst S3 E3 Hst. wpw_norm.
  pose proof (turns_trans p up p _ id _ _ _ H1 (evolve_turns p up p _ _ E2)) as H2. pose proof (read_only_idle _ _ Hrep H2) as Hidle.
  pose proof (turns_trans p up p _ id _ _ _ H2 (evolve_turns p up p _ _ E3)) as H3. pose proof (i_within _ _ _ _ Hok) as HW.
  assert (∀ S, evolve p up S3 S → executed (S p) = executed (S2 p)) as Hstay.
  { intros S HS. apply idle_evolve; [done|]. by etrans. }
  eapply (wpc_wait cl p up version secret pwd); [exact Hnow|done|done|by apply H3| | |].
  - cbn. apply (shows_within _ _ _ _ _ _ _ Hst). by apply H2.
  - right. cbn. rewrite (replicating_config (cs_servers w c)); [by apply Hrep|]. destruct H3 as (_ & Hcfg & _). by rewrite Hcfg, bool_decide_false.
  - cbn. intros S4 E4 Hin. wpw_norm. eapply wpw_conseq; [apply wpc_recordPrimary|].
    intros ? w5 (-> & st & -> & Hcur & Hres & Herr). wpw_norm. intros [] w6 ->. wpw_norm.
    assert (handed_over c (cs_servers w) S4) as Hover.
    { split; [exact (turns_trans p up p _ id _ _ _ H3 (evolve_turns p up p _ _ E4))|]. rewrite Hstay by done.
      transitivity (ExecutedGTID (GlobalVariables_ pst)); [apply Hst|done]. }
    eapply wpw_conseq; [apply wpc_removeDemote; cbn; intros i Hi; by apply Hok|]. intros ? w7 (-> & -> & Hpods & Hann).
    split; [done|]. split; [|exact Hann]. by constructor.
Qed.

(** ** The round *)

Lemma decided_successor :
  settled cl p up (cs_servers w0) → demoted w0 → successor (Candidate ss) ∧ NeedSwitch ss = true ∧ PreventPodDeletion ss = false.
Proof.
  intros Hs []. destruct (n_decided _ _ _ _ _ _ _ Hnow) as (ss0 & Hwf & Hd). pose proof (DecideState_set _ _ Hd) as (? & ? & ? & ? & Heq).
  assert (Cluster ss0 = Cluster ss ∧ Pods ss0 = Pods ss ∧ Primary ss0 = Primary ss ∧
          replicas_with ss0 (ready_synced ss0) = replicas_with ss (ready_synced ss)) as (Hcl & Hp & Hprim & Hrepl) by by rewrite Heq.
  pose proof (settled_state cl p up version secret pwd Hheal S0 w0 ss Hnow Hok0 Hs d_enough0) as Hst.
  destruct (DecideState_switch ss0 ss Hwf) as (Hin & Hle & pod & Hpod & Hns); [by rewrite Hcl, (a_cluster _ _ _ _ _ _ _ Hall)|done|..].
  { rewrite Hst. destruct (_ =? _); auto. }
  rewrite Hrepl in Hin, Hle. split_and!.
  - split; [by apply (settled_synced cl p up pwd S0 w0 ss Hnow Hok0)|].
    intros i Hi. by apply Hle, (settled_synced cl p up pwd S0 w0 ss Hnow Hok0).
  - rewrite Hp, Hprim, (a_primary _ _ _ _ _ _ _ Hall) in Hpod. rewrite (proj2 (a_pods _ _ _ _ _ _ _ Hall) p) in Hpod by apply Hheal.
    injection Hpod as <-. by rewrite Hns.
  - by apply Hnow.
Qed.

Lemma wpc_doGathered_switch :
  replicates (cs_servers w0) → demoted w0 →
  wpc (doGathered ss) w0 (λ o w', o = Return true ∧ ∃ w1, intact cl p up w1 ∧ cs_servers w1 = cs_servers w0 ∧
    (∀ i, needSwitch (cs_pods w1 i) = needSwitch (cs_pods w0 i)) ∧ successor (Candidate ss) ∧ switched (Candidate ss) w1 w' ∧
    (is_Some (pod_Annotations (cs_pods w0 p) !! AnnDemote) → pod_Annotations (cs_pods w' p) !! AnnDemote = None)).
Proof.
  intros Hrep Hdem. destruct (decided_successor (r_settled _ Hrep) Hdem) as (Hsucc & Hns & Hprev).
  pose proof (settled_state cl p up version secret pwd Hheal S0 w0 ss Hnow Hok0 (r_settled _ Hrep) (d_enough _ Hdem)) as Hst.
  unfold doGathered. rewrite wpw_bind. eapply wpw_conseq; [exact (wpc_updateStatus cl p up version secret pwd S0 w0 ss Hall Hok0)|].
  intros ? ? (-> & st & -> & Hok1). wpw_norm. eapply wpw_conseq; [exact (wpc_annotate cl p up version secret pwd Hheal S0 w0 ss Hall _)|].
  intros ? w2 [Hrel ->]. cbn [wpw]. pose proof (intact_relabels cl p up _ _ Hok1 Hrel) as Hok2. destruct Hrel as [Hw2 Hp2].
  assert (cs_servers w2 = cs_servers w0) as Hsv2 by by rewrite Hw2.
  assert (replicates (cs_servers w2)) as Hrep2 by by rewrite Hsv2.
  assert (operate ss = (_ <-? with_event (switchover ss) SwitchOverFailed "failed to switchover" ;;
                       _ <-- kcall (Emit SwitchOverSucceeded [Itoa (Candidate ss)]) ;; Ret (Return true))) as ->.
  { unfold operate. rewrite Hst, Hns, Hprev. by destruct (_ =? _). }
  unfold with_event. wpw_norm. eapply wpw_conseq; [by eapply wpc_switchover; [|apply Hsucc|..]|].
  intros ? w3 (-> & Hsw & Hann). wpw_norm. intros [] w4 ->. split; [done|]. exists w2. split_and!; try done.
  intros i. apply Hp2.
Qed.
End round.

Lemma wpc_do_switch name w :
  intact cl p up w → replicates (cs_servers w) → demoted w →
  wpc (do name) w (λ o w', o = Return true ∧ ∃ c, successor c ∧ intact cl c up w' ∧ needSwitch (cs_pods w' c) = false ∧
    handed_over c (cs_servers w) (cs_servers w') ∧
    (is_Some (pod_Annotations (cs_pods w p) !! AnnDemote) → pod_Annotations (cs_pods w' p) !! AnnDemote = None)).
Proof.
  intros Hok Hrep Hdem. unfold do. rewrite wpw_bind_outcome. eapply wpw_conseq; [by apply (wpc_GatherStatus cl p up version secret pwd)|].
  intros ? w0 [Hd (ss & -> & Hnow)]. pose proof (intact_drifts cl p up _ _ Hok Hd) as Hok0. pose proof Hd as [Hw0 Hev0].
  assert (cs_pods w0 = cs_pods w) as Hpods by by rewrite Hw0.
  assert (demoted w0) as Hdem0 by (destruct Hdem; constructor; by rewrite ?Hpods).
  pose proof (replicates_evolve _ _ Hrep Hev0) as Hrep0. rewrite wpw_bind.
  eapply wpw_conseq; [by apply (wpc_doGathered_switch (cs_servers w) w0 ss Hnow Hok0)|].
  intros ? w2 (-> & w1 & Hok1 & Hsv1 & Hns1 & Hsucc & Hsw & Hann). rewrite wpw_bind. eapply wpw_conseq; [apply wpc_closeOps|].
  assert (replicates (cs_servers w1)) as Hrep1 by by rewrite Hsv1.
  intros [] w3 Hd3. cbn. split; [done|]. exists (Candidate ss). pose proof (switched_drifts _ _ _ _ Hrep1 Hsw Hd3) as Hsw3.
  pose proof Hd3 as [Hw3 _]. pose proof (proj1 (elem_of_alive _ _ _ _) (proj1 Hsucc)) as (Hr & _ & Hne). split_and!.
  - done.
  - eapply switched_intact; [apply Hsucc|exact Hok1|done|done].
  - destruct (sw_pods _ _ _ Hsw3 _ Hr) as (_ & _ & _ & ->); [|done]. rewrite Hns1. by apply Hdem0.
  - destruct (sw_servers _ _ _ Hsw3) as [Ht Hin]. rewrite Hsv1 in Ht. split; [by eapply evolve_then_turns|done].
  - rewrite Hw3. cbn. by rewrite <- Hpods.
Qed.
End handover.

(** ** Theorems *)

(** The replicas change by one when the primary does, so their number does not. *)
Lemma alive_count {GS : GtidSets} cl p c up :
  up p = true → 0 ≤ p < Replicas (Spec cl) → c ∈ alive cl p up → go_len (alive cl c up) = go_len (alive cl p up).
Proof.
  intros Hup Hp (Hc & Hupc & Hne)%elem_of_alive. assert (p :: alive cl p up ≡ₚ c :: alive cl c up) as H%go_len_perm.
  { apply NoDup_Permutation.
    - apply NoDup_cons. split; [by intros (_ & _ & ?)%elem_of_alive|apply NoDup_alive].
    - apply NoDup_cons. split; [by intros (_ & _ & ?)%elem_of_alive|apply NoDup_alive].
    - intros i. rewrite !elem_of_cons, !elem_of_alive. destruct (decide (i = p)), (decide (i = c)); naive_solver. }
  rewrite !go_len_cons in H. lia.
Qed.

Lemma healable_successor {GS : GtidSets} cl p c up version secret pwd :
  healable cl p up version secret pwd → c ∈ alive cl p up → healable cl c up version secret pwd.
Proof. intros [] (? & ? & _)%elem_of_alive. by constructor. Qed.

(** C4. A demoted primary is replaced and no transaction is lost.  In worlds that
    answer as documented, consider a cluster in order ([healable], [intact]) whose
    servers replicate, with no binary log purged that another one needs
    ([replicates]), when the Pod of the primary, and of no other instance, is
    terminating or has the annotation moco.cybozu.com/demote, the deletion of Pods is not
    to be delayed, and at least half of the replicas are up ([demoted]).  The round
    succeeds: the status of the MySQLCluster names as primary the replica with the
    lowest ordinal among those that are up, which has all transactions that any server
    that is up executed, no server's configuration changed but that the old primary is read-only,
    and the annotation is gone.  From then on, with clients writing on the new primary,
    the next round makes it writable and all others that are up, the old primary
    included, replicate from it, and the round after that finds the cluster Healthy, or
    Degraded when some instances are down. *)
Theorem demoted_primary_replaced {GS : GtidSets} {RC : ConflictRetry clusterSig} {AM : ApiMachinery} cl p up version secret pwd
    (W : Z → world clusterSig cluster_state) name w :
  (∀ c, refines (W c) (cluster_world cl c up version secret pwd)) →
  healable cl p up version secret pwd → intact cl p up w → replicates cl p up (cs_servers w) → demoted cl p up w →
  (∃ o w', runs_in (W p) (do name) w o w') ∧
  ∀ o w', runs_in (W p) (do name) w o w' →
    o = Return true ∧ ∃ c, successor cl p up c ∧ CurrentPrimaryIndex (cs_status w') = c ∧
    (∀ i, up i = true → included (executed (cs_servers w i)) (executed (cs_servers w' c)) ∧
          included (executed (cs_servers w' i)) (executed (cs_servers w' c))) ∧
    (∀ i, config (cs_servers w' i) = if bool_decide (i = p) then on_vars (set_modes true true) (config (cs_servers w p)) else config (cs_servers w i)) ∧
    (is_Some (pod_Annotations (cs_pods w p) !! AnnDemote) → pod_Annotations (cs_pods w' p) !! AnnDemote = None) ∧
    (∃ o1 w1, runs_in (W c) (do name) w' o1 w1) ∧
    ∀ o1 w1, runs_in (W c) (do name) w' o1 w1 →
      (∃ redo, o1 = Return redo) ∧ settled cl c up (cs_servers w1) ∧
      ∀ o2 w2, runs_in (W c) (GatherStatus name) w1 o2 w2 →
        ∃ ss, o2 = Return ss ∧ Primary ss = c ∧
          State ss = if go_len (alive cl p up) =? Replicas (Spec cl) - 1 then StateHealthy else StateDegraded.
Proof.
  intros HW Hheal Hok Hrep Hdem. split; [by eapply refines_runs|]. intros o w' Hrun.
  destruct (refines_spec _ _ _ _ _ _ _ (HW p) (wpc_do_switch cl p up version secret pwd Hheal name w Hok Hrep Hdem) Hrun)
    as (-> & c & Hsucc & Hok' & Hcalm & [(He & Hcfg & _) _] & Hann).
  pose proof (healable_successor _ _ c _ _ _ _ Hheal (proj1 Hsucc)) as Hheal'.
  split; [done|]. exists c. split_and!; [done|apply Hok'| | |exact Hann|by eapply refines_runs|].
  - intros i Hui. split; [transitivity (executed (cs_servers w' i)); [apply He|]|]; by apply Hok'.
  - intros i. rewrite Hcfg. by case_bool_decide as E; [rewrite E|].
  - intros o1 w1 Hrun1. destruct (refines_spec _ _ _ _ _ _ _ (HW c) (wpc_do cl c up version secret pwd Hheal' name w' Hok' Hcalm) Hrun1)
      as (Ho & Hok1 & Hs & _ & _). split_and!; [exact Ho|exact Hs|]. intros o2 w2 Hrun2.
    destruct (refines_spec _ _ _ _ _ _ _ (HW c) (wpc_GatherStatus cl c up version secret pwd Hheal' name w1 Hok1) Hrun2)
      as [Hd (ss & -> & Hnow)]. exists ss. split; [done|]. split; [apply Hnow|].
    assert (settled cl c up (cs_servers w2)) as Hs2 by (eapply settled_config; [intros i; by apply (evolve_config c up), Hd|exact Hs]).
    rewrite <- (alive_count cl p c up); [|apply Hheal..|apply Hsucc].
    eapply (settled_state cl c up version secret pwd); [done|exact Hnow|by eapply intact_drifts|done|].
    rewrite (alive_count cl p c up); [apply Hdem|apply Hheal..|apply Hsucc].
Qed.

(** ** A cluster whose primary is to step down *)

(** Instances 1 and 2 follow the primary, the one lagging behind. *)
Definition replicating_servers : servers := λ i,
  if i =? 0 then sample_server "p0:1-5" false None
  else sample_server (if i =? 1 then "p0:1-4" else "p0:1-5") true (Some "moco-test-0.moco-test.default.svc").

Definition demoted_cluster : cluster_state :=
  {| cs_status := sample_cluster_status 0; cs_pods := λ i, sample_pod i true (i =? 0); cs_servers := replicating_servers;
     cs_pending := None |}.

Lemma replicating_within : within (GS := one_source) 0 (λ _, true) replicating_servers.
Proof.
  intros i _. change (gtid_subset first_transactions (executed (replicating_servers i)) "p0:1-5" ∧
                    gtid_subset first_transactions (retrieved (replicating_servers i)) "p0:1-5"). rewrite !first_included.
  unfold replicating_servers. destruct (i =? 0); [|destruct (i =? 1)]; cbn; split; try (by left); right; split; try done; vm_compute; discriminate.
Qed.

Lemma demoted_intact : intact (GS := one_source) (sample_cluster 3 0) 0 (λ _, true) demoted_cluster.
Proof.
  constructor; cbn; try done; [by left|exact replicating_within|]. intros i Hi _ t Ht. by destruct Ht.
Qed.

Lemma demoted_replicates : replicates (GS := one_source) (sample_cluster 3 0) 0 (λ _, true) replicating_servers.
Proof.
  assert (∀ i, i ∈ alive (sample_cluster 3 0) 0 (λ _, true) → (i =? 0) = false) as Hne by (intros i (_ & _ & ?)%elem_of_alive; lia).
  assert (∀ i, purged (replicating_servers i) = "") as Hpurged by (intros i; unfold replicating_servers; by destruct (i =? 0)).
  constructor.
  - split; [|done]. intros i Hi%Hne. unfold replicating_servers. rewrite Hi. by split; [|eexists].
  - intros i Hi%Hne. unfold replicating_servers. by rewrite Hi.
  - done.
  - intros i Hi%Hne. unfold replicating_servers. by rewrite Hi.
  - intros i j _ _ _ _ t Ht. rewrite Hpurged in Ht. by destruct Ht.
Qed.

Lemma demoted_sample : demoted (sample_cluster 3 0) 0 (λ _, true) demoted_cluster.
Proof.
  constructor; try done. intros i Hi Hne. cbn. by rewrite (proj2 (Z.eqb_neq i 0)).
Qed.

Lemma demoted_primary_replaced_witness :
  let world c := cluster_world (GS := one_source) (sample_cluster 3 0) c (λ _, true) "8.4" (ToSecret sample_password) sample_password in
  ∃ w', runs_in (world 0) (do (RC := retry_five) (AM := apimachinery_inplace) sample_name) demoted_cluster (Return true) w' ∧
    CurrentPrimaryIndex (cs_status w') = 1 ∧ pod_Annotations (cs_pods w' 0) !! AnnDemote = None ∧
    ∃ w1, settled (sample_cluster 3 0) 1 (λ _, true) (cs_servers w1) ∧
      ∀ o2 w2, runs_in (world 1) (GatherStatus sample_name) w1 o2 w2 → ∃ ss, o2 = Return ss ∧ Primary ss = 1 ∧ State ss = StateHealthy.
Proof.
  intros world. destruct (demoted_primary_replaced (GS := one_source) (RC := retry_five) (AM := apimachinery_inplace) (sample_cluster 3 0) 0 (λ _, true)
    "8.4" (ToSecret sample_password) sample_password world sample_name demoted_cluster (λ c, cluster_world_refines (sample_cluster 3 0) c _ _ _ _ eq_refl) (sample_healable _ eq_refl) demoted_intact demoted_replicates
    demoted_sample) as [(o & w' & Hrun) H].
  destruct (H o w' Hrun) as (-> & c & [Hc Hle] & Hcur & _ & _ & Hann & (o1 & w1 & Hrun1) & Hnext).
  assert (c = 1) as ->.
  { apply elem_of_alive in Hc as (? & _ & ?). assert (c ≤ 1) as Hc1 by (by apply Hle, elem_of_alive). lia. }
  exists w'. split; [exact Hrun|]. split; [exact Hcur|]. split; [apply Hann; by eexists|]. exists w1.
  destruct (Hnext o1 w1 Hrun1) as (_ & Hs & Hfound). split; [exact Hs|exact Hfound].
Defined.
