(* ===== verification/TakeoverSpec.v ===== *)
(** * A primary that is gone is replaced

    In the world of ClusterWorld.v, when the primary is down and more than half of
    the replicas are up, a round fails over to a replica that has all transactions
    that any of them received, and the cluster is one that HealSpec.v heals. *)

From S2P Require Import Prelude Prog Worlds GoLib Constants Api K8s Password Dbop Gtid Event Cluster Samples Status StatusSpec Servers.
From S2P Require Import Gather GatherSpec Operations OpsSpec Process ProcessSpec ClusterWorld GatherWorld ConfigureWorld HealSpec HandoverSpec.
#[local] Open Scope Z_scope.

Section takeover.
Context {GS : GtidSets} {RC : ConflictRetry clusterSig} {AM : ApiMachinery}.
Context (cl : MySQLCluster) (p : Z) (up : Z → bool) (version : string) (secret : Secret) (pwd : MySQLPassword).
Hypothesis Hdown : served cl p up version secret pwd false.

#[local] Abbreviation wpc := (wpw (cluster_world cl p up version secret pwd)).
#[local] Abbreviation n := (Replicas (Spec cl)).

(** The replicas were replicating, with data, and no binary log is missing. *)
Record orphaned (S : servers) : Prop := {
  o_up i : up i = true → 0 ≤ i < n;
  o_data i : i ∈ alive cl p up → executed (S i) ≠ "";
  o_applying i : i ∈ alive cl p up → applying (S i) = true;
  o_reported i : i ∈ alive cl p up → reported (S i);
  o_ordered : ordered p up S;
  o_uuids i : i ∈ alive cl p up → UUID (sv_vars (S i)) ≠ "";
  o_binlogs i j : i ∈ alive cl p up → j ∈ alive cl p up → included (purged (S i)) (executed (S j))
}.

Lemma up_alive S i : orphaned S → up i = true → i ∈ alive cl p up.
Proof.
  intros Ho Hi. apply elem_of_alive. split; [by eapply o_up|]. split; [done|]. intros ->. pose proof (h_up Hdown). congruence.
Qed.

Lemma alive_up i : i ∈ alive cl p up → 0 ≤ i < n ∧ up i = true ∧ i ≠ p.
Proof. apply elem_of_alive. Qed.

Lemma orphaned_survives S S' : within p up S → orphaned S → survives p up S S' → orphaned S'.
Proof.
  intros HW [] []. assert (∀ i, purged (S' i) = purged (S i)) as Hpurged.
  { intros i. exact (f_equal PurgedGTID (v_vars i)). }
  constructor; [done| |intros i Hi; rewrite v_applying; auto|auto|auto| |].
  - intros i Hi Hnil. apply (o_data0 i Hi), included_none. rewrite <- Hnil. apply v_executed.
  - intros i Hi. pose proof (f_equal UUID (v_vars i)) as Hu. cbn in Hu. rewrite Hu. auto.
  - intros i j Hi Hj. rewrite Hpurged. transitivity (executed (S j)); [by apply o_binlogs0|apply v_executed].
Qed.

(** ** The state is Failed *)

(** What [GatherStatus] returns: no status of the primary. *)
Record gathered_down (S : servers) (w : cluster_state) (ss : StatusSet) : Prop := {
  d_shows : shows_all cl p up pwd S w ss;
  d_state : State ss = StateFailed
}.

Lemma shown_replica S w ss i :
  shows_all cl p up pwd S w ss → orphaned S → i ∈ alive cl p up →
  ∃ st, index_at (MySQLStatus ss) i = Some (Some st) ∧ hasData st = true.
Proof.
  intros Hall Ho Hi. destruct (alive_up i Hi) as (Hr & Hup & _). destruct (proj2 (a_status _ _ _ _ _ _ _ Hall) i Hr) as (ist & Hist & Hq).
  unfold queried in Hq. rewrite Hup in Hq. destruct Hq as (st & -> & Hst). exists st. split; [done|]. unfold hasData.
  pose proof (shows_link _ _ _ _ _ _ _ Hst) as Hl. rewrite (config_link (S i)) in Hl by apply (evolve_config p up), Hall.
  pose proof (o_applying _ Ho i Hi) as Ha. unfold applying in Ha. unfold link in Hl.
  destruct (sv_channel (S i)); [|done]. destruct (ReplicaStatus_ st); [|done]. rewrite (shows_errant _ _ _ _ _ _ _ Hst). cbn.
  apply negb_true_iff, string_eqb_false. intros Hnil. apply (o_data _ Ho i Hi), included_none. rewrite <- Hnil.
  by apply (shows_since _ _ _ _ _ _ _ Hst).
Qed.

Lemma down_no_status S w ss : shows_all cl p up pwd S w ss → index_at (MySQLStatus ss) p = Some None.
Proof.
  intros Hall. destruct (proj2 (a_status _ _ _ _ _ _ _ Hall) p (h_primary Hdown)) as (ist & -> & Hq). unfold queried in Hq.
  rewrite (h_up Hdown) in Hq. by rewrite Hq.
Qed.

Lemma down_failed S w ss :
  shows_all cl p up pwd S w ss → intact cl p up w → orphaned S → n / 2 < go_len (alive cl p up) →
  state_spec ss (State ss) → State ss = StateFailed.
Proof.
  intros Hall Hok Ho Hmost Hst. apply (state_spec_unique ss); [done|].
  assert (primary_status ss = None) as Hnone by (unfold primary_status; by rewrite (a_primary _ _ _ _ _ _ _ Hall), (down_no_status _ _ _ Hall)).
  split; [exact (online_not_initial cl p up version secret pwd Hdown S w ss Hall Hok)|]. split.
  - intros (_ & _ & pst & Hp & _). congruence.
  - split; [by left|]. replace (StatusSpec.half ss) with (n / 2) by by unfold StatusSpec.half; rewrite (a_cluster _ _ _ _ _ _ _ Hall).
    replace (go_len (replicas_with ss (λ _, hasData))) with (go_len (alive cl p up)); [done|].
    apply go_len_same_elements; [apply NoDup_alive|apply NoDup_replicas_with|]. intros i.
    rewrite elem_of_replicas_with, (a_primary _ _ _ _ _ _ _ Hall). split.
    + intros Hi. split; [by apply alive_up|]. by eapply shown_replica.
    + intros (Hi & st & Hst' & _). destruct (a_status _ _ _ _ _ _ _ Hall) as [Hlen Hat].
      assert (0 ≤ i < n) as Hr by (rewrite <- Hlen; apply index_at_lt; eauto). destruct (Hat i Hr) as (ist & Hist & Hq). simplify_eq.
      unfold queried in Hq. destruct (up i) eqn:Hup; [|done]. by apply elem_of_alive.
Qed.

Lemma wpc_gatherInstances_down w ss :
  prepared cl p up pwd w ss → intact cl p up w → orphaned (cs_servers w) → n / 2 < go_len (alive cl p up) →
  wpc (gatherInstances ss) w (λ o w', drifts p up w w' ∧ ∃ ss', o = Return ss' ∧ gathered_down (cs_servers w) w' ss' ∧ State ss' ≠ StateUndecided).
Proof.
  intros Hpre Hok Ho Hmost. pose proof Hpre as []. unfold gatherInstances. rewrite wpw_bind_outcome.
  eapply wpw_conseq; [by apply (wpc_queried cl p up version secret pwd Hdown)|]. intros ? w1 [Hd (sts & -> & Hall)].
  pose proof (intact_drifts _ _ _ _ _ Hok Hd) as Hok1. rewrite wpw_bind_outcome. unfold recheckPrimary.
  rewrite (a_primary _ _ _ _ _ _ _ Hall), (down_no_status _ _ _ Hall). cbn [or_panic]. wpw_norm. set (ss1 := set_gathered _ _ _ _ _).
  assert (shows_all cl p up pwd (cs_servers w) w1 ss1) as Hall1 by (apply shows_all_gathered; [done|apply Hall]).
  unfold detectErrants. replace (ss_ExecutedGTID ss1) with "" by (symmetry; exact q_gtid). cbn [String.eqb negb].
  rewrite (a_cluster _ _ _ _ _ _ _ Hall1). cbn [cluster_of Status set_Status]. rewrite (i_errants _ _ _ _ Hok1). cbn [restoreErrants or_panic wpw].
  rewrite (a_primary _ _ _ _ _ _ _ Hall1). set (ss2 := set_MySQLStatus _ ss1).
  assert (shows_all cl p up pwd (cs_servers w) w1 ss2) as Hall2 by by apply shows_all_dropHung.
  assert (wf ss2) as Hwf by (apply (shows_all_wf cl p up version secret pwd Hdown _ _ _ Hall2); exact q_candidates).
  destruct (DecideState_total _ Hwf) as (ss' & Hdec & _). rewrite Hdec. cbn. split; [done|]. exists ss'. split; [done|].
  destruct (decided_shape _ _ Hwf Hdec) as [_ Hst]. destruct (DecideState_set _ _ Hdec) as (cs & m & c & st & Heq).
  assert (shows_all cl p up pwd (cs_servers w) w1 ss') as Hall' by (rewrite Heq; destruct Hall2; by constructor).
  pose proof (down_failed _ _ _ Hall' Hok1 Ho Hmost Hst) as Hfailed. split; [by constructor|congruence].
Qed.

Section round.
Context (S0 : servers) (w0 : cluster_state) (ss : StatusSet).
Hypothesis Hall : shows_all cl p up pwd S0 w0 ss.
Hypothesis Ho : orphaned S0.

Lemma op_alive i : i ∈ alive cl p up → index_at (DBOps ss) i = Some (Some (OpSQL i)).
Proof. intros (Hr & Hup & _)%alive_up. by apply (shows_all_op cl p up pwd _ _ _ _ Hall). Qed.

(** The statuses are those of the replicas that are up. *)
Lemma status_alive i st : (i, Some st) ∈ indexed (MySQLStatus ss) → i ≠ p → i ∈ alive cl p up ∧ IsErrant st = false.
Proof.
  intros Hi%elem_of_indexed Hne. destruct (a_status _ _ _ _ _ _ _ Hall) as [Hlen Hat].
  assert (0 ≤ i < n) as Hr by (rewrite <- Hlen; apply index_at_lt; eauto). destruct (Hat i Hr) as (ist & Hist & Hq). simplify_eq.
  unfold queried in Hq. destruct (up i) eqn:Hup; [|done]. destruct Hq as (st' & [= <-] & Hst).
  split; [by apply elem_of_alive|by apply (shows_errant _ _ _ _ _ _ _ Hst)].
Qed.

Lemma alive_status i : i ∈ alive cl p up → ∃ st, (i, Some st) ∈ indexed (MySQLStatus ss).
Proof. intros Hi. destruct (shown_replica _ _ _ i Hall Ho Hi) as (st & Hst & _). exists st. by apply elem_of_indexed. Qed.

Lemma indexed_once i (x y : option MySQLInstanceStatus) :
  (i, x) ∈ indexed (MySQLStatus ss) → (i, y) ∈ indexed (MySQLStatus ss) → x = y.
Proof. rewrite !elem_of_indexed. congruence. Qed.

Lemma wpc_stopReplicas w :
  wpc (for_range (indexed (MySQLStatus ss)) () (stopIOStep ss)) w (λ o w', o = Return () ∧ ∃ S', w' = with_servers S' w ∧
    survives p up (cs_servers w) S' ∧ ∀ i, i ∈ alive cl p up → receiving (S' i) = false).
Proof.
  apply wpw_for_range with (I := λ rest _ w', rest ⊆ indexed (MySQLStatus ss) ∧ ∃ S', w' = with_servers S' w ∧
    survives p up (cs_servers w) S' ∧ ∀ i, i ∈ alive cl p up → (∃ st, (i, st) ∈ rest) ∨ receiving (S' i) = false).
  - split; [done|]. exists (cs_servers w). split; [by destruct w|]. split; [done|]. intros i (st & Hi)%alive_status. left. by eexists.
  - intros [] w' (_ & S' & -> & Hv & Hstop). split; [done|]. exists S'. split_and!; [done..|]. intros i Hi.
    destruct (Hstop i Hi) as [(st & Hin)|]; [by apply elem_of_nil in Hin|done].
  - intros [i ist] rest [] w1 (Hin & S1 & -> & Hv & Hstop). unfold stopIOStep. cbn [fst snd]. rewrite (a_primary _ _ _ _ _ _ _ Hall).
    assert (rest ⊆ indexed (MySQLStatus ss)) as Hrest by set_solver.
    assert (i ∉ alive cl p up → ∀ j, j ∈ alive cl p up → (∃ st, (j, st) ∈ rest) ∨ receiving (S1 j) = false) as Hskip.
    { intros Hni j Hj. destruct (Hstop j Hj) as [(st & [[= -> ->]|Hst]%elem_of_cons)|]; [done|left; by exists st|by right]. }
    destruct (i =? p) eqn:Hip; bool_cases.
    { exists (). split; [done|]. split; [done|]. exists S1. split_and!; [done..|]. apply Hskip. intros (_ & _ & ?)%alive_up. done. }
    destruct ist as [st|].
    + destruct (status_alive i st) as [Hi _]; [set_solver|done|]. destruct (alive_up i Hi) as (_ & Hup & _). unfold db_do. wpw_norm.
      eapply (wpc_db cl p up version secret pwd); [by apply op_alive|]. intros r S2 HS. cbn in HS.
      destruct (StopReplicaIOThread_survives cl p up version i _ _ _ Hup HS) as (-> & Hv2 & Hr2). cbn. exists (). split; [done|]. split; [done|].
      exists S2. split; [done|]. split; [by etrans|]. intros j Hj. destruct (Hstop j Hj) as [(st' & [[= -> ->]|Hst]%elem_of_cons)|Hf]; [by right|left; by exists st'|].
      right. by apply (v_stopped _ _ _ _ Hv2 j); [apply alive_up|].
    + exists (). split; [done|]. split; [done|]. exists S1. split_and!; [done..|]. apply Hskip. intros (st & Hst)%alive_status.
      pose proof (indexed_once i None (Some st) ltac:(set_solver) Hst). done.
Qed.

(** ** Rechecking *)

(** The candidates in [l] report what they had received in [S]. *)
Definition rechecked (S S' : servers) (l : list (option MySQLInstanceStatus)) (o : option DBOp) : Prop :=
  go_len l = n ∧
  (∀ i st, index_at l i = Some (Some st) → i ∈ alive cl p up ∧ ∃ rs, reports S S' i st rs) ∧
  match o with
  | Some o => ∃ j, j ∈ alive cl p up ∧ o = OpSQL j
  | None => ∀ i st, index_at l i ≠ Some (Some st)
  end.

Lemma rechecked_survives S S1 S2 l o : rechecked S S1 l o → survives p up S1 S2 → rechecked S S2 l o.
Proof.
  intros (Hlen & Hl & Ho') Hv. split_and!; [done| |done]. intros i st Hi. destruct (Hl i st Hi) as (? & rs & ?). split; [done|].
  exists rs. by eapply reports_survives.
Qed.

Lemma index_at_updated {A} (l : list A) i j x :
  0 ≤ i < go_len l → index_at (<[Z.to_nat i := x]> l) j = if bool_decide (j = i) then Some x else index_at l j.
Proof.
  intros Hi. case_bool_decide as E; [rewrite E; by apply index_at_insert_eq|]. apply index_at_insert_ne; [lia|congruence].
Qed.

Lemma rechecked_insert S S1 S2 l o i st rs :
  rechecked S S1 l o → survives p up S1 S2 → i ∈ alive cl p up → reports S S2 i st rs →
  rechecked S S2 (<[Z.to_nat i := Some st]> l) (Some (OpSQL i)).
Proof.
  intros Hl Hv Hi Hst. destruct (rechecked_survives _ _ _ _ _ Hl Hv) as (Hlen & Hat & _).
  split_and!; [by rewrite go_len_insert| |by exists i]. intros j stj. rewrite index_at_updated by (rewrite Hlen; by apply alive_up).
  case_bool_decide as E; [|apply Hat]. intros [= <-]. rewrite E. eauto.
Qed.

Lemma wpc_recheckReplicas w :
  within p up (cs_servers w) → orphaned (cs_servers w) → (∀ i, i ∈ alive cl p up → receiving (cs_servers w i) = false) →
  wpc (for_range (indexed (MySQLStatus ss)) (replicate (length (MySQLStatus ss)) None, None) (recheckStep ss)) w
    (λ o w', drifts p up w w' ∧ ∃ l op, o = Return (l, op) ∧ rechecked (cs_servers w) (cs_servers w') l op ∧
       ∀ i, i ∈ alive cl p up → ∃ st, index_at l i = Some (Some st)).
Proof.
  intros HW How Hstop. apply wpw_for_range with (I := λ rest acc w', rest ⊆ indexed (MySQLStatus ss) ∧ drifts p up w w' ∧
    rechecked (cs_servers w) (cs_servers w') acc.1 acc.2 ∧
    ∀ i, i ∈ alive cl p up → (∃ st, (i, st) ∈ rest) ∨ ∃ st, index_at acc.1 i = Some (Some st)).
  - split; [done|]. split; [done|].
    assert (∀ i st, index_at (replicate (length (MySQLStatus ss)) (None : option MySQLInstanceStatus)) i ≠ Some (Some st)) as Hnone.
    { intros i st (_ & Hi)%index_at_Some. by apply lookup_replicate in Hi as [? _]. }
    split; [split_and!|].
    + cbn. rewrite <- (proj1 (a_status _ _ _ _ _ _ _ Hall)). unfold go_len. by rewrite length_replicate.
    + intros i st Hi. by apply Hnone in Hi.
    + exact Hnone.
    + intros i (st & Hi)%alive_status. left. by eexists.
  - intros [l op] w' (_ & Hd & Hl & Hdone). split; [done|]. exists l, op. split; [done|]. split; [done|]. intros i Hi.
    destruct (Hdone i Hi) as [(st & Hin)|]; [by apply elem_of_nil in Hin|done].
  - intros [i ist] rest [l op] w1 (Hin & Hd & Hl & Hdone). unfold recheckStep. cbn [fst snd] in *. rewrite (a_primary _ _ _ _ _ _ _ Hall).
    assert (rest ⊆ indexed (MySQLStatus ss)) as Hrest by set_solver.
    assert (i ∉ alive cl p up → ∀ j, j ∈ alive cl p up → (∃ st, (j, st) ∈ rest) ∨ ∃ st, index_at l j = Some (Some st)) as Hskip.
    { intros Hni j Hj. destruct (Hdone j Hj) as [(st & [[= -> ->]|Hst]%elem_of_cons)|]; [done|left; by exists st|by right]. }
    destruct (i =? p) eqn:Hip; bool_cases.
    { exists (l, op). split; [done|]. split_and!; [done..|]. apply Hskip. intros (_ & _ & ?)%alive_up. done. }
    destruct ist as [st|].
    + destruct (status_alive i st) as [Hi Herr]; [set_solver|done|]. rewrite Herr. destruct (alive_up i Hi) as (Hr & Hup & _).
      pose proof (evolve_survives p up _ _ (proj2 Hd)) as Hv. unfold db_do. wpw_norm.
      eapply (wpc_db cl p up version secret pwd); [by apply op_alive|]. intros r S2 HS. cbn in r, HS.
      destruct (GetStatus_reports cl p up version (cs_servers w) i _ r S2 Hup Hip (Hstop i Hi) Hv
        (v_reported _ _ _ _ Hv i (o_reported _ How i Hi)) (eq_trans (v_applying _ _ _ _ Hv i) (o_applying _ How i Hi)) HS)
        as [Hev (st' & rs & -> & Hst')].
      cbn. rewrite (proj2 (set_at_Some _ _ _ (Some st')) (conj (eq_ind_r (λ m, 0 ≤ i < m) Hr (proj1 Hl)) eq_refl)), op_alive by done. cbn.
      eexists. split; [done|]. split; [done|]. split; [etrans; [exact Hd|by apply drifts_servers]|]. cbn.
      split; [eapply rechecked_insert; [exact Hl|by apply evolve_survives|done..]|]. intros j Hj.
      setoid_rewrite (index_at_updated l i j (Some st')); [|by rewrite (proj1 Hl)]. case_bool_decide as E; [right; by eexists|].
      destruct (Hdone j Hj) as [(stj & [[= -> ->]|Hst]%elem_of_cons)|]; [done|left; by exists stj|by right].
    + exists (l, op). split; [done|]. split_and!; [done..|]. apply Hskip. intros (st & Hst)%alive_status.
      pose proof (indexed_once i None (Some st) ltac:(set_solver) Hst). done.
Qed.

(** ** The top runner *)

Lemma candidate_received S S' l o i st :
  rechecked S S' l o → orphaned S → index_at l i = Some (Some st) →
  i ∈ alive cl p up ∧ ∃ rs, reports S S' i st rs ∧ unionGtids rs ≠ "".
Proof.
  intros (_ & Hl & _) HoS Hi. destruct (Hl i st Hi) as (Ha & rs & Hr). split; [done|]. exists rs. split; [done|].
  destruct (gtids_nonempty _ (o_data _ HoS i Ha)) as [t Ht]. intros Hnil.
  assert (gtids (unionGtids rs) t) as Hu by (apply (t_union _ _ _ _ _ Hr); by right). rewrite Hnil in Hu. by apply gtids_empty in Hu.
Qed.

(** Candidates received the transactions in one order. *)
Lemma candidates_comparable S S' l o i j sti stj ri rj :
  rechecked S S' l o → orphaned S → index_at l i = Some (Some sti) → index_at l j = Some (Some stj) →
  ReplicaStatus_ sti = Some ri → ReplicaStatus_ stj = Some rj →
  included (unionGtids ri) (unionGtids rj) ∨ included (unionGtids rj) (unionGtids ri).
Proof.
  intros Hl HoS Hi Hj Hri Hrj. destruct (candidate_received _ _ _ _ _ _ Hl HoS Hi) as (Hai & ri' & Hi' & _).
  destruct (candidate_received _ _ _ _ _ _ Hl HoS Hj) as (Haj & rj' & Hj' & _).
  pose proof (t_status _ _ _ _ _ Hi'). pose proof (t_status _ _ _ _ _ Hj'). simplify_eq.
  pose proof (t_union _ _ _ _ _ Hi') as Hui. pose proof (t_union _ _ _ _ _ Hj') as Huj.
  apply alive_up in Hai as (_ & ? & ?), Haj as (_ & ? & ?).
  destruct (o_ordered _ HoS i j) as [Hc|Hc]; [done..|left|right]; intros t; rewrite Hui, Huj; apply Hc.
Qed.

Lemma wpc_topRunnerStep S w l o seen rest acc x :
  rechecked S (cs_servers w) l o → orphaned S → indexed l = seen ++ x :: rest → top_so_far gtids seen acc →
  wpc (topRunnerStep o acc x) w (λ r w', drifts p up w w' ∧ ∃ acc', r = Return acc' ∧ top_so_far gtids (seen ++ [x]) acc').
Proof.
  intros Hl HoS Hseen Htop. assert (∀ j stj, (j, stj) ∈ seen ++ [x] → index_at l j = Some stj) as Hidx.
  { intros j stj Hj. apply elem_of_indexed. rewrite Hseen. set_solver. }
  destruct x as [i [st|]]; unfold topRunnerStep; cbn [fst snd]; [|split; [done|]; exists acc; split; [done|]; by apply top_so_far_skip].
  assert (index_at l i = Some (Some st)) as Hi by (apply Hidx; set_solver).
  destruct (candidate_received _ _ _ _ _ _ Hl HoS Hi) as (Ha & rs & Hr & Hne). rewrite (t_status _ _ _ _ _ Hr).
  rewrite (proj2 (length_nonzero_str _) Hne). destruct (String.length acc.2 =? 0)%nat eqn:Hacc.
  { apply length_zero_str in Hacc. split; [done|]. eexists. split; [done|]. eapply top_so_far_replace; [done|by apply Hr|done|by left]. }
  apply length_nonzero_str in Hacc. destruct Hl as (Hlen & Hl & Hop). destruct o as [o|]; [|by apply Hop in Hi]. destruct Hop as (j & Hj & ->).
  assert (included (unionGtids rs) acc.2 ∨ included acc.2 (unionGtids rs)) as Hcomp.
  { destruct Htop as [[-> _]|(_ & (st0 & rs0 & Hin & Hrs0 & ->) & _)]; [done|].
    eapply (candidates_comparable S (cs_servers w) l (Some (OpSQL j)) i acc.1 st st0); [by split_and!; [..|exists j]|done|done|apply Hidx; set_solver|by apply Hr|done]. }
  unfold call_op. wpw_norm. cbn [invoke DBOp_Operator]. unfold kcall. wpw_norm. destruct (alive_up j Hj) as (_ & Hupj & _).
  intros r1 w1 (S1 & HS1 & ->). destruct (IsSubsetGTID_evolves cl p up version j _ _ _ _ _ Hupj HS1) as [E1 (v1 & -> & Hv1)]. wpw_norm.
  destruct v1; cbn [wpw].
  { split; [by apply drifts_servers|]. exists acc. split; [done|]. eapply top_so_far_keep; [done|by apply Hr|done|by apply Hv1]. }
  destruct Hcomp as [Hc|Hc]; [by apply Hv1 in Hc|]. wpw_norm.
  intros r2 w2 (S2 & HS2 & ->). destruct (IsSubsetGTID_evolves cl p up version j _ _ _ _ _ Hupj HS2) as [E2 (v2 & -> & Hv2)]. wpw_norm.
  rewrite (proj2 Hv2 Hc). cbn [wpw]. split; [exact (drifts_servers p up w S2 (transitivity E1 E2))|].
  eexists. split; [done|]. eapply top_so_far_replace; [done|by apply Hr|done|by right].
Qed.

Lemma wpc_FindTopRunner S w l o i st :
  rechecked S (cs_servers w) l o → orphaned S → index_at l i = Some (Some st) →
  wpc (FindTopRunner o l) w (λ r w', drifts p up w w' ∧ ∃ c, r = Return c ∧ top_runner gtids l c).
Proof.
  intros Hl HoS Hi. unfold FindTopRunner. wpw_norm.
  apply wpw_for_range with (I := λ rest acc w', drifts p up w w' ∧ ∃ seen, indexed l = seen ++ rest ∧ top_so_far gtids seen acc).
  - split; [done|]. exists []. split; [done|]. left. split; [done|]. intros j stj rs Hin. by apply elem_of_nil in Hin.
  - intros [c g] w' [Hd (seen & Hseen & Htop)]. rewrite app_nil_r in Hseen. subst seen. cbn [fst].
    destruct (candidate_received _ _ _ _ _ _ Hl HoS Hi) as (_ & rs & Hr & Hne). apply elem_of_indexed in Hi.
    destruct Htop as [[_ Hnone]|(Hg & (stc & rc & Hin & Hrc & Heq) & Htop)]; [by destruct Hne; eapply Hnone; [|by apply Hr]|].
    pose proof Hin as Hc%elem_of_indexed. destruct (Z.eqb_spec c (-1)) as [->|Hc1].
    { apply index_at_Some in Hc as [? _]. cbn in *. lia. }
    split; [done|]. exists c. split; [done|]. exists g. split; [by exists stc, rc|].
    intros j g' (stj & rj & Hj & Hrj & -> & Hnj). eapply Htop; [by apply elem_of_indexed|done|done].
  - intros x rest acc w1 [Hd (seen & Hseen & Htop)]. pose proof (evolve_survives p up _ _ (proj2 Hd)) as Hv.
    eapply wpw_conseq; [eapply wpc_topRunnerStep; [by eapply rechecked_survives|done|done|done]|].
    intros r w2 [Hd2 (acc' & -> & Htop')]. exists acc'. split; [done|]. split; [by etrans|]. exists (seen ++ [x]).
    rewrite <- app_assoc. by split.
Qed.

(** ** The failover *)

(** [c] executed all that any replica received, and no replica receives. *)
Definition taken_over (c : Z) (S : servers) : Prop :=
  ∀ i, i ∈ alive cl p up → receiving (S i) = false ∧ ∀ t, received (S i) t → gtids (executed (S c)) t.

Lemma taken_over_survives c S S' : taken_over c S → survives p up S S' → taken_over c S'.
Proof.
  intros Hc Hv i Hi. destruct (Hc i Hi) as [Hf Hr]. destruct (v_stopped _ _ _ _ Hv i) as [Hf' Hr']; [by apply alive_up|done|].
  split; [done|]. intros t Ht. by apply (v_executed _ _ _ _ Hv c), Hr, Hr'.
Qed.

Lemma union_covered rs g : included (RetrievedGtidSet rs) g → included (ExecutedGtidSet rs) g → included (unionGtids rs) g.
Proof.
  intros Hr He t. unfold unionGtids. destruct (_ =? 0)%nat eqn:E; [apply He|]. apply length_nonzero_str in E.
  rewrite gtids_union by done. intros [?|?]; auto.
Qed.

(** The top runner has everything once it executed what it retrieved. *)
Lemma top_runner_takes_over S S1 S2 l o c stc rc :
  rechecked S S1 l o → orphaned S → (∀ i, i ∈ alive cl p up → receiving (S i) = false) →
  (∀ i, i ∈ alive cl p up → ∃ st, index_at l i = Some (Some st)) →
  reports S S1 c stc rc → (∀ j g, candidate_gtids l j g → included g (unionGtids rc)) →
  survives p up S S1 → survives p up S1 S2 → included (RetrievedGtidSet rc) (executed (S2 c)) → taken_over c S2.
Proof.
  intros Hl HoS Hstop Hcand Hc Htop H1 H2 Hwait i Hi. pose proof (transitivity H1 H2) as Hv. destruct (alive_up i Hi) as (_ & _ & Hne).
  split; [by apply (v_stopped _ _ _ _ Hv i Hne), Hstop|]. intros t Ht.
  apply (v_same p up _ _ i t Hv Hne (Hstop i Hi)) in Ht. destruct (Hcand i Hi) as [st Hst].
  destruct (candidate_received _ _ _ _ _ _ Hl HoS Hst) as (_ & rs & Hr & Hnil).
  assert (included (unionGtids rs) (unionGtids rc)) as Hin.
  { apply (Htop i). exists st, rs. split_and!; [done|by apply Hr|done|done]. }
  apply (union_covered rc); [done| |by apply Hin, (t_union _ _ _ _ _ Hr)].
  transitivity (executed (S1 c)); [apply Hc|apply H2].
Qed.

Lemma wpc_failover w :
  within p up (cs_servers w) → orphaned (cs_servers w) → (∃ i, i ∈ alive cl p up) →
  wpc (failover ss) w (λ o w', ∃ c st S', c ∈ alive cl p up ∧ o = Return (set_Candidate c ss) ∧
    w' = with_status st (with_servers S' w) ∧ survives p up (cs_servers w) S' ∧ taken_over c S' ∧
    CurrentPrimaryIndex st = c ∧ RestoredTime st = RestoredTime (cs_status w) ∧ ErrantReplicaList st = ErrantReplicaList (cs_status w)).
Proof.
  intros HW How [i Hi]. unfold failover. rewrite wpw_bind_outcome. eapply wpw_conseq; [apply wpc_stopReplicas|].
  intros ? ? (-> & S1 & -> & H1 & Hstop). unfold kcall. wpw_norm. intros [] ? ->. rewrite wpw_bind_outcome.
  pose proof (orphaned_survives _ _ HW How H1) as Ho1. pose proof (v_within _ _ _ _ H1 HW) as HW1.
  eapply wpw_conseq; [by apply wpc_recheckReplicas|]. cbn [cs_servers with_servers].
  intros ? w2 [Hd2 (l & o & -> & Hl & Hcand)]. destruct (Hcand i Hi) as [sti Hsti]. wpw_norm. cbn [fst snd].
  eapply wpw_conseq; [by eapply wpc_FindTopRunner|]. intros ? w3 [Hd3 (c & -> & g & (stc & rc & Hc & Hrc & -> & Hne) & Htop)]. wpw_norm.
  rewrite Hc. cbn [mjoin option_join or_panic wpw]. rewrite Hrc. cbn [or_panic wpw].
  destruct (proj1 (proj2 Hl) c stc Hc) as (Hca & rc' & Hrep). assert (rc' = rc) as -> by (pose proof (t_status _ _ _ _ _ Hrep); congruence).
  destruct Hd2 as [Hw2 E2], Hd3 as [Hw3 E3]. destruct (alive_up c Hca) as (_ & Hup & Hcp).
  pose proof (evolve_survives p up _ _ E2) as H2. pose proof (evolve_survives p up _ _ E3) as H3.
  assert (survives p up S1 (cs_servers w3)) as H13 by by etrans.
  assert (applying (cs_servers w3 c) = true) as Happ by (rewrite (v_applying _ _ _ _ H13); by apply Ho1).
  assert (included (RetrievedGtidSet rc) (retrieved (cs_servers w3 c))) as Hret.
  { transitivity (retrieved (cs_servers w2 c)); [apply Hrep|apply H3]. }
  unfold db_do. wpw_norm. eapply (wpc_db cl p up version secret pwd); [by apply op_alive|]. intros r S4 HS4.
  destruct (WaitForGTID_applies cl p up version c _ _ _ r S4 Hup Hcp Hret Happ HS4) as (-> & E4 & Hwait). wpw_norm.
  pose proof (evolve_survives p up _ _ E4) as H4.
  assert (taken_over c S4) as Hover.
  { eapply (top_runner_takes_over S1 (cs_servers w2)); [exact Hl|exact Ho1|exact Hstop|exact Hcand|exact Hrep| |exact H2|by etrans|exact Hwait].
    intros j g. by apply Htop. }
  eapply wpw_conseq; [apply (wpc_recordPrimary cl p up version secret pwd)|]. intros ? w5 (-> & st & -> & Hcur & Hres & Herr). wpw_norm. intros [] ? ->.
  exists c, st, S4. split; [done|]. split; [done|]. rewrite Hw3, Hw2 in Hres, Herr |- *. split; [done|].
  split; [by etrans; [exact H1|]; etrans; [exact H13|]|]. by split_and!.
Qed.
End round.

(** ** The round *)

(** The cluster after the failover to [c]. *)
Record failed_over (c : Z) (w w' : cluster_state) : Prop := {
  f_servers : survives p up (cs_servers w) (cs_servers w');
  f_taken : taken_over c (cs_servers w');
  f_current : CurrentPrimaryIndex (cs_status w') = c;
  f_restored : RestoredTime (cs_status w') = RestoredTime (cs_status w);
  f_errants : ErrantReplicaList (cs_status w') = ErrantReplicaList (cs_status w);
  f_pods : cs_pods w' = cs_pods w
}.

Lemma failed_over_drifts c w w1 w2 : failed_over c w w1 → drifts p up w1 w2 → failed_over c w w2.
Proof.
  intros [] [-> Hev]. cbn in Hev. apply (evolve_survives p up) in Hev. constructor; cbn; try done; [by etrans|].
  by eapply taken_over_survives.
Qed.

(** The new primary has everything, so the cluster is in order around it. *)
Lemma failed_over_intact c w w' :
  c ∈ alive cl p up → intact cl p up w → orphaned (cs_servers w) → failed_over c w w' → intact cl c up w'.
Proof.
  intros Hc [] How []. pose proof (orphaned_survives _ _ i_within How f_servers0) as Ho'. constructor.
  - done.
  - by rewrite f_restored0.
  - congruence.
  - by rewrite f_pods0.
  - intros i Hi. apply (up_alive _ _ Ho') in Hi. destruct (f_taken0 i Hi) as [_ Hr]. split; intros t Ht; apply Hr; [by right|by left].
  - by apply (o_uuids _ Ho').
  - intros i Hi Hui. apply (o_binlogs _ Ho'); [done|by apply (up_alive _ _ Ho')].
Qed.

Lemma wpc_doGathered_failed S0 w0 ss :
  gathered_down S0 w0 ss → intact cl p up w0 → within p up S0 → orphaned S0 → (∃ i, i ∈ alive cl p up) →
  wpc (doGathered ss) w0 (λ o w', o = Return true ∧ ∃ c w1, c ∈ alive cl p up ∧ intact cl p up w1 ∧ cs_servers w1 = cs_servers w0 ∧
    (∀ i, same_pod (cs_pods w0 i) (cs_pods w1 i)) ∧ failed_over c w1 w').
Proof.
  intros [Hall Hst] Hok0 HW0 Ho Hsome. pose proof (evolve_survives p up _ _ (a_since _ _ _ _ _ _ _ Hall)) as Hv.
  unfold doGathered. rewrite wpw_bind. eapply wpw_conseq; [exact (wpc_updateStatus cl p up version secret pwd S0 w0 ss Hall Hok0)|].
  intros ? ? (-> & st & -> & Hok1). wpw_norm. eapply wpw_conseq; [exact (wpc_annotate cl p up version secret pwd Hdown S0 w0 ss Hall _)|].
  intros ? w2 [Hrel ->]. cbn [wpw]. pose proof (intact_relabels cl p up _ _ Hok1 Hrel) as Hok2. destruct Hrel as [Hw2 Hp2].
  assert (cs_servers w2 = cs_servers w0) as Hsv by by rewrite Hw2.
  unfold operate. rewrite Hst. unfold with_event. wpw_norm. eapply wpw_conseq.
  { apply (wpc_failover S0 w0 ss Hall Ho w2); [by apply Hok2|rewrite Hsv; by eapply orphaned_survives|done]. }
  intros ? w3 (c & st' & S' & Hc & -> & -> & Hsur & Htaken & Hcur & Hres & Herr). wpw_norm. intros [] ? ->. split; [done|].
  exists c, w2. split_and!; try done.
Qed.

Lemma wpc_do_failed name w :
  intact cl p up w → orphaned (cs_servers w) → n / 2 < go_len (alive cl p up) →
  wpc (do name) w (λ o w', o = Return true ∧ ∃ c, c ∈ alive cl p up ∧ intact cl c up w' ∧
    needSwitch (cs_pods w' c) = needSwitch (cs_pods w c) ∧ survives p up (cs_servers w) (cs_servers w') ∧ taken_over c (cs_servers w')).
Proof.
  intros Hok How Hmost. assert (∃ i, i ∈ alive cl p up) as Hsome.
  { destruct (alive cl p up) as [|i l]; [|exists i; by left]. pose proof (h_replicas Hdown). rewrite go_len_nil in Hmost.
    pose proof (Z.div_pos n 2 ltac:(lia) ltac:(lia)). lia. }
  unfold do. rewrite wpw_bind_outcome. eapply wpw_conseq.
  { apply (wpc_GatherStatus_with cl p up version secret pwd Hdown (gathered_down (cs_servers w))); [done|].
    intros ss Hpre. by apply wpc_gatherInstances_down. }
  intros ? w0 [Hd (ss & -> & Hnow)]. pose proof (intact_drifts cl p up _ _ Hok Hd) as Hok0. pose proof Hd as [Hw0 Hev0]. rewrite wpw_bind.
  eapply wpw_conseq; [apply (wpc_doGathered_failed (cs_servers w)); [done|done|apply Hok|done|done]|].
  intros ? w2 (-> & c & w1 & Hc & Hok1 & Hsv1 & Hp1 & Hover). rewrite wpw_bind. eapply wpw_conseq; [apply wpc_closeOps|].
  intros [] w3 Hd3. cbn. split; [done|]. exists c. pose proof (failed_over_drifts _ _ _ _ Hover Hd3) as Hover3.
  assert (survives p up (cs_servers w) (cs_servers w1)) as Hv1 by (rewrite Hsv1; by apply evolve_survives). split_and!.
  - done.
  - eapply failed_over_intact; [done|exact Hok1| |exact Hover3]. eapply orphaned_survives; [apply Hok|done|done].
  - rewrite (f_pods _ _ _ Hover3). destruct (Hp1 c) as (_ & _ & _ & ->). by rewrite Hw0.
  - etrans; [exact Hv1|]. apply Hover3.
  - apply Hover3.
Qed.
End takeover.

(** ** Theorems *)

Lemma alive_without {GS : GtidSets} cl p c up :
  up p = false → c ∈ alive cl p up → go_len (alive cl c up) = go_len (alive cl p up) - 1.
Proof.
  intros Hdown Hc. pose proof Hc as (Hr & Hup & Hne)%elem_of_alive. assert (alive cl p up ≡ₚ c :: alive cl c up) as H%go_len_perm.
  { apply NoDup_Permutation; [apply NoDup_alive|apply NoDup_cons; split; [by intros (_ & _ & ?)%elem_of_alive|apply NoDup_alive]|].
    intros i. rewrite elem_of_cons, !elem_of_alive. destruct (decide (i = c)) as [->|]; [naive_solver|]. split; [naive_solver|].
    intros [?|(? & ? & ?)]; [done|]. split_and!; [lia..|done|]. intros ->. congruence. }
  rewrite go_len_cons in H. lia.
Qed.

Lemma alive_bound {GS : GtidSets} cl p up : 0 ≤ p < Replicas (Spec cl) → go_len (alive cl p up) ≤ Replicas (Spec cl) - 1.
Proof.
  intros Hp. assert (p :: alive cl p up ⊆+ upto (Replicas (Spec cl))) as H%submseteq_length.
  { apply NoDup_submseteq; [apply NoDup_cons; split; [by intros (_ & _ & ?)%elem_of_alive|apply NoDup_alive]|].
    intros i [->|(? & _)%elem_of_alive]%elem_of_cons; by apply elem_of_upto. }
  cbn in H. rewrite length_upto in H. unfold go_len. lia.
Qed.

Lemma served_successor {GS : GtidSets} cl p c up version secret pwd :
  served cl p up version secret pwd false → c ∈ alive cl p up → healable cl c up version secret pwd.
Proof. intros [] (? & ? & _)%elem_of_alive. by constructor. Qed.

(** C2. A failed primary is replaced and no transaction that a replica has is lost.  In
    worlds that answer as documented, consider a cluster in order ([served], [intact])
    whose primary is down, more than half of whose replicas are up, execute what they
    retrieve, have data, received the transactions of the primary in one order, and
    keep the binary logs that the others need ([orphaned]), and are not to step down.
    The round succeeds: the status of the MySQLCluster names one of these replicas as
    primary, and it has executed every transaction that any of them had received, so
    every one the old primary had an acknowledgement for from one of them.  From then
    on, with clients writing on the new primary, the next round makes it writable and
    the others replicate from it, and the round after that finds the cluster Degraded. *)
Theorem failed_primary_replaced {GS : GtidSets} {RC : ConflictRetry clusterSig} {AM : ApiMachinery} cl p up version secret pwd
    (W : Z → world clusterSig cluster_state) name w :
  (∀ c, refines (W c) (cluster_world cl c up version secret pwd)) →
  served cl p up version secret pwd false → intact cl p up w → orphaned cl p up (cs_servers w) →
  Replicas (Spec cl) / 2 < go_len (alive cl p up) → (∀ i, i ∈ alive cl p up → needSwitch (cs_pods w i) = false) →
  (∃ o w', runs_in (W p) (do name) w o w') ∧
  ∀ o w', runs_in (W p) (do name) w o w' →
    o = Return true ∧ ∃ c, c ∈ alive cl p up ∧ CurrentPrimaryIndex (cs_status w') = c ∧
    (∀ i t, i ∈ alive cl p up → received (cs_servers w i) t → gtids (executed (cs_servers w' c)) t) ∧
    (∃ o1 w1, runs_in (W c) (do name) w' o1 w1) ∧
    ∀ o1 w1, runs_in (W c) (do name) w' o1 w1 →
      (∃ redo, o1 = Return redo) ∧ settled cl c up (cs_servers w1) ∧
      ∀ o2 w2, runs_in (W c) (GatherStatus name) w1 o2 w2 →
        ∃ ss, o2 = Return ss ∧ Primary ss = c ∧ State ss = StateDegraded.
Proof.
  intros HW Hdown Hok How Hmost Hcalm. split; [by eapply refines_runs|]. intros o w' Hrun.
  destruct (refines_spec _ _ _ _ _ _ _ (HW p) (wpc_do_failed cl p up version secret pwd Hdown name w Hok How Hmost) Hrun)
    as (-> & c & Hc & Hok' & Hns & Hv & Htaken). pose proof (served_successor _ _ c _ _ _ _ Hdown Hc) as Hheal.
  split; [done|]. exists c. split_and!; [done|apply Hok'| |by eapply refines_runs|].
  - intros i t Hi Ht. apply (Htaken i Hi). by apply (v_received p up _ _ i t Hv).
  - intros o1 w1 Hrun1. rewrite Hcalm in Hns by done.
    destruct (refines_spec _ _ _ _ _ _ _ (HW c) (wpc_do cl c up version secret pwd Hheal name w' Hok' Hns) Hrun1)
      as (Ho & Hok1 & Hs & _ & _). split_and!; [exact Ho|exact Hs|]. intros o2 w2 Hrun2.
    destruct (refines_spec _ _ _ _ _ _ _ (HW c) (wpc_GatherStatus cl c up version secret pwd Hheal name w1 Hok1) Hrun2)
      as [Hd (ss & -> & Hnow)]. exists ss. split; [done|]. split; [apply Hnow|].
    assert (settled cl c up (cs_servers w2)) as Hs2 by (eapply settled_config; [intros i; by apply (evolve_config c up), Hd|exact Hs]).
    pose proof (alive_without cl p c up (h_up Hdown) Hc) as Hcount. pose proof (alive_bound cl p up (h_primary Hdown)) as Hbound.
    eapply (settled_degraded cl c up version secret pwd); [done|exact Hnow|by eapply intact_drifts|done|lia|lia].
Qed.

(** ** A cluster without its primary *)

Definition without_primary (i : Z) : bool := (i =? 1) || (i =? 2).

Definition failed_cluster : cluster_state :=
  {| cs_status := sample_cluster_status 0; cs_pods := λ i, sample_pod i true false; cs_servers := replicating_servers; cs_pending := None |}.

Lemma sample_served : served (sample_cluster 3 0) 0 without_primary "8.4" (ToSecret sample_password) sample_password false.
Proof. constructor; try done; cbn; try lia; by right. Qed.

Lemma without_primary_cases (i : Z) : without_primary i = true → i = 1 ∨ i = 2.
Proof. unfold without_primary. intros [?|?]%orb_true_iff; bool_cases; auto. Qed.

Lemma failed_intact : intact (GS := one_source) (sample_cluster 3 0) 0 without_primary failed_cluster.
Proof.
  constructor; cbn; try done; [by left|by intros i _; apply replicating_within|]. intros i Hi _ t Ht. by destruct Ht.
Qed.

Lemma failed_orphaned : orphaned (GS := one_source) (sample_cluster 3 0) 0 without_primary replicating_servers.
Proof.
  assert (∀ i, i ∈ alive (sample_cluster 3 0) 0 without_primary → i = 1 ∨ i = 2) as Hcases
    by (intros i (_ & ?%without_primary_cases & _)%elem_of_alive; done).
  constructor.
  - intros i [->| ->]%without_primary_cases; cbn; lia.
  - by intros i [->| ->]%Hcases.
  - by intros i [->| ->]%Hcases.
  - by intros i [->| ->]%Hcases rs [= <-].
  - assert (∀ i k, i = 1 ∨ i = 2 → received (GS := one_source) (replicating_servers i) k ↔ 0 ≤ k ≤ if i =? 1 then 4 else 5) as Hrec.
    { intros i k [->| ->]; unfold received; cbn; unfold first_transactions; cbn; naive_solver. }
    intros i j Hi%without_primary_cases _ Hj%without_primary_cases _. setoid_rewrite Hrec; [|done..].
    destruct Hi as [->| ->], Hj as [->| ->]; cbn; (left; intros; lia) || (right; intros; lia).
  - by intros i [->| ->]%Hcases.
  - intros i j [->| ->]%Hcases _ k Hk; by destruct Hk.
Qed.

Lemma failed_primary_replaced_witness :
  let world c := cluster_world (GS := one_source) (sample_cluster 3 0) c without_primary "8.4" (ToSecret sample_password) sample_password in
  ∃ w' c w1, runs_in (world 0) (do (RC := retry_five) (AM := apimachinery_inplace) sample_name) failed_cluster (Return true) w' ∧
    (c = 1 ∨ c = 2) ∧ CurrentPrimaryIndex (cs_status w') = c ∧ gtids (GtidSets := one_source) (executed (cs_servers w' c)) 5 ∧
    settled (sample_cluster 3 0) c without_primary (cs_servers w1) ∧
    ∀ o2 w2, runs_in (world c) (GatherStatus sample_name) w1 o2 w2 → ∃ ss, o2 = Return ss ∧ Primary ss = c ∧ State ss = StateDegraded.
Proof.
  intros world. destruct (failed_primary_replaced (GS := one_source) (RC := retry_five) (AM := apimachinery_inplace) (sample_cluster 3 0) 0
    without_primary "8.4" (ToSecret sample_password) sample_password world sample_name failed_cluster
    (λ c, cluster_world_refines (sample_cluster 3 0) c _ _ _ _ eq_refl) sample_served failed_intact failed_orphaned eq_refl (λ _ _, eq_refl))
    as [(o & w' & Hrun) H].
  destruct (H o w' Hrun) as (-> & c & Hc & Hcur & Hall & (o1 & w1 & Hrun1) & Hnext). exists w', c, w1.
  split; [exact Hrun|]. split; [apply elem_of_alive in Hc as (_ & ? & _); by apply without_primary_cases|]. split; [exact Hcur|].
  split; [|split; [by apply (Hnext o1 w1 Hrun1)|exact (proj2 (proj2 (Hnext o1 w1 Hrun1)))]].
  apply (Hall 2); [by apply elem_of_alive|]. left. cbn. split; [done|]. vm_compute. split; discriminate.
Defined.
