(* ===== verification/Manager.v ===== *)
(** * The cluster manager (clustering/manager.go) and the process loop

    [clusterManager] keeps one goroutine per MySQLCluster.  Its methods run
    under a mutex, the loops of the goroutines ([managerProcess.Start]) run
    beside them; the state machine interleaves both.  [StopAll] keeps the mutex
    while it waits for the goroutines. *)

From S2P Require Import Prelude GoLib.
#[local] Open Scope Z_scope.

(** ** Processes *)

(** Where the loop of a process is: at its [select], in a round, or returned,
    with the metrics deleted or set to NaN by the deferred function. *)
Inductive phase :=
| Waiting
| Working
| Quit (deletedMetrics : bool).

(** [pr_ch] is the channel of capacity one, [pr_cancelled] its context. *)
(* clustering/process.go :: managerProcess *)
Record process := {
  pr_name : string;
  pr_ch : option string;
  pr_cancelled : bool;
  pr_pause : bool;
  pr_phase : phase
}.

(* clustering/process.go :: newManagerProcess *)
Definition newManagerProcess (name : string) : process :=
  {| pr_name := name; pr_ch := None; pr_cancelled := false; pr_pause := false; pr_phase := Waiting |}.

(* clustering/process.go :: managerProcess.Update *)
Definition process_Update (origin : string) (p : process) : process :=
  match pr_ch p with
  | Some _ => p
  | None => {| pr_name := pr_name p; pr_ch := Some origin; pr_cancelled := pr_cancelled p;
               pr_pause := pr_pause p; pr_phase := pr_phase p |}
  end.

(* clustering/process.go :: managerProcess.Cancel *)
Definition process_Cancel (p : process) : process :=
  {| pr_name := pr_name p; pr_ch := pr_ch p; pr_cancelled := true; pr_pause := pr_pause p;
     pr_phase := pr_phase p |}.

(* clustering/process.go :: managerProcess.Pause *)
Definition process_Pause (p : process) : process :=
  {| pr_name := pr_name p; pr_ch := pr_ch p; pr_cancelled := true; pr_pause := true;
     pr_phase := pr_phase p |}.

(** What can happen in the loop. *)
Inductive loop_event :=
| Receive          (* case origin = <-p.ch *)
| Tick             (* case <-tick.C *)
| CtxDone          (* case <-ctx.Done() *)
| Finish (redo failed : bool).

Definition set_phase (ph : phase) (ch : option string) (p : process) : process :=
  {| pr_name := pr_name p; pr_ch := ch; pr_cancelled := pr_cancelled p; pr_pause := pr_pause p;
     pr_phase := ph |}.

(** One step of the loop; [None] when the event cannot happen.  When several
    cases of the [select] are ready any of them may be taken. *)
(* clustering/process.go :: Start *)
Definition loop_step (e : loop_event) (p : process) : option process :=
  match e, pr_phase p with
  | Receive, Waiting =>
      match pr_ch p with
      | Some _ => Some (set_phase Working None p)
      | None => None
      end
  | Tick, Waiting => Some (set_phase Working (pr_ch p) p)
  | CtxDone, Waiting =>
      if pr_cancelled p then Some (set_phase (Quit (negb (pr_pause p))) (pr_ch p) p) else None
  | Finish redo failed, Working =>
      let p := set_phase Waiting (pr_ch p) p in
      Some (if negb failed && redo then process_Update "redo" p else p)
  | _, _ => None
  end.

(** ** The manager *)

(** [cm_processes] maps a key to the position of its process in [cm_procs],
    the goroutines ever started; [cm_waiting] while [StopAll] is in
    [m.wg.Wait()]. *)
(* clustering/manager.go :: clusterManager *)
Record clusterManager := {
  cm_processes : gmap string nat;
  cm_procs : list process;
  cm_stopped : bool;
  cm_waiting : bool
}.

(* clustering/manager.go :: NewClusterManager *)
Definition NewClusterManager : clusterManager :=
  {| cm_processes := ∅; cm_procs := []; cm_stopped := false; cm_waiting := false |}.

Definition with_procs (procs : list process) (m : clusterManager) : clusterManager :=
  {| cm_processes := cm_processes m; cm_procs := procs; cm_stopped := cm_stopped m;
     cm_waiting := cm_waiting m |}.

(* clustering/manager.go :: update *)
Definition update (key : string) (noStart : bool) (origin : string) (m : clusterManager) : clusterManager :=
  if cm_stopped m then m else
  match cm_processes m !! key with
  | Some id => with_procs (alter (process_Update origin) id (cm_procs m)) m
  | None =>
      if noStart then m else
      {| cm_processes := <[key := length (cm_procs m)]> (cm_processes m);
         cm_procs := cm_procs m ++ [process_Update origin (newManagerProcess key)];
         cm_stopped := cm_stopped m; cm_waiting := cm_waiting m |}
  end.

(* clustering/manager.go :: clusterManager.Update *)
Definition Update (key origin : string) : clusterManager → clusterManager := update key false origin.

(* clustering/manager.go :: clusterManager.UpdateNoStart *)
Definition UpdateNoStart (key origin : string) : clusterManager → clusterManager := update key true origin.

(** [Stop] and [Pause] differ in what they do to the process. *)
Definition remove (f : process → process) (key : string) (m : clusterManager) : clusterManager :=
  match cm_processes m !! key with
  | None => m
  | Some id =>
      {| cm_processes := delete key (cm_processes m); cm_procs := alter f id (cm_procs m);
         cm_stopped := cm_stopped m; cm_waiting := cm_waiting m |}
  end.

(* clustering/manager.go :: clusterManager.Stop *)
Definition Stop (key : string) : clusterManager → clusterManager := remove process_Cancel key.

(* clustering/manager.go :: clusterManager.Pause *)
Definition Pause (key : string) : clusterManager → clusterManager := remove process_Pause key.

(** [StopAll] up to [m.wg.Wait()], and from there on. *)
(* clustering/manager.go :: clusterManager.StopAll *)
Definition stopAllBegin (m : clusterManager) : clusterManager :=
  {| cm_processes := ∅;
     cm_procs := imap (λ id p, if bool_decide (cm_processes m !! pr_name p = Some id)
                               then process_Cancel p else p) (cm_procs m);
     cm_stopped := cm_stopped m; cm_waiting := true |}.

Definition stopAllEnd (m : clusterManager) : clusterManager :=
  {| cm_processes := cm_processes m; cm_procs := cm_procs m; cm_stopped := true; cm_waiting := false |}.

Definition has_quit (p : process) : bool := match pr_phase p with Quit _ => true | _ => false end.

(** ** The state machine *)

Inductive label :=
| LUpdate (key : string) (noStart : bool) (origin : string)
| LStop (key : string)
| LPause (key : string)
| LStopAll
| LStopAllDone
| LLoop (id : nat) (e : loop_event).

(** A step of the whole; the methods need the mutex. *)
Inductive step : clusterManager → label → clusterManager → Prop :=
| step_update m key noStart origin :
    cm_waiting m = false → step m (LUpdate key noStart origin) (update key noStart origin m)
| step_stop m key : cm_waiting m = false → step m (LStop key) (Stop key m)
| step_pause m key : cm_waiting m = false → step m (LPause key) (Pause key m)
| step_stop_all m : cm_waiting m = false → step m LStopAll (stopAllBegin m)
| step_stop_all_done m :
    cm_waiting m = true → forallb has_quit (cm_procs m) = true → step m LStopAllDone (stopAllEnd m)
| step_loop m id e p p' :
    cm_procs m !! id = Some p → loop_step e p = Some p' →
    step m (LLoop id e) (with_procs (<[id := p']> (cm_procs m)) m).

Inductive steps : clusterManager → list label → clusterManager → Prop :=
| steps_nil m : steps m [] m
| steps_cons m l m' ls m'' : step m l m' → steps m' ls m'' → steps m (l :: ls) m''.

Definition reachable (m : clusterManager) : Prop := ∃ ls, steps NewClusterManager ls m.

(** ** The invariant *)

Definition live (p : process) : Prop := pr_cancelled p = false.

Record manager_inv (m : clusterManager) : Prop := {
  (** the map holds exactly the live processes, under their names *)
  mi_map : ∀ key id, cm_processes m !! key = Some id →
    ∃ p, cm_procs m !! id = Some p ∧ pr_name p = key ∧ live p;
  mi_live : ∀ id p, cm_procs m !! id = Some p → live p → cm_processes m !! pr_name p = Some id;
  (** only cancelled processes quit, deleting their metrics unless paused *)
  mi_quit : ∀ id p d, cm_procs m !! id = Some p → pr_phase p = Quit d → ¬ live p ∧ d = negb (pr_pause p);
  mi_pause : ∀ id p, cm_procs m !! id = Some p → pr_pause p = true → ¬ live p;
  (** from [StopAll] on nothing is live; once it returned everything has quit *)
  mi_waiting : cm_waiting m = true ∨ cm_stopped m = true → cm_processes m = ∅;
  mi_stopped : cm_stopped m = true → cm_waiting m = false →
    ∀ id p, cm_procs m !! id = Some p → has_quit p = true
}.

(** ** Preservation *)

Lemma alter_lookup (f : process → process) (l : list process) (i j : nat) p :
  alter f i l !! j = Some p → ∃ p0, l !! j = Some p0 ∧ p = if decide (i = j) then f p0 else p0.
Proof.
  destruct (decide (i = j)) as [->|Hne].
  - rewrite list_lookup_alter_eq. intros (p0 & Hl & ->)%fmap_Some. eauto.
  - rewrite list_lookup_alter_ne by done. eauto.
Qed.

(** Steps of a loop keep what the invariant says about a process. *)
Lemma process_Update_fields o p :
  pr_name (process_Update o p) = pr_name p ∧ pr_cancelled (process_Update o p) = pr_cancelled p ∧
  pr_pause (process_Update o p) = pr_pause p ∧ pr_phase (process_Update o p) = pr_phase p.
Proof. unfold process_Update. by destruct (pr_ch p). Qed.

Lemma loop_step_fields e p p' :
  loop_step e p = Some p' →
  pr_name p' = pr_name p ∧ pr_cancelled p' = pr_cancelled p ∧ pr_pause p' = pr_pause p ∧
  has_quit p = false ∧
  (∀ d, pr_phase p' = Quit d → pr_cancelled p = true ∧ d = negb (pr_pause p)).
Proof.
  unfold loop_step, has_quit.
  destruct e as [| | |redo failed], (pr_phase p) eqn:Hph; try done.
  - destruct (pr_ch p); [|done]. intros [= <-]. done.
  - intros [= <-]. done.
  - destruct (pr_cancelled p) eqn:Hc; [|done]. intros [= <-]. simpl. naive_solver.
  - intros [= <-].
    destruct (negb failed && redo); simpl; [|done].
    destruct (process_Update_fields "redo" (set_phase Waiting (pr_ch p) p)) as (-> & -> & -> & ->). done.
Qed.

(** The processes are changed one by one, keeping their names and whether they
    are live. *)
Lemma manager_inv_same m procs :
  manager_inv m → length procs = length (cm_procs m) →
  (∀ id p, procs !! id = Some p → ∃ p0, cm_procs m !! id = Some p0 ∧ pr_name p = pr_name p0 ∧
     pr_cancelled p = pr_cancelled p0 ∧ pr_pause p = pr_pause p0 ∧
     (pr_phase p = pr_phase p0 ∨ has_quit p0 = false ∧
        ∀ d, pr_phase p = Quit d → ¬ live p ∧ d = negb (pr_pause p))) →
  manager_inv (with_procs procs m).
Proof.
  intros Hinv Hlen Hsame. destruct Hinv as [Hmap Hlive Hquit Hpause Hwait Hstop].
  constructor; simpl; unfold live in *.
  - intros key id Hk. destruct (Hmap key id Hk) as (p0 & Hp0 & Hn & Hl).
    destruct (lookup_lt_is_Some_2 procs id) as [p Hp]; [rewrite Hlen; by eapply lookup_lt_Some|].
    exists p. destruct (Hsame id p Hp) as (p1 & Hp1 & ? & ? & _). simplify_eq. naive_solver.
  - intros id p Hp Hl. destruct (Hsame id p Hp) as (p1 & Hp1 & -> & Hc & _).
    apply Hlive; [done|congruence].
  - intros id p d Hp Hd. destruct (Hsame id p Hp) as (p1 & Hp1 & _ & Hc & Hpa & [Hph|[_ Hq]]); [|auto].
    rewrite Hc, Hpa. eapply Hquit; [done|congruence].
  - intros id p Hp Hpa. destruct (Hsame id p Hp) as (p1 & Hp1 & _ & -> & Hpa' & _).
    eapply Hpause; [done|congruence].
  - done.
  - intros Hs Hw id p Hp. destruct (Hsame id p Hp) as (p1 & Hp1 & _ & _ & _ & Hq).
    specialize (Hstop Hs Hw id p1 Hp1). destruct Hq as [Hph|[Hn _]]; [|congruence].
    unfold has_quit in *. by rewrite Hph.
Qed.

Lemma manager_inv_init : manager_inv NewClusterManager.
Proof. constructor; simpl; try done; intros *; by rewrite ?lookup_empty, ?lookup_nil. Qed.

Lemma manager_inv_update m key noStart origin :
  cm_waiting m = false → manager_inv m → manager_inv (update key noStart origin m).
Proof.
  intros Hw Hinv. unfold update. destruct (cm_stopped m) eqn:Hst; [done|].
  destruct (cm_processes m !! key) as [id|] eqn:Hk.
  - apply manager_inv_same; [done|by rewrite length_alter|].
    intros j p (p0 & Hp0 & ->)%alter_lookup. exists p0. split; [done|].
    destruct (process_Update_fields origin p0) as (? & ? & ? & ?). destruct (decide (id = j)); auto.
  - destruct noStart; [done|]. destruct Hinv as [Hmap Hlive Hquit Hpause Hwait Hstop].
    set (p := process_Update origin (newManagerProcess key)).
    assert (∀ j q, (cm_procs m ++ [p]) !! j = Some q →
              cm_procs m !! j = Some q ∨ (j = length (cm_procs m) ∧ q = p)) as Hsplit.
    { intros j q [?|[Hge Hq]]%lookup_app_Some; [by left|]. right.
      apply list_lookup_singleton_Some in Hq as [? ->]. split; [lia|done]. }
    constructor; simpl; unfold live in *.
    + intros k j [[-> <-]|[Hne Hj]]%lookup_insert_Some.
      * exists p. split; [|done]. by rewrite lookup_app_r, Nat.sub_diag by lia.
      * destruct (Hmap k j Hj) as (q & Hq & ?). exists q. split; [|done]. by apply lookup_app_l_Some.
    + intros j q [Hj|[-> ->]]%Hsplit Hl; [|by rewrite lookup_insert_eq].
      rewrite lookup_insert_ne; [by apply Hlive|]. intros ->. by rewrite (Hlive j q Hj Hl) in Hk.
    + intros j q d [Hj|[-> ->]]%Hsplit Hd; [by eapply Hquit|done].
    + intros j q [Hj|[-> ->]]%Hsplit Hpa; [by eapply Hpause|done].
    + intros [?|?]; congruence.
    + done.
Qed.

Lemma manager_inv_remove m f key :
  manager_inv m →
  (∀ p, pr_name (f p) = pr_name p ∧ pr_cancelled (f p) = true ∧ pr_phase (f p) = pr_phase p) →
  manager_inv (remove f key m).
Proof.
  intros Hinv Hf. unfold remove. destruct (cm_processes m !! key) as [id|] eqn:Hk; [|done].
  destruct Hinv as [Hmap Hlive Hquit Hpause Hwait Hstop].
  destruct (Hmap key id Hk) as (p & Hp & Hname & Hl). destruct (Hf p) as (Hf1 & Hf2 & Hf3).
  assert (∀ j q, alter f id (cm_procs m) !! j = Some q →
            (j = id ∧ q = f p) ∨ (j ≠ id ∧ cm_procs m !! j = Some q)) as Hsplit.
  { intros j q (q0 & Hq0 & ->)%alter_lookup. destruct (decide (id = j)) as [<-|Hne]; [left|by right].
    by simplify_eq. }
  constructor; simpl; unfold live in *.
  - intros k j [Hne Hj]%lookup_delete_Some. destruct (Hmap k j Hj) as (q & Hq & Hn & Hql).
    exists q. rewrite list_lookup_alter_ne; [done|]. intros ->. simplify_eq.
  - intros j q [[-> ->]|[Hne Hj]]%Hsplit Hql; [congruence|].
    rewrite lookup_delete_ne; [by apply Hlive|]. intros ->. rewrite (Hlive j q Hj Hql) in Hk. congruence.
  - intros j q d [[-> ->]|[Hne Hj]]%Hsplit Hd; [|by eapply Hquit].
    rewrite Hf3 in Hd. by destruct (Hquit id p d Hp Hd).
  - intros j q [[-> ->]|[Hne Hj]]%Hsplit Hpa; [congruence|by eapply Hpause].
  - intros H. rewrite (Hwait H) in Hk. by rewrite lookup_empty in Hk.
  - intros Hs Hw. rewrite Hwait in Hk by auto. by rewrite lookup_empty in Hk.
Qed.

Lemma manager_inv_stopAll m : manager_inv m → manager_inv (stopAllBegin m).
Proof.
  intros [Hmap Hlive Hquit Hpause Hwait Hstop].
  assert (∀ j q, cm_procs (stopAllBegin m) !! j = Some q →
            ∃ p, cm_procs m !! j = Some p ∧ pr_name q = pr_name p ∧ pr_phase q = pr_phase p ∧
                 pr_pause q = pr_pause p ∧ pr_cancelled q = true) as Hall.
  { intros j q Hq. simpl in Hq. rewrite list_lookup_imap in Hq. apply fmap_Some in Hq as (p & Hp & ->).
    exists p. split; [done|]. case_bool_decide as Hm; [done|]. split_and!; [done..|].
    destruct (pr_cancelled p) eqn:Hc; [done|]. by destruct Hm; apply Hlive. }
  constructor; unfold live in *.
  - intros k j Hj. simpl in Hj. by rewrite lookup_empty in Hj.
  - intros j q Hq Hl. destruct (Hall j q Hq) as (p & _ & _ & _ & _ & Hc). congruence.
  - intros j q d Hq Hd. destruct (Hall j q Hq) as (p & Hp & _ & Hph & Hpa & Hc).
    split; [congruence|]. rewrite Hpa. eapply Hquit; [done|congruence].
  - intros j q Hq _. destruct (Hall j q Hq) as (p & _ & _ & _ & _ & Hc). congruence.
  - done.
  - done.
Qed.

Lemma manager_inv_step m l m' : step m l m' → manager_inv m → manager_inv m'.
Proof.
  intros Hstep Hinv. destruct Hstep as [m k n o Hw|m k Hw|m k Hw|m Hw|m Hw Hq|m id e p p' Hp Hl].
  - by apply manager_inv_update.
  - by apply manager_inv_remove.
  - by apply manager_inv_remove.
  - by apply manager_inv_stopAll.
  - destruct Hinv as [Hmap Hlive Hquit Hpause Hwait Hstop]. constructor; simpl; auto.
    intros _ _ id p Hp. rewrite forallb_forall in Hq. apply Hq, list_elem_of_In.
    by eapply list_elem_of_lookup_2.
  - destruct (loop_step_fields _ _ _ Hl) as (Hn & Hc & Hpa & Hnq & Hd).
    apply manager_inv_same; [done|by rewrite length_insert|].
    intros j q [(-> & <- & _)|[Hne Hj]]%list_lookup_insert_Some; [|eauto 10].
    exists p. split_and!; [done..|]. right. split; [done|]. intros d Hq. unfold live.
    destruct (Hd d Hq) as [Hcd ->]. split; congruence.
Qed.

Lemma steps_inv m ls m' : steps m ls m' → manager_inv m → manager_inv m'.
Proof. induction 1; [done|]. intros. by eauto using manager_inv_step. Qed.

Lemma reachable_inv m : reachable m → manager_inv m.
Proof. intros [ls Hls]. eapply steps_inv; [done|]. apply manager_inv_init. Qed.

(** ** Theorems *)

(** C27. One maintainer per cluster: in every reachable state there is at most
    one goroutine per MySQLCluster whose context is not cancelled, and the
    manager's map holds exactly these goroutines under their names; a goroutine
    returns only after it was cancelled, and it deletes the metrics of the
    cluster unless it was paused. *)
Theorem one_live_process_per_cluster m :
  reachable m →
  (∀ id p id' p', cm_procs m !! id = Some p → cm_procs m !! id' = Some p' → live p → live p' →
     pr_name p = pr_name p' → id = id') ∧
  (∀ key id, cm_processes m !! key = Some id ↔
     ∃ p, cm_procs m !! id = Some p ∧ pr_name p = key ∧ live p) ∧
  (∀ id p d, cm_procs m !! id = Some p → pr_phase p = Quit d → ¬ live p ∧ d = negb (pr_pause p)).
Proof.
  intros Hinv%reachable_inv. split_and!.
  - intros id p id' p' Hp Hp' Hl Hl' Hn. apply (mi_live m Hinv) in Hp, Hp'; [|done..].
    rewrite Hn in Hp. congruence.
  - intros key id. split; [apply (mi_map m Hinv)|]. intros (p & Hp & <- & Hl). by apply (mi_live m Hinv).
  - apply (mi_quit m Hinv).
Qed.

(** C35. No update is lost: after [Update] of a manager that was not stopped,
    the cluster has a live goroutine with a pending notification, and when that
    goroutine is at its [select] it can take the notification and start a round;
    rounds never consume more than one notification, so an update that arrives
    during a round causes another round. *)
Theorem update_is_not_lost m key origin :
  reachable m → cm_stopped m = false → cm_waiting m = false →
  let m' := Update key origin m in
  ∃ id p, cm_processes m' !! key = Some id ∧ cm_procs m' !! id = Some p ∧ pr_name p = key ∧ live p ∧
    is_Some (pr_ch p) ∧
    (pr_phase p = Waiting → loop_step Receive p = Some (set_phase Working None p)) ∧
    (pr_phase p = Working → ∀ redo failed, ∃ p', loop_step (Finish redo failed) p = Some p' ∧
       pr_phase p' = Waiting ∧ is_Some (pr_ch p')).
Proof.
  intros Hinv%reachable_inv Hs Hw m'. unfold m', Update, update. rewrite Hs.
  assert (∀ p, is_Some (pr_ch p) →
    (pr_phase p = Waiting → loop_step Receive p = Some (set_phase Working None p)) ∧
    (pr_phase p = Working → ∀ redo failed, ∃ p', loop_step (Finish redo failed) p = Some p' ∧
       pr_phase p' = Waiting ∧ is_Some (pr_ch p'))) as Hch.
  { intros p [o Ho]. split; [intros Hph; simpl; by rewrite Hph, Ho|].
    intros Hph redo failed. simpl. rewrite Hph. eexists. split; [done|].
    unfold process_Update. simpl. rewrite Ho. destruct (_ && _); simpl; rewrite ?Ho; eauto. }
  assert (∀ p, is_Some (pr_ch (process_Update origin p))) as Hup
    by (intros p; unfold process_Update; destruct (pr_ch p) eqn:E; rewrite ?E; eauto).
  destruct (cm_processes m !! key) as [id|] eqn:Hk; simpl.
  - destruct (mi_map m Hinv key id Hk) as (p & Hp & Hn & Hl). exists id, (process_Update origin p).
    rewrite list_lookup_alter_eq, Hp. destruct (process_Update_fields origin p) as (-> & Hc & _ & _).
    unfold live. rewrite Hc. split_and!; try done; by apply Hch.
  - exists (length (cm_procs m)), (process_Update origin (newManagerProcess key)).
    rewrite lookup_insert_eq, lookup_app_r, Nat.sub_diag by lia. split_and!; try done; by apply Hch.
Qed.

(** [StopAll] is final: once it returned every goroutine has quit, no
    goroutine can take another step, and [Update] starts nothing any more. *)
Theorem stop_all_is_final m key noStart origin :
  reachable m → cm_stopped m = true → cm_waiting m = false →
  (∀ id p, cm_procs m !! id = Some p → has_quit p = true ∧ ∀ e, loop_step e p = None) ∧
  cm_processes m = ∅ ∧ update key noStart origin m = m.
Proof.
  intros Hinv%reachable_inv Hs Hw. split_and!.
  - intros id p Hp. pose proof (mi_stopped m Hinv Hs Hw id p Hp) as Hq. split; [done|].
    intros e. unfold has_quit in Hq. unfold loop_step. by destruct e, (pr_phase p).
  - apply (mi_waiting m Hinv). by right.
  - unfold update. by rewrite Hs.
Qed.

(** ** A sample run *)

Definition sample_manager : clusterManager := Update "ns/a" "test" NewClusterManager.

Lemma sample_manager_reachable : reachable sample_manager.
Proof. exists [LUpdate "ns/a" false "test"]. econstructor; [by apply step_update|constructor]. Qed.

Lemma one_live_process_per_cluster_witness :
  cm_processes sample_manager !! "ns/a" = Some 0%nat ↔
  ∃ p, cm_procs sample_manager !! 0%nat = Some p ∧ pr_name p = "ns/a" ∧ live p.
Proof. apply (proj1 (proj2 (one_live_process_per_cluster sample_manager sample_manager_reachable))). Defined.

Lemma update_is_not_lost_witness :
  ∃ id p, cm_processes (Update "ns/a" "again" sample_manager) !! "ns/a" = Some id ∧
    cm_procs (Update "ns/a" "again" sample_manager) !! id = Some p ∧ is_Some (pr_ch p).
Proof.
  destruct (update_is_not_lost sample_manager "ns/a" "again" sample_manager_reachable eq_refl eq_refl)
    as (id & p & H1 & H2 & _ & _ & H3 & _). exists id, p. done.
Defined.

Definition sample_stopping : clusterManager :=
  let m := stopAllBegin sample_manager in
  with_procs (<[0%nat := set_phase (Quit true) (Some "test") (process_Cancel (process_Update "test" (newManagerProcess "ns/a")))]> (cm_procs m)) m.

Lemma sample_stopped_reachable : reachable (stopAllEnd sample_stopping).
Proof.
  exists [LUpdate "ns/a" false "test"; LStopAll; LLoop 0 CtxDone; LStopAllDone].
  econstructor; [by apply step_update|]. econstructor; [by apply step_stop_all|].
  econstructor; [eapply step_loop; by vm_compute|].
  econstructor; [by apply step_stop_all_done|]. constructor.
Qed.

Lemma stop_all_is_final_witness :
  update "ns/b" false "test" (stopAllEnd sample_stopping) = stopAllEnd sample_stopping.
Proof.
  apply (proj2 (proj2 (stop_all_is_final (stopAllEnd sample_stopping) "ns/b" false "test"
    sample_stopped_reachable eq_refl eq_refl))).
Defined.
