(* ===== verification/StatefulSets.v ===== *)
(** * StatefulSets and their admission webhook (api/v1beta2/statefulset_webhhok.go)

    The fields of a StatefulSet MOCO reads or writes, and [StatefulSetDefaulter],
    which resets the partition of the rolling update whenever the specification
    changes.  [equality.Semantic.DeepEqual] and the decoder of the admission
    request are parameters. *)

From S2P Require Import Prelude GoLib Constants Api.
#[local] Open Scope Z_scope.

(** ** Data *)

Record RollingUpdateStrategy := {
  ru_Partition : option Z;          (* *int32 *)
  ru_MaxUnavailable : option string
}.

(** A claim template as deployed: [Storage()] of its requests, zero if absent. *)
Record ClaimTemplate := {
  ct_Name : string;
  ct_Storage : Z;
  ct_OwnerReferences : list OwnerReference;
  ct_Rest : json
}.

Record StatefulSetSpec := {
  sts_Replicas : option Z;          (* *int32 *)
  sts_MatchLabels : option (gmap string string);   (* Selector, nil or its MatchLabels *)
  sts_StrategyType : string;
  sts_RollingUpdate : option RollingUpdateStrategy;
  sts_VolumeClaimTemplates : list ClaimTemplate;
  sts_Template : json;              (* the Pod template and the remaining fields *)
  sts_Rest : json
}.

Record StatefulSetStatus := {
  sts_ObservedGeneration : Z;
  sts_ReadyReplicas : Z;
  sts_AvailableReplicas : Z;
  sts_CurrentReplicas : Z;
  sts_UpdatedReplicas : Z;
  sts_CurrentRevision : string;
  sts_UpdateRevision : string
}.

Record StatefulSet := {
  sts_Meta : Meta;
  sts_Spec : StatefulSetSpec;
  sts_Status : StatefulSetStatus
}.

#[export] Instance OwnerReference_eq_dec : EqDecision OwnerReference.
Proof. solve_decision. Defined.
#[export] Instance ClaimTemplate_eq_dec : EqDecision ClaimTemplate.
Proof. solve_decision. Defined.
#[export] Instance RollingUpdateStrategy_eq_dec : EqDecision RollingUpdateStrategy.
Proof. solve_decision. Defined.
#[export] Instance StatefulSetSpec_eq_dec : EqDecision StatefulSetSpec.
Proof. solve_decision. Defined.

(** [sts.Spec.UpdateStrategy.RollingUpdate = ru] and its type. *)
Definition set_strategy (typ : string) (ru : option RollingUpdateStrategy) (sp : StatefulSetSpec)
    : StatefulSetSpec :=
  {| sts_Replicas := sts_Replicas sp; sts_MatchLabels := sts_MatchLabels sp; sts_StrategyType := typ;
     sts_RollingUpdate := ru; sts_VolumeClaimTemplates := sts_VolumeClaimTemplates sp; sts_Template := sts_Template sp; sts_Rest := sts_Rest sp |}.

Definition set_RollingUpdate (ru : option RollingUpdateStrategy) (sts : StatefulSet) : StatefulSet :=
  {| sts_Meta := sts_Meta sts;
     sts_Spec := set_strategy (sts_StrategyType (sts_Spec sts)) ru (sts_Spec sts);
     sts_Status := sts_Status sts |}.

(** The partition in force: [RollingUpdate.Partition] when both pointers are set. *)
Definition partition_of (sts : StatefulSet) : option Z :=
  ru ← sts_RollingUpdate (sts_Spec sts); ru_Partition ru.

(** [sts.Spec.UpdateStrategy.RollingUpdate.Partition = &p]: the other fields of
    [RollingUpdate] stay. *)
Definition set_partition (p : Z) (sts : StatefulSet) : StatefulSet :=
  set_RollingUpdate ((λ ru, {| ru_Partition := Some p; ru_MaxUnavailable := ru_MaxUnavailable ru |})
                       <$> sts_RollingUpdate (sts_Spec sts)) sts.

(** ** The defaulter *)

(** [equality.Semantic.DeepEqual] on specifications; quantities and nil or
    empty collections have one representation each here, so it is equality. *)
Class SpecEquality := {
  Spec_DeepEqual : StatefulSetSpec → StatefulSetSpec → bool;
  Spec_DeepEqual_eq a b : Spec_DeepEqual a b = true ↔ a = b
}.

#[refine] Definition spec_equality_dec : SpecEquality :=
  {| Spec_DeepEqual a b := bool_decide (a = b) |}.
Proof. intros a b. apply bool_decide_eq_true. Defined.

Inductive Operation := OpCreate | OpUpdate | OpDelete | OpConnect.

(** [admission.Request]: the operation and the raw old object, nil or bytes. *)
Record AdmissionRequest := {
  adm_Operation : Operation;
  adm_OldObject : option string
}.

(** [GroupVersion.String()]. *)
(* api/v1beta2/groupversion_info.go:12-13 GroupVersion *)
Definition GroupVersion_String : string := "moco.cybozu.com/v1beta2".

(* api/v1beta2/groupversion_info.go:14-14 GroupVersion *)
Definition GroupVersion_Group : string := "moco.cybozu.com".

Section defaulter.
Context {EQ : SpecEquality}.
(** [unstructured.UnstructuredJSONScheme.Decode]. *)
Variable Decode : string → extres StatefulSet.

(* api/v1beta2/statefulset_webhhok.go :: readStatefulSet *)
Definition readStatefulSet (raw : string) : extres StatefulSet := Decode raw.

(** [&RollingUpdateStatefulSetStrategy{Partition: new(n)}];
    it panics when [Replicas] is nil. *)
Definition resetPartition (sts : StatefulSet) : outcome StatefulSet :=
  match sts_Replicas (sts_Spec sts) with
  | None => Panic "nil pointer dereference"
  | Some n => Return (set_RollingUpdate (Some {| ru_Partition := Some n; ru_MaxUnavailable := None |}) sts)
  end.

(* api/v1beta2/statefulset_webhhok.go :: Default *)
Definition StatefulSetDefaulter_Default (rq : extres AdmissionRequest) (sts : StatefulSet)
    : outcome StatefulSet :=
  match rq with
  | inl e => Error (ErrWrap "failed to get admission request from context" e)
  | inr req =>
  match adm_Operation req with
  | OpDelete | OpConnect => Return sts
  | OpCreate | OpUpdate =>
  match meta_OwnerReferences (sts_Meta sts) with
  | [owner] =>
      if (owner_Kind owner <>s "MySQLCluster") && (owner_APIVersion owner <>s GroupVersion_String)
      then Return sts else
      if map_str (meta_Annotations (sts_Meta sts)) AnnForceRollingUpdate =s "true"
      then Return (set_RollingUpdate None sts) else
      match partition_of sts with
      | None => resetPartition sts
      | Some partition =>
          match adm_OldObject req with
          | None => Return sts
          | Some raw =>
              match readStatefulSet raw with
              | inl e => Error (ErrWrap "failed to read old statefulset" e)
              | inr oldSts =>
                  match partition_of oldSts with
                  | None => Panic "nil pointer dereference"
                  | Some oldPartition =>
                      let newSpec := set_strategy (sts_StrategyType (sts_Spec oldSts))
                                       (sts_RollingUpdate (sts_Spec oldSts)) (sts_Spec sts) in
                      if negb (partition =? oldPartition) && Spec_DeepEqual newSpec (sts_Spec oldSts)
                      then Return sts
                      else resetPartition sts
                  end
              end
          end
      end
  | _ => Return sts
  end end end.
End defaulter.
