(* ===== verification/Webhook.v ===== *)
(** * Admission of MySQLClusters and BackupPolicies (api/v1beta2)

    The defaulting and validating webhooks: [mySQLClusterAdmission] with
    [MySQLClusterSpec.validateCreate] and [validateUpdate], and
    [backupPolicyAdmission].  The cron parser, the finalizer helpers of
    controller-runtime and [equality.Semantic.DeepEqual] are parameters. *)

From S2P Require Import Prelude Prog GoLib Constants Api K8s StatefulSets.
#[local] Open Scope Z_scope.

(** ** Errors on fields (k8s.io/apimachinery/pkg/util/validation/field) *)

(** A path: names of fields and indices of lists. *)
Inductive path_elem := Child (name : string) | Index (i : Z).

Inductive field_error :=
| Required (p : list path_elem) (detail : string)
| Invalid (p : list path_elem) (detail : string)
| Forbidden (p : list path_elem) (detail : string)
| InternalError (p : list path_elem) (e : error).

(** [apierrors.NewInvalid(kind, name, errs)] and the other errors of a webhook;
    [None] admits the object.  The warnings are always nil. *)
Inductive rejection :=
| NewInvalid (kind name : string) (errs : list field_error)
| RejectError (e : error).

Definition invalid_if_any (kind name : string) (errs : list field_error) : option rejection :=
  match errs with [] => None | _ => Some (NewInvalid kind name errs) end.

(** ** Objects and calls *)

Inductive wcall :=
| WGetStorageClass (name : string)
| WListStorageClasses
| WListClusters (namespace : string)
| WRand (n : Z).                       (* crypto/rand.Read into n bytes *)

Definition wresp (c : wcall) : Type :=
  match c with
  | WGetStorageClass _ => extres StorageClass
  | WListStorageClasses => extres (list StorageClass)
  | WListClusters _ => extres (list MySQLCluster)
  | WRand _ => extres (list Z)
  end.

Definition webhookSig : signature := {| call := wcall; resp := wresp |}.
Definition wcall_ (c : wcall) : prog webhookSig (wresp c) := @perform webhookSig c.

Definition set_ServerIDBase (b : Z) (s : MySQLClusterSpec) : MySQLClusterSpec :=
  {| Replicas := Replicas s; PodTemplate := PodTemplate s;
     VolumeClaimTemplates := VolumeClaimTemplates s;
     PrimaryServiceTemplate := PrimaryServiceTemplate s;
     ReplicaServiceTemplate := ReplicaServiceTemplate s;
     MySQLConfigMapName := MySQLConfigMapName s;
     ReplicationSourceSecretName := ReplicationSourceSecretName s; Collectors := Collectors s;
     ServerIDBase := b; MaxDelaySeconds := MaxDelaySeconds s;
     MaxDelaySecondsForPodDeletion := MaxDelaySecondsForPodDeletion s;
     StartupWaitSeconds := StartupWaitSeconds s; LogRotationSchedule := LogRotationSchedule s;
     LogRotationSize := LogRotationSize s; BackupPolicyName := BackupPolicyName s;
     Restore := Restore s; DisableSlowQueryLogContainer := DisableSlowQueryLogContainer s;
     SlowQueryLogConfigTmpl := SlowQueryLogConfigTmpl s; AgentUseLocalhost := AgentUseLocalhost s;
     InitializeTimezoneData := InitializeTimezoneData s; Offline := Offline s |}.

(** ** Validation of a specification *)

Section validate.
(** [cron.ParseStandard] of robfig/cron. *)
Variable ParseStandard : string → extres unit.
(** [equality.Semantic.DeepEqual] on [*RestoreSpec]. *)
Variable Restore_DeepEqual : option RestoreSpec → option RestoreSpec → bool.

Definition spec_path : list path_elem := [Child "spec"].
Definition child (p : list path_elem) (s : string) : list path_elem := p ++ [Child s].
Definition index (p : list path_elem) (i : Z) : list path_elem := p ++ [Index i].
Definition pvct_Name (vc : PersistentVolumeClaim) : string := om_Name (pvct_ObjectMeta vc).

(** The first error when [b], nothing otherwise. *)
Definition err_if (b : bool) (e : field_error) : list field_error := if b then [e] else [].

(** The claims.  [Requests.Storage()] is never nil: a request without storage
    is the zero quantity, so only [Resources] and [Requests] matter. *)
(* api/v1beta2/mysqlcluster_types.go:161-178 MySQLClusterSpec.validateCreate *)
Definition claimErrors (s : MySQLClusterSpec) : list field_error :=
  let pp := child spec_path "volumeClaimTemplates" in
  err_if (negb (existsb (λ vc, pvct_Name vc =s MySQLDataVolumeName) (VolumeClaimTemplates s)))
    (Required pp ("required volume claim template " +:+ MySQLDataVolumeName +:+ " is missing")) ++
  concat ((λ vc, err_if (bool_decide (pvct_Requests vc = None))
      (Required pp ("required volume claim template " +:+ pvct_Name vc +:+ " storage requests is missing")))
    <$> VolumeClaimTemplates s).

(* api/v1beta2/mysqlcluster_types.go:180-204 MySQLClusterSpec.validateCreate *)
Definition scalarErrors (s : MySQLClusterSpec) : list field_error :=
  err_if (ServerIDBase s <=? 0)
    (Invalid (child spec_path "serverIDBase") "serverIDBase must be a positive integer") ++
  (if LogRotationSchedule s <>s "" then
     match ParseStandard (LogRotationSchedule s) with
     | inl e => [Invalid (child spec_path "logRotationSchedule") (error_string e)]
     | inr _ => []
     end
   else []) ++
  err_if (LogRotationSize s <? 0)
    (Invalid (child spec_path "logRotationSize") "logRotationSize must be a positive integer or zero") ++
  err_if (Z.rem (Replicas s) 2 =? 0)
    (Invalid (child spec_path "replicas") "replicas must be a positive odd number") ++
  err_if (Replicas s <=? 0)
    (Invalid (child spec_path "replicas") "replicas must be a positive integer").

Definition podspec_path : list path_elem := spec_path ++ [Child "podTemplate"; Child "spec"].

(** One iteration over the containers. *)
(* api/v1beta2/mysqlcluster_types.go:211-227 MySQLClusterSpec.validateCreate *)
Definition containerError (s : MySQLClusterSpec) (ic : Z * Container) : list field_error :=
  let p := index (child podspec_path "containers") ic.1 in
  match container_Name ic.2 with
  | None => [Forbidden p "container name is required"]
  | Some name =>
      err_if (name =s AgentContainerName) (Forbidden p "reserved container name") ++
      err_if ((name =s SlowQueryLogAgentContainerName) && negb (DisableSlowQueryLogContainer s))
        (Forbidden p "reserved container name") ++
      err_if ((name =s ExporterContainerName) && (0 <? go_len (Collectors s)))
        (Forbidden p "reserved container name")
  end.

(** [mysqldIndex]: the last container named mysqld. *)
(* api/v1beta2/mysqlcluster_types.go:209-218 MySQLClusterSpec.validateCreate *)
Definition mysqldIndex (containers : list Container) : Z :=
  foldl (λ idx ic, match container_Name ic.2 with
                   | Some name => if name =s MysqldContainerName then ic.1 else idx
                   | None => idx
                   end) (-1) (indexed containers).

(* api/v1beta2/mysqlcluster_types.go:233-248 MySQLClusterSpec.validateCreate *)
Definition portErrors (p : list path_elem) (ip : Z * ContainerPort) : list field_error :=
  match port_ContainerPort ip.2 with
  | Some port => err_if (bool_decide (port ∈ [MySQLPort; MySQLXPort; MySQLAdminPort; MySQLHealthPort]))
                   (Invalid (index p ip.1) "reserved port")
  | None => []
  end ++
  match port_Name ip.2 with
  | Some name => err_if (bool_decide (name ∈ [MySQLPortName; MySQLXPortName; MySQLAdminPortName; MySQLHealthPortName]))
                   (Invalid (index p ip.1) "reserved port name")
  | None => []
  end.

(* api/v1beta2/mysqlcluster_types.go:229-249 MySQLClusterSpec.validateCreate *)
Definition mysqldErrors (s : MySQLClusterSpec) : list field_error :=
  let containers := podspec_Containers (podtmpl_Spec (PodTemplate s)) in
  let i := mysqldIndex containers in
  let pp := child podspec_path "containers" in
  if i =? -1 then [Required pp ("required container " +:+ MysqldContainerName +:+ " is missing")] else
  match index_at containers i with
  | Some c => concat (portErrors (child (index pp i) "ports") <$> indexed (container_Ports c))
  | None => []    (* not reached, see [mysqldIndex_range] *)
  end.

(* api/v1beta2/mysqlcluster_types.go:251-262 MySQLClusterSpec.validateCreate *)
Definition initContainerError (ic : Z * Container) : list field_error :=
  let p := index (child podspec_path "initContainers") ic.1 in
  match container_Name ic.2 with
  | None => [Forbidden p "init container name is required"]
  | Some name => err_if (name =s InitContainerName) (Invalid p "reserved init container name")
  end.

(* api/v1beta2/mysqlcluster_types.go:264-277 MySQLClusterSpec.validateCreate *)
Definition volumeError (iv : Z * Volume) : list field_error :=
  match volume_Name iv.2 with
  | None => []
  | Some name =>
      err_if (bool_decide (name ∈ [TmpVolumeName; RunVolumeName; VarLogVolumeName; MySQLConfVolumeName;
                MySQLInitConfVolumeName; MySQLConfSecretVolumeName; SlowQueryLogAgentConfigVolumeName]))
        (Invalid (index (child podspec_path "volumes") iv.1) "reserved volume name")
  end.

(* api/v1beta2/mysqlcluster_types.go :: MySQLClusterSpec.validateCreate *)
Definition validateCreate (s : MySQLClusterSpec) : list field_error :=
  let pod := podtmpl_Spec (PodTemplate s) in
  claimErrors s ++ scalarErrors s ++
  concat (containerError s <$> indexed (podspec_Containers pod)) ++ mysqldErrors s ++
  concat (initContainerError <$> indexed (podspec_InitContainers pod)) ++
  concat (volumeError <$> indexed (podspec_Volumes pod)).

(** ** Updates *)

(* api/v1beta2/mysqlcluster_types.go :: isVolumeExpansionSupported *)
Definition isVolumeExpansionSupported (sc : StorageClass) : bool :=
  match sc_AllowVolumeExpansion sc with None => false | Some b => b end.

(* api/v1beta2/mysqlcluster_types.go :: isDefaultStorageClass *)
Definition isDefaultStorageClass (sc : StorageClass) : bool :=
  if bool_decide (sc_Annotations sc = ∅) then false else
  (map_str (sc_Annotations sc) "storageclass.kubernetes.io/is-default-class" =s "true") ||
  (map_str (sc_Annotations sc) "storageclass.beta.kubernetes.io/is-default-class" =s "true").

(* api/v1beta2/mysqlcluster_types.go :: getDefaultStorageClass *)
Definition getDefaultStorageClass : prog webhookSig (extres StorageClass) :=
  scs <-! wcall_ WListStorageClasses ;;
  Ret (match filter (λ sc, isDefaultStorageClass sc = true) scs with
       | sc :: _ => inr sc
       | [] => inl (ErrNew "not found default storage class")
       end).

(** One target of the loop; an index out of range would panic. *)
(* api/v1beta2/mysqlcluster_types.go:340-365 MySQLClusterSpec.validateVolumeExpansionSupported *)
Definition expansionErrors (s : MySQLClusterSpec) (idx : Z) : prog webhookSig (outcome (list field_error)) :=
  let p := child spec_path "volumeClaimTemplates" in
  pvc <-? or_panic (index_at (VolumeClaimTemplates s) idx) "index out of range" ;;
  match pvct_StorageClassName pvc with
  | Some name =>
      let q := child (child (index p idx) "spec") "storageClassName" in
      r <-- wcall_ (WGetStorageClass name) ;;
      Ret (Return (match r with
                   | inl e => [InternalError q (ErrWrap ("failed to get storage class " +:+ name) e)]
                   | inr sc => err_if (negb (isVolumeExpansionSupported sc))
                       (Forbidden q ("storage class " +:+ dquote +:+ name +:+ dquote +:+ " is not allowed to expand volume"))
                   end))
  | None =>
      r <-- getDefaultStorageClass ;;
      Ret (Return (match r with
                   | inl e => [InternalError (index p idx) (ErrWrap "failed to get storage class" e)]
                   | inr sc => err_if (negb (isVolumeExpansionSupported sc))
                       (Forbidden (index p idx) ("default storage class " +:+ dquote +:+ sc_Name sc +:+ dquote +:+ " is not allowed to expand volume"))
                   end))
  end.

(* api/v1beta2/mysqlcluster_types.go :: validateVolumeExpansionSupported *)
Definition validateVolumeExpansionSupported (s : MySQLClusterSpec) (targetIndices : list Z)
    : prog webhookSig (outcome (list field_error)) :=
  for_range targetIndices [] (λ allErrs idx,
    errs <-? expansionErrors s idx ;;
    Ret (Return (allErrs ++ errs))).

(** [oldPVCSet]; a later claim of the same name wins. *)
Definition claimSet (vcs : list PersistentVolumeClaim) : gmap string PersistentVolumeClaim :=
  foldl (λ m vc, <[pvct_Name vc := vc]> m) ∅ vcs.

Definition grows (oldPVCSet : gmap string PersistentVolumeClaim) (vc : PersistentVolumeClaim) : bool :=
  match oldPVCSet !! pvct_Name vc with
  | Some o => StorageSize o <? StorageSize vc
  | None => false
  end.

(* api/v1beta2/mysqlcluster_types.go:304-326 MySQLClusterSpec.validateUpdate *)
Definition expansionTargets (s old : MySQLClusterSpec) : list Z :=
  (filter (λ ivc : Z * PersistentVolumeClaim, grows (claimSet (VolumeClaimTemplates old)) ivc.2 = true)
     (indexed (VolumeClaimTemplates s))).*1.

(* api/v1beta2/mysqlcluster_types.go:286-302 MySQLClusterSpec.validateUpdate *)
Definition immutableErrors (s old : MySQLClusterSpec) : list field_error :=
  err_if (Replicas s <? Replicas old)
    (Forbidden (child spec_path "replicas") "decreasing replicas is not supported yet") ++
  match ReplicationSourceSecretName s, ReplicationSourceSecretName old with
  | Some _, None => [Forbidden (child spec_path "replicationSourceSecretName")
                       "replication can be initiated only with new clusters"]
  | Some n, Some o => err_if (n <>s o) (Forbidden (child spec_path "replicationSourceSecretName")
                       "replication source secret name cannot be modified")
  | None, _ => []
  end ++
  err_if (negb (Restore_DeepEqual (Restore s) (Restore old)))
    (Forbidden (child spec_path "restore") "not editable").

(* api/v1beta2/mysqlcluster_types.go :: validateUpdate *)
Definition validateUpdate (s old : MySQLClusterSpec) : prog webhookSig (outcome (list field_error)) :=
  let targets := expansionTargets s old in
  expErrs <-? (if 0 <? go_len targets then validateVolumeExpansionSupported s targets
               else Ret (Return [])) ;;
  Ret (Return (immutableErrors s old ++ expErrs ++ validateCreate s)).

(** ** The webhooks of MySQLCluster *)

(** [binary.LittleEndian.Uint32(buf) & uint32(math.MaxInt32>>1)], with the
    four bytes of [buf] read modulo 256. *)
Definition le_uint32 (buf : list Z) : Z :=
  let b i := default 0 (buf !! i) mod 256 in
  b 0%nat + b 1%nat * 2 ^ 8 + b 2%nat * 2 ^ 16 + b 3%nat * 2 ^ 24.
Definition randomServerIDBase (buf : list Z) : Z :=
  wrap32 (wrap32 (Z.land (le_uint32 buf) (Z.shiftr (2 ^ 31 - 1) 1)) + 1).

Context {FN : Finalizers}.

(* api/v1beta2/mysqlcluster_webhook.go :: mySQLClusterAdmission.Default *)
Definition Default (cluster : MySQLCluster) : prog webhookSig (outcome MySQLCluster) :=
  let meta := set_Finalizers (AddFinalizer MySQLClusterFinalizer (meta_Finalizers (cluster_Meta cluster)))
                (cluster_Meta cluster) in
  if ServerIDBase (Spec cluster) =? 0 then
    r <-- wcall_ (WRand 4) ;;
    match r with
    | inl e => Ret (Panic (error_string e))
    | inr buf => Ret (Return {| cluster_Meta := meta;
                                Spec := set_ServerIDBase (randomServerIDBase buf) (Spec cluster);
                                Status := Status cluster |})
    end
  else Ret (Return {| cluster_Meta := meta; Spec := Spec cluster; Status := Status cluster |}).

(* api/v1beta2/mysqlcluster_webhook.go :: mySQLClusterAdmission.ValidateCreate *)
Definition ValidateCreate (cluster : MySQLCluster) : option rejection :=
  invalid_if_any "MySQLCluster" (Name cluster)
    (err_if (40 <? Z.of_nat (String.length (Name cluster)))
       (Invalid [Child "metadata"; Child "name"] "required name must be 40 characters or less") ++
     validateCreate (Spec cluster)).

(* api/v1beta2/mysqlcluster_webhook.go :: mySQLClusterAdmission.ValidateUpdate *)
Definition ValidateUpdate (oldCluster newCluster : MySQLCluster) : prog webhookSig (outcome (option rejection)) :=
  errs <-? validateUpdate (Spec newCluster) (Spec oldCluster) ;;
  Ret (Return (invalid_if_any "MySQLCluster" (Name newCluster) errs)).

(* api/v1beta2/mysqlcluster_webhook.go :: mySQLClusterAdmission.ValidateDelete *)
Definition ValidateDelete (cluster : MySQLCluster) : option rejection := None.

(** ** The webhooks of BackupPolicy *)

(* api/v1beta2/backuppolicy_types.go :: BackupPolicySpec *)
Record BackupPolicySpec := {
  bp_Schedule : string;
  bp_TimeZone : option string;
  bp_JobConfig : JobConfig;
  bp_StartingDeadlineSeconds : option Z;
  bp_ConcurrencyPolicy : string;
  bp_ActiveDeadlineSeconds : option Z;
  bp_BackoffLimit : option Z;
  bp_SuccessfulJobsHistoryLimit : option Z;
  bp_FailedJobsHistoryLimit : option Z
}.

(* api/v1beta2/backuppolicy_types.go :: BackupPolicy *)
Record BackupPolicy := { bp_Meta : Meta; bp_Spec : BackupPolicySpec }.

(* api/v1beta2/backuppolicy_types.go :: validate *)
Definition validate (s : BackupPolicySpec) : list field_error :=
  match ParseStandard (bp_Schedule s) with
  | inl e => [Invalid (child spec_path "schedule") (error_string e)]
  | inr _ => []
  end.

(* api/v1beta2/backuppolicy_webhook.go :: backupPolicyAdmission.ValidateCreate *)
Definition Policy_ValidateCreate (policy : BackupPolicy) : option rejection :=
  invalid_if_any "BackupPolicy" (meta_Name (bp_Meta policy)) (validate (bp_Spec policy)).

(* api/v1beta2/backuppolicy_webhook.go :: backupPolicyAdmission.ValidateUpdate *)
Definition Policy_ValidateUpdate (_ newPolicy : BackupPolicy) : option rejection :=
  Policy_ValidateCreate newPolicy.

(* api/v1beta2/backuppolicy_webhook.go :: backupPolicyAdmission.ValidateDelete *)
Definition Policy_ValidateDelete (policy : BackupPolicy) : prog webhookSig (option rejection) :=
  r <-- wcall_ (WListClusters (meta_Namespace (bp_Meta policy))) ;;
  Ret (match r with
       | inl e => Some (RejectError e)
       | inr clusters =>
           match filter (λ c, BackupPolicyName (Spec c) = Some (meta_Name (bp_Meta policy))) clusters with
           | [] => None
           | c :: _ => Some (RejectError (ErrNew ("MySQLCluster " +:+ Namespace c +:+ "/" +:+ Name c
                                                   +:+ " has a reference to this policy")))
           end
       end).
End validate.
