(* ===== verification/WebhookSpec.v ===== *)
(** * What admission guarantees

    The validating webhook admits exactly the clusters of a declarative
    predicate, every admitted history of updates keeps the invariants the other
    components rely on, and a defaulted server id leaves room for the replicas. *)

From S2P Require Import Prelude Prog GoLib Constants Api K8s Samples StatefulSets Webhook.
#[local] Open Scope Z_scope.

(** ** Lists of errors *)

Lemma err_if_nil b e : err_if b e = [] ↔ b = false.
Proof. by destruct b. Qed.

Lemma concat_fmap_nil {A B} (f : A → list B) l : concat (f <$> l) = [] ↔ ∀ x, x ∈ l → f x = [].
Proof.
  induction l as [|a l IH]; cbn; [split; [by intros _ x ?%elem_of_nil|done]|].
  rewrite app_nil, IH. split.
  - intros [Ha Hl] x [->|Hx]%elem_of_cons; auto.
  - intros H. split; [apply H; by left|]. intros x Hx. apply H. by right.
Qed.

Lemma elem_of_indexed_snd {A} (l : list A) x : (∃ i, (i, x) ∈ indexed l) ↔ x ∈ l.
Proof.
  split.
  - intros [i [_ Hi]%elem_of_indexed%index_at_Some]. by eapply list_elem_of_lookup_2.
  - intros [i Hi]%list_elem_of_lookup. exists (Z.of_nat i). apply elem_of_indexed, index_at_Some.
    rewrite Nat2Z.id. split; [lia|done].
Qed.

Lemma forall_indexed {A} (P : A → Prop) (l : list A) :
  (∀ ix : Z * A, ix ∈ indexed l → P ix.2) ↔ ∀ x, x ∈ l → P x.
Proof.
  split.
  - intros H x [i Hi]%elem_of_indexed_snd. exact (H _ Hi).
  - intros H [i x] Hi. apply H, elem_of_indexed_snd. eauto.
Qed.

(** ** What a specification must satisfy *)

Definition reserved_container_names (s : MySQLClusterSpec) : list string :=
  AgentContainerName :: (if DisableSlowQueryLogContainer s then [] else [SlowQueryLogAgentContainerName])
  ++ (if decide (Collectors s = []) then [] else [ExporterContainerName]).

Definition reserved_ports : list Z := [MySQLPort; MySQLXPort; MySQLAdminPort; MySQLHealthPort].
Definition reserved_port_names : list string :=
  [MySQLPortName; MySQLXPortName; MySQLAdminPortName; MySQLHealthPortName].
Definition reserved_volume_names : list string :=
  [TmpVolumeName; RunVolumeName; VarLogVolumeName; MySQLConfVolumeName; MySQLInitConfVolumeName;
   MySQLConfSecretVolumeName; SlowQueryLogAgentConfigVolumeName].

Definition free_port (p : ContainerPort) : Prop :=
  (∀ n, port_ContainerPort p = Some n → n ∉ reserved_ports) ∧
  (∀ n, port_Name p = Some n → n ∉ reserved_port_names).

(** The last container named mysqld. *)
Definition last_mysqld (containers : list Container) (i : Z) (c : Container) : Prop :=
  index_at containers i = Some c ∧ container_Name c = Some MysqldContainerName ∧
  ∀ j c', i < j → index_at containers j = Some c' → container_Name c' ≠ Some MysqldContainerName.

Definition claims_ok (s : MySQLClusterSpec) : Prop :=
  (∃ vc, vc ∈ VolumeClaimTemplates s ∧ pvct_Name vc = MySQLDataVolumeName) ∧
  (∀ vc, vc ∈ VolumeClaimTemplates s → is_Some (pvct_Requests vc)).

Definition pod_ok (s : MySQLClusterSpec) : Prop :=
  let pod := podtmpl_Spec (PodTemplate s) in
  (∀ c, c ∈ podspec_Containers pod → ∃ name, container_Name c = Some name ∧ name ∉ reserved_container_names s) ∧
  (∃ i c, last_mysqld (podspec_Containers pod) i c ∧ ∀ p, p ∈ container_Ports c → free_port p) ∧
  (∀ c, c ∈ podspec_InitContainers pod → ∃ name, container_Name c = Some name ∧ name ≠ InitContainerName) ∧
  (∀ v, v ∈ podspec_Volumes pod → ∀ name, volume_Name v = Some name → name ∉ reserved_volume_names).

Section admission.
Variable ParseStandard : string → extres unit.

Definition numbers_ok (s : MySQLClusterSpec) : Prop :=
  0 < ServerIDBase s ∧ 0 ≤ LogRotationSize s ∧ 0 < Replicas s ∧ Z.odd (Replicas s) = true ∧
  (LogRotationSchedule s = "" ∨ ∃ u, ParseStandard (LogRotationSchedule s) = inr u).

Definition admissible (s : MySQLClusterSpec) : Prop := claims_ok s ∧ numbers_ok s ∧ pod_ok s.

Lemma claimErrors_nil s : claimErrors s = [] ↔ claims_ok s.
Proof.
  unfold claimErrors, claims_ok. cbn zeta. rewrite app_nil, err_if_nil, concat_fmap_nil.
  rewrite negb_false_iff, existsb_exists. f_equiv.
  - setoid_rewrite list_elem_of_In. setoid_rewrite string_eqb_true. done.
  - setoid_rewrite err_if_nil. setoid_rewrite bool_decide_eq_false.
    split; intros H vc Hvc; specialize (H vc Hvc); by destruct (pvct_Requests vc).
Qed.

Lemma scalarErrors_nil s : scalarErrors ParseStandard s = [] ↔ numbers_ok s.
Proof.
  unfold scalarErrors, numbers_ok. rewrite !app_nil, !err_if_nil.
  rewrite !Z.leb_gt, Z.ltb_ge, Z.eqb_neq.
  assert (0 < Replicas s → Z.rem (Replicas s) 2 ≠ 0 ↔ Z.odd (Replicas s) = true) as Hodd.
  { intros Hr. rewrite Z.rem_mod_nonneg, Zmod_odd by lia. by destruct (Z.odd (Replicas s)). }
  assert ((if LogRotationSchedule s <>s "" then
             match ParseStandard (LogRotationSchedule s) with
             | inl e => [Webhook.Invalid (child spec_path "logRotationSchedule") (error_string e)]
             | inr _ => []
             end else []) = [] ↔
          LogRotationSchedule s = "" ∨ ∃ u, ParseStandard (LogRotationSchedule s) = inr u) as ->.
  { destruct (LogRotationSchedule s =s "") eqn:E; cbn; bool_cases; [naive_solver|].
    destruct (ParseStandard _) as [e|u]; [|naive_solver]. split; [done|]. intros [?|[? ?]]; done. }
  tauto.
Qed.

Lemma containerError_nil s ic :
  containerError s ic = [] ↔
  ∃ name, container_Name ic.2 = Some name ∧ name ∉ reserved_container_names s.
Proof.
  unfold containerError, reserved_container_names. destruct (container_Name ic.2) as [name|]; [|naive_solver].
  rewrite !app_nil, !err_if_nil, !andb_false_iff, negb_false_iff, !string_eqb_false, Z.ltb_ge.
  assert (go_len (Collectors s) ≤ 0 ↔ Collectors s = []) as ->.
  { destruct (Collectors s); unfold go_len; cbn; split; intros; lia || done. }
  setoid_rewrite not_elem_of_cons. setoid_rewrite not_elem_of_app. split.
  - intros (H1 & H2 & H3). exists name. split; [done|]. split; [done|]. split.
    + destruct (DisableSlowQueryLogContainer s); [apply not_elem_of_nil|]. set_solver.
    + case_decide; [apply not_elem_of_nil|]. set_solver.
  - intros (? & [= <-] & H1 & H2 & H3). split; [done|]. split.
    + destruct (DisableSlowQueryLogContainer s); [by right|]. left. set_solver.
    + case_decide; [by right|]. left. set_solver.
Qed.

Lemma portErrors_nil p ip : portErrors p ip = [] ↔ free_port ip.2.
Proof.
  unfold portErrors, free_port. rewrite app_nil. f_equiv.
  - destruct (port_ContainerPort ip.2) as [n|]; [|naive_solver].
    rewrite err_if_nil, bool_decide_eq_false. naive_solver.
  - destruct (port_Name ip.2) as [n|]; [|naive_solver].
    rewrite err_if_nil, bool_decide_eq_false. naive_solver.
Qed.

Definition is_mysqld (c : Container) : bool := bool_decide (container_Name c = Some MysqldContainerName).

(** [mysqldIndex] is the last index with the name, or -1. *)
Lemma mysqldIndex_spec l :
  (mysqldIndex l = -1 ∧ ∀ c, c ∈ l → container_Name c ≠ Some MysqldContainerName) ∨
  (∃ c, last_mysqld l (mysqldIndex l) c).
Proof.
  induction l as [|x l IH] using rev_ind; [left; split; [done|by intros c ?%elem_of_nil]|].
  assert (mysqldIndex (l ++ [x]) = if is_mysqld x then go_len l else mysqldIndex l) as Heq.
  { unfold mysqldIndex, indexed. rewrite imap_app, foldl_app. cbn [imap foldl fst snd].
    unfold is_mysqld, go_len. rewrite Nat.add_0_r. destruct (container_Name x) as [name|].
    - destruct (name =s _) eqn:E; bool_cases; case_bool_decide; naive_solver.
    - by rewrite bool_decide_eq_false_2. }
  assert (∀ j c', index_at (l ++ [x]) j = Some c' → j < go_len l ∧ index_at l j = Some c' ∨ j = go_len l ∧ c' = x) as Hidx.
  { intros j c' [Hj Hl]%index_at_Some. apply lookup_app_Some in Hl as [Hl|[Hge Hl]].
    - left. pose proof (lookup_lt_Some _ _ _ Hl). unfold go_len. split; [lia|]. by apply index_at_Some.
    - right. apply list_lookup_singleton_Some in Hl as [Hz ->]. unfold go_len. split; [lia|done]. }
  assert (∀ j c', index_at l j = Some c' → index_at (l ++ [x]) j = Some c') as Hup.
  { intros j c' [Hj Hl]%index_at_Some. apply index_at_Some. split; [done|]. by apply lookup_app_l_Some. }
  rewrite Heq. unfold is_mysqld. case_bool_decide as Hx.
  - right. exists x. split; [|split; [done|]].
    + apply index_at_Some. unfold go_len. split; [lia|]. rewrite Nat2Z.id. by rewrite list_lookup_middle.
    + intros j c' Hj [[? _]|[? _]]%Hidx; lia.
  - destruct IH as [[H1 H2]|[c (H1 & H2 & H3)]].
    + left. split; [done|]. intros c [Hc|Hc%list_elem_of_singleton]%elem_of_app; [by apply H2|by subst].
    + right. exists c. split; [by apply Hup|]. split; [done|].
      intros j c' Hj [[_ Hl]|[_ ->]]%Hidx; [by eapply H3|done].
Qed.

Lemma last_mysqld_unique l i c i' c' : last_mysqld l i c → last_mysqld l i' c' → i = i' ∧ c = c'.
Proof.
  intros (H1 & H2 & H3) (H1' & H2' & H3'). destruct (Z.lt_trichotomy i i') as [Hlt|[->|Hgt]].
  - by destruct (H3 _ _ Hlt H1').
  - split; [done|]. congruence.
  - by destruct (H3' _ _ Hgt H1).
Qed.

Lemma mysqldErrors_nil s :
  mysqldErrors s = [] ↔
  ∃ i c, last_mysqld (podspec_Containers (podtmpl_Spec (PodTemplate s))) i c ∧
         ∀ p, p ∈ container_Ports c → free_port p.
Proof.
  unfold mysqldErrors. cbn zeta. set (l := podspec_Containers _).
  destruct (mysqldIndex_spec l) as [[H1 H2]|[c Hc]].
  - rewrite H1. cbn. split; [by intros|]. intros (i & c & (Hi & Hn & _) & _).
    destruct (H2 c); [|done]. apply index_at_Some in Hi as [_ Hi]. by eapply list_elem_of_lookup_2.
  - pose proof Hc as (H1 & _ & _). destruct (Z.eqb_spec (mysqldIndex l) (-1)) as [E|_].
    { apply index_at_Some in H1. lia. }
    rewrite H1, concat_fmap_nil. setoid_rewrite portErrors_nil. rewrite (forall_indexed free_port).
    split.
    + intros Hp. by exists (mysqldIndex l), c.
    + intros (i & c' & Hl & Hp). by destruct (last_mysqld_unique _ _ _ _ _ Hl Hc) as [_ <-].
Qed.

Lemma initContainerError_nil ic :
  initContainerError ic = [] ↔ ∃ name, container_Name ic.2 = Some name ∧ name ≠ InitContainerName.
Proof.
  unfold initContainerError. destruct (container_Name ic.2) as [name|]; [|naive_solver].
  rewrite err_if_nil, string_eqb_false. naive_solver.
Qed.

Lemma volumeError_nil iv :
  volumeError iv = [] ↔ ∀ name, volume_Name iv.2 = Some name → name ∉ reserved_volume_names.
Proof.
  unfold volumeError. destruct (volume_Name iv.2) as [name|]; [|naive_solver].
  rewrite err_if_nil, bool_decide_eq_false. naive_solver.
Qed.

Lemma validateCreate_nil s : validateCreate ParseStandard s = [] ↔ admissible s.
Proof.
  unfold validateCreate, admissible, pod_ok. cbn zeta. rewrite !app_nil.
  rewrite claimErrors_nil, scalarErrors_nil, mysqldErrors_nil, !concat_fmap_nil.
  setoid_rewrite containerError_nil. setoid_rewrite initContainerError_nil. setoid_rewrite volumeError_nil.
  rewrite (forall_indexed (λ c, ∃ name, container_Name c = Some name ∧ name ∉ reserved_container_names s)).
  rewrite (forall_indexed (λ c, ∃ name, container_Name c = Some name ∧ name ≠ InitContainerName)).
  rewrite (forall_indexed (λ v, ∀ name, volume_Name v = Some name → name ∉ reserved_volume_names)).
  tauto.
Qed.

Lemma invalid_if_any_None kind name errs : invalid_if_any kind name errs = None ↔ errs = [].
Proof. by destruct errs. Qed.

(** The validating webhook admits a new MySQLCluster exactly when its name
    has at most 40 characters and its specification is admissible: a claim named
    mysql-data and requests in every claim, a positive server id and odd number
    of replicas, a log rotation that parses, named containers none of which has
    a reserved name, a container mysqld without the reserved ports, and no
    reserved init container or volume.  Otherwise it reports the errors. *)
Theorem validate_create_spec cluster :
  ValidateCreate ParseStandard cluster = None ↔
  Z.of_nat (String.length (Name cluster)) ≤ 40 ∧ admissible (Spec cluster).
Proof.
  unfold ValidateCreate. rewrite invalid_if_any_None, app_nil, err_if_nil, validateCreate_nil.
  by rewrite Z.ltb_ge.
Qed.

(** ** Updates *)

Variable Restore_DeepEqual : option RestoreSpec → option RestoreSpec → bool.
Hypothesis Restore_DeepEqual_eq : ∀ a b, Restore_DeepEqual a b = true ↔ a = b.

(** What an update may change: more replicas, no replication source or the same
    one, the same restoration. *)
Definition compatible (old new : MySQLClusterSpec) : Prop :=
  Replicas old ≤ Replicas new ∧
  (∀ n, ReplicationSourceSecretName new = Some n → ReplicationSourceSecretName old = Some n) ∧
  Restore new = Restore old.

Lemma immutableErrors_nil s old : immutableErrors Restore_DeepEqual s old = [] ↔ compatible old s.
Proof.
  unfold immutableErrors, compatible. rewrite !app_nil, !err_if_nil, Z.ltb_ge, negb_false_iff, Restore_DeepEqual_eq.
  f_equiv. f_equiv. destruct (ReplicationSourceSecretName s) as [n|], (ReplicationSourceSecretName old) as [o|].
  - rewrite err_if_nil, negb_false_iff, string_eqb_true. naive_solver.
  - split; [done|]. intros H. by specialize (H n eq_refl).
  - done.
  - done.
Qed.

(** The storage class of a claim, named or the default one, is known to allow
    expansion. *)
Definition class_expands (h : trace webhookSig) (vc : PersistentVolumeClaim) : Prop :=
  match pvct_StorageClassName vc with
  | Some name => ∃ sc, occurs (S := webhookSig) h (WGetStorageClass name) (inr sc) ∧ isVolumeExpansionSupported sc = true
  | None => ∃ scs sc, occurs (S := webhookSig) h WListStorageClasses (inr scs) ∧ sc ∈ scs ∧
              isDefaultStorageClass sc = true ∧ isVolumeExpansionSupported sc = true
  end.

Lemma class_expands_app h h' vc : class_expands h vc → class_expands (h ++ h') vc.
Proof. unfold class_expands. destruct (pvct_StorageClassName vc); naive_solver eauto using occurs_app_l. Qed.

(** The webhook reads storage classes and nothing else. *)
Definition reads_classes (_ : trace webhookSig) (c : wcall) : Prop :=
  match c with WGetStorageClass _ | WListStorageClasses => True | _ => False end.

Lemma wp_expansionErrors s i vc h :
  index_at (VolumeClaimTemplates s) i = Some vc →
  wp reads_classes (expansionErrors s i) h
     (λ h' o, ∃ errs, o = Return errs ∧ (errs = [] → class_expands h' vc) ∧ ∃ t, h' = h ++ t).
Proof.
  intros Hi. unfold expansionErrors. rewrite Hi. wp_norm. cbn zeta. unfold class_expands.
  destruct (pvct_StorageClassName vc) as [name|].
  - split; [done|]. intros r. eexists. split; [done|]. split; [|eauto].
    destruct r as [e|sc]; [done|]. rewrite err_if_nil, negb_false_iff. intros Hsc. exists sc. split; [apply occurs_last|done].
  - unfold getDefaultStorageClass, wcall_. wp_norm. split; [done|]. intros [e|scs]; wp_norm.
    { eexists. split; [done|]. split; [done|eauto]. }
    eexists. split; [done|]. split; [|eauto]. destruct (filter _ scs) as [|sc rest] eqn:E; [done|].
    rewrite err_if_nil, negb_false_iff. intros Hsc. exists scs, sc. split; [apply occurs_last|].
    assert (sc ∈ filter (λ sc, isDefaultStorageClass sc = true) scs) as Hin by (rewrite E; by left).
    apply list_elem_of_filter in Hin as [Hd Hin]. done.
Qed.

Lemma expansionTargets_elem s old i :
  i ∈ expansionTargets s old ↔
  ∃ vc, index_at (VolumeClaimTemplates s) i = Some vc ∧ grows (claimSet (VolumeClaimTemplates old)) vc = true.
Proof.
  unfold expansionTargets. rewrite list_elem_of_fmap. split.
  - intros ([j vc] & -> & [Hg Hin]%list_elem_of_filter). exists vc. by rewrite <- elem_of_indexed.
  - intros (vc & Hi & Hg). exists (i, vc). split; [done|]. apply list_elem_of_filter. by rewrite elem_of_indexed.
Qed.

(** What a run of the update webhook shows. *)
Definition update_verdict (old new : MySQLClusterSpec) (h : trace webhookSig) (errs : list field_error) : Prop :=
  (errs = [] → admissible new ∧ compatible old new ∧
     ∀ i vc, index_at (VolumeClaimTemplates new) i = Some vc →
             grows (claimSet (VolumeClaimTemplates old)) vc = true → class_expands h vc) ∧
  (admissible new → compatible old new → expansionTargets new old = [] → errs = []).

Lemma wp_validateExpansion s targets h :
  (∀ i, i ∈ targets → ∃ vc, index_at (VolumeClaimTemplates s) i = Some vc) →
  wp reads_classes (validateVolumeExpansionSupported s targets) h
     (λ h' o, ∃ errs, o = Return errs ∧
        (errs = [] → ∀ i vc, i ∈ targets → index_at (VolumeClaimTemplates s) i = Some vc → class_expands h' vc)).
Proof.
  intros Ht. eapply wp_for_range with (I := λ h' rest errs, rest ⊆ targets ∧
    (errs = [] → ∀ i vc, i ∈ targets → i ∉ rest → index_at (VolumeClaimTemplates s) i = Some vc → class_expands h' vc)).
  - split; [done|]. done.
  - intros h' errs [_ H]. exists errs. split; [done|]. intros He i vc Hi. apply (H He i vc Hi). apply not_elem_of_nil.
  - intros h' i rest errs [Hsub H]. destruct (Ht i) as [vc Hvc]; [apply Hsub; by left|].
    rewrite wp_bind_outcome. eapply wp_conseq; [by apply wp_expansionErrors|].
    intros h2 o (e & -> & He & t & ->). cbn [wp]. split; [intros x Hx; apply Hsub; by right|].
    intros [He1 He2]%app_nil j w Hj Hnot Hw. destruct (decide (j = i)) as [->|Hne].
    + assert (w = vc) as -> by congruence. auto.
    + apply class_expands_app. apply (H He1 j); [done| |done]. intros [?|?]%elem_of_cons; done.
Qed.

Lemma wp_validateUpdate new old h :
  wp reads_classes (validateUpdate ParseStandard Restore_DeepEqual new old) h
     (λ h' o, ∃ errs, o = Return errs ∧ update_verdict old new h' errs).
Proof.
  unfold validateUpdate. cbn zeta. rewrite wp_bind_outcome.
  assert (∀ h' e, (e = [] → ∀ i vc, i ∈ expansionTargets new old →
             index_at (VolumeClaimTemplates new) i = Some vc → class_expands h' vc) →
          (expansionTargets new old = [] → e = []) →
          update_verdict old new h' (immutableErrors Restore_DeepEqual new old ++ e ++ validateCreate ParseStandard new)) as Hv.
  { intros h' e He Hnil. unfold update_verdict. rewrite !app_nil, immutableErrors_nil, validateCreate_nil. split; [|tauto].
    intros (Hc & He' & Ha). split; [done|]. split; [done|]. intros i vc Hi Hg. apply (He He' i); [|done].
    apply expansionTargets_elem. eauto. }
  destruct (Z.ltb_spec 0 (go_len (expansionTargets new old))) as [Hlen|Hlen].
  - eapply wp_conseq; [apply wp_validateExpansion; intros i (vc & Hi & _)%expansionTargets_elem; eauto|].
    intros h' o (e & -> & He). cbn [wp]. eexists. split; [done|]. apply Hv; [done|].
    intros Hn. rewrite Hn in Hlen. done.
  - cbn [wp]. eexists. split; [done|]. apply Hv; [|done]. intros _ i vc Hi.
    destruct (expansionTargets new old); [by apply elem_of_nil in Hi|unfold go_len in Hlen; cbn in Hlen; lia].
Qed.

Lemma wp_ValidateUpdate old new h :
  wp reads_classes (ValidateUpdate ParseStandard Restore_DeepEqual old new) h
     (λ h' o, ∃ errs, o = Return (invalid_if_any "MySQLCluster" (Name new) errs) ∧
              update_verdict (Spec old) (Spec new) h' errs).
Proof.
  unfold ValidateUpdate. rewrite wp_bind_outcome. eapply wp_conseq; [apply wp_validateUpdate|].
  intros h' o' (errs & -> & Hv). cbn [wp]. eauto.
Qed.

(** C31. The update webhook never panics, only reads storage classes, and
    admits an update only if the new specification is admissible, the replicas
    do not decrease, the replication source is the same or removed, the
    restoration is unchanged, and the storage class of every claim that grows
    was seen to allow expansion; an admissible and compatible update without
    growing claims is admitted. *)
Theorem validate_update_spec old new t o :
  exec (ValidateUpdate ParseStandard Restore_DeepEqual old new) t o →
  (∀ t1 c r t2, t = t1 ++ ev c r :: t2 → reads_classes t1 c) ∧
  ∃ verdict, o = Return verdict ∧
    (verdict = None → admissible (Spec new) ∧ compatible (Spec old) (Spec new) ∧
       ∀ i vc, index_at (VolumeClaimTemplates (Spec new)) i = Some vc →
               grows (claimSet (VolumeClaimTemplates (Spec old))) vc = true → class_expands t vc) ∧
    (admissible (Spec new) → compatible (Spec old) (Spec new) →
       expansionTargets (Spec new) (Spec old) = [] → verdict = None).
Proof.
  intros Hex. destruct (wp_exec _ _ _ _ _ _ (wp_ValidateUpdate old new []) Hex) as [(errs & -> & Hv1 & Hv2) Hp].
  split; [exact Hp|]. eexists. split; [done|]. rewrite invalid_if_any_None. split; [exact Hv1|].
  intros H1 H2 H3. by rewrite Hv2.
Qed.

(** The states of a cluster that admission lets it reach: created, then updated. *)
Inductive admitted (c0 : MySQLCluster) : MySQLCluster → Prop :=
| admitted_create : ValidateCreate ParseStandard c0 = None → admitted c0 c0
| admitted_update c1 c2 t :
    admitted c0 c1 →
    exec (ValidateUpdate ParseStandard Restore_DeepEqual c1 c2) t (Return None) →
    admitted c0 c2.

(** C18. Along every admitted history of a cluster its specification stays
    admissible, the number of replicas stays odd and never decreases, the
    restoration never changes, and a replication source is never added or
    exchanged. *)
Theorem admitted_invariant c0 c :
  admitted c0 c →
  admissible (Spec c) ∧ Replicas (Spec c0) ≤ Replicas (Spec c) ∧ Z.odd (Replicas (Spec c)) = true ∧
  Restore (Spec c) = Restore (Spec c0) ∧
  (∀ n, ReplicationSourceSecretName (Spec c) = Some n → ReplicationSourceSecretName (Spec c0) = Some n).
Proof.
  induction 1 as [Hc|c1 c2 t Hreach IH Hex].
  - unfold ValidateCreate in Hc. rewrite invalid_if_any_None, app_nil, validateCreate_nil in Hc.
    destruct Hc as [_ Ha]. split; [done|]. split; [lia|]. split; [apply Ha|done].
  - destruct IH as (_ & Hr & _ & Hres & Hsrc).
    destruct (wp_exec _ _ _ _ _ _ (wp_ValidateUpdate c1 c2 []) Hex) as [(errs & Heq & Hv & _) _].
    injection Heq as Heq. symmetry in Heq. apply invalid_if_any_None in Heq.
    destruct (Hv Heq) as (Ha & (Hrep & Hsrc' & Hres') & _).
    split; [done|]. split; [lia|]. split; [apply Ha|]. split; [congruence|]. intros n Hn. auto.
Qed.
End admission.

(** ** Defaults *)

Section defaults.
Context {FN : Finalizers}.

Lemma le_uint32_range buf : 0 ≤ le_uint32 buf < 2 ^ 32.
Proof.
  unfold le_uint32. pose proof (λ i : nat, Z.mod_pos_bound (default 0 (buf !! i)) 256 ltac:(lia)) as H.
  pose proof (H 0%nat). pose proof (H 1%nat). pose proof (H 2%nat). pose proof (H 3%nat). lia.
Qed.

Lemma randomServerIDBase_range buf : 1 ≤ randomServerIDBase buf ≤ 2 ^ 30.
Proof.
  unfold randomServerIDBase. change (Z.shiftr (2 ^ 31 - 1) 1) with (Z.ones 30).
  rewrite Z.land_ones by lia. pose proof (Z.mod_pos_bound (le_uint32 buf) (2 ^ 30)).
  rewrite (wrap32_id (le_uint32 buf mod 2 ^ 30)) by (unfold int32_range; lia).
  rewrite wrap32_id by (unfold int32_range; lia). lia.
Qed.

(** The defaulting webhook adds the finalizer and, when no server id is
    given, chooses one between 1 and 2^30 from the random bytes, so that the ids
    of up to 2^30 - 1 replicas fit an int32; it keeps everything else, and
    panics only when the random source fails. *)
Theorem default_spec cluster t o :
  exec (Default cluster) t o →
  (∃ e, o = Panic (error_string e) ∧ ServerIDBase (Spec cluster) = 0 ∧ t = [ev (S := webhookSig) (WRand 4) (inl e)]) ∨
  ∃ c, o = Return c ∧
    MySQLClusterFinalizer ∈ meta_Finalizers (cluster_Meta c) ∧
    (∀ f, f ∈ meta_Finalizers (cluster_Meta cluster) → f ∈ meta_Finalizers (cluster_Meta c)) ∧
    Status c = Status cluster ∧ Name c = Name cluster ∧
    Spec c = set_ServerIDBase (ServerIDBase (Spec c)) (Spec cluster) ∧
    (ServerIDBase (Spec cluster) ≠ 0 → ServerIDBase (Spec c) = ServerIDBase (Spec cluster)) ∧
    (ServerIDBase (Spec cluster) = 0 →
       0 < ServerIDBase (Spec c) ∧ ∀ n, 0 ≤ n < 2 ^ 30 → int32_range (ServerIDBase (Spec c) + n)).
Proof.
  unfold Default. cbn zeta.
  assert (∀ f, f ∈ meta_Finalizers (cluster_Meta cluster) →
          f ∈ AddFinalizer MySQLClusterFinalizer (meta_Finalizers (cluster_Meta cluster))) as Hkeep.
  { intros f Hf. apply AddFinalizer_spec. by right. }
  assert (MySQLClusterFinalizer ∈ AddFinalizer MySQLClusterFinalizer (meta_Finalizers (cluster_Meta cluster))) as Hnew.
  { apply AddFinalizer_spec. by left. }
  destruct (Z.eqb_spec (ServerIDBase (Spec cluster)) 0) as [E|E]; cbn [exec bind wcall_ perform].
  - destruct t as [|e t]; [done|]. intros ([err|buf] & -> & Hex); cbn in Hex.
    + destruct Hex as [-> <-]. left. exists err. done.
    + destruct Hex as [-> <-]. right. eexists. split; [done|]. split_and!; [done..|].
      intros _. cbn. pose proof (randomServerIDBase_range buf). split; [lia|]. intros n Hn. unfold int32_range. lia.
  - intros [-> <-]. right. eexists. split; [done|]. split_and!; try done. cbn. by destruct (Spec cluster).
Qed.

Lemma singleton_inj {A} (a b : A) : [a] = [b] → a = b.
Proof. by intros [= H]. Qed.

(** A BackupPolicy is deleted only when the clusters of its namespace were
    listed and none of them refers to it. *)
Theorem policy_delete_spec policy t o :
  exec (Policy_ValidateDelete policy) t o →
  (o = None ↔ ∃ clusters, t = [ev (S := webhookSig) (WListClusters (meta_Namespace (bp_Meta policy))) (inr clusters)] ∧
     ∀ c, c ∈ clusters → BackupPolicyName (Spec c) ≠ Some (meta_Name (bp_Meta policy))).
Proof.
  unfold Policy_ValidateDelete. cbn [exec bind wcall_ perform]. destruct t as [|e t]; [done|].
  intros (r & -> & -> & <-).
  destruct r as [err|clusters]; [split; [done|]; by intros (cs & Heq%singleton_inj%ev_inj & _)|].
  destruct (filter _ clusters) as [|c rest] eqn:E.
  - split; [|done]. intros _. exists clusters. split; [done|]. intros c Hc Heq.
    assert (c ∈ filter (λ c, BackupPolicyName (Spec c) = Some (meta_Name (bp_Meta policy))) clusters) as Hin
      by by apply list_elem_of_filter.
    rewrite E in Hin. by apply elem_of_nil in Hin.
  - split; [done|]. intros (cs & Heq%singleton_inj%ev_inj & Hno). injection Heq as <-. exfalso.
    assert (c ∈ filter (λ c, BackupPolicyName (Spec c) = Some (meta_Name (bp_Meta policy))) clusters) as Hin
      by (rewrite E; by left).
    apply list_elem_of_filter in Hin as [Hc Hin]. by apply (Hno c).
Qed.
End defaults.

(** ** Witnesses *)

Definition sample_cron (s : string) : extres unit :=
  if s =s "*/5 * * * *" then inr () else inl (ErrNew "bad schedule").

Definition restore_eqb (a b : option RestoreSpec) : bool := bool_decide (a = b).
Lemma restore_eqb_eq a b : restore_eqb a b = true ↔ a = b.
Proof. apply bool_decide_eq_true. Qed.

(** An API server with a storage class that can expand. *)
Definition sample_api (c : wcall) (n : unit) : wresp c * unit :=
  match c return wresp c * unit with
  | WGetStorageClass name => (inr {| sc_Name := name; sc_Annotations := ∅; sc_AllowVolumeExpansion := Some true |}, n)
  | WListStorageClasses => (inr [], n)
  | WListClusters _ => (inr [sample_cluster 3 0], n)
  | WRand _ => (inr [255; 255; 255; 255], n)
  end.

Definition sample_update := run (S := webhookSig) sample_api
  (ValidateUpdate sample_cron restore_eqb (admissible_cluster 3 10) (admissible_cluster 5 20)) ().

Lemma sample_update_run :
  exec (ValidateUpdate sample_cron restore_eqb (admissible_cluster 3 10) (admissible_cluster 5 20))
    sample_update.1 sample_update.2.
Proof. apply run_exec. Qed.

Lemma sample_update_admits : sample_update.2 = Return None.
Proof. vm_compute. done. Qed.

Lemma validate_update_spec_witness : admissible sample_cron (Spec (admissible_cluster 5 20)).
Proof.
  destruct (validate_update_spec sample_cron restore_eqb restore_eqb_eq (admissible_cluster 3 10)
    (admissible_cluster 5 20) sample_update.1 sample_update.2 sample_update_run) as [_ (v & Hv & Hok & _)].
  rewrite sample_update_admits in Hv. injection Hv as <-. by apply Hok.
Defined.

Lemma admitted_invariant_witness :
  Z.odd (Replicas (Spec (admissible_cluster 5 20))) = true ∧
  Replicas (Spec (admissible_cluster 3 10)) ≤ Replicas (Spec (admissible_cluster 5 20)).
Proof.
  destruct (admitted_invariant sample_cron restore_eqb restore_eqb_eq (admissible_cluster 3 10)
    (admissible_cluster 5 20)) as (_ & Hle & Hodd & _); [|by split].
  eapply (admitted_update _ _ _ _ _ sample_update.1).
  - apply admitted_create. vm_compute. done.
  - rewrite <- sample_update_admits. apply sample_update_run.
Defined.

Definition unset_base : MySQLCluster :=
  {| cluster_Meta := sample_meta; Spec := set_ServerIDBase 0 (sample_spec 3 None); Status := sample_cluster_status 0 |}.
Definition sample_default := run (S := webhookSig) sample_api (Default (FN := finalizers_list) unset_base) ().

Lemma default_spec_witness : ∃ c, sample_default.2 = Return c ∧ ServerIDBase (Spec c) = 2 ^ 30.
Proof.
  destruct (default_spec (FN := finalizers_list) unset_base sample_default.1 sample_default.2) as [(e & H & _)|(c & H & _)].
  - unfold sample_default. apply run_exec.
  - vm_compute in H. done.
  - exists c. split; [exact H|]. vm_compute in H. injection H as <-. done.
Defined.

Definition sample_policy : BackupPolicy :=
  {| bp_Meta := sample_meta;
     bp_Spec := {| bp_Schedule := ""; bp_TimeZone := None;
       bp_JobConfig := {| job_ServiceAccountName := ""; job_BucketConfig := {| BucketName := ""; Region := ""; EndpointURL := "";
            UsePathStyle := false; BackendType := ""; CaCert := "" |}; job_WorkVolume := EmptyDir; job_Threads := 4;
          job_CPU := None; job_MaxCPU := None; job_Memory := None; job_MaxMemory := None; job_EnvFrom := [];
          job_Env := []; job_Affinity := None; job_Volumes := []; job_VolumeMounts := [] |};
       bp_StartingDeadlineSeconds := None; bp_ConcurrencyPolicy := "Allow"; bp_ActiveDeadlineSeconds := None;
       bp_BackoffLimit := None; bp_SuccessfulJobsHistoryLimit := None; bp_FailedJobsHistoryLimit := None |} |}.
Definition sample_delete := run (S := webhookSig) sample_api (Policy_ValidateDelete sample_policy) ().

Lemma policy_delete_spec_witness : ∃ clusters, sample_delete.1 =
  [ev (S := webhookSig) (WListClusters "default") (inr clusters)] ∧
  ∀ c, c ∈ clusters → BackupPolicyName (Spec c) ≠ Some "test".
Proof.
  apply (policy_delete_spec sample_policy sample_delete.1 sample_delete.2).
  - unfold sample_delete. apply run_exec.
  - vm_compute. done.
Defined.
