(* ===== verification/Mycnf.v ===== *)
(** * The generator of my.cnf (pkg/mycnf/generator.go)

    [Generate] merges the default options, the options of the user and the
    forced options into sections and prints them.  Go iterates over a map in an
    unspecified order: [MapRange] is any choice of such an order for every
    [range] statement, so a theorem for all instances holds for every order. *)

From S2P Require Import Prelude GoLib Constants.
#[local] Open Scope Z_scope.

(** ** Iteration over maps *)

(** The order in which the [n]-th [range] over a map visits its entries. *)
Class MapRange := {
  range : nat → ∀ {A : Type}, gmap string A → list (string * A);
  range_perm n A (m : gmap string A) : range n m ≡ₚ map_to_list m
}.

#[refine] Definition range_ascending : MapRange :=
  {| range _ A m := map_to_list m |}.
Proof. done. Defined.

#[refine] Definition range_descending : MapRange :=
  {| range _ A m := reverse (map_to_list m) |}.
Proof. intros _ A m. apply reverse_Permutation. Defined.

(** ** The tables *)

(* pkg/mycnf/generator.go:15-15 InnoDBBufferPoolRatioPercent *)
Definition InnoDBBufferPoolRatioPercent : Z := 70.
(* pkg/mycnf/generator.go:17-17 opaqueKey *)
Definition opaqueKey : string := "_include".

(* pkg/mycnf/generator.go:21-97 DefaultMycnf *)
Definition DefaultMycnf : gmap string string := list_to_map [
    ("tmpdir", TmpPath);
    ("innodb_tmpdir", TmpPath);
    ("character_set_server", "utf8mb4");
    ("collation_server", "utf8mb4_unicode_ci");
    ("default_time_zone", "+0:00");
    ("back_log", "900");
    ("max_connections", "100000");
    ("max_allowed_packet", "1G");
    ("max_heap_table_size", "64M");
    ("sort_buffer_size", "4M");
    ("join_buffer_size", "2M");
    ("thread_cache_size", "100");
    ("wait_timeout", "604800");
    ("lock_wait_timeout", "60");
    ("table_open_cache", "65536");
    ("table_definition_cache", "65536");
    ("transaction_isolation", "READ-COMMITTED");
    ("tmp_table_size", "64M");
    ("slow_query_log", "ON");
    ("long_query_time", "2");
    ("log_error_verbosity", "3");
    ("log_slow_extra", "ON");
    ("max_sp_recursion_depth", "20");
    ("print_identified_with_as_hex", "ON");
    ("loose_binlog_transaction_compression", "ON");
    ("temptable_use_mmap", "OFF");
    ("information_schema_stats_expiry", "0");
    ("disabled_storage_engines", "MyISAM");
    ("default_storage_engine", "InnoDB");
    ("innodb_flush_method", "O_DIRECT");
    ("innodb_lock_wait_timeout", "60");
    ("innodb_print_all_deadlocks", "1");
    ("innodb_online_alter_log_max_size", "1073741824");
    ("innodb_adaptive_hash_index", "ON");
    ("loose_innodb_numa_interleave", "ON");
    ("innodb_buffer_pool_in_core_file", "OFF");
    ("innodb_log_file_size", "800M");
    ("innodb_log_files_in_group", "2");
    ("innodb_buffer_pool_dump_pct", "100");
    ("innodb_buffer_pool_dump_at_shutdown", "1");
    ("innodb_buffer_pool_load_at_startup", "0");
    ("loose_innodb_validate_tablespace_paths", "OFF");
    ("innodb_flush_neighbors", "0");
    ("innodb_random_read_ahead", "false");
    ("innodb_read_ahead_threshold", "0");
    ("innodb_log_write_ahead_size", "512");
    ("innodb_undo_log_truncate", "OFF")].

Definition constMysqld : gmap string string := list_to_map [
    ("port", Itoa MySQLPort);
    ("socket", path_Join [RunPath; "mysqld.sock"]);
    ("datadir", path_Join [MySQLDataPath; "data"]);
    ("secure_file_priv", "NULL");
    ("skip_name_resolve", "ON");
    ("slow_query_log_file", path_Join [LogDirPath; MySQLSlowLogName]);
    ("enforce_gtid_consistency", "ON");
    ("gtid_mode", "ON");
    ("binlog_format", "ROW");
    ("log_replica_updates", "ON");
    ("relay_log_recovery", "OFF");
    ("mysqlx_port", Itoa MySQLXPort);
    ("admin_port", Itoa MySQLAdminPort);
    ("pid_file", path_Join [RunPath; "mysqld.pid"]);
    ("read_only", "ON");
    ("super_read_only", "ON");
    ("skip_replica_start", "ON");
    ("loose_replication_optimize_for_static_plugin_config", "ON");
    ("loose_replication_sender_observe_commit_only", "OFF")].

Definition constClient : gmap string string := list_to_map [
    ("port", Itoa MySQLPort);
    ("socket", path_Join [RunPath; "mysqld.sock"]);
    ("loose_default_character_set", "utf8mb4")].

Definition constMysql : gmap string string := list_to_map [
    ("auto_rehash", "OFF");
    ("init_command", dquote +:+ "SET autocommit=0" +:+ dquote)].

(* pkg/mycnf/generator.go:100-145 ConstMycnf *)
Definition ConstMycnf : gmap string (gmap string string) :=
  list_to_map [("mysqld", constMysqld); ("client", constClient); ("mysql", constMysql)].

(** ** Keys *)

(* pkg/mycnf/generator.go :: normalizeConfKey *)
Definition normalizeConfKey (k : string) : string := replace_char "-" "_" k.

(* pkg/mycnf/generator.go :: listConfKeyVariations *)
Definition listConfKeyVariations (k : string) : list string :=
  let base := trim_prefix k "loose_" in [base; "loose_" +:+ base].

(** [total / 100 * 70 >> 20 << 20] in [int64], at least 128 MiB. *)
(* pkg/mycnf/generator.go :: calcBufferSize *)
Definition calcBufferSize (total : Z) : Z :=
  let m := wrap64 (Z.shiftl (Z.shiftr (wrap64 (Z.quot total 100 * InnoDBBufferPoolRatioPercent)) 20) 20) in
  if m <? Z.shiftl 128 20 then Z.shiftl 128 20 else m.

(** ** Merging *)

(** The bodies of the two loops of [mergeSection]. *)
Definition mergeBase (conf : gmap string string) (kv : string * string) : gmap string string :=
  <[normalizeConfKey kv.1 := kv.2]> conf.

Definition mergeOver (conf : gmap string string) (kv : string * string) : gmap string string :=
  let nk := normalizeConfKey kv.1 in
  <[nk := kv.2]> (foldl (λ c kk, delete kk c) conf (listConfKeyVariations nk)).

Section generate.
Context {RG : MapRange}.

(** [n] numbers the call, so that its two loops have orders of their own. *)
(* pkg/mycnf/generator.go :: mergeSection *)
Definition mergeSection (n : nat) (conf1 conf2 : gmap string string) : gmap string string :=
  foldl mergeOver (foldl mergeBase ∅ (range (2 * n) conf1)) (range (2 * n + 1) conf2).

(** The keys MOCO manages itself are dropped. *)
Definition managedKeys : list string :=
  [opaqueKey; "log_bin"; "log_error"; "skip_log_bin"; "disable_log_bin"].

(* pkg/mycnf/generator.go:163-167 Generate *)
Definition dropManaged (conf : gmap string string) : gmap string string :=
  foldl (λ c k, delete k c) conf managedKeys.

(* pkg/mycnf/generator.go:158-167 Generate *)
Definition mysqldSection (userConf : gmap string string) (memTotal : Z) : gmap string string :=
  let mysqldConf := mergeSection 0 DefaultMycnf userConf in
  let mysqldConf :=
    match mysqldConf !! "innodb_buffer_pool_size" with
    | Some _ => mysqldConf
    | None => <["innodb_buffer_pool_size" := Itoa (calcBufferSize memTotal)]> mysqldConf
    end in
  dropManaged mysqldConf.

(** [for sec, secConf := range ConstMycnf]. *)
Definition mergeConstStep (conf : gmap string (gmap string string))
    (isc : nat * (string * gmap string string)) : gmap string (gmap string string) :=
  let '(i, (sec, secConf)) := isc in
  <[sec := mergeSection (1 + i) (default ∅ (conf !! sec)) secConf]> conf.

(* pkg/mycnf/generator.go:172-174 Generate *)
Definition mergeConst (conf : gmap string (gmap string string)) : gmap string (gmap string string) :=
  foldl mergeConstStep conf (imap pair (range 2 ConstMycnf)).

Definition buildConf (userConf : gmap string string) (memTotal : Z) : gmap string (gmap string string) :=
  mergeConst {[ "mysqld" := mysqldSection userConf memTotal ]}.

(** ** Printing *)

(** The keys of a map, collected by [range] and sorted. *)
Definition sorted_keys {A} (n : nat) (m : gmap string A) : list string := sort_strings (range n m).*1.

Definition concat_str (l : list string) : string := foldr (λ a b, a +:+ b) "" l.

(** One section; writing to a [strings.Builder] never fails. *)
(* pkg/mycnf/generator.go:184-211 Generate *)
Definition printSection (n : nat) (opaque sec : string) (confSec : gmap string string) : string :=
  "[" +:+ sec +:+ "]" +:+ newline +:+
  (if (sec =s "mysqld") && (opaque <>s "") then opaque +:+ newline else "") +:+
  concat_str ((λ k, k +:+ " = " +:+ map_str confSec k +:+ newline) <$> sorted_keys n confSec) +:+
  newline.

(* pkg/mycnf/generator.go:176-218 Generate *)
Definition printConf (opaque : string) (conf : gmap string (gmap string string)) : string :=
  concat_str (imap (λ i sec, printSection (20 + i) opaque sec (default ∅ (conf !! sec)))
                (sorted_keys 10 conf)) +:+
  "!includedir " +:+ MySQLInitConfPath +:+ newline.

(* pkg/mycnf/generator.go :: Generate *)
Definition Generate (userConf : gmap string string) (memTotal : Z) : string :=
  printConf (map_str userConf opaqueKey) (buildConf userConf memTotal).
End generate.
