(* ===== verification/MycnfSpec.v ===== *)
(** * What the generator of my.cnf guarantees

    The generator agrees with a declarative reference whatever order Go visits
    the maps in, the forced options win over every choice of the user, and the
    printed text reads back as the merged sections. *)

From S2P Require Import Prelude GoLib Constants Mycnf.
#[local] Open Scope Z_scope.

(** ** Keys and their variations *)

Definition variations (k : string) : list string := listConfKeyVariations (normalizeConfKey k).

Lemma replace_char_idemp a b s :
  a ≠ b → replace_char a b (replace_char a b s) = replace_char a b s.
Proof.
  intros Hab. induction s as [|c s IH]; [done|]. cbn. rewrite IH. f_equal.
  destruct (Ascii.eqb c a) eqn:E; [|by rewrite E]. destruct (Ascii.eqb_spec b a); [by subst|done].
Qed.

Lemma normalize_idemp k : normalizeConfKey (normalizeConfKey k) = normalizeConfKey k.
Proof. by apply replace_char_idemp. Qed.

Lemma normalize_variation k : normalizeConfKey k ∈ variations k.
Proof.
  unfold variations, listConfKeyVariations, trim_prefix.
  destruct (has_prefix _ _) eqn:E; [|by left].
  apply has_prefix_spec in E as [t ->]. right. left.
Qed.

Lemma variation_of_normalized k : variations (normalizeConfKey k) = variations k.
Proof. unfold variations. by rewrite normalize_idemp. Qed.

(** Every key is spelled with underscores. *)
Definition normalized (m : gmap string string) : Prop :=
  map_Forall (λ k _, normalizeConfKey k = k) m.

(** No key of the user is a variation of another one. *)
Definition unambiguous (u : gmap string string) : Prop :=
  set_Forall (λ a, set_Forall (λ b, a ≠ b → normalizeConfKey a ∉ variations b) (dom u)) (dom u).

(** ** The two loops *)

Lemma mergeBase_fold l :
  Forall (λ k, normalizeConfKey k = k) l.*1 → foldl mergeBase ∅ l = list_to_map (reverse l).
Proof.
  induction l as [|[k v] l IH] using rev_ind; [done|].
  rewrite fmap_app, Forall_app. intros [Hl [Hk _]%Forall_cons_1].
  rewrite foldl_app, reverse_snoc, (IH Hl). cbn [foldl list_to_map fst snd]. unfold mergeBase. by rewrite Hk.
Qed.

Lemma mergeBase_normalized l : normalized (foldl mergeBase ∅ l).
Proof.
  induction l as [|[k v] l IH] using rev_ind; [apply map_Forall_empty|].
  rewrite foldl_app. apply map_Forall_insert_2; [apply normalize_idemp|done].
Qed.

Lemma mergeOver_lookup m x k :
  mergeOver m x !! k =
  if decide (k = normalizeConfKey x.1) then Some x.2
  else if decide (k ∈ variations x.1) then None else m !! k.
Proof.
  unfold mergeOver. fold (variations x.1). cbn zeta. case_decide as Hk; [subst; apply lookup_insert_eq|].
  rewrite lookup_insert_ne by done. unfold variations, listConfKeyVariations. cbn zeta.
  set (b := trim_prefix _ _). cbn [foldl]. case_decide as Hv.
  - apply elem_of_cons in Hv as [->|Hv%list_elem_of_singleton].
    + destruct (decide (b = "loose_" +:+ b)) as [<-|]; [apply lookup_delete_eq|].
      rewrite lookup_delete_ne by done. apply lookup_delete_eq.
    + subst k. apply lookup_delete_eq.
  - rewrite !lookup_delete_ne; [done|set_solver..].
Qed.

(** The entries of a list that stand for one map: the keys differ, and no key
    is a variation of another one. *)
Definition clear (l : list (string * string)) : Prop :=
  NoDup l.*1 ∧ ∀ p q, p ∈ l → q ∈ l → p.1 ≠ q.1 → normalizeConfKey p.1 ∉ variations q.1.

Lemma clear_snoc l x : clear (l ++ [x]) → clear l ∧ x.1 ∉ l.*1.
Proof.
  intros [Hnd Hc]. rewrite fmap_app in Hnd. apply NoDup_app in Hnd as (Hnd & Hx & _).
  split; [split; [done|]|].
  - intros p q Hp Hq. apply Hc; set_solver.
  - intros Hin. apply (Hx _ Hin). cbn. by left.
Qed.

Lemma mergeOver_entry l m p :
  clear l → p ∈ l → foldl mergeOver m l !! normalizeConfKey p.1 = Some p.2.
Proof.
  induction l as [|x l IH] using rev_ind; [by intros _ ?%elem_of_nil|].
  intros Hc Hp. destruct (clear_snoc _ _ Hc) as [Hl Hx]. destruct Hc as [_ Hc].
  rewrite foldl_app. cbn [foldl]. rewrite mergeOver_lookup.
  apply elem_of_app in Hp as [Hp|Hp%list_elem_of_singleton]; [|subst; by rewrite decide_True].
  assert (normalizeConfKey p.1 ∉ variations x.1) as Hno.
  { apply Hc; [set_solver..|]. intros Heq. apply Hx. rewrite <- Heq. by apply list_elem_of_fmap_2. }
  rewrite !decide_False; [by apply IH|done|].
  intros Heq. apply Hno. rewrite Heq. apply normalize_variation.
Qed.

Lemma mergeOver_shadowed l m k :
  (∀ p, p ∈ l → normalizeConfKey p.1 ≠ k) → (∃ p, p ∈ l ∧ k ∈ variations p.1) →
  foldl mergeOver m l !! k = None.
Proof.
  induction l as [|x l IH] using rev_ind; intros Hne (p & Hp & Hk); [by apply elem_of_nil in Hp|].
  rewrite foldl_app. cbn [foldl]. rewrite mergeOver_lookup.
  rewrite decide_False by (intros ->; by eapply (Hne x); [set_solver|]).
  case_decide; [done|]. apply IH; [set_solver|].
  apply elem_of_app in Hp as [Hp|Hp%list_elem_of_singleton]; [eauto|by subst].
Qed.

Lemma mergeOver_untouched l m k :
  (∀ p, p ∈ l → k ∉ variations p.1) → foldl mergeOver m l !! k = m !! k.
Proof.
  induction l as [|x l IH] using rev_ind; intros Hk; [done|].
  rewrite foldl_app. cbn [foldl]. rewrite mergeOver_lookup.
  assert (k ∉ variations x.1) as Hx by (apply Hk; set_solver).
  rewrite !decide_False; [apply IH; set_solver|done|].
  intros ->. by apply Hx, normalize_variation.
Qed.

Lemma mergeOver_normalized l m : normalized m → normalized (foldl mergeOver m l).
Proof.
  intros Hm. induction l as [|x l IH] using rev_ind; [done|].
  rewrite foldl_app. cbn [foldl]. intros k v. rewrite mergeOver_lookup.
  case_decide as Hk; [intros _; subst; apply normalize_idemp|]. case_decide; [done|apply IH].
Qed.

(** ** The reference for a merge

    The options of [u] under their normalized names, and those options of [m]
    that no option of [u] is a variation of. *)
Definition overridden (u : gmap string string) (k : string) : Prop :=
  set_Exists (λ a, k ∈ variations a) (dom u).

Definition underscored (u : gmap string string) : gmap string string :=
  list_to_map (prod_map normalizeConfKey id <$> map_to_list u).

Definition merge_ref (m u : gmap string string) : gmap string string :=
  underscored u ∪ filter (λ kv, ¬ overridden u kv.1) m.

Lemma unambiguous_inj u a b :
  unambiguous u → a ∈ dom u → b ∈ dom u → normalizeConfKey a = normalizeConfKey b → a = b.
Proof.
  intros Hu Ha Hb Heq. destruct (decide (a = b)) as [|Hne]; [done|]. exfalso.
  apply (Hu a Ha b Hb Hne). rewrite Heq. apply normalize_variation.
Qed.

Lemma underscored_keys u : (prod_map normalizeConfKey id <$> map_to_list u : list (string * string)).*1
                           = normalizeConfKey <$> (map_to_list u).*1.
Proof. rewrite <- !list_fmap_compose. apply list_fmap_ext. by intros i [a v]. Qed.

Lemma underscored_Some u a v :
  unambiguous u → u !! a = Some v → underscored u !! normalizeConfKey a = Some v.
Proof.
  intros Hu Ha. apply elem_of_list_to_map_1.
  - rewrite underscored_keys. apply NoDup_fmap_2_strong; [|apply NoDup_fst_map_to_list].
    intros x y Hx Hy. apply (unambiguous_inj u); [done|..]; apply elem_of_dom.
    + apply list_elem_of_fmap in Hx as ([x' w] & -> & Hx%elem_of_map_to_list). eauto.
    + apply list_elem_of_fmap in Hy as ([y' w] & -> & Hy%elem_of_map_to_list). eauto.
  - apply list_elem_of_fmap. exists (a, v). split; [done|]. by apply elem_of_map_to_list.
Qed.

Lemma underscored_None u k :
  (∀ a v, u !! a = Some v → normalizeConfKey a ≠ k) → underscored u !! k = None.
Proof.
  intros Hk. apply not_elem_of_list_to_map. rewrite underscored_keys.
  intros (a & -> & ([a' v] & -> & Ha%elem_of_map_to_list)%list_elem_of_fmap)%list_elem_of_fmap.
  by apply (Hk _ _ Ha).
Qed.

Section orders.
Context {RG : MapRange}.

Lemma range_elem n {A} (m : gmap string A) k x : (k, x) ∈ range n m ↔ m !! k = Some x.
Proof. rewrite range_perm. apply elem_of_map_to_list. Qed.

Lemma range_keys n {A} (m : gmap string A) : NoDup (range n m).*1.
Proof. rewrite range_perm. apply NoDup_fst_map_to_list. Qed.

Lemma mergeBase_range n (m : gmap string string) :
  normalized m → foldl mergeBase ∅ (range n m) = m.
Proof.
  intros Hm. rewrite mergeBase_fold.
  - transitivity (list_to_map (map_to_list m) : gmap string string); [|apply list_to_map_to_list].
    apply list_to_map_proper.
    + rewrite reverse_Permutation. apply range_keys.
    + by rewrite reverse_Permutation, range_perm.
  - apply Forall_forall. intros k Hk. apply list_elem_of_fmap in Hk as ([k' v] & -> & Hin).
    apply range_elem in Hin. exact (Hm _ _ Hin).
Qed.

Lemma range_clear n (u : gmap string string) : unambiguous u → clear (range n u).
Proof.
  intros Hu. split; [apply range_keys|]. intros [a x] [b y] Ha%range_elem Hb%range_elem Hne.
  apply Hu; [by apply elem_of_dom_2 in Ha|by apply elem_of_dom_2 in Hb|done].
Qed.

Lemma mergeSection_normalized n m u : normalized (mergeSection n m u).
Proof. apply mergeOver_normalized, mergeBase_normalized. Qed.

Lemma mergeSection_absent n m u k :
  normalized m → m !! k = None → set_Forall (λ a, normalizeConfKey a ≠ k) (dom u) →
  mergeSection n m u !! k = None.
Proof.
  intros Hm Hk Hu. unfold mergeSection. rewrite mergeBase_range by done.
  assert (∀ p, p ∈ range (2 * n + 1) u → normalizeConfKey p.1 ≠ k) as Hne.
  { intros [a v] Ha%range_elem. apply Hu. by apply elem_of_dom_2 in Ha. }
  destruct (decide (Exists (λ p, k ∈ variations p.1) (range (2 * n + 1) u))) as [Hex|Hno].
  - apply mergeOver_shadowed; [done|]. by apply Exists_exists in Hex.
  - rewrite mergeOver_untouched; [done|]. intros p Hp Hv. apply Hno, Exists_exists. eauto.
Qed.

(** On clear options a merge does not depend on the order. *)
Lemma mergeSection_ref n m u : normalized m → unambiguous u → mergeSection n m u = merge_ref m u.
Proof.
  intros Hm Hu. unfold mergeSection, merge_ref. rewrite mergeBase_range by done.
  pose proof (range_clear (2 * n + 1) u Hu) as Hc. apply map_eq. intros k.
  destruct (decide (set_Exists (λ a, normalizeConfKey a = k) (dom u))) as [(a & [v Ha]%elem_of_dom & <-)|Hno].
  { rewrite (mergeOver_entry _ _ (a, v)) by (done || by apply range_elem).
    symmetry. by apply lookup_union_Some_l, underscored_Some. }
  assert (∀ a v, u !! a = Some v → normalizeConfKey a ≠ k) as Hne.
  { intros a v Ha Heq. apply Hno. exists a. split; [by apply elem_of_dom_2 in Ha|done]. }
  rewrite lookup_union_r by by apply underscored_None.
  destruct (decide (overridden u k)) as [Hov|Hov].
  - rewrite map_lookup_filter_None_2 by (right; naive_solver).
    destruct Hov as (a & [v Ha]%elem_of_dom & Hv). apply mergeOver_shadowed.
    + intros [b w] Hb%range_elem. by apply Hne in Hb.
    + exists (a, v). split; [by apply range_elem|done].
  - rewrite mergeOver_untouched.
    + destruct (m !! k) as [v|] eqn:Hk.
      * symmetry. by apply map_lookup_filter_Some_2.
      * symmetry. apply map_lookup_filter_None_2. by left.
    + intros [a v] Ha%range_elem Hv. apply Hov. exists a. split; [by apply elem_of_dom_2 in Ha|done].
Qed.

(** ** Well-formed names and values *)

(** What the names and values of a file must look like: a ConfigMap key has no
    other characters than letters, digits, dots, dashes and underscores. *)
Definition nl : ascii := Ascii.ascii_of_nat 10.
Definition key_ok (k : string) : bool :=
  match k with
  | EmptyString => false
  | String c _ => negb (Ascii.eqb c "[") && negb (Ascii.eqb c "!") && no_char nl k && no_char " " k
  end.
Definition section_ok (m : gmap string string) : Prop :=
  map_Forall (λ k v, key_ok k = true ∧ no_char nl v = true) m.

Definition conf_ok (conf : gmap string (gmap string string)) : Prop :=
  map_Forall (λ sec m, no_char nl sec = true ∧ section_ok m) conf.

(** ** The sections *)

Lemma DefaultMycnf_normalized : normalized DefaultMycnf.
Proof. apply (bool_decide_unpack _). vm_compute. done. Qed.

Lemma ConstMycnf_unambiguous : map_Forall (λ _ sc, unambiguous sc) ConstMycnf.
Proof. apply (bool_decide_unpack _). vm_compute. done. Qed.

Lemma ConstMycnf_not_managed :
  map_Forall (λ _ sc, Forall (λ k, set_Forall (λ a, normalizeConfKey a ≠ k) (dom sc)) managedKeys) ConstMycnf.
Proof. apply (bool_decide_unpack _). vm_compute. done. Qed.

Lemma DefaultMycnf_ok : section_ok DefaultMycnf.
Proof. apply (bool_decide_unpack _). vm_compute. done. Qed.

Lemma ConstMycnf_ok : conf_ok ConstMycnf.
Proof. apply (bool_decide_unpack _). vm_compute. done. Qed.

Lemma ConstMycnf_mysqld : is_Some (ConstMycnf !! "mysqld").
Proof. apply (bool_decide_unpack _). vm_compute. done. Qed.

#[local] Opaque DefaultMycnf ConstMycnf.

Lemma dropManaged_other m k : k ∉ managedKeys → dropManaged m !! k = m !! k.
Proof.
  intros Hk. assert (∀ a, a ∈ managedKeys → a ≠ k) as Hne by (intros a Ha ->; done).
  unfold dropManaged. revert Hne. clear Hk. induction managedKeys as [|a l IH] in m |- *; intros Hne; [done|].
  cbn [foldl]. rewrite IH by (intros b Hb; apply Hne; by right). apply lookup_delete_ne, Hne. by left.
Qed.

Lemma dropManaged_None m k : k ∈ managedKeys → dropManaged m !! k = None.
Proof.
  unfold dropManaged, managedKeys. cbn [foldl]. intros Hk.
  repeat (apply elem_of_cons in Hk as [->|Hk]; [rewrite ?lookup_delete_ne by done; apply lookup_delete_eq|]).
  by apply elem_of_nil in Hk.
Qed.

Lemma dropManaged_normalized m : normalized m → normalized (dropManaged m).
Proof.
  intros Hm. unfold dropManaged. cbn [foldl].
  do 5 (apply map_Forall_delete). done.
Qed.

Lemma mysqldSection_normalized u mem : normalized (mysqldSection u mem).
Proof.
  apply dropManaged_normalized. destruct (_ !! _); [apply mergeSection_normalized|].
  apply map_Forall_insert_2; [done|apply mergeSection_normalized].
Qed.

(** The loop over [ConstMycnf] merges every section once. *)
Lemma mergeConst_fold l conf sec :
  NoDup (l.*2).*1 →
  (∀ j sc, (j, (sec, sc)) ∈ l →
     foldl mergeConstStep conf l !! sec = Some (mergeSection (1 + j) (default ∅ (conf !! sec)) sc)) ∧
  (sec ∉ (l.*2).*1 → foldl mergeConstStep conf l !! sec = conf !! sec).
Proof.
  revert conf. induction l as [|[i [s sc]] l IH]; intros c Hl.
  - split; [by intros ?? ?%elem_of_nil|done].
  - cbn in Hl. apply NoDup_cons in Hl as [Hs Hl]. cbn [foldl].
    destruct (IH (mergeConstStep c (i, (s, sc))) Hl) as [IH1 IH2]. split.
    + intros j sc' [[= -> -> ->]|Hj]%elem_of_cons; [rewrite IH2 by done; apply lookup_insert_eq|].
      rewrite (IH1 j sc' Hj). unfold mergeConstStep. rewrite lookup_insert_ne; [done|].
      intros ->. apply Hs. apply list_elem_of_fmap. exists (sec, sc'). split; [done|].
      apply list_elem_of_fmap. by exists (j, (sec, sc')).
    + intros Hno. cbn in Hno. apply not_elem_of_cons in Hno as [Hne Hno].
      rewrite IH2 by done. by apply lookup_insert_ne.
Qed.

Lemma imap_pair_snd {A} (l : list A) : (imap pair l).*2 = l.
Proof.
  rewrite fmap_imap. apply list_eq. intros i. rewrite list_lookup_imap. by destruct (l !! i).
Qed.

Lemma mergeConst_lookup conf sec :
  ∃ i, mergeConst conf !! sec =
       match ConstMycnf !! sec with
       | Some sc => Some (mergeSection i (default ∅ (conf !! sec)) sc)
       | None => conf !! sec
       end.
Proof.
  unfold mergeConst. set (L := imap pair (range 2 ConstMycnf)).
  assert (L.*2 = range 2 ConstMycnf) as HL by apply imap_pair_snd.
  destruct (mergeConst_fold L conf sec) as [H1 H2]; [rewrite HL; apply range_keys|].
  destruct (ConstMycnf !! sec) as [sc|] eqn:E.
  - apply (range_elem 2) in E. rewrite <- HL in E.
    apply list_elem_of_fmap in E as ([j p] & Hp & Hj). cbn in Hp. subst p.
    exists (1 + j)%nat. by apply H1.
  - exists O. apply H2. rewrite HL. intros ([s sc] & -> & Hin)%list_elem_of_fmap.
    apply range_elem in Hin. cbn [fst] in E. by rewrite Hin in E.
Qed.

Lemma buildConf_lookup u mem sec :
  ∃ i, buildConf u mem !! sec =
       match ConstMycnf !! sec with
       | Some sc => Some (mergeSection i (if sec =s "mysqld" then mysqldSection u mem else ∅) sc)
       | None => None
       end.
Proof.
  unfold buildConf. destruct (mergeConst_lookup {[ "mysqld" := mysqldSection u mem ]} sec) as [i ->].
  exists i. destruct (sec =s "mysqld") eqn:E; bool_cases.
  - subst sec. rewrite lookup_singleton_eq.
    by destruct ConstMycnf_mysqld as [sc ->].
  - by rewrite lookup_singleton_ne.
Qed.

(** The options of [ConstMycnf] cannot be changed: whatever the user
    configures and in whatever order Go visits the maps, every forced option has
    its value in its section, under the only spelling left of it (with
    underscores and without another [loose_] variant); and the options on binary
    and error logs that MOCO manages are gone. *)
Theorem forced_options_win u mem sec sc k v :
  ConstMycnf !! sec = Some sc → sc !! k = Some v →
  ∃ conf, buildConf u mem !! sec = Some conf ∧
    conf !! normalizeConfKey k = Some v ∧
    (∀ k' w, conf !! k' = Some w → normalizeConfKey k' = k' ∧ (k' ∈ variations k → k' = normalizeConfKey k)) ∧
    (∀ k', k' ∈ managedKeys → conf !! k' = None).
Proof.
  intros Hsec Hk. destruct (buildConf_lookup u mem sec) as [i Hb]. rewrite Hsec in Hb.
  eexists. split; [exact Hb|]. set (m := if sec =s "mysqld" then _ else _).
  assert (normalized m) as Hm.
  { unfold m. destruct (sec =s _); [apply mysqldSection_normalized|apply map_Forall_empty]. }
  assert (unambiguous sc) as Hu by exact (ConstMycnf_unambiguous _ _ Hsec).
  assert (clear (range (2 * i + 1) sc)) as Hc by by apply range_clear.
  split; [|split].
  - unfold mergeSection. apply (mergeOver_entry _ _ (k, v)); [done|]. by apply range_elem.
  - intros k' w Hk'. split; [exact (mergeSection_normalized _ _ _ _ _ Hk')|]. intros Hv.
    destruct (decide (k' = normalizeConfKey k)) as [|Hne]; [done|exfalso].
    destruct (decide (∃ a, a ∈ dom sc ∧ normalizeConfKey a = k')) as [(a & Ha & <-)|Hno].
    + apply (Hu a Ha k); [by apply elem_of_dom_2 in Hk| |done]. by intros ->.
    + unfold mergeSection in Hk'. rewrite mergeOver_shadowed in Hk'; [done| |].
      * intros [a x] Ha%range_elem Heq. apply Hno. exists a. split; [by apply elem_of_dom_2 in Ha|done].
      * exists (k, v). split; [by apply range_elem|done].
  - intros k' Hk'. pose proof (ConstMycnf_not_managed _ _ Hsec) as Hall.
    rewrite Forall_forall in Hall. apply mergeSection_absent; [done| |by apply Hall].
    unfold m. destruct (sec =s _); [by apply dropManaged_None|done].
Qed.

(** ** The reference for the whole file *)

Definition mysqld_ref (u : gmap string string) (mem : Z) : gmap string string :=
  filter (λ kv, kv.1 ∉ managedKeys)
    (merge_ref DefaultMycnf u ∪ {[ "innodb_buffer_pool_size" := Itoa (calcBufferSize mem) ]}).

Definition conf_ref (u : gmap string string) (mem : Z) : gmap string (gmap string string) :=
  map_imap (λ sec sc, Some (merge_ref (if sec =s "mysqld" then mysqld_ref u mem else ∅) sc)) ConstMycnf.

Lemma mysqldSection_ref u mem : unambiguous u → mysqldSection u mem = mysqld_ref u mem.
Proof.
  intros Hu. unfold mysqldSection, mysqld_ref. cbn zeta.
  rewrite (mergeSection_ref 0) by (apply DefaultMycnf_normalized || done).
  set (c := merge_ref DefaultMycnf u). apply map_eq. intros k.
  assert (dropManaged (match c !! "innodb_buffer_pool_size" with Some _ => c
            | None => <["innodb_buffer_pool_size":=Itoa (calcBufferSize mem)]> c end)
          = dropManaged (c ∪ {[ "innodb_buffer_pool_size" := Itoa (calcBufferSize mem) ]})) as ->.
  { f_equal. destruct (c !! "innodb_buffer_pool_size") eqn:E.
    - symmetry. apply map_eq. intros j. destruct (c !! j) eqn:Ej; [by apply lookup_union_Some_l|].
      rewrite lookup_union_r by done. rewrite lookup_singleton_ne; [done|]. by intros <-; rewrite E in Ej.
    - rewrite insert_union_singleton_r by done. done. }
  set (d := c ∪ _). destruct (decide (k ∈ managedKeys)) as [Hk|Hk].
  - rewrite dropManaged_None by done. symmetry. apply map_lookup_filter_None_2. right. intros x _ Hx. by apply Hx.
  - rewrite dropManaged_other, map_lookup_filter by done. destruct (d !! k); [|done].
    cbn. by rewrite option_guard_True.
Qed.

Lemma buildConf_ref u mem : unambiguous u → buildConf u mem = conf_ref u mem.
Proof.
  intros Hu. apply map_eq. intros sec. destruct (buildConf_lookup u mem sec) as [i ->].
  unfold conf_ref. rewrite map_lookup_imap. destruct (ConstMycnf !! sec) as [sc|] eqn:E; [|done].
  cbn [mbind option_bind]. f_equal.
  rewrite <- (mysqldSection_ref u mem Hu). apply mergeSection_ref.
  - destruct (sec =s _); [apply mysqldSection_normalized|apply map_Forall_empty].
  - exact (ConstMycnf_unambiguous _ _ E).
Qed.

(** ** Printing *)

Lemma sorted_keys_ref n {A} (m : gmap string A) : sorted_keys n m = sort_strings (map_to_list m).*1.
Proof.
  unfold sorted_keys. apply (StronglySorted_unique String.le).
  - apply sort_strings_sorted.
  - apply sort_strings_sorted.
  - rewrite !sort_strings_perm. by rewrite range_perm.
Qed.

Lemma elem_of_sorted_keys n {A} (m : gmap string A) k : k ∈ sorted_keys n m ↔ k ∈ dom m.
Proof.
  unfold sorted_keys. rewrite sort_strings_perm, list_elem_of_fmap, elem_of_dom. split.
  - intros ([k' x] & -> & Hin%range_elem). eauto.
  - intros [x Hx]. exists (k, x). split; [done|]. by apply range_elem.
Qed.
End orders.

(** Printing depends on the content of the maps only. *)
Lemma printConf_orders (R1 R2 : MapRange) opaque conf :
  printConf (RG := R1) opaque conf = printConf (RG := R2) opaque conf.
Proof.
  assert (∀ n i sec c, printSection (RG := R1) n opaque sec c = printSection (RG := R2) i opaque sec c) as Hs.
  { intros n i sec c. unfold printSection. by rewrite !sorted_keys_ref. }
  unfold printConf. rewrite !sorted_keys_ref. do 2 f_equal. apply imap_ext. auto.
Qed.


(** With two spellings of one option in the user's ConfigMap the generated
    file depends on the order of a Go map: the same ConfigMap gives two different
    files, and so two names of the generated ConfigMap. *)
Theorem ambiguous_keys_not_reproducible :
  ∃ (R1 R2 : MapRange) u mem, Generate (RG := R1) u mem ≠ Generate (RG := R2) u mem.
Proof.
  exists range_ascending, range_descending, (list_to_map [("wait-timeout", "1"); ("wait_timeout", "2")]), 0.
  apply (bool_decide_unpack _). vm_compute. done.
Qed.

(** ** Reading the file back

    A reader of option files: a section header, [key = value] lines, blank
    lines and lines with directives. *)
Record reader := { in_section : string; read_conf : gmap string (gmap string string) }.

Definition read_line (r : reader) (line : string) : reader :=
  match line with
  | EmptyString => r
  | String c rest =>
      if Ascii.eqb c "[" then
        let sec := take_str (String.length rest - 1) rest in
        {| in_section := sec; read_conf := <[sec := ∅]> (read_conf r) |}
      else if Ascii.eqb c "!" then r else
      match split_n2 " " line with
      | [k; v] =>
          {| in_section := in_section r;
             read_conf := <[in_section r := <[k := drop_str 2 v]> (default ∅ (read_conf r !! in_section r))]>
                            (read_conf r) |}
      | _ => r
      end
  end.

Definition read_cnf (s : string) : gmap string (gmap string string) :=
  read_conf (foldl read_line {| in_section := ""; read_conf := ∅ |} (split_on (Ascii.ascii_of_nat 10) s)).

Lemma split_on_lines ls :
  Forall (λ l, no_char nl l = true) ls →
  split_on nl (concat_str ((λ l, l +:+ newline) <$> ls)) = ls ++ [""].
Proof.
  induction ls as [|l ls IH]; [done|]. intros [Hl Hls]%Forall_cons_1.
  cbn [fmap list_fmap concat_str foldr]. rewrite str_app_assoc.
  change (newline +:+ ?x) with (String nl x).
  rewrite split_on_app, split_on_no_sep by done. cbn [app]. f_equal. by apply IH.
Qed.

Lemma concat_str_app l k : concat_str (l ++ k) = concat_str l +:+ concat_str k.
Proof.
  induction l as [|a l IH]; [done|].
  change (a +:+ concat_str (l ++ k) = (a +:+ concat_str l) +:+ concat_str k).
  by rewrite IH, str_app_assoc.
Qed.

Definition option_line (conf : gmap string string) (k : string) : string :=
  k +:+ " = " +:+ map_str conf k.

Definition section_lines (conf : gmap string string) (sec : string) (ks : list string) : list string :=
  ("[" +:+ sec +:+ "]") :: (option_line conf <$> ks) ++ [""].

Definition end_lines (ls : list string) : string := concat_str ((λ l, l +:+ newline) <$> ls).

Lemma end_lines_app l k : end_lines (l ++ k) = end_lines l +:+ end_lines k.
Proof. unfold end_lines. by rewrite fmap_app, concat_str_app. Qed.

(** Reading the lines of a section. *)
Definition insert_all {A} (f : string → A) (m : gmap string A) (ks : list string) : gmap string A :=
  foldl (λ m k, <[k := f k]> m) m ks.

Lemma insert_all_lookup {A} (f : string → A) m ks k :
  insert_all f m ks !! k = if decide (k ∈ ks) then Some (f k) else m !! k.
Proof.
  unfold insert_all. induction ks as [|x ks IH] using rev_ind; [done|].
  rewrite foldl_app. cbn [foldl]. destruct (decide (k = x)) as [->|Hne].
  - rewrite lookup_insert_eq, decide_True; [done|set_solver].
  - rewrite lookup_insert_ne, IH by done. do 2 case_decide; set_solver.
Qed.

Lemma insert_all_dom {A} (f : string → A) ks (m : gmap string A) :
  (∀ k, k ∈ ks ↔ k ∈ dom m) → (∀ k x, m !! k = Some x → f k = x) → insert_all f ∅ ks = m.
Proof.
  intros Hks Hf. apply map_eq. intros k. rewrite insert_all_lookup.
  case_decide as Hk; rewrite Hks, elem_of_dom in Hk.
  - destruct Hk as [x Hx]. by rewrite Hx, (Hf _ _ Hx).
  - rewrite <- eq_None_not_Some in Hk. by rewrite Hk, lookup_empty.
Qed.

Lemma read_header r sec :
  read_line r ("[" +:+ sec +:+ "]") = {| in_section := sec; read_conf := <[sec := ∅]> (read_conf r) |}.
Proof.
  change ("[" +:+ sec +:+ "]") with (String "[" (sec +:+ "]")). unfold read_line.
  change (Ascii.eqb "[" "[") with true. cbn zeta iota. rewrite length_str_app. cbn [String.length]. rewrite Nat.add_sub. by rewrite take_str_app.
Qed.

Lemma read_option r conf k v :
  key_ok k = true → conf !! k = Some v →
  read_line r (option_line conf k) =
  {| in_section := in_section r;
     read_conf := <[in_section r := <[k := v]> (default ∅ (read_conf r !! in_section r))]> (read_conf r) |}.
Proof.
  intros Hk Hv. unfold option_line, map_str. rewrite Hv. change (default "" (Some v)) with v.
  pose proof (split_n2_no_sep " " k ("= " +:+ v)) as Hsp.
  destruct k as [|c k]; [done|]. cbn [key_ok] in Hk. bool_cases.
    change (String c k +:+ " = " +:+ v) with (String c (k +:+ " = " +:+ v)).
  unfold read_line. repeat match goal with H : Ascii.eqb _ _ = false |- _ => rewrite H; clear H end.
  change (String c (k +:+ " = " +:+ v)) with (String c k +:+ String " " ("= " +:+ v)).
  by rewrite Hsp.
Qed.

Lemma read_options sec conf ks m c :
  section_ok conf → (∀ k, k ∈ ks → k ∈ dom conf) →
  foldl read_line {| in_section := sec; read_conf := <[sec := m]> c |} (option_line conf <$> ks) =
  {| in_section := sec; read_conf := <[sec := insert_all (map_str conf) m ks]> c |}.
Proof.
  intros Hok. revert m. induction ks as [|k ks IH]; intros m Hks; [done|]. cbn [fmap list_fmap foldl].
  assert (k ∈ dom conf) as [v Hv]%elem_of_dom by (apply Hks; by left).
  rewrite (read_option _ _ _ _ (proj1 (Hok _ _ Hv)) Hv). cbn [in_section read_conf].
  rewrite lookup_insert_eq, insert_insert_eq. cbn [default]. rewrite IH by (intros; apply Hks; by right).
  unfold insert_all. cbn [foldl]. assert (map_str conf k = v) as -> by (unfold map_str; by rewrite Hv). done.
Qed.

Lemma read_section r conf sec ks :
  section_ok conf → (∀ k, k ∈ ks ↔ k ∈ dom conf) →
  foldl read_line r (section_lines conf sec ks) =
  {| in_section := sec; read_conf := <[sec := conf]> (read_conf r) |}.
Proof.
  intros Hok Hks. unfold section_lines. cbn [foldl]. rewrite read_header, foldl_app.
  rewrite read_options by (done || by intros k; rewrite Hks). cbn [foldl read_line].
  do 2 f_equal. apply insert_all_dom; [done|]. intros k x Hx. unfold map_str. by rewrite Hx.
Qed.

(** ** Round trip *)

Definition keys_of {A} (m : gmap string A) : list string := sort_strings (map_to_list m).*1.

Lemma elem_of_keys_of {A} (m : gmap string A) k : k ∈ keys_of m ↔ k ∈ dom m.
Proof. rewrite <- (elem_of_sorted_keys (RG := range_ascending) 0). by rewrite sorted_keys_ref. Qed.

Section roundtrip.
Context {RG : MapRange}.

Lemma printSection_lines n sec m :
  printSection n "" sec m = end_lines (section_lines m sec (keys_of m)).
Proof.
  unfold printSection, section_lines. rewrite andb_false_r, sorted_keys_ref. fold (keys_of m).
  change (end_lines (?x :: ?l)) with ((x +:+ newline) +:+ end_lines l). rewrite end_lines_app.
  assert (end_lines (option_line m <$> keys_of m)
          = concat_str ((λ k, k +:+ " = " +:+ map_str m k +:+ newline) <$> keys_of m)) as ->.
  { unfold end_lines. rewrite <- list_fmap_compose. f_equal. apply list_fmap_ext. intros _ k _.
    unfold compose, option_line. by rewrite !str_app_assoc. }
  by rewrite !str_app_assoc.
Qed.

Lemma section_lines_plain sec m :
  no_char nl sec = true → section_ok m →
  Forall (λ l, no_char nl l = true) (section_lines m sec (keys_of m)).
Proof.
  intros Hsec Hm. unfold section_lines. constructor; [rewrite !no_char_app, Hsec; done|].
  apply Forall_app. split; [|by constructor]. apply Forall_fmap, Forall_forall. intros k Hk.
  apply elem_of_keys_of, elem_of_dom in Hk as [v Hv]. destruct (Hm _ _ Hv) as [Hkey Hval].
  unfold compose, option_line, map_str. rewrite Hv, !no_char_app. change (default "" (Some v)) with v.
  rewrite Hval. destruct k as [|c k]; [done|]. cbn [key_ok] in Hkey. bool_cases.
  by rewrite H1.
Qed.

(** The lines of the whole file. *)
Definition conf_lines (conf : gmap string (gmap string string)) : list string :=
  concat ((λ sec, let m := default ∅ (conf !! sec) in section_lines m sec (keys_of m)) <$> keys_of conf)
  ++ ["!includedir " +:+ MySQLInitConfPath].

Lemma printConf_lines conf : printConf "" conf = end_lines (conf_lines conf).
Proof.
  unfold printConf, conf_lines. rewrite end_lines_app, sorted_keys_ref. fold (keys_of conf). f_equal.
  induction (keys_of conf) as [|sec secs IH] using rev_ind; [done|].
  rewrite imap_app, concat_str_app, IH, fmap_app, concat_app, end_lines_app. f_equal.
  cbn [imap fmap list_fmap concat]. rewrite app_nil_r, <- (printSection_lines (20 + length secs)).
  change (concat_str [?x]) with (x +:+ ""). by rewrite str_app_nil_r, Nat.add_0_r.
Qed.

Lemma read_sections conf secs r :
  conf_ok conf → (∀ sec, sec ∈ secs → sec ∈ dom conf) →
  read_conf (foldl read_line r (concat
    ((λ sec, let m := default ∅ (conf !! sec) in section_lines m sec (keys_of m)) <$> secs)))
  = insert_all (λ sec, default ∅ (conf !! sec)) (read_conf r) secs.
Proof.
  intros Hok. revert r. induction secs as [|sec secs IH]; intros r Hsecs; [done|].
  cbn [fmap list_fmap concat]. rewrite foldl_app.
  assert (sec ∈ dom conf) as [m Hm]%elem_of_dom by (apply Hsecs; by left).
  destruct (Hok _ _ Hm) as [_ Hsok]. rewrite read_section.
  - rewrite IH by (intros; apply Hsecs; by right). done.
  - by rewrite Hm.
  - apply elem_of_keys_of.
Qed.

Lemma read_printConf conf : conf_ok conf → read_cnf (printConf "" conf) = conf.
Proof.
  intros Hok. unfold read_cnf. rewrite printConf_lines. fold nl. unfold end_lines. rewrite split_on_lines.
  - rewrite foldl_app. cbn [foldl]. unfold conf_lines. rewrite foldl_app. cbn [foldl].
    set (r := foldl _ _ _). change (read_conf (read_line (read_line r ?x) "")) with (read_conf r).
    unfold r. rewrite read_sections; [|done|by intros sec; rewrite elem_of_keys_of].
    apply insert_all_dom; [apply elem_of_keys_of|]. intros sec m Hm. by rewrite Hm.
  - unfold conf_lines. apply Forall_app. split; [|by repeat constructor].
    apply Forall_concat, Forall_fmap, Forall_forall. intros sec Hsec.
    apply elem_of_keys_of, elem_of_dom in Hsec as [m Hm]. unfold compose. rewrite Hm.
    destruct (Hok _ _ Hm). by apply section_lines_plain.
Qed.

(** Merging and completing the options keeps names and values well formed. *)
Lemma without_replace c a b s :
  b ≠ c → no_char c s = true → no_char c (replace_char a b s) = true.
Proof.
  intros Hb. induction s as [|d s IH]; intros Hs; [done|]. unfold no_char in *. cbn [str_forall replace_char] in *.
  apply andb_true_iff in Hs as [Hd Hs]. rewrite (IH Hs), andb_true_r.
  destruct (Ascii.eqb d a); [|done]. by destruct (Ascii.eqb_spec b c).
Qed.

Lemma key_ok_normalize k : key_ok k = true → key_ok (normalizeConfKey k) = true.
Proof.
  destruct k as [|c k]; [done|]. unfold normalizeConfKey. intros Hk. cbn [key_ok] in Hk.
  apply andb_true_iff in Hk as [Hk Hsp]. apply andb_true_iff in Hk as [Hk Hnl].
  pose proof (without_replace nl "-" "_" (String c k) ltac:(done) Hnl) as H1.
  pose proof (without_replace " " "-" "_" (String c k) ltac:(done) Hsp) as H2.
  cbn [replace_char] in *. cbn [key_ok]. rewrite H1, H2, !andb_true_r. by destruct (Ascii.eqb c "-").
Qed.

Lemma mergeSection_ok n m u : section_ok m → section_ok u → section_ok (mergeSection n m u).
Proof.
  intros Hm Hu. unfold mergeSection.
  assert (∀ l c, (∀ k v, (k, v) ∈ l → key_ok k = true ∧ no_char nl v = true) →
          section_ok c → section_ok (foldl mergeBase c l)) as Hbase.
  { induction l as [|[k v] l IH]; intros c Hl Hc; [done|]. apply IH; [intros; apply Hl; by right|].
    destruct (Hl k v) as [Hk Hv]; [by left|]. apply map_Forall_insert_2; [|done].
    split; [by apply key_ok_normalize|done]. }
  assert (∀ l c, (∀ k v, (k, v) ∈ l → key_ok k = true ∧ no_char nl v = true) →
          section_ok c → section_ok (foldl mergeOver c l)) as Hover.
  { induction l as [|[k v] l IH]; intros c Hl Hc; [done|]. apply IH; [intros; apply Hl; by right|].
    destruct (Hl k v) as [Hk Hv]; [by left|]. apply map_Forall_insert_2; [split; [by apply key_ok_normalize|done]|].
    cbn [foldl listConfKeyVariations]. by do 2 apply map_Forall_delete. }
  apply Hover; [by intros k v ?%range_elem; apply Hu|]. apply Hbase; [by intros k v ?%range_elem; apply Hm|].
  apply map_Forall_empty.
Qed.

Lemma Itoa_one_line n : 0 ≤ n → no_char nl (Itoa n) = true.
Proof. intros Hn. by apply Itoa_no_sep. Qed.

Lemma calcBufferSize_pos mem : 0 ≤ calcBufferSize mem.
Proof.
  unfold calcBufferSize. cbn zeta. set (m := wrap64 _).
  destruct (Z.ltb_spec m (Z.shiftl 128 20)) as [|Hm]; [done|]. by etransitivity; [|exact Hm].
Qed.

Lemma mysqldSection_ok u mem : section_ok u → section_ok (mysqldSection u mem).
Proof.
  intros Hu. unfold mysqldSection, dropManaged, managedKeys. cbn [foldl]. do 5 apply map_Forall_delete.
  assert (section_ok (mergeSection 0 DefaultMycnf u)) as Hm by (apply mergeSection_ok; [apply DefaultMycnf_ok|done]).
  destruct (_ !! _); [done|]. apply map_Forall_insert_2; [|done].
  split; [done|]. apply Itoa_one_line, calcBufferSize_pos.
Qed.

End roundtrip.

(** The size of the buffer pool is a whole number of MiB, at least 128 MiB,
    at most 70% of the memory when that is more, and at most 1 MiB and 70 bytes
    below 70%; no step overflows. *)
Theorem buffer_size_bounds mem :
  0 ≤ mem < 2 ^ 63 →
  let m := calcBufferSize mem in
  m mod 2 ^ 20 = 0 ∧ 2 ^ 27 ≤ m ∧ (m = 2 ^ 27 ∨ m * 100 ≤ mem * 70) ∧ mem * 70 < (m + 2 ^ 20 + 70) * 100.
Proof.
  intros Hmem. unfold calcBufferSize, InnoDBBufferPoolRatioPercent. cbn zeta.
  rewrite Z.quot_div_nonneg by lia. set (q := mem / 100).
  assert (100 * q ≤ mem < 100 * q + 100) as Hq by (unfold q; pose proof (Z.div_mod mem 100); pose proof (Z.mod_pos_bound mem 100); lia).
  rewrite !Z.shiftl_mul_pow2, Z.shiftr_div_pow2 by lia.
  assert (∀ x, 0 ≤ x < 2 ^ 63 → wrap64 x = x) as Hw.
  { intros x Hx. unfold wrap64, wrap. change (2 ^ (64 - 1)) with (2 ^ 63). rewrite Z.mod_small; lia. }
  rewrite (Hw (q * 70)) by lia. set (r := q * 70 / 2 ^ 20).
  assert (2 ^ 20 * r ≤ q * 70 < 2 ^ 20 * r + 2 ^ 20) as Hr
    by (unfold r; pose proof (Z.div_mod (q * 70) (2 ^ 20)); pose proof (Z.mod_pos_bound (q * 70) (2 ^ 20)); lia).
  rewrite Hw by lia. destruct (Z.ltb_spec (r * 2 ^ 20) (128 * 2 ^ 20)).
  - change (128 * 2 ^ 20) with (2 ^ 27). split_and!; [done|lia|by left|lia].
  - split_and!; [by rewrite Z.mod_mul by lia|lia|right; lia|lia].
Qed.

(** ** Witnesses *)

(** A ConfigMap that sets a default under another spelling and tries to change
    a forced option and a managed one. *)
Definition sample_conf : gmap string string :=
  list_to_map [("thread-cache-size", "200"); ("read-only", "OFF"); ("log-bin", "y"); ("foo", "bar")].

Lemma sample_conf_clear : unambiguous sample_conf ∧ section_ok sample_conf ∧ map_str sample_conf opaqueKey = "".
Proof. split_and!; apply (bool_decide_unpack _); vm_compute; done. Qed.

Lemma forced_options_win_witness :
  ∃ conf, buildConf (RG := range_descending) sample_conf 0 !! "mysqld" = Some conf ∧
    conf !! "read_only" = Some "ON" ∧ conf !! "log_bin" = None.
Proof.
  destruct (forced_options_win (RG := range_descending) sample_conf 0 "mysqld" constMysqld "read_only" "ON")
    as (conf & H1 & H2 & _ & H3).
  - apply (bool_decide_unpack _). vm_compute. done.
  - apply (bool_decide_unpack _). vm_compute. done.
  - exists conf. split; [exact H1|]. split; [exact H2|]. apply H3. right. left.
Defined.


