(* ===== verification/Controller.v ===== *)
(** * The calls of the MySQLCluster controller (controllers/mysqlcluster_controller.go)

    The data [MySQLClusterReconciler] applies to the API server, the calls it
    makes, and the helpers all its steps share: the label sets, the controller
    reference and [apply], which sends a configuration only when it differs from
    the one applied before.  Functions of client-go, apimachinery and text/template
    are fields of the class [KubeLibs]; the configuration of the reconciler is
    the class [Reconciler]. *)

From S2P Require Import Prelude Prog GoLib Constants Api K8s Password StatefulSets Webhook.
#[local] Open Scope Z_scope.

(** ** Apply configurations *)

Record OwnerRefAC := {
  or_APIVersion : string;
  or_Kind : string;
  or_Name : string;
  or_UID : string;
  or_BlockOwnerDeletion : bool;
  or_Controller : bool
}.

Record MetaAC := {
  ac_Name : string;
  ac_Namespace : string;
  ac_Labels : gmap string string;
  ac_Annotations : gmap string string;
  ac_OwnerReferences : list OwnerRefAC
}.

Record ClaimAC := {
  cla_Name : string;
  cla_Labels : gmap string string;
  cla_Annotations : gmap string string;
  cla_OwnerReferences : list OwnerRefAC;
  cla_StorageClassName : option string;
  cla_Requests : option (option Z);
  cla_AccessModes : list string;
  cla_VolumeMode : string;
  cla_Phase : string;
  cla_Rest : json
}.

Record StatefulSetAC := {
  ssa_Replicas : Z;
  ssa_MatchLabels : gmap string string;
  ssa_PodManagementPolicy : string;
  ssa_StrategyType : string;
  ssa_ServiceName : string;
  ssa_VolumeClaimTemplates : option (list ClaimAC);
  ssa_TemplateLabels : gmap string string;
  ssa_TemplateAnnotations : gmap string string;
  ssa_PodSpec : PodSpecApplyConfiguration
}.

Record PolicyRule := {
  rule_APIGroups : list string;
  rule_Resources : list string;
  rule_Verbs : list string;
  rule_ResourceNames : list string
}.

Record JobSpec := {
  js_BackoffLimit : option Z;
  js_ActiveDeadlineSeconds : option Z;
  js_PodLabels : gmap string string;
  js_PodSpec : PodSpecApplyConfiguration
}.

Record CronJobSpec := {
  cjs_Schedule : string;
  cjs_TimeZone : option string;
  cjs_ConcurrencyPolicy : string;
  cjs_StartingDeadlineSeconds : option Z;
  cjs_SuccessfulJobsHistoryLimit : option Z;
  cjs_FailedJobsHistoryLimit : option Z;
  cjs_JobTemplateLabels : gmap string string;
  cjs_Job : JobSpec
}.

(** The specification or data of each kind of object. *)
Inductive BodyAC :=
| BodySecret (data : gmap string string)
| BodyConfigMap (data : gmap string string)
| BodyServiceAccount
| BodyService (spec : ServiceSpec)
| BodyStatefulSet (spec : StatefulSetAC)
| BodyPDB (maxUnavailable : Z) (matchLabels : gmap string string)
| BodyCronJob (spec : CronJobSpec)
| BodyJob (spec : JobSpec)
| BodyRole (rules : list PolicyRule)
| BodyRoleBinding (refGroup refKind refName : string) (subjectKind subjectName subjectNamespace : string).

Record ApplyConfig := { ac_Meta : MetaAC; ac_Body : BodyAC }.

#[export] Instance OwnerRefAC_eq_dec : EqDecision OwnerRefAC.
Proof. solve_decision. Defined.
#[export] Instance MetaAC_eq_dec : EqDecision MetaAC.
Proof. solve_decision. Defined.
#[export] Instance ClaimAC_eq_dec : EqDecision ClaimAC.
Proof. solve_decision. Defined.
#[export] Instance StatefulSetAC_eq_dec : EqDecision StatefulSetAC.
Proof. solve_decision. Defined.
#[export] Instance PolicyRule_eq_dec : EqDecision PolicyRule.
Proof. solve_decision. Defined.
#[export] Instance JobSpec_eq_dec : EqDecision JobSpec.
Proof. solve_decision. Defined.
#[export] Instance CronJobSpec_eq_dec : EqDecision CronJobSpec.
Proof. solve_decision. Defined.
#[export] Instance BodyAC_eq_dec : EqDecision BodyAC.
Proof. solve_decision. Defined.
#[export] Instance ApplyConfig_eq_dec : EqDecision ApplyConfig.
Proof. solve_decision. Defined.

(** ** Objects the controller reads or writes directly *)

Record ConfigMap := {
  cm_Name : string;
  cm_Namespace : string;
  cm_Data : gmap string string;
  cm_CreationTimestamp : Z
}.

(** The maps of a claim are nil ([None]) or not: writing to a nil map panics. *)
Record PVC := {
  pvc_Name : string;
  pvc_Namespace : string;
  pvc_Labels : option (gmap string string);
  pvc_Annotations : option (gmap string string);
  pvc_StorageClassName : option string;
  pvc_Requests : option (option Z)
}.

Inductive kind := KSecret | KConfigMap | KServiceAccount | KService | KStatefulSet | KPDB | KCronJob
| KJob | KRole | KRoleBinding | KCertificate.

#[export] Instance kind_eq_dec : EqDecision kind.
Proof. solve_decision. Defined.

Definition body_kind (b : BodyAC) : kind :=
  match b with
  | BodySecret _ => KSecret
  | BodyConfigMap _ => KConfigMap
  | BodyServiceAccount => KServiceAccount
  | BodyService _ => KService
  | BodyStatefulSet _ => KStatefulSet
  | BodyPDB _ _ => KPDB
  | BodyCronJob _ => KCronJob
  | BodyJob _ => KJob
  | BodyRole _ => KRole
  | BodyRoleBinding _ _ _ _ _ _ => KRoleBinding
  end.

(** ** Calls *)

Inductive rcall :=
| RGetCluster (namespace name : string)
| RUpdateCluster (c : MySQLCluster)
| RStatusUpdate (c : MySQLCluster)
| RGetStatefulSet (namespace name : string)
| RDeleteOrphan (sts : StatefulSet)             (* Delete with DeletePropagationOrphan *)
| RGetObject (k : kind) (namespace name : string)   (* the object as JSON text *)
| RApply (cfg : ApplyConfig)                    (* server-side apply, forced *)
| RDelete (k : kind) (namespace name : string)
| RGetConfigMap (namespace name : string)
| RListConfigMaps (namespace : string)
| RListPVCs (namespace selector : string)
| RUpdatePVC (pvc : PVC)
| RGetStorageClass (name : string)
| RGetSecret (namespace name : string)
| RCreateSecret (s : Secret)
| RCreateOrUpdateSecret (namespace name : string) (mutate : Secret → extres Secret)
| RCreateCertificate (obj : json) (labels : gmap string string)
| RGetBackupPolicy (namespace name : string)
| RGetCronJobActive (namespace name : string)   (* whether Status.Active is non-nil *)
| RRand (n : Z)
| RMetric (metric cluster namespace : string) (v : option Z)
| RMetricDelete (metric cluster namespace : string)
| RManagerUpdate (namespace name : string)      (* ClusterManager.Update *)
| RManagerStop (namespace name : string)
| RManagerPause (namespace name : string)
| RSleep (ms : Z).

Definition rresp (c : rcall) : Type :=
  match c with
  | RGetCluster _ _ => extres MySQLCluster
  | RGetStatefulSet _ _ => extres StatefulSet
  | RGetObject _ _ _ => extres json
  | RGetConfigMap _ _ => extres ConfigMap
  | RListConfigMaps _ => extres (list ConfigMap)
  | RListPVCs _ _ => extres (list PVC)
  | RGetStorageClass _ => extres StorageClass
  | RGetSecret _ _ => extres Secret
  | RGetBackupPolicy _ _ => extres BackupPolicy
  | RGetCronJobActive _ _ => extres bool
  | RRand _ => extres (list Z)
  | RMetric _ _ _ _ | RMetricDelete _ _ _ | RManagerUpdate _ _ | RManagerStop _ _ | RManagerPause _ _
  | RSleep _ => unit
  | _ => extres unit
  end.

Definition ctrlSig : signature := {| call := rcall; resp := rresp |}.
Definition rcall_ (c : rcall) : prog ctrlSig (rresp c) := @perform ctrlSig c.

(** ** Configuration and libraries *)

(* controllers/mysqlcluster_controller.go :: MySQLClusterReconciler *)
Class Reconciler := {
  AgentImage : string;
  BackupImage : string;
  FluentBitImage : string;
  ExporterImage : string;
  SystemNamespace : string;
  PVCSyncAnnotationKeys : list string;
  PVCSyncLabelKeys : list string;
  MySQLConfigMapHistoryLimit : Z;
  DisableDefaultSecurityContext : bool;
  debugController : bool;               (* DEBUG_CONTROLLER=1 *)
  noJobResource : bool                  (* TEST_NO_JOB_RESOURCE=1 *)
}.

Class KubeLibs := {
  (** [apiutil.GVKForObject] of a MySQLCluster: its API version and kind. *)
  GVKForObject : extres (string * string);
  (** The generated [Extract*] functions for the controller's field manager;
      the object that was not found is the empty text. *)
  Extract : kind → json → extres (option ApplyConfig);
  ExtractStatefulSet : option StatefulSet → extres (option ApplyConfig);
  (** "If no managedFields are found [...] an apply configuration is returned
      with only the Name, Namespace, APIVersion and Kind populated": that is
      [None], as is the result for an object that was not found. *)
  ExtractStatefulSet_none r : ExtractStatefulSet None = inr r → r = None;
  (** [equality.Semantic.DeepEqual] on apply configurations. *)
  Apply_DeepEqual : ApplyConfig → option ApplyConfig → bool;
  Apply_DeepEqual_eq a b : Apply_DeepEqual a b = true ↔ b = Some a;
  Claims_DeepEqual : option (list ClaimAC) → option (list ClaimAC) → bool;
  Claims_DeepEqual_eq a b : Claims_DeepEqual a b = true ↔ a = b;
  (** [metav1.LabelSelectorAsSelector], the selector as its text. *)
  LabelSelectorAsSelector : option (gmap string string) → extres string;
  (** [resource.MustParse] of the constants. *)
  MustParse : string → Z;
  (** [template.New("").Parse] and [Execute] with a path. *)
  template_Parse : string → extres unit;
  template_Execute : string → string → extres string;
  (** The certificate template: name, namespace, service, target namespace. *)
  renderCertificate : string → string → string → string → extres string;
  decodeCertificate : string → extres json;
  (** [MySQLPassword.ToMyCnfSecret] on every password: it agrees with the
      definition of Password.v where the quoting is modelled. *)
  MyCnfSecretOf : MySQLPassword → Secret;
  MyCnfSecretOf_spec p s : ToMyCnfSecret p = Some s → MyCnfSecretOf p = s;
  (** [ctrl.SetControllerReference] on a Secret. *)
  SetControllerReference : MySQLCluster → Secret → extres Secret
}.

(** ** Labels *)

(* controllers/mysqlcluster_controller.go :: labelSet *)
Definition labelSet (cluster : MySQLCluster) (controller : bool) : gmap string string :=
  let labels := <[LabelAppName := AppNameMySQL]> (<[LabelAppInstance := Name cluster]>
                  {[ LabelAppCreatedBy := AppCreator ]}) in
  if controller then <[LabelAppNamespace := Namespace cluster]> labels else labels.

(* controllers/mysqlcluster_controller.go :: labelSetForJob *)
Definition labelSetForJob (cluster : MySQLCluster) : gmap string string :=
  <[LabelAppName := AppNameBackup]> (<[LabelAppInstance := Name cluster]> {[ LabelAppCreatedBy := AppCreator ]}).

(** Entries of the second map win; nil for an empty result is the empty map. *)
(* controllers/mysqlcluster_controller.go :: mergeMap *)
Definition mergeMap (m1 m2 : gmap string string) : gmap string string := m2 ∪ m1.

(** [WithLabels] and [WithAnnotations] put entries into the map. *)
Definition with_entries (m entries : gmap string string) : gmap string string := entries ∪ m.

(* controllers/mysqlcluster_controller.go :: isReconciliationStopped *)
Definition isReconciliationStopped (cluster : MySQLCluster) : bool :=
  map_str (meta_Annotations (cluster_Meta cluster)) AnnReconciliationStopped =s "true".
(* controllers/mysqlcluster_controller.go :: isClusteringStopped *)
Definition isClusteringStopped (cluster : MySQLCluster) : bool :=
  map_str (meta_Annotations (cluster_Meta cluster)) AnnClusteringStopped =s "true".
(* controllers/mysqlcluster_controller.go :: isForceRollingUpdate *)
Definition isForceRollingUpdate (cluster : MySQLCluster) : bool :=
  map_str (meta_Annotations (cluster_Meta cluster)) AnnForceRollingUpdate =s "true".

(** A computation without panics as one that may panic. *)
Definition outcome_of {A} (r : extres A) : outcome A :=
  match r with inr a => Return a | inl e => Error e end.
Definition fallible {A} (p : prog ctrlSig (extres A)) : prog ctrlSig (outcome A) :=
  bind p (λ r, Ret (outcome_of r)).

Lemma wp_fallible {A} P (p : prog ctrlSig (extres A)) h Q :
  wp P (fallible p) h Q ↔ wp P p h (λ h' r, Q h' (outcome_of r)).
Proof. unfold fallible. apply wp_bind. Qed.

Lemma only_fallible {A} P (p : prog ctrlSig (extres A)) : only P p → only P (fallible p).
Proof. intros H. apply only_bind; [done|]. intros r. apply only_ret. Qed.

(** ** Containers *)

(** The first container of a name; one without a name is a nil dereference. *)
Fixpoint findNamed (name : string) (containers : list Container) : outcome (option Container) :=
  match containers with
  | [] => Return None
  | c :: rest =>
      match container_Name c with
      | None => Panic "nil pointer dereference"
      | Some n => if n =s name then Return (Some c) else findNamed name rest
      end
  end.

Section controller.
Context {RE : Reconciler} {KL : KubeLibs}.

(** ** Owner references *)

Definition controllerRef (cluster : MySQLCluster) (apiVersion kd : string) : OwnerRefAC :=
  {| or_APIVersion := apiVersion; or_Kind := kd; or_Name := Name cluster;
     or_UID := meta_UID (cluster_Meta cluster); or_BlockOwnerDeletion := true; or_Controller := true |}.

Definition with_owner (o : OwnerRefAC) (cfg : ApplyConfig) : ApplyConfig :=
  {| ac_Meta := {| ac_Name := ac_Name (ac_Meta cfg); ac_Namespace := ac_Namespace (ac_Meta cfg);
                   ac_Labels := ac_Labels (ac_Meta cfg); ac_Annotations := ac_Annotations (ac_Meta cfg);
                   ac_OwnerReferences := ac_OwnerReferences (ac_Meta cfg) ++ [o] |};
     ac_Body := ac_Body cfg |}.

(* controllers/mysqlcluster_controller.go :: setControllerReference *)
Definition setControllerReference (cluster : MySQLCluster) (cfg : ApplyConfig) : extres ApplyConfig :=
  match GVKForObject with
  | inl e => inl e
  | inr (apiVersion, kd) => inr (with_owner (controllerRef cluster apiVersion kd) cfg)
  end.

(** The API version of an owner reference already deployed for this cluster is
    kept; the last such reference wins. *)
(* controllers/mysqlcluster_controller.go :: setControllerReferenceWithPVC *)
Definition setControllerReferenceWithPVC (cluster : MySQLCluster) (origPVC : option ClaimTemplate)
    (pvc : ClaimAC) : extres ClaimAC :=
  match GVKForObject with
  | inl e => inl e
  | inr (gv, kd) =>
      let apiVersion :=
        match origPVC with
        | None => gv
        | Some orig =>
            foldl (λ v owner, if (owner_UID owner =s meta_UID (cluster_Meta cluster)) && (v <>s owner_APIVersion owner)
                              then owner_APIVersion owner else v) gv (ct_OwnerReferences orig)
        end in
      inr {| cla_Name := cla_Name pvc; cla_Labels := cla_Labels pvc; cla_Annotations := cla_Annotations pvc;
             cla_OwnerReferences := cla_OwnerReferences pvc ++ [controllerRef cluster apiVersion kd];
             cla_StorageClassName := cla_StorageClassName pvc; cla_Requests := cla_Requests pvc;
             cla_AccessModes := cla_AccessModes pvc; cla_VolumeMode := cla_VolumeMode pvc;
             cla_Phase := cla_Phase pvc; cla_Rest := cla_Rest pvc |}
  end.

(** ** apply *)

(** The zero object when [Get] does not find it; the message of an error. *)
Definition get_or_zero (msg : string) (r : extres json) : extres json :=
  match r with
  | inr orig => inr orig
  | inl e => if is_not_found e then inr "" else inl (ErrWrap msg e)
  end.

(* controllers/mysqlcluster_controller.go :: apply *)
Definition apply (namespace name : string) (expected : ApplyConfig) : prog ctrlSig (extres unit) :=
  let k := body_kind (ac_Body expected) in
  let at_key s := s +:+ " resource " +:+ namespace +:+ "/" +:+ name in
  orig <-! (r <-- rcall_ (RGetObject k namespace name) ;; Ret (get_or_zero (at_key "failed to get") r)) ;;
  origApplyConfig <-! wrap_err (at_key "failed to extract") (Ret (Extract k orig)) ;;
  if Apply_DeepEqual expected origApplyConfig then Ret (inl ErrApplyConfigurationNotChanged)
  else rcall_ (RApply expected).

(** The common end of the steps: set the controller reference, apply, treat an
    unchanged configuration as success; [onChanged] runs only after a change. *)
Definition applyOwned (cluster : MySQLCluster) (what failure : string) (cfg : ApplyConfig)
    (onChanged : prog ctrlSig (extres unit)) : prog ctrlSig (extres unit) :=
  let ns := ac_Namespace (ac_Meta cfg) in
  let name := ac_Name (ac_Meta cfg) in
  cfg' <-! wrap_err ("failed to set ownerReference to " +:+ what +:+ " " +:+ ns +:+ "/" +:+ name)
             (Ret (setControllerReference cluster cfg)) ;;
  r <-- apply ns name cfg' ;;
  match r with
  | inl e => if error_is e ErrApplyConfigurationNotChanged then Ret (inr ()) else Ret (inl (ErrWrap failure e))
  | inr _ => onChanged
  end.

(** [if debugController]: the updated object is read and its difference printed. *)
Definition debugDiff (k : kind) (what namespace name : string) : prog ctrlSig (extres unit) :=
  if debugController then
    r <-- rcall_ (RGetObject k namespace name) ;;
    Ret (match get_or_zero ("failed to get " +:+ what +:+ " " +:+ namespace +:+ "/" +:+ name) r with
         | inl e => inl e
         | inr _ => inr ()
         end)
  else Ret (inr ()).

Definition objMeta (cluster : MySQLCluster) (name : string) (labels : gmap string string) : MetaAC :=
  {| ac_Name := name; ac_Namespace := Namespace cluster; ac_Labels := labels; ac_Annotations := ∅;
     ac_OwnerReferences := [] |}.
End controller.
