(* ===== verification/ControllerSamples.v ===== *)
(** * Sample parameters of the MySQLCluster controller

    Concrete libraries and a concrete configuration, at which the theorems about
    the controller are instantiated. *)

From S2P Require Import Prelude Prog GoLib Constants Api K8s Password Samples StatefulSets Webhook Controller.
#[local] Open Scope Z_scope.

#[export] Instance sample_reconciler : Reconciler :=
  {| AgentImage := "agent:1"; BackupImage := "backup:1"; FluentBitImage := "fluent-bit:1"; ExporterImage := "exporter:1";
     SystemNamespace := "moco-system"; PVCSyncAnnotationKeys := ["example.com/note"]; PVCSyncLabelKeys := ["tier"];
     MySQLConfigMapHistoryLimit := 2; DisableDefaultSecurityContext := false; debugController := false;
     noJobResource := false |}.

Definition empty_secret : Secret :=
  {| secret_Name := ""; secret_Namespace := ""; secret_Labels := ∅; secret_Annotations := ∅; secret_Data := ∅ |}.

(** [objects] and [sts] are what was applied before; every quantity is one
    gibibyte. *)
#[refine] Definition libs_with (objects : kind → option ApplyConfig) (sts : option ApplyConfig) : KubeLibs :=
  {| GVKForObject := inr ("moco.cybozu.com/v1beta2", "MySQLCluster");
     Extract k _ := inr (objects k);
     ExtractStatefulSet o := inr (match o with Some _ => sts | None => None end);
     Apply_DeepEqual a b := bool_decide (b = Some a);
     Claims_DeepEqual a b := bool_decide (a = b);
     LabelSelectorAsSelector _ := inr "app.kubernetes.io/instance=test";
     MustParse _ := 1073741824000;
     template_Parse _ := inr ();
     template_Execute tmpl path := inr (tmpl +:+ path);
     renderCertificate n ns svc target := inr (n +:+ ns +:+ svc +:+ target);
     decodeCertificate s := inr s;
     MyCnfSecretOf p := default empty_secret (ToMyCnfSecret p);
     SetControllerReference _ s := inr s |}.
Proof.
  - congruence.
  - intros a b. apply bool_decide_eq_true.
  - intros a b. apply bool_decide_eq_true.
  - by intros p s ->.
Defined.

#[export] Instance sample_libs : KubeLibs := libs_with (λ _, None) None.

(** An API server without objects that accepts every write. *)
Definition not_found : error := ErrExt KindNotFound "".

Definition sample_answer (c : rcall) : rresp c :=
  match c return rresp c with
  | RGetCluster _ _ | RGetStatefulSet _ _ | RGetObject _ _ _ | RGetConfigMap _ _ | RGetStorageClass _ | RGetSecret _ _
  | RGetBackupPolicy _ _ | RGetCronJobActive _ _ => inl not_found
  | RListConfigMaps _ => inr []
  | RListPVCs _ _ => inr []
  | RRand n => inr (replicate (Z.to_nat n) 7)
  | RMetric _ _ _ _ | RMetricDelete _ _ _ | RManagerUpdate _ _ | RManagerStop _ _ | RManagerPause _ _ | RSleep _ => ()
  | _ => inr ()
  end.

Definition named_cluster (name : string) (spec : MySQLClusterSpec) : MySQLCluster :=
  {| cluster_Meta := {| meta_Name := name; meta_Namespace := "default"; meta_UID := "0123"; meta_Labels := ∅;
                        meta_Annotations := ∅; meta_Generation := 1; meta_DeletionTimestamp := None;
                        meta_Finalizers := []; meta_OwnerReferences := [] |};
     Spec := spec; Status := sample_cluster_status 0 |}.

Definition set_slow_log_disabled (s : MySQLClusterSpec) : MySQLClusterSpec :=
  {| Replicas := Replicas s; PodTemplate := PodTemplate s; VolumeClaimTemplates := VolumeClaimTemplates s;
     PrimaryServiceTemplate := PrimaryServiceTemplate s; ReplicaServiceTemplate := ReplicaServiceTemplate s;
     MySQLConfigMapName := MySQLConfigMapName s; ReplicationSourceSecretName := ReplicationSourceSecretName s;
     Collectors := Collectors s; ServerIDBase := ServerIDBase s; MaxDelaySeconds := MaxDelaySeconds s;
     MaxDelaySecondsForPodDeletion := MaxDelaySecondsForPodDeletion s; StartupWaitSeconds := StartupWaitSeconds s;
     LogRotationSchedule := LogRotationSchedule s; LogRotationSize := LogRotationSize s;
     BackupPolicyName := BackupPolicyName s; Restore := Restore s; DisableSlowQueryLogContainer := true;
     SlowQueryLogConfigTmpl := SlowQueryLogConfigTmpl s; AgentUseLocalhost := AgentUseLocalhost s;
     InitializeTimezoneData := InitializeTimezoneData s; Offline := Offline s |}.

(** ** A StatefulSet, its claims and other configurations *)

Definition sample_sts_meta : Meta :=
  {| meta_Name := "moco-test"; meta_Namespace := "default"; meta_UID := "42"; meta_Labels := ∅; meta_Annotations := ∅;
     meta_Generation := 3; meta_DeletionTimestamp := None; meta_Finalizers := []; meta_OwnerReferences := [] |}.

(** Three settled replicas whose claims were deployed with [size]. *)
Definition settled_sts (size : Z) : StatefulSet :=
  {| sts_Meta := sample_sts_meta;
     sts_Spec := {| sts_Replicas := Some 3; sts_MatchLabels := None; sts_StrategyType := "RollingUpdate";
                    sts_RollingUpdate := None;
                    sts_VolumeClaimTemplates := [{| ct_Name := MySQLDataVolumeName; ct_Storage := size;
                                                    ct_OwnerReferences := []; ct_Rest := "" |}];
                    sts_Template := ""; sts_Rest := "" |};
     sts_Status := {| sts_ObservedGeneration := 3; sts_ReadyReplicas := 3; sts_AvailableReplicas := 3;
                      sts_CurrentReplicas := 3; sts_UpdatedReplicas := 3; sts_CurrentRevision := "r1";
                      sts_UpdateRevision := "r1" |} |}.

Definition sample_pvc (i : Z) (class : option string) (size : Z) : PVC :=
  {| pvc_Name := "mysql-data-moco-test-" +:+ Itoa i; pvc_Namespace := "default"; pvc_Labels := Some ∅;
     pvc_Annotations := Some ∅; pvc_StorageClassName := class; pvc_Requests := Some (Some size) |}.

(** The configuration without keys to synchronise, as by default. *)
Definition plain_reconciler : Reconciler :=
  {| AgentImage := "agent:1"; BackupImage := "backup:1"; FluentBitImage := "fluent-bit:1"; ExporterImage := "exporter:1";
     SystemNamespace := "moco-system"; PVCSyncAnnotationKeys := []; PVCSyncLabelKeys := [];
     MySQLConfigMapHistoryLimit := 10; DisableDefaultSecurityContext := false; debugController := false;
     noJobResource := false |}.

Definition sample_deleting : MySQLCluster :=
  {| cluster_Meta := {| meta_Name := "test"; meta_Namespace := "default"; meta_UID := "0123"; meta_Labels := ∅;
                        meta_Annotations := ∅; meta_Generation := 1; meta_DeletionTimestamp := Some 100;
                        meta_Finalizers := [MySQLClusterFinalizer; "other"]; meta_OwnerReferences := [] |};
     Spec := sample_spec 3 None; Status := sample_cluster_status 0 |}.
