(* ===== verification/Secrets.v ===== *)
(** * Secrets and certificates of a cluster

    The steps of [MySQLClusterReconciler] for the passwords (controllers/
    mysqlcluster_controller.go) and for the certificate of moco-agent
    (controllers/certificate.go). *)

From S2P Require Import Prelude Prog GoLib Constants Api K8s Password StatefulSets Webhook Controller.
#[local] Open Scope Z_scope.

Definition set_secret_meta (ns name : string) (labels : gmap string string) (s : Secret) : Secret :=
  {| secret_Name := name; secret_Namespace := ns; secret_Labels := labels;
     secret_Annotations := secret_Annotations s; secret_Data := secret_Data s |}.

Definition rand_call (c : call randSig) : prog ctrlSig (resp randSig c) :=
  match c with RandRead n => rcall_ (RRand n) end.

Section secrets.
Context {RE : Reconciler} {KL : KubeLibs}.

(** The configuration of a Secret with the annotations and data of [s]. *)
Definition secretConfig (cluster : MySQLCluster) (name : string) (s : Secret) : ApplyConfig :=
  {| ac_Meta := {| ac_Name := name; ac_Namespace := Namespace cluster; ac_Labels := labelSet cluster false;
                   ac_Annotations := secret_Annotations s; ac_OwnerReferences := [] |};
     ac_Body := BodySecret (secret_Data s) |}.

(* controllers/mysqlcluster_controller.go :: reconcileUserSecret *)
Definition reconcileUserSecret (cluster : MySQLCluster) (controllerSecret : Secret) : prog ctrlSig (extres unit) :=
  passwd <-! wrap_err ("failed to create password from secret " +:+ secret_Namespace controllerSecret +:+ "/"
                        +:+ secret_Name controllerSecret) (Ret (NewMySQLPasswordFromSecret controllerSecret)) ;;
  let name := UserSecretName cluster in
  applyOwned cluster "Secret" ("failed to reconcile user Secret " +:+ Namespace cluster +:+ "/" +:+ name)
    (secretConfig cluster name (ToSecret passwd)) (Ret (inr ())).

(* controllers/mysqlcluster_controller.go :: reconcileMyCnfSecret *)
Definition reconcileMyCnfSecret (cluster : MySQLCluster) (controllerSecret : Secret) : prog ctrlSig (extres unit) :=
  passwd <-! wrap_err ("failed to create password from Secret " +:+ secret_Namespace controllerSecret +:+ "/"
                        +:+ secret_Name controllerSecret) (Ret (NewMySQLPasswordFromSecret controllerSecret)) ;;
  let name := MyCnfSecretName cluster in
  applyOwned cluster "Secret" ("failed to reconcile my.cnf Secret " +:+ Namespace cluster +:+ "/" +:+ name)
    (secretConfig cluster name (MyCnfSecretOf passwd)) (Ret (inr ())).

(** The controller Secret, created with new passwords when it does not exist. *)
(* controllers/mysqlcluster_controller.go:321-343 reconcileV1Secret *)
Definition controllerSecretStep (cluster : MySQLCluster) : prog ctrlSig (extres Secret) :=
  let name := ControllerSecretName cluster in
  r <-- rcall_ (RGetSecret SystemNamespace name) ;;
  match r with
  | inr secret => Ret (inr secret)
  | inl e =>
      if is_not_found e then
        passwd <-! translate rand_call NewMySQLPassword ;;
        let secret := set_secret_meta SystemNamespace name (labelSet cluster true) (ToSecret passwd) in
        _ <-! rcall_ (RCreateSecret secret) ;;
        Ret (inr secret)
      else Ret (inl e)
  end.

(* controllers/mysqlcluster_controller.go :: reconcileV1Secret *)
Definition reconcileV1Secret (cluster : MySQLCluster) : prog ctrlSig (extres unit) :=
  secret <-! controllerSecretStep cluster ;;
  _ <-! reconcileUserSecret cluster secret ;;
  reconcileMyCnfSecret cluster secret.

(** ** The certificate of moco-agent *)

(* controllers/certificate.go :: reconcileV1Certificate *)
Definition reconcileV1Certificate (cluster : MySQLCluster) : prog ctrlSig (extres unit) :=
  let name := CertificateName cluster in
  r <-- rcall_ (RGetObject KCertificate SystemNamespace name) ;;
  match r with
  | inr _ => Ret (inr ())
  | inl e =>
      if negb (is_not_found e) then Ret (inl (ErrWrap ("failed to get certificate " +:+ name) e)) else
      buf <-! Ret (renderCertificate name SystemNamespace (HeadlessServiceName cluster) (Namespace cluster)) ;;
      obj <-! wrap_err "failed to decode certificate YAML" (Ret (decodeCertificate buf)) ;;
      wrap_err "failed to create certificate" (rcall_ (RCreateCertificate obj (labelSet cluster true)))
  end.

(** The mutation of the gRPC Secret. *)
(* controllers/certificate.go:91-95 reconcileV1GRPCSecret *)
Definition mutateGRPCSecret (cluster : MySQLCluster) (data : gmap string string) (secret : Secret) : extres Secret :=
  SetControllerReference cluster
    {| secret_Name := secret_Name secret; secret_Namespace := secret_Namespace secret;
       secret_Labels := mergeMap (secret_Labels secret) (labelSet cluster false);
       secret_Annotations := secret_Annotations secret; secret_Data := data |}.

(* controllers/certificate.go :: reconcileV1GRPCSecret *)
Definition reconcileV1GRPCSecret (cluster : MySQLCluster) : prog ctrlSig (extres unit) :=
  r <-- rcall_ (RGetSecret SystemNamespace (CertificateName cluster)) ;;
  match r with
  | inl e => Ret (if is_not_found e then inr () else inl e)
  | inr controllerSecret =>
      wrap_err "failed to reconcile gRPC secret"
        (rcall_ (RCreateOrUpdateSecret (Namespace cluster) (GRPCSecretName cluster)
                   (mutateGRPCSecret cluster (secret_Data controllerSecret))))
  end.
End secrets.
