(* ===== verification/ConfigMaps.v ===== *)
(** * ConfigMaps of a cluster (controllers/mysqlcluster_controller.go)

    my.cnf and the configuration of the slow-log container are ConfigMaps whose
    names end in a hash of their content; old ones are removed beyond a limit. *)

From S2P Require Import Prelude Prog GoLib Constants Api K8s Password Mycnf StatefulSets Webhook Controller.
#[local] Open Scope Z_scope.

(** ** hash/fnv: the 32-bit FNV-1a hash *)

Definition byte_of (c : ascii) : Z := Z.of_N (Ascii.N_of_ascii c).

Fixpoint fnv32a_from (h : Z) (s : string) : Z :=
  match s with
  | EmptyString => h
  | String c s' => fnv32a_from ((Z.lxor h (byte_of c) * 16777619) mod 2 ^ 32) s'
  end.
Definition fnv32a (s : string) : Z := fnv32a_from 2166136261 s.

(** [Sum(nil)]: the four bytes, most significant first. *)
Definition sum_bytes (h : Z) : list Z :=
  [Z.shiftr h 24 mod 256; Z.shiftr h 16 mod 256; Z.shiftr h 8 mod 256; h mod 256].

Definition hashSuffix (s : string) : string := hex_EncodeToString (sum_bytes (fnv32a s)).

(** ** Sorting *)

(** [sort.Slice] by creation time, newest first; it is not stable, so ConfigMaps
    of the same second may come in any order. *)
Class SortByAge := {
  sort_by_age : list ConfigMap → list ConfigMap;
  sort_by_age_perm l : sort_by_age l ≡ₚ l;
  sort_by_age_sorted l : StronglySorted (λ a b, cm_CreationTimestamp b ≤ cm_CreationTimestamp a) (sort_by_age l)
}.

Definition newer_eq (a b : ConfigMap) : Prop := cm_CreationTimestamp b ≤ cm_CreationTimestamp a.
#[export] Instance newer_eq_dec : RelDecision newer_eq.
Proof. intros a b. unfold newer_eq. apply _. Defined.
#[export] Instance newer_eq_trans : Transitive newer_eq.
Proof. intros a b c. unfold newer_eq. lia. Qed.
#[export] Instance newer_eq_total : Total newer_eq.
Proof. intros a b. unfold newer_eq. lia. Qed.

#[refine] Definition sort_by_age_merge : SortByAge := {| sort_by_age := merge_sort newer_eq |}.
Proof.
  - apply merge_sort_Permutation.
  - intros l. exact (StronglySorted_merge_sort newer_eq l).
Defined.

(** The quantity of memory in [l], zero when it is not given; [Value] rounds up. *)
Definition ResourceMemory : string := "memory".
Definition Memory (l : gmap string Z) : Z := default 0 (l !! ResourceMemory).
Definition Quantity_Value (q : Z) : Z := - ((- q) / 1000).

Section configmaps.
Context {RE : Reconciler} {KL : KubeLibs} {RG : MapRange} {SA : SortByAge}.

(** ** Cleaning up *)

(** The loop over the sorted ConfigMaps; [oldConfigCount] is the accumulator. *)
(* controllers/mysqlcluster_controller.go:599-611 cleanupOldConfigMaps *)
Fixpoint cleanupLoop (namePrefix currentName : string) (oldConfigCount : Z) (cms : list ConfigMap)
    : prog ctrlSig (extres unit) :=
  match cms with
  | [] => Ret (inr ())
  | old :: rest =>
      if negb (has_prefix (cm_Name old) namePrefix) || (cm_Name old =s currentName) then
        cleanupLoop namePrefix currentName oldConfigCount rest
      else
        let oldConfigCount := oldConfigCount + 1 in
        if MySQLConfigMapHistoryLimit - 1 <? oldConfigCount then
          _ <-! wrap_err ("failed to delete old configmap " +:+ cm_Namespace old +:+ "/" +:+ cm_Name old)
                  (rcall_ (RDelete KConfigMap (cm_Namespace old) (cm_Name old))) ;;
          cleanupLoop namePrefix currentName oldConfigCount rest
        else cleanupLoop namePrefix currentName oldConfigCount rest
  end.

(* controllers/mysqlcluster_controller.go :: cleanupOldConfigMaps *)
Definition cleanupOldConfigMaps (cluster : MySQLCluster) (namePrefix currentName : string)
    : prog ctrlSig (extres unit) :=
  cms <-! rcall_ (RListConfigMaps (Namespace cluster)) ;;
  cleanupLoop namePrefix currentName 0 (sort_by_age cms).

(** ** my.cnf *)

(* controllers/mysqlcluster_controller.go:426-434 reconcileV1MyCnf *)
Definition findMysqld : list Container → outcome (option Container) := findNamed MysqldContainerName.

(* controllers/mysqlcluster_controller.go:436-450 reconcileV1MyCnf *)
Definition totalMem (mysqld : Container) : Z :=
  match container_Resources mysqld with
  | None => 0
  | Some rr =>
      let m := match rr_Limits rr with
               | Some l => if negb (Memory l =? 0) then Quantity_Value (Memory l) else 0
               | None => 0
               end in
      match rr_Requests rr with
      | Some l => if negb (Memory l =? 0) then Quantity_Value (Memory l) else m
      | None => m
      end
  end.

(* controllers/mysqlcluster_controller.go:452-461 reconcileV1MyCnf *)
Definition userConf (cluster : MySQLCluster) : prog ctrlSig (extres (gmap string string)) :=
  match MySQLConfigMapName (Spec cluster) with
  | None => Ret (inr ∅)
  | Some name =>
      cm <-! rcall_ (RGetConfigMap (Namespace cluster) name) ;;
      Ret (inr (cm_Data cm))
  end.

Definition configMapConfig (cluster : MySQLCluster) (name : string) (data : gmap string string) : ApplyConfig :=
  {| ac_Meta := objMeta cluster name (labelSet cluster false); ac_Body := BodyConfigMap data |}.

(** Apply a ConfigMap and, when it changed, clean up; its name is the result. *)
Definition applyConfigMap (cluster : MySQLCluster) (failure prefix cmName : string) (data : gmap string string)
    : prog ctrlSig (extres string) :=
  _ <-! applyOwned cluster "ConfigMap" failure (configMapConfig cluster cmName data)
          (cleanupOldConfigMaps cluster prefix cmName) ;;
  Ret (inr cmName).

(** The result is the name of the ConfigMap. *)
(* controllers/mysqlcluster_controller.go :: reconcileV1MyCnf *)
Definition reconcileV1MyCnf (cluster : MySQLCluster) : prog ctrlSig (outcome string) :=
  c <-? Ret (findMysqld (podspec_Containers (podtmpl_Spec (PodTemplate (Spec cluster))))) ;;
  match c with
  | None => Ret (Error (ErrNew "MySQLD container not found"))
  | Some mysqld =>
      fallible
        (userConf <-! userConf cluster ;;
         let conf := Generate userConf (totalMem mysqld) in
         let prefix := PrefixedName cluster +:+ "." in
         let cmName := prefix +:+ hashSuffix conf in
         applyConfigMap cluster ("failed to reconcile my.cnf configmap " +:+ Namespace cluster +:+ "/" +:+ cmName)
           prefix cmName {[ MySQLConfName := conf ]})
  end.

(** ** The slow-log container *)

(* controllers/mysqlcluster_controller.go:504-516 reconcileV1FluentBitConfigMap *)
Definition defaultConfigTmpl : string :=
  concat_str ((λ l, l +:+ newline) <$>
    ["[SERVICE]"; "  Log_Level      error"; "[INPUT]"; "  Name           tail"; "  Path           {{ .Path }}";
     "  Read_from_Head true"; "[OUTPUT]"; "  Name           file"; "  Match          *"; "  Path           /dev";
     "  File           stdout"; "  Format         template"; "  Template       {log}"]).

(* controllers/mysqlcluster_controller.go:569-581 reconcileV1FluentBitConfigMap *)
Fixpoint deleteAllLoop (prefix : string) (cms : list ConfigMap) : prog ctrlSig (extres unit) :=
  match cms with
  | [] => Ret (inr ())
  | old :: rest =>
      if has_prefix (cm_Name old) prefix then
        r <-- rcall_ (RDelete KConfigMap (cm_Namespace old) (cm_Name old)) ;;
        match r with
        | inl e =>
            if negb (is_not_found e)
            then Ret (inl (ErrWrap ("failed to delete old configmap " +:+ cm_Namespace old +:+ "/" +:+ cm_Name old) e))
            else deleteAllLoop prefix rest
        | inr _ => deleteAllLoop prefix rest
        end
      else deleteAllLoop prefix rest
  end.

(** The result is the name of the ConfigMap, if there is one. *)
(* controllers/mysqlcluster_controller.go :: reconcileV1FluentBitConfigMap *)
Definition reconcileV1FluentBitConfigMap (cluster : MySQLCluster) : prog ctrlSig (extres (option string)) :=
  let configTmpl := default defaultConfigTmpl (SlowQueryLogConfigTmpl (Spec cluster)) in
  let prefix := SlowQueryLogAgentConfigMapName cluster in
  if negb (DisableSlowQueryLogContainer (Spec cluster)) then
    _ <-! wrap_err "failed to parse config template" (Ret (template_Parse configTmpl)) ;;
    confVal <-! wrap_err "failed to execute config template"
                  (Ret (template_Execute configTmpl (path_Join [LogDirPath; MySQLSlowLogName]))) ;;
    let cmName := prefix +:+ "." +:+ hashSuffix configTmpl in
    name <-! applyConfigMap cluster ("failed to reconcile configmap " +:+ Namespace cluster +:+ "/" +:+ cmName
                                     +:+ " for slow logs") prefix cmName {[ FluentBitConfigName := confVal ]} ;;
    Ret (inr (Some name))
  else
    cms <-! rcall_ (RListConfigMaps (Namespace cluster)) ;;
    _ <-! deleteAllLoop prefix cms ;;
    Ret (inr None).
End configmaps.
