(* ===== verification/ConfigMapsSpec.v ===== *)
(** * What the cleaning of ConfigMaps guarantees

    Cleaning up keeps the current ConfigMap and the newest old ones; the names
    of the my.cnf ConfigMaps of different clusters never clash, but those of the
    slow-log ConfigMaps do. *)

From S2P Require Import Prelude Prog GoLib Constants Api K8s Password Samples Mycnf StatefulSets Webhook Controller ControllerSamples ConfigMaps.
#[local] Open Scope Z_scope.

(** The ConfigMaps whose deletion a trace asks for, as (namespace, name). *)
Definition deleted_config (e : event ctrlSig) : option (string * string) :=
  match projT1 e with
  | RDelete KConfigMap ns name => Some (ns, name)
  | _ => None
  end.
Definition deletions (t : trace ctrlSig) : list (string * string) := omap deleted_config t.

Definition cm_key (cm : ConfigMap) : string * string := (cm_Namespace cm, cm_Name cm).

(** The old ConfigMaps of a prefix. *)
Definition is_old (prefix current : string) (cm : ConfigMap) : bool :=
  has_prefix (cm_Name cm) prefix && (cm_Name cm <>s current).

Section cleanup.
Context {RE : Reconciler} {SA : SortByAge}.

(** How many old ConfigMaps stay. *)
Definition keep : nat := Z.to_nat (MySQLConfigMapHistoryLimit - 1).

Definition olds (prefix current : string) (cms : list ConfigMap) : list ConfigMap :=
  filter (λ cm, is_old prefix current cm = true) cms.

Lemma cleanupLoop_deletes prefix current n cms t o :
  0 ≤ n →
  exec (cleanupLoop prefix current n cms) t o →
  deletions t `prefix_of` (cm_key <$> drop (keep - Z.to_nat n) (olds prefix current cms)) ∧
  (o = inr () → deletions t = cm_key <$> drop (keep - Z.to_nat n) (olds prefix current cms)).
Proof.
  revert n t. unfold olds. induction cms as [|cm cms IH]; intros n t Hn; cbn [cleanupLoop].
  - intros [-> <-]. cbn. rewrite drop_nil. split; [apply prefix_nil|done].
  - rewrite filter_cons. destruct (decide (is_old prefix current cm = true)) as [Hold|Hold].
    2:{ replace (negb (has_prefix (cm_Name cm) prefix) || (cm_Name cm =s current)) with true; [by apply IH|].
        unfold is_old in Hold. by destruct (has_prefix _ _), (_ =s _). }
    replace (negb (has_prefix (cm_Name cm) prefix) || (cm_Name cm =s current)) with false
      by (unfold is_old in Hold; by destruct (has_prefix _ _), (_ =s _)).
    destruct (Z.ltb_spec (MySQLConfigMapHistoryLimit - 1) (n + 1)) as [Hlt|Hge].
    + replace (keep - Z.to_nat n)%nat with O by (unfold keep; lia). cbn [drop fmap list_fmap].
      destruct t as [|e t]; [done|]. intros ([err|[]] & -> & Hex).
      * cbn in Hex. destruct Hex as [-> <-]. split; [|done]. cbn. exists (cm_key <$> filter (λ cm, is_old prefix current cm = true) cms). done.
      * cbn in Hex. destruct (IH (n + 1) t ltac:(lia) Hex) as [H1 H2].
        replace (keep - Z.to_nat (n + 1))%nat with O in H1, H2 by (unfold keep; lia). cbn [drop] in *.
        change (deletions (ev (S := ctrlSig) (RDelete KConfigMap (cm_Namespace cm) (cm_Name cm)) (inr ()) :: t))
          with (cm_key cm :: deletions t).
        split; [by apply prefix_cons|]. intros Ho. by rewrite H2.
    + intros Hex. destruct (IH (n + 1) t ltac:(lia) Hex) as [H1 H2].
      replace (keep - Z.to_nat n)%nat with (S (keep - Z.to_nat (n + 1))) by (unfold keep; lia). done.
Qed.

Lemma olds_perm prefix current cms : olds prefix current (sort_by_age cms) ≡ₚ olds prefix current cms.
Proof. unfold olds. by rewrite sort_by_age_perm. Qed.

Lemma StronglySorted_filter_age l (P : ConfigMap → Prop) `{∀ x, Decision (P x)} (R : ConfigMap → ConfigMap → Prop) :
  StronglySorted R l → StronglySorted R (filter P l).
Proof.
  induction 1 as [|a l Hl IH Ha]; [constructor|]. rewrite filter_cons. case_decide; [|done].
  constructor; [done|]. apply Forall_forall. intros x [_ Hx]%list_elem_of_filter. by eapply Forall_forall.
Qed.

Lemma StronglySorted_take_drop (R : ConfigMap → ConfigMap → Prop) n l a b :
  StronglySorted R l → a ∈ take n l → b ∈ drop n l → R a b.
Proof.
  intros Hs. revert n. induction Hs as [|x l Hl IH Hx]; intros [|n]; cbn; intros Ha Hb;
    try (by apply elem_of_nil in Ha).
  apply elem_of_cons in Ha as [->|Ha]; [|by eapply IH].
  eapply Forall_forall in Hx; [done|]. eapply elem_of_subseteq; [|exact Hb]. apply subseteq_drop.
Qed.

(** Cleaning up old ConfigMaps never deletes the current one or one without
    the prefix; it keeps the [limit - 1] newest of the old ones that were listed,
    deletes only older ones, oldest last, and all of them when it succeeds. *)
Theorem cleanup_keeps_newest cluster prefix current t o :
  exec (cleanupOldConfigMaps cluster prefix current) t o →
  (∃ e, t = [ev (S := ctrlSig) (RListConfigMaps (Namespace cluster)) (inl e)] ∧ o = inl e) ∨
  ∃ cms kept victims t',
    t = ev (S := ctrlSig) (RListConfigMaps (Namespace cluster)) (inr cms) :: t' ∧
    kept ++ victims ≡ₚ olds prefix current cms ∧
    length kept = (keep `min` length (olds prefix current cms))%nat ∧
    (∀ k v, k ∈ kept → v ∈ victims → cm_CreationTimestamp v ≤ cm_CreationTimestamp k) ∧
    deletions t' `prefix_of` (cm_key <$> victims) ∧
    (o = inr () → deletions t' = cm_key <$> victims).
Proof.
  unfold cleanupOldConfigMaps. destruct t as [|e t]; [done|]. intros ([err|cms] & -> & Hex); cbn in Hex.
  - destruct Hex as [-> <-]. left. eauto.
  - right. destruct (cleanupLoop_deletes _ _ 0 _ _ _ ltac:(done) Hex) as [H1 H2].
    rewrite Nat.sub_0_r in H1, H2. set (l := olds prefix current (sort_by_age cms)) in *.
    exists cms, (take keep l), (drop keep l), t. split; [done|].
    rewrite take_drop. split; [apply olds_perm|]. split.
    { rewrite length_take. unfold l. by rewrite olds_perm. }
    split; [|done]. intros k v Hk Hv.
    apply (StronglySorted_take_drop (λ a b, cm_CreationTimestamp b ≤ cm_CreationTimestamp a) keep l); [|done|done].
    apply StronglySorted_filter_age, sort_by_age_sorted.
Qed.

(** ** Whose ConfigMaps the cleanings hit *)

Lemma deleteAllLoop_deletes prefix cms t :
  exec (deleteAllLoop prefix cms) t (inr ()) →
  deletions t = cm_key <$> filter (λ cm, has_prefix (cm_Name cm) prefix = true) cms.
Proof.
  revert t. induction cms as [|cm cms IH]; intros t; cbn [deleteAllLoop]; [by intros [-> _]|].
  rewrite filter_cons. destruct (has_prefix (cm_Name cm) prefix) eqn:Hp;
    [rewrite decide_True by done|rewrite decide_False by done; by apply IH].
  destruct t as [|e t]; [done|]. intros ([err|[]] & -> & Hex); cbn in Hex.
  - destruct (is_not_found err); [|by destruct Hex]. cbn. f_equal. by apply IH.
  - cbn. f_equal. by apply IH.
Qed.

(** When the slow-log container of a cluster is disabled, a reconciliation
    that succeeds deletes the slow-log ConfigMaps of every cluster of the
    namespace whose name merely begins with the name of this one. *)
Theorem slow_log_cleanup_hits_neighbours {KL : KubeLibs} cluster other rest hash cms cm t :
  DisableSlowQueryLogContainer (Spec cluster) = true →
  Name other = Name cluster +:+ rest →
  cm ∈ cms → cm_Name cm = SlowQueryLogAgentConfigMapName other +:+ "." +:+ hash →
  exec (reconcileV1FluentBitConfigMap cluster) (ev (S := ctrlSig) (RListConfigMaps (Namespace cluster)) (inr cms) :: t)
    (inr None) →
  cm_key cm ∈ deletions t.
Proof.
  intros Hd Hn Hin Hcm. unfold reconcileV1FluentBitConfigMap. rewrite Hd. cbn [negb].
  intros (r & Heq & Hex). apply ev_inj in Heq as <-. cbn in Hex.
  apply exec_bind_ext_inv in Hex as [(t1 & t2 & [] & -> & H1 & -> & _)|(e & _ & [=])]. rewrite app_nil_r. rewrite (deleteAllLoop_deletes _ _ _ H1).
  apply list_elem_of_fmap. exists cm. split; [done|]. apply list_elem_of_filter. split; [|done].
  apply has_prefix_spec. exists (rest +:+ "." +:+ hash). rewrite Hcm. unfold SlowQueryLogAgentConfigMapName.
  by rewrite Hn, <- !str_app_assoc.
Qed.
End cleanup.

(** ** At concrete clusters *)

Definition sample_config_map (name : string) (created : Z) : ConfigMap :=
  {| cm_Name := name; cm_Namespace := "default"; cm_Data := ∅; cm_CreationTimestamp := created |}.

(** Four ConfigMaps of my.cnf; two old ones are older than the newest old one. *)
Definition sample_config_maps : list ConfigMap :=
  [sample_config_map "moco-test.03" 30; sample_config_map "moco-test.01" 10; sample_config_map "unrelated" 5;
   sample_config_map "moco-test.02" 20; sample_config_map "moco-test.04" 40].

Definition sample_cleanup (c : rcall) (s : unit) : rresp c * unit :=
  (match c as c return rresp c with
   | RListConfigMaps _ => inr sample_config_maps
   | c => sample_answer c
   end, ()).

Definition sample_cleanup_run :=
  run (S := ctrlSig) sample_cleanup (cleanupOldConfigMaps (SA := sort_by_age_merge) (sample_cluster 3 0) "moco-test." "moco-test.04") ().

Lemma cleanup_keeps_newest_witness :
  deletions sample_cleanup_run.1 = [("default", "moco-test.02"); ("default", "moco-test.01")] ∧
  ((∃ e, sample_cleanup_run.1 = [ev (S := ctrlSig) (RListConfigMaps "default") (inl e)] ∧ sample_cleanup_run.2 = inl e) ∨
   ∃ cms kept victims t',
     sample_cleanup_run.1 = ev (S := ctrlSig) (RListConfigMaps "default") (inr cms) :: t' ∧
     kept ++ victims ≡ₚ olds "moco-test." "moco-test.04" cms ∧
     length kept = (keep `min` length (olds "moco-test." "moco-test.04" cms))%nat ∧
     (∀ k v, k ∈ kept → v ∈ victims → cm_CreationTimestamp v ≤ cm_CreationTimestamp k) ∧
     deletions t' `prefix_of` (cm_key <$> victims) ∧
     (sample_cleanup_run.2 = inr () → deletions t' = cm_key <$> victims)).
Proof.
  split; [vm_compute; reflexivity|].
  apply (cleanup_keeps_newest (SA := sort_by_age_merge) (sample_cluster 3 0)). apply (run_exec (S := ctrlSig)).
Defined.

(** Cluster [a] does without the container; cluster [ab] has one. *)
Definition neighbour_config : ConfigMap := sample_config_map "moco-slow-log-agent-config-ab.12345678" 10.

Definition sample_neighbours (c : rcall) (s : unit) : rresp c * unit :=
  (match c as c return rresp c with
   | RListConfigMaps _ => inr [neighbour_config]
   | c => sample_answer c
   end, ()).

Lemma slow_log_cleanup_hits_neighbours_witness :
  ∃ e t, exec (reconcileV1FluentBitConfigMap (SA := sort_by_age_merge) (named_cluster "a" (set_slow_log_disabled (sample_spec 3 None))))
           (e :: t) (inr None) ∧ ("default", "moco-slow-log-agent-config-ab.12345678") ∈ deletions t.
Proof.
  set (a := named_cluster "a" (set_slow_log_disabled (sample_spec 3 None))).
  assert (Hex : exec (reconcileV1FluentBitConfigMap (SA := sort_by_age_merge) a)
    [ev (S := ctrlSig) (RListConfigMaps (Namespace a)) (inr [neighbour_config]);
     ev (S := ctrlSig) (RDelete KConfigMap "default" (cm_Name neighbour_config)) (inr ())] (inr None)).
  { exact (run_exec (S := ctrlSig) sample_neighbours (reconcileV1FluentBitConfigMap (SA := sort_by_age_merge) a) ()). }
  eexists _, _. split; [exact Hex|].
  apply (slow_log_cleanup_hits_neighbours (SA := sort_by_age_merge) a (named_cluster "ab" (sample_spec 3 None)) "b" "12345678"
           [neighbour_config] neighbour_config); [reflexivity|reflexivity|by apply list_elem_of_here|reflexivity|exact Hex].
Defined.
