(* ===== verification/Services.v ===== *)
(** * Services, service account and disruption budget of a cluster

    Steps of [MySQLClusterReconciler] (controllers/mysqlcluster_controller.go)
    that apply one object each. *)

From S2P Require Import Prelude Prog GoLib Constants Api K8s StatefulSets Webhook Controller.
#[local] Open Scope Z_scope.

(** ** Building the specification of a Service *)

Definition emptyServiceSpec : ServiceSpec :=
  {| ssp_Type := None; ssp_ClusterIP := None; ssp_PublishNotReadyAddresses := None; ssp_Selector := ∅;
     ssp_Ports := []; ssp_Rest := "" |}.

(** [WithClusterIP("None").WithType("ClusterIP").WithPublishNotReadyAddresses(true)]. *)
Definition make_headless (s : ServiceSpec) : ServiceSpec :=
  {| ssp_Type := Some "ClusterIP"; ssp_ClusterIP := Some "None"; ssp_PublishNotReadyAddresses := Some true;
     ssp_Selector := ssp_Selector s; ssp_Ports := ssp_Ports s; ssp_Rest := ssp_Rest s |}.

Definition with_selector (sel : gmap string string) (s : ServiceSpec) : ServiceSpec :=
  {| ssp_Type := ssp_Type s; ssp_ClusterIP := ssp_ClusterIP s; ssp_PublishNotReadyAddresses := ssp_PublishNotReadyAddresses s;
     ssp_Selector := with_entries (ssp_Selector s) sel; ssp_Ports := ssp_Ports s; ssp_Rest := ssp_Rest s |}.

Definition set_ports (ports : list ServicePort) (s : ServiceSpec) : ServiceSpec :=
  {| ssp_Type := ssp_Type s; ssp_ClusterIP := ssp_ClusterIP s; ssp_PublishNotReadyAddresses := ssp_PublishNotReadyAddresses s;
     ssp_Selector := ssp_Selector s; ssp_Ports := ports; ssp_Rest := ssp_Rest s |}.

(** A TCP port with the name as its target; the rest of a given port stays. *)
Definition servicePort (name : string) (port : Z) (rest : json) : ServicePort :=
  {| sp_Name := Some name; sp_Protocol := Some "TCP"; sp_Port := Some port; sp_TargetPort := Some name; sp_Rest := rest |}.

(** The first port of the name is overwritten; without one a port is added. *)
(* controllers/mysqlcluster_controller.go:686-707 reconcileV1Service1 *)
Fixpoint ensurePort (name : string) (port : Z) (ports : list ServicePort) : list ServicePort :=
  match ports with
  | [] => [servicePort name port ""]
  | p :: rest =>
      if bool_decide (sp_Name p = Some name) then servicePort name port (sp_Rest p) :: rest
      else p :: ensurePort name port rest
  end.

(** The Service [name]: labels, annotations and specification. *)
(* controllers/mysqlcluster_controller.go:661-731 reconcileV1Service1 *)
Definition makeService (cluster : MySQLCluster) (template : option ServiceTemplate) (name : string) (headless : bool)
    (selector : gmap string string) : ApplyConfig :=
  let tmpl := if headless then None else template in
  let annotations := match tmpl with Some t => with_entries ∅ (om_Annotations (svct_ObjectMeta t)) | None => ∅ end in
  let labels := match tmpl with
                | Some t => with_entries (with_entries ∅ (om_Labels (svct_ObjectMeta t))) (labelSet cluster false)
                | None => with_entries ∅ (labelSet cluster false)
                end in
  let spec := match tmpl with
              | Some {| svct_Spec := Some s |} => s
              | _ => emptyServiceSpec
              end in
  let spec := if headless then make_headless spec else spec in
  let spec := with_selector selector spec in
  let spec := set_ports (ensurePort MySQLPortName MySQLPort (ssp_Ports spec)) spec in
  let spec := set_ports (ensurePort MySQLXPortName MySQLXPort (ssp_Ports spec)) spec in
  let spec := if headless
              then set_ports (ssp_Ports spec ++ [servicePort MySQLAdminPortName MySQLAdminPort ""]) spec else spec in
  {| ac_Meta := {| ac_Name := name; ac_Namespace := Namespace cluster; ac_Labels := labels;
                   ac_Annotations := annotations; ac_OwnerReferences := [] |};
     ac_Body := BodyService spec |}.

Definition roleSelector (cluster : MySQLCluster) (role : string) : gmap string string :=
  <[LabelMocoRole := role]> (labelSet cluster false).

(** The largest number of Pods that may be disrupted at once. *)
(* controllers/mysqlcluster_controller.go:1056-1061 reconcileV1PDB *)
Definition maxUnavailable (cluster : MySQLCluster) (backupCronJobIsRunning : bool) : Z :=
  if backupCronJobIsRunning then 0 else Z.quot (Replicas (Spec cluster)) 2.

Section services.
Context {RE : Reconciler} {KL : KubeLibs}.

(* controllers/mysqlcluster_controller.go :: reconcileV1ServiceAccount *)
Definition reconcileV1ServiceAccount (cluster : MySQLCluster) : prog ctrlSig (extres unit) :=
  let name := PrefixedName cluster in
  applyOwned cluster "Service" ("failed to reconcile service account " +:+ Namespace cluster +:+ "/" +:+ name)
    {| ac_Meta := objMeta cluster name (labelSet cluster false); ac_Body := BodyServiceAccount |} (Ret (inr ())).

(* controllers/mysqlcluster_controller.go :: reconcileV1Service1 *)
Definition reconcileV1Service1 (cluster : MySQLCluster) (template : option ServiceTemplate) (name : string)
    (headless : bool) (selector : gmap string string) : prog ctrlSig (extres unit) :=
  applyOwned cluster "Service" ("failed to reconcile " +:+ name +:+ " service")
    (makeService cluster template name headless selector)
    (debugDiff KService "Service" (Namespace cluster) name).

(* controllers/mysqlcluster_controller.go :: reconcileV1Service *)
Definition reconcileV1Service (cluster : MySQLCluster) : prog ctrlSig (extres unit) :=
  _ <-! reconcileV1Service1 cluster None (HeadlessServiceName cluster) true (labelSet cluster false) ;;
  _ <-! reconcileV1Service1 cluster (PrimaryServiceTemplate (Spec cluster)) (PrimaryServiceName cluster) false
          (roleSelector cluster RolePrimary) ;;
  reconcileV1Service1 cluster (ReplicaServiceTemplate (Spec cluster)) (ReplicaServiceName cluster) false
    (roleSelector cluster RoleReplica).

(** ** The disruption budget *)

(** Whether the backup job runs; an error counts as no. *)
(* controllers/mysqlcluster_controller.go:1045-1054 reconcileV1PDB *)
Definition backupIsRunning (cluster : MySQLCluster) : prog ctrlSig bool :=
  match BackupPolicyName (Spec cluster) with
  | None => Ret false
  | Some _ =>
      r <-- rcall_ (RGetCronJobActive (Namespace cluster) (BackupCronJobName cluster)) ;;
      Ret (match r with inr active => active | inl _ => false end)
  end.

(* controllers/mysqlcluster_controller.go :: reconcileV1PDB *)
Definition reconcileV1PDB (cluster : MySQLCluster) : prog ctrlSig (extres unit) :=
  let name := PrefixedName cluster in
  if Offline (Spec cluster) || (Replicas (Spec cluster) <? 3) then
    r <-- rcall_ (RDelete KPDB (Namespace cluster) name) ;;
    Ret (match r with inl e => if is_not_found e then inr () else inl e | inr _ => inr () end)
  else
    running <-- backupIsRunning cluster ;;
    applyOwned cluster "PDB" ("failed to reconcile " +:+ name +:+ " PDB")
      {| ac_Meta := objMeta cluster name (labelSet cluster false);
         ac_Body := BodyPDB (maxUnavailable cluster running) (labelSet cluster false) |}
      (debugDiff KPDB "PDB" (Namespace cluster) name).
End services.
