(* ===== verification/ServicesSpec.v ===== *)
(** * What the Services and the disruption budget guarantee *)

From S2P Require Import Prelude Prog GoLib Constants Api K8s Samples StatefulSets Webhook Controller ControllerSamples Services.
#[local] Open Scope Z_scope.

(** ** Ports and selectors *)

(** The port of the name as MOCO wants it. *)
Definition mysql_port (name : string) (port : Z) (p : ServicePort) : Prop :=
  sp_Name p = Some name ∧ sp_Protocol p = Some "TCP" ∧ sp_Port p = Some port ∧ sp_TargetPort p = Some name.

Definition named_port (name : string) (p : ServicePort) : Prop := sp_Name p = Some name.
#[export] Instance named_port_dec name p : Decision (named_port name p).
Proof. unfold named_port. apply _. Defined.

Lemma ensurePort_found name port ports : ∃ p, p ∈ ensurePort name port ports ∧ mysql_port name port p.
Proof.
  induction ports as [|q ports (p & Hp & H)]; cbn [ensurePort].
  - eexists. split; [by apply list_elem_of_here|done].
  - case_bool_decide; [|exists p; by split; [right|]]. eexists. split; [by apply list_elem_of_here|done].
Qed.

Lemma ensurePort_first name port ports p :
  head (filter (named_port name) (ensurePort name port ports)) = Some p → mysql_port name port p.
Proof.
  induction ports as [|q ports IH]; cbn [ensurePort].
  - rewrite filter_cons, decide_True by done. by intros [= <-].
  - case_bool_decide as Hq; rewrite filter_cons.
    + rewrite decide_True by done. by intros [= <-].
    + by rewrite decide_False by done.
Qed.

Lemma ensurePort_others name port ports other :
  other ≠ name → filter (named_port other) (ensurePort name port ports) = filter (named_port other) ports.
Proof.
  intros Hne. induction ports as [|q ports IH]; cbn [ensurePort].
  - rewrite filter_cons, decide_False; [done|]. unfold named_port. cbn. congruence.
  - case_bool_decide as Hq; rewrite !filter_cons; [|by rewrite IH].
    by rewrite !decide_False by (unfold named_port; cbn; congruence).
Qed.

Lemma elem_of_head_filter {A} (P : A → Prop) `{∀ x, Decision (P x)} l :
  (∃ x, x ∈ l ∧ P x) → ∃ x, head (filter P l) = Some x ∧ x ∈ l.
Proof.
  intros (x & Hx & HP). destruct (filter P l) as [|y ys] eqn:E.
  - exfalso. assert (x ∈ filter P l) as H' by by apply list_elem_of_filter. rewrite E in H'. by apply elem_of_nil in H'.
  - exists y. split; [done|]. assert (y ∈ filter P l) as H' by (rewrite E; by apply list_elem_of_here).
    by apply list_elem_of_filter in H' as [_ H'].
Qed.

(** The first port of a name, which is the one a client of that name gets. *)
Definition first_port (name : string) (ports : list ServicePort) : option ServicePort := head (filter (named_port name) ports).

Lemma ensurePort_first_port name port ports : ∃ p, first_port name (ensurePort name port ports) = Some p ∧ mysql_port name port p.
Proof.
  destruct (ensurePort_found name port ports) as (p & Hp & Hm).
  destruct (elem_of_head_filter (named_port name) (ensurePort name port ports)) as (q & Hq & _).
  { exists p. split; [done|apply Hm]. }
  exists q. split; [done|]. by eapply ensurePort_first.
Qed.

Definition service_spec (cfg : ApplyConfig) : option ServiceSpec :=
  match ac_Body cfg with BodyService s => Some s | _ => None end.

(** Whatever the template of a Service says, the Service selects by all the
    given labels, carries the labels of the cluster, and its ports named [mysql]
    and [mysqlx] are MySQL's; the ports of other names are those of the
    template.  A headless Service ignores the template and has the admin port. *)
Theorem service_reaches_mysql cluster template name headless selector :
  ∃ s, service_spec (makeService cluster template name headless selector) = Some s ∧
    (∀ k v, selector !! k = Some v → ssp_Selector s !! k = Some v) ∧
    (∀ k v, labelSet cluster false !! k = Some v →
       ac_Labels (ac_Meta (makeService cluster template name headless selector)) !! k = Some v) ∧
    (∃ p, first_port MySQLPortName (ssp_Ports s) = Some p ∧ mysql_port MySQLPortName MySQLPort p) ∧
    (∃ p, first_port MySQLXPortName (ssp_Ports s) = Some p ∧ mysql_port MySQLXPortName MySQLXPort p) ∧
    (if headless then
       ssp_Type s = Some "ClusterIP" ∧ ssp_ClusterIP s = Some "None" ∧ ssp_PublishNotReadyAddresses s = Some true ∧
       ∃ p, first_port MySQLAdminPortName (ssp_Ports s) = Some p ∧ mysql_port MySQLAdminPortName MySQLAdminPort p
     else
       ∀ other, other ≠ MySQLPortName → other ≠ MySQLXPortName →
         filter (named_port other) (ssp_Ports s) =
         filter (named_port other) (match template with Some {| svct_Spec := Some t |} => ssp_Ports t | _ => [] end)).
Proof.
  unfold makeService. cbn [ac_Meta ac_Body service_spec ac_Labels]. eexists. split; [reflexivity|].
  assert (∀ (m n : gmap string string) k v, n !! k = Some v → with_entries m n !! k = Some v) as Hwith.
  { intros m n k v H. unfold with_entries. by apply lookup_union_Some_l. }
  destruct headless; cbn [ssp_Selector ssp_Ports set_ports with_selector make_headless emptyServiceSpec].
  - split; [by apply Hwith|]. split; [by apply Hwith|]. split_and!; try done; (eexists; split; [reflexivity|done]).
  - set (ports := ssp_Ports _). split; [by apply Hwith|]. split; [destruct template; by apply Hwith|].
    split; [|split; [apply ensurePort_first_port|]].
    + unfold first_port. rewrite ensurePort_others by done. apply ensurePort_first_port.
    + intros other H1 H2. rewrite !ensurePort_others by done. unfold ports. by destruct template as [[m [t|]]|].
Qed.

(** ** The disruption budget *)

Section pdb.
Context {RE : Reconciler} {KL : KubeLibs} (cluster : MySQLCluster).

Definition pdb_protocol (h : trace ctrlSig) (c : call ctrlSig) : Prop :=
  let off := Offline (Spec cluster) = true ∨ Replicas (Spec cluster) < 3 in
  match c with
  | RDelete KPDB ns n => off ∧ ns = Namespace cluster ∧ n = PrefixedName cluster
  | RApply cfg =>
      ¬ off ∧ ac_Name (ac_Meta cfg) = PrefixedName cluster ∧ ac_Namespace (ac_Meta cfg) = Namespace cluster ∧
      ∃ n, ac_Body cfg = BodyPDB n (labelSet cluster false) ∧ 0 ≤ n ∧ 2 * n ≤ Replicas (Spec cluster) ∧
           (Z.odd (Replicas (Spec cluster)) = true → 2 * n < Replicas (Spec cluster)) ∧
           (occurs h (RGetCronJobActive (Namespace cluster) (BackupCronJobName cluster)) (inr true) → n = 0)
  | RGetCronJobActive _ _ | RGetObject _ _ _ => True
  | _ => False
  end.

Lemma setControllerReference_inv c cfg cfg' :
  setControllerReference c cfg = inr cfg' → ∃ o, cfg' = with_owner o cfg.
Proof. unfold setControllerReference. destruct GVKForObject as [e|[gv kd]]; [done|]. intros [= <-]. eauto. Qed.

(** [applyOwned] under a protocol that allows reading and the application. *)
Lemma wp_applyOwned P h what failure cfg onChanged :
  (∀ h k ns n, P h (RGetObject k ns n)) →
  (∀ o r, P (h ++ [ev (S := ctrlSig) (RGetObject (body_kind (ac_Body cfg)) (ac_Namespace (ac_Meta cfg)) (ac_Name (ac_Meta cfg))) r])
            (RApply (with_owner o cfg))) →
  (∀ h, wp P onChanged h (λ _ _, True)) →
  wp P (applyOwned cluster what failure cfg onChanged) h (λ _ _, True).
Proof.
  intros Hget Happly Hch. unfold applyOwned. rewrite wp_bind_ext, wp_wrap_err, wp_ret.
  destruct (setControllerReference cluster cfg) as [e|cfg'] eqn:Hcfg; [done|].
  apply setControllerReference_inv in Hcfg as [o ->]. rewrite wp_bind. unfold apply.
  rewrite wp_bind_ext, wp_bind. split; [apply Hget|]. intros r. rewrite !wp_ret.
  assert (∀ h e, wp P (if error_is e ErrApplyConfigurationNotChanged then Ret (inr ()) else Ret (inl (ErrWrap failure e))) h
    (λ _ _, True)) as Herr by (intros h' e; by destruct (error_is _ _)).
  destruct (get_or_zero _ r) as [e|orig]; [apply Herr|].
  rewrite wp_bind_ext, wp_wrap_err, wp_ret. destruct (Extract _ _) as [e|old]; [apply Herr|].
  destruct (Apply_DeepEqual _ _); [apply Herr|]. split; [apply Happly|]. intros [e|[]]; [apply Herr|apply Hch].
Qed.

Lemma maxUnavailable_bounds running :
  3 ≤ Replicas (Spec cluster) →
  0 ≤ maxUnavailable cluster running ∧ 2 * maxUnavailable cluster running ≤ Replicas (Spec cluster) ∧
  (Z.odd (Replicas (Spec cluster)) = true → 2 * maxUnavailable cluster running < Replicas (Spec cluster)).
Proof.
  intros Hr. unfold maxUnavailable. destruct running; [lia|]. rewrite Z.quot_div_nonneg by lia.
  pose proof (Z.div_mod (Replicas (Spec cluster)) 2). rewrite Zmod_odd in H.
  destruct (Z.odd _); split_and!; try lia; done.
Qed.

Lemma wp_pdb : wp pdb_protocol (reconcileV1PDB cluster) [] (λ _ _, True).
Proof.
  unfold reconcileV1PDB. destruct (Offline (Spec cluster) || (Replicas (Spec cluster) <? 3)) eqn:Hoff.
  { rewrite wp_bind. split; [|done]. split_and!; try done. apply orb_true_iff in Hoff as [?|?%Z.ltb_lt]; [by left|by right]. }
  apply orb_false_iff in Hoff as [Hoff Hr%Z.ltb_ge].
  assert (¬ (Offline (Spec cluster) = true ∨ Replicas (Spec cluster) < 3)) as Hno by (rewrite Hoff; intros [?|?]; [done|lia]).
  rewrite wp_bind. eapply wp_conseq with (Q := λ (h : trace ctrlSig) (running : bool),
    occurs h (RGetCronJobActive (Namespace cluster) (BackupCronJobName cluster)) (inr true) → running = true).
  - unfold backupIsRunning. destruct (BackupPolicyName _); [rewrite wp_bind; split; [done|]|].
    + intros [e|active]; cbn; unfold occurs; intros Hin%list_elem_of_singleton%ev_inj; congruence.
    + intros Hin. by apply elem_of_nil in Hin.
  - intros h running Hrun. apply wp_applyOwned; [done| |].
    + intros o r. split; [done|]. split; [done|]. split; [done|]. exists (maxUnavailable cluster running).
      split; [done|]. destruct (maxUnavailable_bounds running Hr) as (H1 & H2 & H3).
      split; [done|]. split; [done|]. split; [done|]. intros Hin. apply elem_of_app in Hin as [Hin|Hin].
      * by rewrite (Hrun Hin).
      * apply list_elem_of_singleton in Hin. discriminate.
    + intros h'. unfold debugDiff. destruct debugController; [|done]. rewrite wp_bind. by split.
Qed.
End pdb.


(** ** At a concrete cluster *)

Definition sample_pdb_run := run (S := ctrlSig) (λ c s, (sample_answer c, s)) (reconcileV1PDB (admissible_cluster 3 10)) ().

