(* ===== verification/Containers.v ===== *)
(** * Containers of the Pods (controllers/mysql_container.go)

    The containers of a cluster's Pods: mysqld, made from the template, the ones
    MOCO adds and the user's others.  A [With*] method of the apply
    configurations is a function on the record, in the order of the calls. *)

From S2P Require Import Prelude Prog GoLib Constants Api K8s StatefulSets Webhook Controller.
#[local] Open Scope Z_scope.

(** ** Building containers *)

(** [corev1ac.Container().WithName(name)] and its image. *)
Definition newContainer (name image : string) : Container :=
  {| container_Name := Some name; container_Image := Some image; container_Command := []; container_Args := [];
     container_Ports := []; container_Env := []; container_EnvFrom := []; container_Resources := None;
     container_VolumeMounts := []; container_StartupProbe := None; container_LivenessProbe := None;
     container_ReadinessProbe := None; container_Lifecycle := None; container_SecurityContext := None;
     container_Rest := "" |}.

(** The lists are extended. *)
Definition extend (command args : list string) (ports : list ContainerPort) (env : list EnvVar) (envFrom : list EnvFromSource)
    (mounts : list VolumeMount) (c : Container) : Container :=
  {| container_Name := container_Name c; container_Image := container_Image c;
     container_Command := container_Command c ++ command; container_Args := container_Args c ++ args;
     container_Ports := container_Ports c ++ ports; container_Env := container_Env c ++ env;
     container_EnvFrom := container_EnvFrom c ++ envFrom; container_Resources := container_Resources c;
     container_VolumeMounts := container_VolumeMounts c ++ mounts; container_StartupProbe := container_StartupProbe c;
     container_LivenessProbe := container_LivenessProbe c; container_ReadinessProbe := container_ReadinessProbe c;
     container_Lifecycle := container_Lifecycle c; container_SecurityContext := container_SecurityContext c;
     container_Rest := container_Rest c |}.
Definition WithCommand (l : list string) : Container → Container := extend l [] [] [] [] [].
Definition WithArgs (l : list string) : Container → Container := extend [] l [] [] [] [].
Definition WithPorts (l : list ContainerPort) : Container → Container := extend [] [] l [] [] [].
Definition WithEnv (l : list EnvVar) : Container → Container := extend [] [] [] l [] [].
Definition WithEnvFrom (l : list EnvFromSource) : Container → Container := extend [] [] [] [] l [].
Definition WithVolumeMounts (l : list VolumeMount) : Container → Container := extend [] [] [] [] [] l.

(** The pointers are replaced. *)
Definition replace (resources : option ResourceRequirements) (startup liveness readiness : option Probe)
    (lifecycle : option Lifecycle) (security : option SecurityContext) (c : Container) : Container :=
  {| container_Name := container_Name c; container_Image := container_Image c;
     container_Command := container_Command c; container_Args := container_Args c;
     container_Ports := container_Ports c; container_Env := container_Env c; container_EnvFrom := container_EnvFrom c;
     container_Resources := resources; container_VolumeMounts := container_VolumeMounts c;
     container_StartupProbe := startup; container_LivenessProbe := liveness; container_ReadinessProbe := readiness;
     container_Lifecycle := lifecycle; container_SecurityContext := security; container_Rest := container_Rest c |}.
Definition WithResources (r : ResourceRequirements) (c : Container) : Container :=
  replace (Some r) (container_StartupProbe c) (container_LivenessProbe c) (container_ReadinessProbe c)
    (container_Lifecycle c) (container_SecurityContext c) c.
Definition WithSecurityContext (s : SecurityContext) (c : Container) : Container :=
  replace (container_Resources c) (container_StartupProbe c) (container_LivenessProbe c) (container_ReadinessProbe c)
    (container_Lifecycle c) (Some s) c.
Definition WithLifecycle (l : Lifecycle) (c : Container) : Container :=
  replace (container_Resources c) (container_StartupProbe c) (container_LivenessProbe c) (container_ReadinessProbe c)
    (Some l) (container_SecurityContext c) c.
Definition WithProbes (startup liveness readiness : Probe) (c : Container) : Container :=
  replace (container_Resources c) (Some startup) (Some liveness) (Some readiness)
    (container_Lifecycle c) (container_SecurityContext c) c.

Definition emptySecurityContext : SecurityContext :=
  {| scx_RunAsUser := None; scx_RunAsGroup := None; scx_ReadOnlyRootFilesystem := None; scx_Rest := "" |}.

Definition tcpPort (name : string) (port : Z) : ContainerPort :=
  {| port_ContainerPort := Some port; port_Name := Some name; port_Protocol := Some "TCP" |}.

Definition emptyProbe : Probe :=
  {| probe_HTTPGet := None; probe_PeriodSeconds := None; probe_FailureThreshold := None; probe_Rest := "" |}.
Definition healthGet (path : string) : HTTPGetAction :=
  {| http_Path := path; http_Port := MySQLHealthPortName; http_Scheme := "HTTP" |}.
Definition WithHTTPGet (a : HTTPGetAction) (p : Probe) : Probe :=
  {| probe_HTTPGet := Some a; probe_PeriodSeconds := probe_PeriodSeconds p;
     probe_FailureThreshold := probe_FailureThreshold p; probe_Rest := probe_Rest p |}.

(** The default of an optional field: [if x == nil { x = d }]. *)
Definition or_default {A} (x : option A) (d : A) : option A := Some (default d x).

Definition ResourceCPU : string := "cpu".
Definition FormatBool (b : bool) : string := if b then "true" else "false".
Definition podNameEnv : EnvVar := EnvField PodNameEnvKey "v1" "metadata.name".

(* controllers/mysql_container.go :: updateContainerWithOverwriteContainers *)
Definition updateContainerWithOverwriteContainers (cluster : MySQLCluster) (container : Container) : Container :=
  foldl (λ c overwrite,
           if bool_decide (container_Name c = Some (ow_Name overwrite)) then
             let c := match ow_Resources overwrite with Some r => WithResources r c | None => c end in
             match ow_SecurityContext overwrite with Some s => WithSecurityContext s c | None => c end
           else c)
    container (podtmpl_OverwriteContainers (PodTemplate (Spec cluster))).

Section containers.
Context {RE : Reconciler} {KL : KubeLibs}.

Definition fixedResources (cpuRequest memRequest cpuLimit memLimit : string) : ResourceRequirements :=
  {| rr_Requests := Some (<[ResourceCPU := MustParse cpuRequest]> {[ "memory" := MustParse memRequest ]});
     rr_Limits := Some (<[ResourceCPU := MustParse cpuLimit]> {[ "memory" := MustParse memLimit ]}) |}.

(* controllers/mysql_container.go :: updateContainerWithSecurityContext *)
Definition updateContainerWithSecurityContext (container : Container) : Container :=
  let s := default emptySecurityContext (container_SecurityContext container) in
  if DisableDefaultSecurityContext then WithSecurityContext s container
  else WithSecurityContext
         {| scx_RunAsUser := or_default (scx_RunAsUser s) ContainerUID;
            scx_RunAsGroup := or_default (scx_RunAsGroup s) ContainerGID;
            scx_ReadOnlyRootFilesystem := scx_ReadOnlyRootFilesystem s; scx_Rest := scx_Rest s |} container.

(** What the agent, slow-log, exporter and init containers end with. *)
Definition finishContainer (cluster : MySQLCluster) (c : Container) : Container :=
  updateContainerWithOverwriteContainers cluster (updateContainerWithSecurityContext c).

(** ** mysqld *)

(* controllers/mysql_container.go:57-73 makeV1MySQLDContainer *)
Definition startupProbe (cluster : MySQLCluster) (given : option Probe) : Probe :=
  let p := WithHTTPGet (healthGet "/healthz") (default emptyProbe given) in
  {| probe_HTTPGet := probe_HTTPGet p; probe_PeriodSeconds := or_default (probe_PeriodSeconds p) 10;
     probe_FailureThreshold := or_default (probe_FailureThreshold p) (Z.max (Z.quot (StartupWaitSeconds (Spec cluster)) 10) 1);
     probe_Rest := probe_Rest p |}.

(* controllers/mysql_container.go :: makeV1MySQLDContainer *)
Definition makeV1MySQLDContainer (cluster : MySQLCluster) : outcome Container :=
  match findNamed MysqldContainerName (podspec_Containers (podtmpl_Spec (PodTemplate (Spec cluster)))) with
  | Panic m => Panic m
  | Error e => Error e
  | Return None => Error (ErrNew "MySQLD container not found")
  | Return (Some source) =>
      let source := WithArgs ["--defaults-file=" +:+ path_Join [MySQLConfPath; MySQLConfName]] source in
      let source := WithLifecycle (PreStopExec ["sleep"; PreStopSeconds]) source in
      let source := WithPorts [tcpPort MySQLPortName MySQLPort; tcpPort MySQLXPortName MySQLXPort;
                               tcpPort MySQLAdminPortName MySQLAdminPort;
                               tcpPort MySQLHealthPortName MySQLHealthPort] source in
      let source := WithProbes (startupProbe cluster (container_StartupProbe source))
                      (WithHTTPGet (healthGet "/healthz") (default emptyProbe (container_LivenessProbe source)))
                      (WithHTTPGet (healthGet "/readyz") (default emptyProbe (container_ReadinessProbe source))) source in
      let source := WithVolumeMounts
                      [Mount TmpVolumeName TmpPath false; Mount RunVolumeName RunPath false;
                       Mount VarLogVolumeName LogDirPath false; Mount MySQLConfVolumeName MySQLConfPath false;
                       Mount MySQLInitConfVolumeName MySQLInitConfPath false;
                       Mount MySQLConfSecretVolumeName MyCnfSecretPath true;
                       Mount MySQLDataVolumeName MySQLDataPath false] source in
      Return (updateContainerWithSecurityContext source)
  end.

(** ** moco-agent *)

(* controllers/mysql_container.go :: makeV1AgentContainer *)
Definition makeV1AgentContainer (cluster : MySQLCluster) : Container :=
  let spec := Spec cluster in
  let c := newContainer AgentContainerName AgentImage in
  let c := match MaxDelaySeconds spec with Some n => WithArgs ["--max-delay"; Itoa n +:+ "s"] c | None => c end in
  let c := if LogRotationSchedule spec <>s "" then WithArgs ["--log-rotation-schedule"; LogRotationSchedule spec] c else c in
  let c := if 0 <? LogRotationSize spec then WithArgs ["--log-rotation-size"; Itoa (LogRotationSize spec)] c else c in
  let c := if AgentUseLocalhost spec
           then WithArgs [MocoMySQLDLocalhostFlag; FormatBool (AgentUseLocalhost spec)] c else c in
  let c := WithVolumeMounts [Mount RunVolumeName RunPath false; Mount VarLogVolumeName LogDirPath false;
                             Mount GRPCSecretVolumeName "/grpc-cert" true] c in
  let c := WithEnv [podNameEnv; EnvValue ClusterNameEnvKey (Name cluster)] c in
  let c := WithEnvFrom [EnvFromSecret (UserSecretName cluster)] c in
  let c := WithPorts [tcpPort AgentPortName AgentPort; tcpPort AgentMetricsPortName AgentMetricsPort] c in
  let c := WithResources (fixedResources AgentContainerCPURequest AgentContainerMemRequest
                            AgentContainerCPULimit AgentContainerMemLimit) c in
  finishContainer cluster c.

(** ** The slow-log container *)

Definition newSlowQueryLogContainer (cluster : MySQLCluster) : Container :=
  let c := newContainer SlowQueryLogAgentContainerName FluentBitImage in
  let c := WithVolumeMounts [Mount SlowQueryLogAgentConfigVolumeName FluentBitConfigPath true;
                             Mount VarLogVolumeName LogDirPath false] c in
  let c := WithResources (fixedResources SlowQueryLogAgentCPURequest SlowQueryLogAgentMemRequest
                            SlowQueryLogAgentCPULimit SlowQueryLogAgentMemLimit) c in
  finishContainer cluster c.

(** The containers of the configuration applied before, none without it. *)
Definition applied_containers (sts : option ApplyConfig) : list Container :=
  match sts with
  | Some {| ac_Body := BodyStatefulSet s |} => podspec_Containers (ssa_PodSpec s)
  | _ => []
  end.

(* controllers/mysql_container.go :: makeV1SlowQueryLogContainer *)
Definition makeV1SlowQueryLogContainer (cluster : MySQLCluster) (sts : option ApplyConfig) (force : bool) : outcome Container :=
  if force then Return (newSlowQueryLogContainer cluster) else
  match findNamed SlowQueryLogAgentContainerName (applied_containers sts) with
  | Return None => Return (newSlowQueryLogContainer cluster)
  | Return (Some c) => Return c
  | Error e => Error e
  | Panic m => Panic m
  end.

(** ** The exporter *)

(* controllers/mysql_container.go :: makeV1ExporterContainer *)
Definition makeV1ExporterContainer (cluster : MySQLCluster) (collectors : list string) : Container :=
  let c := newContainer ExporterContainerName ExporterImage in
  let c := WithArgs ["--config.my-cnf=" +:+ path_Join [MyCnfSecretPath; ExporterMyCnf]] c in
  let c := WithPorts [tcpPort ExporterPortName ExporterPort] c in
  let c := WithVolumeMounts [Mount RunVolumeName RunPath false; Mount MySQLConfSecretVolumeName MyCnfSecretPath true] c in
  let c := WithResources (fixedResources ExporterContainerCPURequest ExporterContainerMemRequest
                            ExporterContainerCPULimit ExporterContainerMemLimit) c in
  let c := WithArgs ((λ cl, "--collect." +:+ cl) <$> collectors) c in
  finishContainer cluster c.

(** ** The user's other containers *)

(** Whether the container has a name and MOCO has none of it in this cluster. *)
(* controllers/mysql_container.go:283-302 makeV1OptionalContainers *)
Definition keepsOptional (cluster : MySQLCluster) (c : Container) : bool :=
  match container_Name c with
  | None => false
  | Some name =>
      if name =s MysqldContainerName then false
      else if name =s AgentContainerName then false
      else if name =s SlowQueryLogAgentContainerName then DisableSlowQueryLogContainer (Spec cluster)
      else if name =s ExporterContainerName then go_len (Collectors (Spec cluster)) =? 0
      else true
  end.

(* controllers/mysql_container.go :: makeV1OptionalContainers *)
Definition makeV1OptionalContainers (cluster : MySQLCluster) : list Container :=
  updateContainerWithSecurityContext <$>
    filter (λ c, keepsOptional cluster c = true) (podspec_Containers (podtmpl_Spec (PodTemplate (Spec cluster)))).

(** ** Init containers *)

(* controllers/mysql_container.go :: getEnableLowerCaseTableNamesFromConf *)
Definition getEnableLowerCaseTableNamesFromConf (cluster : MySQLCluster) : prog ctrlSig (extres (option string)) :=
  match MySQLConfigMapName (Spec cluster) with
  | None => Ret (inr None)
  | Some name =>
      cm <-! wrap_err "failed to get user defined mysql conf configmap" (rcall_ (RGetConfigMap (Namespace cluster) name)) ;;
      Ret (inr (cm_Data cm !! LowerCaseTableNamesConfKey))
  end.

(* controllers/mysql_container.go :: makeMocoInitContainer *)
Definition makeMocoInitContainer (cluster : MySQLCluster) (image : string) : prog ctrlSig (extres Container) :=
  let spec := Spec cluster in
  let cmd := [path_Join [SharedPath; InitCommand]; MocoInitDataDirFlag +:+ "=" +:+ MySQLDataPath;
              MocoInitConfDirFlag +:+ "=" +:+ MySQLInitConfPath;
              MocoInitTimezoneDataFlag +:+ "=" +:+ FormatBool (InitializeTimezoneData spec);
              Itoa (ServerIDBase spec)] in
  let cmd := if AgentUseLocalhost spec
             then cmd ++ [MocoMySQLDLocalhostFlag +:+ "=" +:+ FormatBool (AgentUseLocalhost spec)] else cmd in
  let c := WithCommand cmd (newContainer InitContainerName image) in
  let c := WithEnv [podNameEnv] c in
  let c := WithVolumeMounts [Mount TmpVolumeName TmpPath false; Mount MySQLDataVolumeName MySQLDataPath false;
                             Mount MySQLInitConfVolumeName MySQLInitConfPath false;
                             Mount SharedVolumeName SharedPath false] c in
  let c := WithResources (fixedResources InitContainerCPURequest InitContainerMemRequest
                            InitContainerCPULimit InitContainerMemLimit) c in
  v <-! getEnableLowerCaseTableNamesFromConf cluster ;;
  let c := match v with Some v => WithArgs [MocoInitLowerCaseTableNamesFlag +:+ "=" +:+ v] c | None => c end in
  Ret (inr (finishContainer cluster c)).

(* controllers/mysql_container.go :: makeInitContainerWithCopyMocoInitBin *)
Definition makeInitContainerWithCopyMocoInitBin (cluster : MySQLCluster) : Container :=
  let c := newContainer CopyInitContainerName AgentImage in
  let c := WithCommand ["cp"; path_Join ["/"; InitCommand]; path_Join [SharedPath; InitContainerName]] c in
  let c := WithResources (fixedResources InitContainerCPURequest InitContainerMemRequest
                            InitContainerCPULimit InitContainerMemLimit) c in
  let c := WithVolumeMounts [Mount SharedVolumeName SharedPath false] c in
  finishContainer cluster c.

(* controllers/mysql_container.go :: makeV1InitContainer *)
Definition makeV1InitContainer (cluster : MySQLCluster) (image : string) : prog ctrlSig (extres (list Container)) :=
  c <-! makeMocoInitContainer cluster image ;;
  Ret (inr ([makeInitContainerWithCopyMocoInitBin cluster; c] ++
            (updateContainerWithSecurityContext <$>
               podspec_InitContainers (podtmpl_Spec (PodTemplate (Spec cluster)))))).
End containers.
