(* ===== verification/StatefulSetStep.v ===== *)
(** * The StatefulSet of a cluster (controllers/mysqlcluster_controller.go)

    [reconcileV1StatefulSet] builds the StatefulSet from the cluster, and applies
    it when it differs from the one applied before; when the claim templates
    differ the StatefulSet is first deleted without its Pods. *)

From S2P Require Import Prelude Prog GoLib Constants Api K8s StatefulSets Webhook Controller Containers.
#[local] Open Scope Z_scope.

(* controllers/mysqlcluster_controller.go:56-56 defaultTerminationGracePeriodSeconds *)
Definition defaultTerminationGracePeriodSeconds : Z := 300.

(** ** Claim templates *)

(* api/v1beta2/mysqlcluster_types.go :: ToCoreV1 *)
Definition ToCoreV1 (p : PersistentVolumeClaim) : ClaimAC :=
  {| cla_Name := om_Name (pvct_ObjectMeta p);
     cla_Labels := with_entries ∅ (om_Labels (pvct_ObjectMeta p));
     cla_Annotations := with_entries ∅ (om_Annotations (pvct_ObjectMeta p));
     cla_OwnerReferences := [];
     cla_StorageClassName := pvct_StorageClassName p;
     cla_Requests := pvct_Requests p;
     cla_AccessModes := default ["ReadWriteOnce"] (pvct_AccessModes p);
     cla_VolumeMode := default "Filesystem" (pvct_VolumeMode p);
     cla_Phase := "Pending";
     cla_Rest := pvct_Rest p |}.

(** The first deployed template of the name. *)
Fixpoint find_claim (name : string) (l : list ClaimTemplate) : option ClaimTemplate :=
  match l with
  | [] => None
  | origV :: rest => if name =s ct_Name origV then Some origV else find_claim name rest
  end.

(** ** The Pod *)

Definition emptyPodSecurityContext : PodSecurityContext :=
  {| psc_FSGroup := None; psc_FSGroupChangePolicy := None; psc_Rest := "" |}.

Definition volume (name : string) (src : VolumeSource) : Volume := {| volume_Name := Some name; volume_Source := src |}.

(** The volumes MOCO adds; the mode 0644 is 420. *)
(* controllers/mysqlcluster_controller.go:828-860 reconcileV1StatefulSet *)
Definition mocoVolumes (cluster : MySQLCluster) (mycnf : string) : list Volume :=
  [volume TmpVolumeName EmptyDir; volume RunVolumeName EmptyDir; volume VarLogVolumeName EmptyDir;
   volume MySQLInitConfVolumeName EmptyDir; volume SharedVolumeName EmptyDir;
   volume MySQLConfVolumeName (FromConfigMap mycnf 420);
   volume MySQLConfSecretVolumeName (FromSecret (MyCnfSecretName cluster) 420);
   volume GRPCSecretVolumeName (FromSecret (GRPCSecretName cluster) 420)].

(* controllers/mysqlcluster_controller.go:862-873 reconcileV1StatefulSet *)
Definition slowLogVolumes (cluster : MySQLCluster) (slowlogConf : option string) : extres (list Volume) :=
  if negb (DisableSlowQueryLogContainer (Spec cluster)) then
    match slowlogConf with
    | None => inl (ErrNew "unexpected error: slow query log ConfigMap or its name is nil")
    | Some name => inr [volume SlowQueryLogAgentConfigVolumeName (FromConfigMap name 420)]
    end
  else inr [].

Section sts.
Context {RE : Reconciler} {KL : KubeLibs}.

(* controllers/mysqlcluster_controller.go:792-809 reconcileV1StatefulSet *)
Fixpoint makeClaims (cluster : MySQLCluster) (deployed : list ClaimTemplate) (templates : list PersistentVolumeClaim)
    : extres (list ClaimAC) :=
  match templates with
  | [] => inr []
  | v :: rest =>
      let pvc := ToCoreV1 v in
      match setControllerReferenceWithPVC cluster (find_claim (cla_Name pvc) deployed) pvc with
      | inl e => inl (ErrWrap ("failed to set ownerReference to PVC " +:+ Namespace cluster +:+ "/" +:+ cla_Name pvc) e)
      | inr pvc =>
          match makeClaims cluster deployed rest with
          | inl e => inl e
          | inr l => inr (pvc :: l)
          end
      end
  end.

(** [MatchExpressions] on the labels of the cluster's Pods. *)
Definition podAntiAffinity (cluster : MySQLCluster) : Affinity :=
  PreferAway [(LabelAppName, [AppNameMySQL]); (LabelAppInstance, [Name cluster]); (LabelAppCreatedBy, [AppCreator])].

(* controllers/mysqlcluster_controller.go:911-919 reconcileV1StatefulSet *)
Definition podSecurity (given : option PodSecurityContext) : PodSecurityContext :=
  let s := default emptyPodSecurityContext given in
  {| psc_FSGroup := if DisableDefaultSecurityContext then psc_FSGroup s else or_default (psc_FSGroup s) ContainerGID;
     psc_FSGroupChangePolicy := or_default (psc_FSGroupChangePolicy s) "OnRootMismatch";
     psc_Rest := psc_Rest s |}.

(** The containers, in order. *)
(* controllers/mysqlcluster_controller.go:875-896 reconcileV1StatefulSet *)
Definition makeContainers (cluster : MySQLCluster) (orig : option StatefulSet) : prog ctrlSig (outcome (Container * list Container)) :=
  mysqldContainer <-? Ret (makeV1MySQLDContainer cluster) ;;
  slowLog <-? (if negb (DisableSlowQueryLogContainer (Spec cluster)) then
                 let force := negb (ri_Generation (ReconcileInfo_ (Status cluster)) =? meta_Generation (cluster_Meta cluster)) in
                 sts <-? fallible (wrap_err "failed to extract StatefulSet" (Ret (ExtractStatefulSet orig))) ;;
                 c <-? Ret (makeV1SlowQueryLogContainer cluster sts force) ;;
                 Ret (Return [c])
               else Ret (Return [])) ;;
  let exporter := if 0 <? go_len (Collectors (Spec cluster))
                  then [makeV1ExporterContainer cluster (Collectors (Spec cluster))] else [] in
  Ret (Return (mysqldContainer,
               [mysqldContainer; makeV1AgentContainer cluster] ++ slowLog ++ exporter ++ makeV1OptionalContainers cluster)).

(* controllers/mysqlcluster_controller.go:817-951 reconcileV1StatefulSet *)
Definition makePodSpec (cluster : MySQLCluster) (orig : option StatefulSet) (mycnf : string) (slowlogConf : option string)
    : prog ctrlSig (outcome PodSpecApplyConfiguration) :=
  let given := podtmpl_Spec (PodTemplate (Spec cluster)) in
  slowVolumes <-? fallible (Ret (slowLogVolumes cluster slowlogConf)) ;;
  containers <-? makeContainers cluster orig ;;
  match container_Image containers.1 with
  | None => Ret (Error (ErrNew ("unexpected mysqld container definition with MySQLCluster " +:+ Namespace cluster +:+ "/"
                                +:+ Name cluster +:+ ": image is nil")))
  | Some image =>
      initContainers <-? fallible (makeV1InitContainer cluster image) ;;
      Ret (Return
        {| podspec_Containers := containers.2;
           podspec_InitContainers := initContainers;
           podspec_Volumes := podspec_Volumes given ++ mocoVolumes cluster mycnf ++ slowVolumes;
           podspec_ServiceAccountName := Some (PrefixedName cluster);
           podspec_TerminationGracePeriodSeconds :=
             or_default (podspec_TerminationGracePeriodSeconds given) defaultTerminationGracePeriodSeconds;
           podspec_SecurityContext := Some (podSecurity (podspec_SecurityContext given));
           podspec_Affinity := or_default (podspec_Affinity given) (podAntiAffinity cluster);
           podspec_RestartPolicy := podspec_RestartPolicy given;
           podspec_Rest := podspec_Rest given |})
  end.

(** The StatefulSet to apply, without its owner reference. *)
(* controllers/mysqlcluster_controller.go:773-815 reconcileV1StatefulSet *)
Definition makeStatefulSet (cluster : MySQLCluster) (claims : list ClaimAC) (podSpec : PodSpecApplyConfiguration) : ApplyConfig :=
  let labels := labelSet cluster false in
  let template := podtmpl_ObjectMeta (PodTemplate (Spec cluster)) in
  {| ac_Meta := {| ac_Name := PrefixedName cluster; ac_Namespace := Namespace cluster; ac_Labels := labels;
                   ac_Annotations := if isForceRollingUpdate cluster then {[ AnnForceRollingUpdate := "true" ]} else ∅;
                   ac_OwnerReferences := [] |};
     ac_Body := BodyStatefulSet
       {| ssa_Replicas := if Offline (Spec cluster) then 0 else Replicas (Spec cluster);
          ssa_MatchLabels := labels;
          ssa_PodManagementPolicy := "Parallel";
          ssa_StrategyType := "RollingUpdate";
          ssa_ServiceName := HeadlessServiceName cluster;
          ssa_VolumeClaimTemplates := match claims with [] => None | _ => Some claims end;
          ssa_TemplateLabels := with_entries (with_entries ∅ (om_Labels template)) labels;
          ssa_TemplateAnnotations := with_entries ∅ (om_Annotations template);
          ssa_PodSpec := podSpec |} |}.

(** [sts.Spec.VolumeClaimTemplates] of a configuration. *)
Definition applied_claims (cfg : option ApplyConfig) : option (list ClaimAC) :=
  match cfg with
  | Some {| ac_Body := BodyStatefulSet s |} => ssa_VolumeClaimTemplates s
  | _ => None
  end.

(** ** Recreation *)

(** [wait.PollUntilContextTimeout] every 500 ms for 5 s, from the start on. *)
Definition pollAttempts : nat := 10.

(* controllers/mysqlcluster_controller.go:987-997 reconcileV1StatefulSet *)
Fixpoint waitGone (n : nat) (cluster : MySQLCluster) : prog ctrlSig (extres unit) :=
  match n with
  | O => Ret (inl ErrCtxDone)
  | S n' =>
      r <-- rcall_ (RGetStatefulSet (Namespace cluster) (PrefixedName cluster)) ;;
      match r with
      | inl e => Ret (if is_not_found e then inr () else inl e)
      | inr _ => _ <-- rcall_ (RSleep 500) ;; waitGone n' cluster
      end
  end.

Definition recreateError (cluster : MySQLCluster) : prog ctrlSig unit :=
  rcall_ (RMetric "StatefulSetRecreateErrorTotal" (Name cluster) (Namespace cluster) None).

(** The deletion when the claim templates differ: whether it was done. *)
(* controllers/mysqlcluster_controller.go:968-1001 reconcileV1StatefulSet *)
Definition deleteForRecreate (cluster : MySQLCluster) (orig : option StatefulSet) (sts : ApplyConfig) (origApplyConfig : option ApplyConfig)
    : prog ctrlSig (outcome bool) :=
  match applied_claims origApplyConfig, orig with
  | Some claims, Some orig =>
      if Claims_DeepEqual (applied_claims (Some sts)) (Some claims) then Ret (Return false) else
      r <-- rcall_ (RDeleteOrphan orig) ;;
      match r with
      | inl e => _ <-- recreateError cluster ;; Ret (Error e)
      | inr _ =>
          _ <-? fallible (wrap_err ("re-creation failed the StatefulSet " +:+ Namespace cluster +:+ "/"
                                    +:+ PrefixedName cluster +:+ " has not been deleted") (waitGone pollAttempts cluster)) ;;
          Ret (Return true)
      end
  | _, _ => Ret (Return false)
  end.

(* controllers/mysqlcluster_controller.go:1003-1025 reconcileV1StatefulSet *)
Definition applyStatefulSet (cluster : MySQLCluster) (sts : ApplyConfig) (needRecreate : bool) : prog ctrlSig (outcome unit) :=
  r <-- rcall_ (RApply sts) ;;
  match r with
  | inl e =>
      _ <-- (if needRecreate then recreateError cluster else Ret ()) ;;
      Ret (Error (ErrWrap "failed to reconcile stateful set" e))
  | inr _ =>
      _ <-- (if needRecreate then rcall_ (RMetric "StatefulSetRecreateTotal" (Name cluster) (Namespace cluster) None)
             else Ret ()) ;;
      fallible (debugDiff KStatefulSet "StatefulSet" (Namespace cluster) (PrefixedName cluster))
  end.

(** [mycnf] is the name of the my.cnf ConfigMap, [slowlogConf] the name of the
    other if there is one. *)
(* controllers/mysqlcluster_controller.go :: reconcileV1StatefulSet *)
Definition reconcileV1StatefulSet (cluster : MySQLCluster) (mycnf : string) (slowlogConf : option string)
    : prog ctrlSig (outcome unit) :=
  let at_sts s := s +:+ " StatefulSet " +:+ Namespace cluster +:+ "/" +:+ PrefixedName cluster in
  r <-- rcall_ (RGetStatefulSet (Namespace cluster) (PrefixedName cluster)) ;;
  orig <-? Ret (match r with
                | inr sts => Return (Some sts)
                | inl e => if is_not_found e then Return None else Error (ErrWrap (at_sts "failed to get") e)
                end) ;;
  let deployed := match orig with Some s => sts_VolumeClaimTemplates (sts_Spec s) | None => [] end in
  claims <-? fallible (Ret (makeClaims cluster deployed (VolumeClaimTemplates (Spec cluster)))) ;;
  podSpec <-? makePodSpec cluster orig mycnf slowlogConf ;;
  sts <-? fallible (wrap_err (at_sts "failed to set ownerReference to")
                      (Ret (setControllerReference cluster (makeStatefulSet cluster claims podSpec)))) ;;
  origApplyConfig <-? fallible (wrap_err (at_sts "failed to extract") (Ret (ExtractStatefulSet orig))) ;;
  if Apply_DeepEqual sts origApplyConfig then Ret (Return ()) else
  needRecreate <-? deleteForRecreate cluster orig sts origApplyConfig ;;
  applyStatefulSet cluster sts needRecreate.
End sts.
