(* ===== verification/StatefulSetSpec.v ===== *)
(** * What the step for the StatefulSet guarantees

    When the StatefulSet is applied, when it is deleted first, and what the
    Pods it describes consist of. *)

From S2P Require Import Prelude Prog GoLib Constants Api K8s Samples StatefulSets Webhook WebhookSpec Controller ControllerSamples Containers.
From S2P Require Import StatefulSetStep.
#[local] Open Scope Z_scope.

Section protocol.
Context {RE : Reconciler} {KL : KubeLibs} (cluster : MySQLCluster).
Implicit Types (h : trace ctrlSig).

Lemma makeClaims_Forall2 deployed templates claims :
  makeClaims cluster deployed templates = inr claims →
  Forall2 (λ c p, cla_Name c = om_Name (pvct_ObjectMeta p) ∧ cla_Requests c = pvct_Requests p ∧
                  cla_StorageClassName c = pvct_StorageClassName p) claims templates.
Proof.
  revert claims. induction templates as [|p rest IH]; intros claims; cbn [makeClaims]; [intros [= <-]; constructor|].
  unfold setControllerReferenceWithPVC. destruct GVKForObject as [e|[gv kd]]; [done|].
  destruct (makeClaims _ _ rest) as [e|l] eqn:Hl; [done|]. intros [= <-]. constructor; [done|]. by apply IH.
Qed.

Definition sts_get (r : extres StatefulSet) : event ctrlSig :=
  ev (S := ctrlSig) (RGetStatefulSet (Namespace cluster) (PrefixedName cluster)) r.

(** The StatefulSet that was read first. *)
Definition was_read h (orig : option StatefulSet) : Prop :=
  match orig with
  | Some s => sts_get (inr s) ∈ h
  | None => ∃ e, is_not_found e = true ∧ sts_get (inl e) ∈ h
  end.

Definition deployed_claims (orig : option StatefulSet) : list ClaimTemplate :=
  match orig with Some s => sts_VolumeClaimTemplates (sts_Spec s) | None => [] end.

(** [cfg] is the StatefulSet of the cluster and differs from [old], which was
    applied before. *)
Definition wanted (orig : option StatefulSet) (cfg : ApplyConfig) (old : option ApplyConfig) : Prop :=
  ∃ claims podSpec,
    makeClaims cluster (deployed_claims orig) (VolumeClaimTemplates (Spec cluster)) = inr claims ∧
    setControllerReference cluster (makeStatefulSet cluster claims podSpec) = inr cfg ∧
    ExtractStatefulSet orig = inr old ∧ old ≠ Some cfg.

Definition sts_protocol h (c : call ctrlSig) : Prop :=
  match c with
  | RDeleteOrphan s =>
      ∃ cfg old claims, was_read h (Some s) ∧ wanted (Some s) cfg old ∧
        applied_claims old = Some claims ∧ applied_claims (Some cfg) ≠ Some claims
  | RApply cfg =>
      ∃ orig old, was_read h orig ∧ wanted orig cfg old ∧
        (applied_claims old = None ∨ applied_claims old = applied_claims (Some cfg) ∨
         ∃ s e, orig = Some s ∧ occurs h (RDeleteOrphan s) (inr ()) ∧ is_not_found e = true ∧ last h = Some (sts_get (inl e)))
  | RGetStatefulSet _ _ | RGetConfigMap _ _ | RSleep _ | RMetric _ _ _ _ | RGetObject _ _ _ => True
  | _ => False
  end.

Lemma was_read_app h h' orig : was_read h orig → was_read (h ++ h') orig.
Proof.
  destruct orig as [s|]; cbn; [intros H; apply elem_of_app; by left|].
  intros (e & ? & ?). exists e. split; [done|]. apply elem_of_app. by left.
Qed.

Lemma wp_waitGone n h :
  wp sts_protocol (waitGone n cluster) h
    (λ h' r, ∃ t, h' = h ++ t ∧ (r = inr () → ∃ e, is_not_found e = true ∧ last h' = Some (sts_get (inl e)))).
Proof.
  revert h. induction n as [|n IH]; intros h; cbn [waitGone].
  { exists []. by rewrite app_nil_r. }
  rewrite wp_bind. split; [done|]. intros [e|s]; rewrite wp_ret.
  - eexists [_]. split; [done|]. destruct (is_not_found e) eqn:He; [|done]. intros _. exists e. split; [done|]. apply last_snoc.
  - rewrite wp_bind. split; [done|]. intros []. rewrite wp_ret. eapply wp_conseq; [apply IH|].
    intros h' r (t & -> & H). rewrite <- !app_assoc. exists ([sts_get (inr s); ev (S := ctrlSig) (RSleep 500) ()] ++ t).
    split; [done|]. by rewrite <- !app_assoc in H.
Qed.

Lemma wp_applyStatefulSet h cfg recreate : sts_protocol h (RApply cfg) →
  wp sts_protocol (applyStatefulSet cluster cfg recreate) h (λ _ _, True).
Proof.
  intros Hp. unfold applyStatefulSet, recreateError.
  assert (∀ h, wp sts_protocol (fallible (debugDiff KStatefulSet "StatefulSet" (Namespace cluster) (PrefixedName cluster))) h
    (λ _ _, True)) as Hdiff.
  { intros h'. rewrite wp_fallible. unfold debugDiff. destruct debugController; [|done]. rewrite wp_bind. by split. }
  rewrite wp_bind. split; [done|]. intros [e|[]]; rewrite wp_ret, wp_bind.
  - by destruct recreate.
  - destruct recreate; [split; [done|intros []]|]; rewrite wp_ret; apply Hdiff.
Qed.

Lemma wp_recreate h orig cfg old :
  was_read h orig → wanted orig cfg old →
  wp sts_protocol (needRecreate <-? deleteForRecreate cluster orig cfg old ;; applyStatefulSet cluster cfg needRecreate) h
    (λ _ _, True).
Proof.
  intros Hread Hw. rewrite wp_bind_outcome. unfold deleteForRecreate.
  destruct (applied_claims old) as [claims|] eqn:Hold; [destruct orig as [orig|]|].
  - destruct (Claims_DeepEqual _ _) eqn:Heq.
    + apply Claims_DeepEqual_eq in Heq. apply wp_applyStatefulSet. exists (Some orig), old.
      split; [done|]. split; [done|]. right; left. congruence.
    + rewrite wp_bind. split.
      { exists cfg, old, claims. split; [done|]. split; [done|]. split; [done|]. intros H.
        apply Claims_DeepEqual_eq in H. congruence. }
      intros [e|[]]; rewrite wp_ret.
      { rewrite wp_bind. by split. }
      rewrite wp_bind_outcome, wp_fallible, wp_wrap_err. eapply wp_conseq; [apply wp_waitGone|].
      intros h' [e|[]] (t & -> & H); [done|]. destruct (H eq_refl) as (e & He & Hlast). apply wp_applyStatefulSet.
      exists (Some orig), old. split; [by do 2 apply was_read_app|]. split; [done|]. right; right. exists orig, e.
      split; [done|]. split; [apply occurs_app_l, occurs_last|]. done.
  - apply wp_applyStatefulSet. destruct Hw as (cl & ps & ? & ? & Hex & _). exfalso.
    apply ExtractStatefulSet_none in Hex. by subst.
  - apply wp_applyStatefulSet. exists orig, old. split; [done|]. split; [done|]. by left.
Qed.

Lemma only_podSpec (P : call ctrlSig → bool) orig mycnf slow :
  (∀ ns n, P (RGetConfigMap ns n) = true) → only P (makePodSpec cluster orig mycnf slow).
Proof.
  intros HP. unfold makePodSpec, makeContainers, makeV1InitContainer, makeMocoInitContainer, getEnableLowerCaseTableNamesFromConf.
  repeat first [apply only_fallible | apply (only_call (S := ctrlSig)), HP | only_step | case_match].
Qed.

Lemma wp_statefulset mycnf slow :
  wp sts_protocol (reconcileV1StatefulSet cluster mycnf slow) [] (λ _ _, True).
Proof.
  unfold reconcileV1StatefulSet. rewrite wp_bind. split; [done|]. intros r. rewrite wp_ret, wp_bind_outcome, wp_ret.
  set (h := [] ++ _).
  assert (∀ orig, match r with inr sts => Return (Some sts) | inl e => if is_not_found e then Return None else
     Error (ErrWrap ("failed to get" +:+ " StatefulSet " +:+ Namespace cluster +:+ "/" +:+ PrefixedName cluster) e) end = Return orig →
     was_read h orig) as Hread.
  { intros orig. destruct r as [e|s].
    - destruct (is_not_found e) eqn:He; [|done]. intros [= <-]. exists e. split; [done|]. by apply list_elem_of_singleton.
    - intros [= <-]. by apply list_elem_of_singleton. }
  destruct (match r with inr _ => _ | inl _ => _ end) as [orig|e|m]; [|done..]. specialize (Hread orig eq_refl).
  rewrite wp_bind_outcome, wp_fallible, wp_ret.
  destruct (makeClaims _ _ _) as [e|claims] eqn:Hclaims; [done|]. cbn [outcome_of].
  rewrite wp_bind_outcome. eapply wp_conseq.
  { apply wp_extends. eapply wp_mono; [| |apply (only_podSpec (λ c, match c with RGetConfigMap _ _ => true | _ => false end)); done].
    - intros h' c. by destruct c.
    - exact (λ _ _ H, H). }
  intros h' [podSpec|e|m] [_ [t ->]]; [|done..].
  rewrite wp_bind_outcome, wp_fallible, wp_wrap_err, wp_ret.
  destruct (setControllerReference _ _) as [e|cfg] eqn:Hcfg; [done|]. cbn [outcome_of].
  rewrite wp_bind_outcome, wp_fallible, wp_wrap_err, wp_ret.
  destruct (ExtractStatefulSet orig) as [e|old] eqn:Hold; [done|]. cbn [outcome_of].
  destruct (Apply_DeepEqual cfg old) eqn:Heq; [done|].
  apply wp_recreate; [by apply was_read_app|]. exists claims, podSpec. split; [done|]. split; [done|]. split; [done|].
  intros H. apply Apply_DeepEqual_eq in H. congruence.
Qed.
End protocol.

(** C15. The step for the StatefulSet reads the StatefulSet first; it applies the
    cluster's StatefulSet only when it differs from the one applied before; it
    deletes the StatefulSet, always without its Pods, only when the claim
    templates differ, and then applies the new one only after the deletion was
    accepted and a read has just shown that the old one is gone. *)
Theorem statefulset_step_protocol {RE : Reconciler} {KL : KubeLibs} cluster mycnf slow t o :
  exec (reconcileV1StatefulSet cluster mycnf slow) t o →
  ∀ t1 c r t2, t = t1 ++ ev c r :: t2 → sts_protocol cluster t1 c.
Proof. intros H. exact (proj2 (wp_exec _ _ [] _ _ _ (wp_statefulset cluster mycnf slow) H)). Qed.

(** ** What the Pods consist of *)

Section pods.
Context {RE : Reconciler} {KL : KubeLibs}.

Lemma finish_name cluster c : container_Name (finishContainer cluster c) = container_Name c.
Proof.
  unfold finishContainer, updateContainerWithOverwriteContainers.
  assert (∀ c, container_Name (updateContainerWithSecurityContext c) = container_Name c) as Hsec.
  { intros c'. unfold updateContainerWithSecurityContext. by destruct DisableDefaultSecurityContext. }
  rewrite <- (Hsec c). generalize (updateContainerWithSecurityContext c) as d.
  induction (podtmpl_OverwriteContainers _) as [|o l IH]; intros d; cbn [foldl]; [done|]. rewrite IH.
  case_bool_decide; [|done]. by destruct (ow_Resources o), (ow_SecurityContext o).
Qed.

Lemma agent_name cluster : container_Name (makeV1AgentContainer cluster) = Some AgentContainerName.
Proof.
  unfold makeV1AgentContainer. cbv zeta. rewrite finish_name. cbn.
  destruct (AgentUseLocalhost _), (0 <? _), (negb _), (MaxDelaySeconds _); reflexivity.
Qed.

Lemma exporter_name cluster l : container_Name (makeV1ExporterContainer cluster l) = Some ExporterContainerName.
Proof. unfold makeV1ExporterContainer. cbv zeta. by rewrite finish_name. Qed.

Lemma findNamed_name name l c : findNamed name l = Return (Some c) → container_Name c = Some name ∧ c ∈ l.
Proof.
  induction l as [|d l IH]; cbn [findNamed]; [done|].
  destruct (container_Name d) as [n|] eqn:Hd; [|done]. destruct (n =s name) eqn:Hn.
  - intros [= <-]. bool_cases. split; [congruence|by left].
  - intros [? ?]%IH. split; [done|by right].
Qed.

Lemma mysqld_name cluster c : makeV1MySQLDContainer cluster = Return c → container_Name c = Some MysqldContainerName.
Proof.
  unfold makeV1MySQLDContainer. destruct (findNamed _ _) as [[s|]| |] eqn:Hf; [|done..]. intros [= <-].
  apply findNamed_name in Hf as [Hn _]. unfold updateContainerWithSecurityContext. by destruct DisableDefaultSecurityContext.
Qed.

Lemma slow_log_name cluster sts force c :
  makeV1SlowQueryLogContainer cluster sts force = Return c → container_Name c = Some SlowQueryLogAgentContainerName.
Proof.
  unfold makeV1SlowQueryLogContainer. destruct force; [intros [= <-]; apply finish_name|].
  destruct (findNamed _ _) as [[s|]| |] eqn:Hf; [| |done..].
  - intros [= <-]. apply (findNamed_name _ _ _ Hf).
  - intros [= <-]. apply finish_name.
Qed.

Definition template_containers (cluster : MySQLCluster) : list Container :=
  podspec_Containers (podtmpl_Spec (PodTemplate (Spec cluster))).

Lemma optional_names cluster :
  container_Name <$> makeV1OptionalContainers cluster =
  container_Name <$> filter (λ c, keepsOptional cluster c = true) (template_containers cluster).
Proof.
  unfold makeV1OptionalContainers. rewrite <- list_fmap_compose. apply list_fmap_ext. intros _ c _. cbn.
  unfold updateContainerWithSecurityContext. by destruct DisableDefaultSecurityContext.
Qed.

(** The names of MOCO's own containers in a cluster. *)
Definition own_names (cluster : MySQLCluster) : list string :=
  [MysqldContainerName; AgentContainerName] ++
  (if negb (DisableSlowQueryLogContainer (Spec cluster)) then [SlowQueryLogAgentContainerName] else []) ++
  (if 0 <? go_len (Collectors (Spec cluster)) then [ExporterContainerName] else []).

Lemma own_names_NoDup cluster : NoDup (own_names cluster).
Proof.
  unfold own_names. destruct (negb _), (0 <? _); cbn; apply (bool_decide_unpack _); by vm_compute.
Qed.

Lemma keepsOptional_own cluster c : keepsOptional cluster c = true → ∀ n, n ∈ own_names cluster → container_Name c ≠ Some n.
Proof.
  unfold keepsOptional. intros H n Hn Hc. rewrite Hc in H. unfold own_names in Hn. rewrite !elem_of_app, !elem_of_cons in Hn.
  destruct Hn as [[->|[->|?%elem_of_nil]]|[Hn|Hn]]; [done..| |].
  - destruct (DisableSlowQueryLogContainer _); cbn in Hn; [by apply elem_of_nil in Hn|].
    apply list_elem_of_singleton in Hn as ->. done.
  - destruct (0 <? go_len _) eqn:Hlen; [|by apply elem_of_nil in Hn]. apply list_elem_of_singleton in Hn as ->.
    cbn in H. bool_cases. lia.
Qed.

Lemma makeContainers_names cluster orig t m l :
  exec (makeContainers cluster orig) t (Return (m, l)) →
  container_Name <$> l = (Some <$> own_names cluster) ++
    (container_Name <$> filter (λ c, keepsOptional cluster c = true) (template_containers cluster)).
Proof.
  unfold makeContainers. intros [(t1 & t2 & mysqld & -> & [-> Hm] & H)|[(? & _ & [=])|(? & _ & [=])]]%exec_bind_outcome_inv.
  apply mysqld_name in Hm.
  apply exec_bind_outcome_inv in H as [(t3 & t4 & slow & -> & Hslow & [-> [= -> <-]])|[(? & _ & [=])|(? & _ & [=])]].
  assert (container_Name <$> slow = Some <$> (if negb (DisableSlowQueryLogContainer (Spec cluster))
            then [SlowQueryLogAgentContainerName] else [])) as Hs.
  { destruct (negb _); [|by destruct Hslow as [_ [= <-]]].
    apply exec_bind_outcome_inv in Hslow as [(? & ? & sts & _ & _ & Hslow)|[(? & _ & [=])|(? & _ & [=])]].
    apply exec_bind_outcome_inv in Hslow as [(? & ? & c & _ & [_ Hc] & [_ [= <-]])|[(? & _ & [=])|(? & _ & [=])]].
    apply slow_log_name in Hc. cbn. by rewrite Hc. }
  unfold own_names. rewrite !fmap_cons, Hm, agent_name, !fmap_app, optional_names, Hs, <- !app_assoc. cbn [fmap list_fmap app].
  do 4 f_equal. destruct (0 <? _); [|done]. cbn. by rewrite exporter_name.
Qed.
End pods.

(** The containers of a Pod begin with MOCO's own, and no two containers
    have the same name, provided the names in the template of the cluster are
    distinct: a container of the template that takes one of MOCO's names is left
    out. *)
Theorem pod_containers_distinct {RE : Reconciler} {KL : KubeLibs} cluster orig t m l :
  NoDup (container_Name <$> template_containers cluster) →
  exec (makeContainers cluster orig) t (Return (m, l)) →
  (Some <$> own_names cluster) `prefix_of` (container_Name <$> l) ∧ NoDup (container_Name <$> l).
Proof.
  intros Hnd Hex. rewrite (makeContainers_names _ _ _ _ _ Hex). split; [by apply prefix_app_r|].
  apply NoDup_app. split; [apply (NoDup_fmap_2 _), own_names_NoDup|]. split.
  - intros x (n & -> & Hn)%list_elem_of_fmap (c & Hc & [Hk _]%list_elem_of_filter)%list_elem_of_fmap.
    by apply (keepsOptional_own _ _ Hk n Hn).
  - eapply sublist_NoDup; [exact Hnd|]. apply fmap_sublist, sublist_filter.
Qed.

(** The names of volumes that MOCO uses but the validation does not reserve:
    a Pod template that has a volume of such a name, which the validation may
    admit, gives a Pod with two volumes of one name. *)
Theorem unreserved_volume_clashes {RE : Reconciler} {KL : KubeLibs} cluster orig mycnf slow t podSpec v :
  v ∈ podspec_Volumes (podtmpl_Spec (PodTemplate (Spec cluster))) →
  volume_Name v = Some SharedVolumeName ∨ volume_Name v = Some GRPCSecretVolumeName →
  exec (makePodSpec cluster orig mycnf slow) t (Return podSpec) →
  ¬ NoDup (volume_Name <$> podspec_Volumes podSpec).
Proof.
  intros Hv Hname Hex. unfold makePodSpec in Hex.
  apply exec_bind_outcome_inv in Hex as [(? & ? & sv & _ & _ & Hex)|[(? & _ & [=])|(? & _ & [=])]].
  apply exec_bind_outcome_inv in Hex as [(? & ? & [m l] & _ & _ & Hex)|[(? & _ & [=])|(? & _ & [=])]]. cbn [fst snd] in Hex.
  destruct (container_Image m) as [image|]; [|by destruct Hex].
  apply exec_bind_outcome_inv in Hex as [(? & ? & ic & _ & _ & [_ [= <-]])|[(? & _ & [=])|(? & _ & [=])]].
  cbn [podspec_Volumes]. rewrite fmap_app. intros Hnd. apply NoDup_app in Hnd as (_ & Hdisj & _).
  apply (Hdisj (volume_Name v)); [by apply list_elem_of_fmap_2|].
  cbn [mocoVolumes app fmap list_fmap volume_Name volume]. rewrite !elem_of_cons. naive_solver.
Qed.

(** ** At a concrete cluster *)

Definition old_slow_log : Container := newContainer SlowQueryLogAgentContainerName "fluent-bit:0".

(** What was applied before: claims of another size and an older container. *)
Definition old_config : ApplyConfig :=
  {| ac_Meta := objMeta (admissible_cluster 3 10) "moco-test" ∅;
     ac_Body := BodyStatefulSet
       {| ssa_Replicas := 3; ssa_MatchLabels := ∅; ssa_PodManagementPolicy := "Parallel"; ssa_StrategyType := "RollingUpdate";
          ssa_ServiceName := "moco-test"; ssa_VolumeClaimTemplates := Some [ToCoreV1 (sample_claim 10)];
          ssa_TemplateLabels := ∅; ssa_TemplateAnnotations := ∅;
          ssa_PodSpec := {| podspec_Containers := [old_slow_log]; podspec_InitContainers := []; podspec_Volumes := [];
                            podspec_ServiceAccountName := None; podspec_TerminationGracePeriodSeconds := None;
                            podspec_SecurityContext := None; podspec_Affinity := None; podspec_RestartPolicy := None;
                            podspec_Rest := "" |} |} |}.

Definition applied_libs : KubeLibs := libs_with (λ _, None) (Some old_config).

(** The StatefulSet is there until it is deleted. *)
Definition sample_sts_api (c : rcall) (there : bool) : rresp c * bool :=
  (match c as c return rresp c with
   | RGetStatefulSet _ _ => if there then inr (settled_sts 10) else inl not_found
   | c => sample_answer c
   end, match c with RDeleteOrphan _ => false | _ => there end).

Definition sample_recreation :=
  run (S := ctrlSig) sample_sts_api
    (reconcileV1StatefulSet (KL := applied_libs) (admissible_cluster 3 20) "moco-test.1" (Some "slow.1")) true.

Lemma sample_recreation_exec :
  exec (reconcileV1StatefulSet (KL := applied_libs) (admissible_cluster 3 20) "moco-test.1" (Some "slow.1"))
    sample_recreation.1 sample_recreation.2.
Proof. exact (run_exec (S := ctrlSig) sample_sts_api _ true). Qed.

Lemma sample_recreation_applies : ∃ cfg,
  sample_recreation.1 = take 3 sample_recreation.1 ++ ev (S := ctrlSig) (RApply cfg) (inr ()) :: drop 4 sample_recreation.1.
Proof. eexists. vm_compute. reflexivity. Qed.

Lemma statefulset_step_protocol_witness :
  ∃ cfg, sts_protocol (KL := applied_libs) (admissible_cluster 3 20) (take 3 sample_recreation.1) (RApply cfg).
Proof.
  destruct sample_recreation_applies as [cfg Heq]. exists cfg.
  exact (statefulset_step_protocol (KL := applied_libs) (admissible_cluster 3 20) "moco-test.1" (Some "slow.1") _ _
           sample_recreation_exec _ _ _ _ Heq).
Defined.

Definition sample_containers :=
  run (S := ctrlSig) (λ c s, (sample_answer c, s)) (makeContainers (admissible_cluster 3 20) None) ().

Lemma sample_containers_exec : ∃ m l,
  exec (makeContainers (admissible_cluster 3 20) None) sample_containers.1 (Return (m, l)) ∧ length l = 3%nat.
Proof.
  pose proof (run_exec (S := ctrlSig) (λ c s, (sample_answer c, s)) (makeContainers (admissible_cluster 3 20) None) ()) as H.
  fold sample_containers in H. destruct sample_containers.2 as [[m l]|e|msg] eqn:E.
  - exists m, l. split; [exact H|]. revert E. vm_compute. by intros [= _ <-].
  - vm_compute in E. discriminate.
  - vm_compute in E. discriminate.
Qed.

Lemma pod_containers_distinct_witness :
  ∃ l : list Container, length l = 3%nat ∧ NoDup (container_Name <$> l).
Proof.
  destruct sample_containers_exec as (m & l & Hex & Hlen). exists l. split; [exact Hlen|].
  apply (pod_containers_distinct (admissible_cluster 3 20) None sample_containers.1 m l); [|exact Hex].
  apply (bool_decide_unpack _). vm_compute. exact I.
Defined.

Definition shared_volume : Volume := {| volume_Name := Some SharedVolumeName; volume_Source := EmptyDir |}.

(** A Pod template with a volume named as the directory MOCO shares between the
    containers. *)
Definition clashing_cluster : MySQLCluster := cluster_with_volumes [shared_volume] 3 20.

Definition clashing_pod :=
  run (S := ctrlSig) (λ c s, (sample_answer c, s)) (makePodSpec clashing_cluster None "moco-test.1" (Some "slow.1")) ().

Lemma clashing_pod_returns : ∃ p,
  exec (makePodSpec clashing_cluster None "moco-test.1" (Some "slow.1")) clashing_pod.1 (Return p).
Proof.
  assert (exec (makePodSpec clashing_cluster None "moco-test.1" (Some "slow.1")) clashing_pod.1 clashing_pod.2) as H
    by exact (run_exec (S := ctrlSig) (λ c s, (sample_answer c, s)) _ ()).
  destruct clashing_pod.2 as [p|e|msg] eqn:E; [by exists p|vm_compute in E; discriminate..].
Qed.

Lemma unreserved_volume_clashes_witness :
  validateCreate sample_cron (Spec clashing_cluster) = [] ∧
  ∃ p : PodSpecApplyConfiguration, ¬ NoDup (volume_Name <$> podspec_Volumes p).
Proof.
  split; [vm_compute; reflexivity|]. destruct clashing_pod_returns as [p Hp]. exists p.
  apply (unreserved_volume_clashes clashing_cluster None "moco-test.1" (Some "slow.1") clashing_pod.1 p
           shared_volume); [by left|by left|exact Hp].
Defined.
