(* ===== verification/Jobs.v ===== *)
(** * Backup and restore jobs of a cluster (controllers/mysqlcluster_controller.go)

    The CronJob that takes backups, the Job that restores one, and the Role and
    RoleBinding of their service account. *)

From S2P Require Import Prelude Prog GoLib Time Constants Api K8s Password StatefulSets Webhook Controller Containers StatefulSetStep.
#[local] Open Scope Z_scope.

(* controllers/mysqlcluster_controller.go :: bucketArgs *)
Definition bucketArgs (bc : BucketConfig) : list string :=
  (if Region bc <>s "" then ["--region=" +:+ Region bc] else []) ++
  (if EndpointURL bc <>s "" then ["--endpoint=" +:+ EndpointURL bc] else []) ++
  (if UsePathStyle bc then ["--use-path-style"] else []) ++
  (if BackendType bc <>s "" then ["--backend-type=" +:+ BackendType bc] else []) ++
  (if CaCert bc <>s "" then ["--ca-cert=" +:+ CaCert bc] else []) ++
  [BucketName bc].

(** A resource list with the quantities that are given; nil when there is none. *)
Definition given_resources (cpu memory : option Z) : option ResourceList :=
  let l := match cpu with Some q => {[ ResourceCPU := q ]} | None => ∅ end in
  let l := match memory with Some q => <["memory" := q]> l | None => l end in
  if bool_decide (l = ∅) then None else Some l.

Definition workVolume : string := "work".

(** The affinity of the backup jobs when none is given. *)
Definition jobAffinity : Affinity :=
  PreferAway [(LabelAppName, [AppNameBackup]); (LabelAppCreatedBy, [AppCreator])].

Definition policyRule (group : string) (resources verbs names : list string) : PolicyRule :=
  {| rule_APIGroups := [group]; rule_Resources := resources; rule_Verbs := verbs; rule_ResourceNames := names |}.

Definition clusterRule (cluster : MySQLCluster) : PolicyRule :=
  policyRule GroupVersion_Group ["mysqlclusters"; "mysqlclusters/status"] ["get"; "update"] [Name cluster].

Section jobs.
Context {RE : Reconciler} {KL : KubeLibs}.

Definition jobResources (jc : JobConfig) : ResourceRequirements :=
  if noJobResource then {| rr_Requests := None; rr_Limits := None |}
  else {| rr_Requests := given_resources (job_CPU jc) (job_Memory jc);
          rr_Limits := given_resources (job_MaxCPU jc) (job_MaxMemory jc) |}.

(* controllers/mysqlcluster_controller.go :: defaultPodSecurityContext *)
Definition defaultPodSecurityContext : PodSecurityContext :=
  {| psc_FSGroup := if DisableDefaultSecurityContext then None else Some ContainerGID;
     psc_FSGroupChangePolicy := Some "OnRootMismatch"; psc_Rest := "" |}.

(** The container of a job, with the password of the user under [passwordKey]. *)
Definition jobContainer (cluster : MySQLCluster) (jc : JobConfig) (name passwordKey : string) (args : list string) : Container :=
  let c := WithArgs args (newContainer name BackupImage) in
  let c := WithEnv [EnvSecretKey "MYSQL_PASSWORD" passwordKey (UserSecretName cluster)] c in
  let c := WithEnv (job_Env jc) c in
  let c := WithEnvFrom (job_EnvFrom jc) c in
  let c := WithVolumeMounts [Mount workVolume "/work" false] c in
  let c := WithVolumeMounts (job_VolumeMounts jc) c in
  WithResources (jobResources jc)
    (WithSecurityContext {| scx_RunAsUser := None; scx_RunAsGroup := None; scx_ReadOnlyRootFilesystem := Some true;
                            scx_Rest := "" |} c).

Definition jobPodSpec (jc : JobConfig) (c : Container) (affinity : option Affinity) : PodSpecApplyConfiguration :=
  {| podspec_Containers := [c]; podspec_InitContainers := [];
     podspec_Volumes := volume workVolume (job_WorkVolume jc) :: job_Volumes jc;
     podspec_ServiceAccountName := Some (job_ServiceAccountName jc);
     podspec_TerminationGracePeriodSeconds := None;
     podspec_SecurityContext := Some defaultPodSecurityContext;
     podspec_Affinity := affinity; podspec_RestartPolicy := Some "Never"; podspec_Rest := "" |}.

Definition jobMeta (cluster : MySQLCluster) (name : string) : MetaAC := objMeta cluster name (labelSetForJob cluster).

(** ** Backup *)

(* controllers/mysqlcluster_controller.go:1169-1319 reconcileV1BackupJob *)
Definition backupCronJob (cluster : MySQLCluster) (bp : BackupPolicySpec) : ApplyConfig :=
  let jc := bp_JobConfig bp in
  let args := [BackupSubcommand; "--threads=" +:+ Itoa (job_Threads jc)] ++ bucketArgs (job_BucketConfig jc) ++
              [Namespace cluster; Name cluster] in
  let container := updateContainerWithSecurityContext (jobContainer cluster jc "backup" BackupPasswordKey args) in
  {| ac_Meta := jobMeta cluster (BackupCronJobName cluster);
     ac_Body := BodyCronJob
       {| cjs_Schedule := bp_Schedule bp; cjs_TimeZone := bp_TimeZone bp; cjs_ConcurrencyPolicy := bp_ConcurrencyPolicy bp;
          cjs_StartingDeadlineSeconds := bp_StartingDeadlineSeconds bp;
          cjs_SuccessfulJobsHistoryLimit := bp_SuccessfulJobsHistoryLimit bp;
          cjs_FailedJobsHistoryLimit := bp_FailedJobsHistoryLimit bp;
          cjs_JobTemplateLabels := labelSetForJob cluster;
          cjs_Job := {| js_BackoffLimit := bp_BackoffLimit bp; js_ActiveDeadlineSeconds := bp_ActiveDeadlineSeconds bp;
                        js_PodLabels := labelSetForJob cluster;
                        js_PodSpec := jobPodSpec jc container (or_default (job_Affinity jc) jobAffinity) |} |} |}.

(** Delete the object if it exists. *)
Definition deleteIfExists (k : kind) (namespace name : string) : prog ctrlSig (extres unit) :=
  r <-- rcall_ (RGetObject k namespace name) ;;
  match r with
  | inr _ => rcall_ (RDelete k namespace name)
  | inl e => Ret (if is_not_found e then inr () else inl e)
  end.

(** One of the Roles: [pods] and [events] are the verbs on these. *)
Definition jobRole (cluster : MySQLCluster) (name : string) (pods events : list string) : prog ctrlSig (extres unit) :=
  applyOwned cluster "Role" ("failed to reconcile " +:+ name +:+ " Role for backup")
    {| ac_Meta := jobMeta cluster name;
       ac_Body := BodyRole [clusterRule cluster; policyRule "" ["pods"] pods []; policyRule "" ["events"] events []] |}
    (debugDiff KRole "Role" (Namespace cluster) name).

Definition jobRoleBinding (cluster : MySQLCluster) (name serviceAccount : string) : prog ctrlSig (extres unit) :=
  applyOwned cluster "RoleBinding" ("failed to reconcile " +:+ name +:+ " RoleBinding for backup")
    {| ac_Meta := jobMeta cluster name;
       ac_Body := BodyRoleBinding "rbac.authorization.k8s.io" "Role" name "ServiceAccount" serviceAccount (Namespace cluster) |}
    (debugDiff KRoleBinding "RoleBinding" (Namespace cluster) name).

(* controllers/mysqlcluster_controller.go :: reconcileV1BackupJobRole *)
Definition reconcileV1BackupJobRole (cluster : MySQLCluster) : prog ctrlSig (extres unit) :=
  jobRole cluster (BackupRoleName cluster) ["get"; "list"; "watch"] ["create"; "update"; "patch"].

(* controllers/mysqlcluster_controller.go :: reconcileV1BackupJobRoleBinding *)
Definition reconcileV1BackupJobRoleBinding (cluster : MySQLCluster) (bp : BackupPolicySpec) : prog ctrlSig (extres unit) :=
  jobRoleBinding cluster (BackupRoleName cluster) (job_ServiceAccountName (bp_JobConfig bp)).

(** An unchanged CronJob returns before the Role and the RoleBinding. *)
(* controllers/mysqlcluster_controller.go :: reconcileV1BackupJob *)
Definition reconcileV1BackupJob (cluster : MySQLCluster) : prog ctrlSig (extres unit) :=
  let ns := Namespace cluster in
  match BackupPolicyName (Spec cluster) with
  | None =>
      _ <-! deleteIfExists KCronJob ns (BackupCronJobName cluster) ;;
      _ <-! deleteIfExists KRole ns (BackupRoleName cluster) ;;
      deleteIfExists KRoleBinding ns (BackupRoleName cluster)
  | Some bpName =>
      bp <-! wrap_err ("failed to get backup policy " +:+ ns +:+ "/" +:+ bpName) (rcall_ (RGetBackupPolicy ns bpName)) ;;
      let name := BackupCronJobName cluster in
      applyOwned cluster "CronJob" ("failed to reconcile " +:+ name +:+ " CronJob for backup")
        (backupCronJob cluster (bp_Spec bp))
        (_ <-! debugDiff KCronJob "CronJob" ns name ;;
         _ <-! reconcileV1BackupJobRole cluster ;;
         reconcileV1BackupJobRoleBinding cluster (bp_Spec bp))
  end.

(** ** Restore *)

(* controllers/mysqlcluster_controller.go:1476-1574 reconcileV1RestoreJob *)
Definition restoreJob (cluster : MySQLCluster) (restore : RestoreSpec) : ApplyConfig :=
  let jc := restore_JobConfig restore in
  let args := [RestoreSubcommand; "--threads=" +:+ Itoa (job_Threads jc)] ++ bucketArgs (job_BucketConfig jc) ++
              [restore_SourceNamespace restore; restore_SourceName restore; Namespace cluster; Name cluster;
               FormatBackup (restore_RestorePoint restore * 1000000000); restore_Schema restore; restore_Users restore] in
  {| ac_Meta := jobMeta cluster (RestoreJobName cluster);
     ac_Body := BodyJob
       {| js_BackoffLimit := Some 0; js_ActiveDeadlineSeconds := None; js_PodLabels := labelSetForJob cluster;
          js_PodSpec := jobPodSpec jc (jobContainer cluster jc "restore" AdminPasswordKey args) None |} |}.

(* controllers/mysqlcluster_controller.go :: reconcileV1RestoreJobRole *)
Definition reconcileV1RestoreJobRole (cluster : MySQLCluster) : prog ctrlSig (extres unit) :=
  jobRole cluster (RestoreRoleName cluster) ["get"] ["create"].

(* controllers/mysqlcluster_controller.go :: reconcileV1RestoreJobRoleBinding *)
Definition reconcileV1RestoreJobRoleBinding (cluster : MySQLCluster) (restore : RestoreSpec) : prog ctrlSig (extres unit) :=
  jobRoleBinding cluster (RestoreRoleName cluster) (job_ServiceAccountName (restore_JobConfig restore)).

(* controllers/mysqlcluster_controller.go :: reconcileV1RestoreJob *)
Definition reconcileV1RestoreJob (cluster : MySQLCluster) : prog ctrlSig (extres unit) :=
  match Restore (Spec cluster), RestoredTime (Status cluster) with
  | None, _ => Ret (inr ())
  | Some _, Some _ => Ret (inr ())
  | Some restore, None =>
      let ns := Namespace cluster in
      let name := RestoreJobName cluster in
      let roles := _ <-! reconcileV1RestoreJobRole cluster ;; reconcileV1RestoreJobRoleBinding cluster restore in
      r <-- rcall_ (RGetObject KJob ns name) ;;
      match r with
      | inr _ => roles
      | inl e =>
          if negb (is_not_found e) then Ret (inl e) else
          applyOwned cluster "Job" ("failed to reconcile " +:+ name +:+ " Job for backup") (restoreJob cluster restore)
            (_ <-! debugDiff KJob "Job" ns name ;; roles)
      end
  end.
End jobs.
