(* ===== verification/Pvc.v ===== *)
(** * Volume resizing (controllers/pvc.go)

    [reconcilePVC] copies the values of configured labels and annotations to the
    claims of a cluster and enlarges the claims whose template asks for more. *)

From S2P Require Import Prelude Prog GoLib Constants Api K8s StatefulSets Webhook Controller.
#[local] Open Scope Z_scope.

(** [Requests.Storage()] of a claim: the zero quantity when there is none. *)
Definition pvc_Storage (pvc : PVC) : Z :=
  match pvc_Requests pvc with
  | Some (Some q) => q
  | _ => 0
  end.

(** [Resources.Requests.Storage()] of a template of the cluster, whose
    [Resources] and [Requests] are pointers. *)
Definition template_Storage (pvc : PersistentVolumeClaim) : outcome Z :=
  match pvct_Requests pvc with
  | None => Panic "nil pointer dereference"
  | Some q => Return (default 0 q)
  end.

Definition set_pvc_Storage (q : Z) (pvc : PVC) : outcome PVC :=
  match pvc_Requests pvc with
  | None => Panic "assignment to entry in nil map"
  | Some _ =>
      Return {| pvc_Name := pvc_Name pvc; pvc_Namespace := pvc_Namespace pvc; pvc_Labels := pvc_Labels pvc;
                pvc_Annotations := pvc_Annotations pvc; pvc_StorageClassName := pvc_StorageClassName pvc;
                pvc_Requests := Some (Some q) |}
  end.

Definition set_pvc_maps (labels annotations : option (gmap string string)) (pvc : PVC) : PVC :=
  {| pvc_Name := pvc_Name pvc; pvc_Namespace := pvc_Namespace pvc; pvc_Labels := labels;
     pvc_Annotations := annotations; pvc_StorageClassName := pvc_StorageClassName pvc;
     pvc_Requests := pvc_Requests pvc |}.

(* controllers/pvc.go :: isUpdatingStatefulSet *)
Definition isUpdatingStatefulSet (sts : StatefulSet) : bool :=
  let st := sts_Status sts in
  let sp := sts_Spec sts in
  bool_decide (meta_DeletionTimestamp (sts_Meta sts) ≠ None) ||
  ((sts_ObservedGeneration st =? 0) || (sts_ObservedGeneration st <? meta_Generation (sts_Meta sts))) ||
  match sts_Replicas sp with
  | Some n => sts_ReadyReplicas st <? n
  | None => false
  end ||
  ((sts_StrategyType sp =s "RollingUpdate") &&
   match sts_Replicas sp, partition_of sts with
   | Some n, Some p => sts_UpdatedReplicas st <? wrap32 (n - p)
   | _, _ => false
   end) ||
  (sts_UpdateRevision st <>s sts_CurrentRevision st).

(** [pvcSet]: the deployed templates by name; the last of a name wins. *)
Definition claims_by_name (l : list ClaimTemplate) : gmap string ClaimTemplate :=
  foldl (λ m ct, <[ct_Name ct := ct]> m) ∅ l.

(* controllers/pvc.go:184-208 needResizePVC *)
Fixpoint resizeTargets (pvcSet : gmap string ClaimTemplate) (templates : list PersistentVolumeClaim)
    (resizeTarget : gmap string ClaimTemplate) : outcome (gmap string ClaimTemplate) :=
  match templates with
  | [] => Return resizeTarget
  | pvc :: rest =>
      match pvcSet !! pvct_Name pvc with
      | None => resizeTargets pvcSet rest resizeTarget
      | Some current =>
          match template_Storage pvc with
          | Return wantSize =>
              if ct_Storage current <? wantSize
              then resizeTargets pvcSet rest (<[pvct_Name pvc := current]> resizeTarget)
              else resizeTargets pvcSet rest resizeTarget
          | Error e => Error e
          | Panic m => Panic m
          end
      end
  end.

(* controllers/pvc.go :: needResizePVC *)
Definition needResizePVC (cluster : MySQLCluster) (sts : StatefulSet) : outcome (option (gmap string ClaimTemplate)) :=
  match sts_VolumeClaimTemplates (sts_Spec sts) with
  | [] => Return None
  | cts =>
      match resizeTargets (claims_by_name cts) (VolumeClaimTemplates (Spec cluster)) ∅ with
      | Return t => Return (if bool_decide (t = ∅) then None else Some t)
      | Error e => Error e
      | Panic m => Panic m
      end
  end.

(* controllers/pvc.go:81-88 resizePVCs *)
Fixpoint newSizes (templates : list PersistentVolumeClaim) (m : gmap string Z) : outcome (gmap string Z) :=
  match templates with
  | [] => Return m
  | pvc :: rest =>
      match template_Storage pvc with
      | Return q => newSizes rest (<[pvct_Name pvc := q]> m)
      | Error e => Error e
      | Panic msg => Panic msg
      end
  end.

(** The name of the claim of Pod [i]. *)
Definition claim_name (template stsName : string) (i : Z) : string :=
  template +:+ "-" +:+ stsName +:+ "-" +:+ Itoa i.

(** The claims to enlarge and their new sizes; [None] is a nil pointer.  The
    order of [resizeTarget] does not matter: the names are all different. *)
(* controllers/pvc.go:96-103 resizePVCs *)
Definition pvcsToKeep (sizes : gmap string Z) (stsName : string) (replicas : Z) (resizeTarget : gmap string ClaimTemplate)
    : gmap string (option Z) :=
  list_to_map (p ← map_to_list resizeTarget;
               i ← upto replicas;
               [(claim_name (ct_Name p.2) stsName i, sizes !! ct_Name p.2)]).

Section pvc.
Context {RE : Reconciler} {KL : KubeLibs}.

(* controllers/pvc.go :: isVolumeExpansionSupported *)
Definition isVolumeExpansionSupported (pvc : PVC) : prog ctrlSig (extres bool) :=
  match pvc_StorageClassName pvc with
  | None => Ret (inr false)
  | Some name =>
      sc <-! wrap_err ("failed to get StorageClass " +:+ name) (rcall_ (RGetStorageClass name)) ;;
      Ret (inr (default false (sc_AllowVolumeExpansion sc)))
  end.

(** The log line about a claim that cannot be enlarged reads the name of its
    storage class, a pointer. *)
Definition log_unsupported (pvc : PVC) : outcome unit :=
  match pvc_StorageClassName pvc with
  | None => Panic "nil pointer dereference"
  | Some _ => Return ()
  end.

(** The body of the loop over the claims; [resized] is what was enlarged. *)
(* controllers/pvc.go:120-158 resizePVCs *)
Definition resizeOne (keepSet : gmap string (option Z)) (resized : gmap string PVC) (pvc : PVC)
    : prog ctrlSig (outcome (gmap string PVC)) :=
  match keepSet !! pvc_Name pvc with
  | None => Ret (Return resized)
  | Some newSize =>
      supported <-? fallible (wrap_err "failed to check if volume expansion is supported" (isVolumeExpansionSupported pvc)) ;;
      if negb supported then _ <-? Ret (log_unsupported pvc) ;; Ret (Return resized) else
      newSize <-? or_panic newSize "nil pointer dereference" ;;
      if pvc_Storage pvc =? newSize then Ret (Return resized)
      else if newSize <? pvc_Storage pvc then
        Ret (Error (ErrWrap ("failed to resize pvc " +:+ pvc_Name pvc) ErrReduceVolumeSize))
      else
        pvc <-? Ret (set_pvc_Storage newSize pvc) ;;
        _ <-? fallible (wrap_err "failed to update PVC" (rcall_ (RUpdatePVC pvc))) ;;
        Ret (Return (<[pvc_Name pvc := pvc]> resized))
  end.

(* controllers/pvc.go :: resizePVCs *)
Definition resizePVCs (cluster : MySQLCluster) (sts : StatefulSet) (resizeTarget : gmap string ClaimTemplate)
    : prog ctrlSig (outcome (gmap string PVC)) :=
  sizes <-? Ret (newSizes (VolumeClaimTemplates (Spec cluster)) ∅) ;;
  let replicas := default 1 (sts_Replicas (sts_Spec sts)) in
  let keepSet := pvcsToKeep sizes (meta_Name (sts_Meta sts)) replicas resizeTarget in
  selector <-? fallible (wrap_err "failed to parse selector" (Ret (LabelSelectorAsSelector (sts_MatchLabels (sts_Spec sts))))) ;;
  pvcs <-? fallible (wrap_err "failed to list PVCs" (rcall_ (RListPVCs (meta_Namespace (sts_Meta sts)) selector))) ;;
  for_range pvcs ∅ (resizeOne keepSet).

(** ** Labels and annotations *)

(** One of the two loops over the keys: the map and whether it changed. *)
(* controllers/pvc.go:299-315 syncPVCLabelAndAnnotationValues *)
Fixpoint syncValues (keys : list string) (template : gmap string string) (m : option (gmap string string)) (isUpdate : bool)
    : outcome (option (gmap string string) * bool) :=
  match keys with
  | [] => Return (m, isUpdate)
  | key :: rest =>
      match template !! key with
      | None => syncValues rest template m isUpdate
      | Some value =>
          if map_str (default ∅ m) key =s value then syncValues rest template m isUpdate
          else match m with
               | None => Panic "assignment to entry in nil map"
               | Some m => syncValues rest template (Some (<[key := value]> m)) true
               end
      end
  end.

(** [templatePVCSet]: the templates by the name of their claims without ordinal. *)
(* controllers/pvc.go:279-283 syncPVCLabelAndAnnotationValues *)
Definition templatePVCSet (stsName : string) (templates : list PersistentVolumeClaim) : gmap string PersistentVolumeClaim :=
  foldl (λ m pvc, <[pvct_Name pvc +:+ "-" +:+ stsName := pvc]> m) ∅ templates.

(* controllers/pvc.go:285-322 syncPVCLabelAndAnnotationValues *)
Definition syncOne (templates : gmap string PersistentVolumeClaim) (_ : unit) (pvc : PVC)
    : prog ctrlSig (outcome unit) :=
  let index := last_index "-" (pvc_Name pvc) in
  if index =? -1 then Ret (Return ()) else
  match templates !! take_str (Z.to_nat index) (pvc_Name pvc) with
  | None => Ret (Return ())
  | Some template =>
      labels <-? Ret (syncValues PVCSyncLabelKeys (om_Labels (pvct_ObjectMeta template)) (pvc_Labels pvc) false) ;;
      annotations <-? Ret (syncValues PVCSyncAnnotationKeys (om_Annotations (pvct_ObjectMeta template))
                             (pvc_Annotations pvc) labels.2) ;;
      if annotations.2 then
        fallible (wrap_err "failed to update PVC" (rcall_ (RUpdatePVC (set_pvc_maps labels.1 annotations.1 pvc))))
      else Ret (Return ())
  end.

(* controllers/pvc.go :: syncPVCLabelAndAnnotationValues *)
Definition syncPVCLabelAndAnnotationValues (cluster : MySQLCluster) (sts : StatefulSet) : prog ctrlSig (outcome unit) :=
  if (go_len PVCSyncAnnotationKeys =? 0) && (go_len PVCSyncLabelKeys =? 0) then Ret (Return ()) else
  selector <-? fallible (wrap_err "failed to parse selector" (Ret (LabelSelectorAsSelector (sts_MatchLabels (sts_Spec sts))))) ;;
  pvcs <-? fallible (wrap_err "failed to list PVCs" (rcall_ (RListPVCs (meta_Namespace (sts_Meta sts)) selector))) ;;
  for_range pvcs () (syncOne (templatePVCSet (meta_Name (sts_Meta sts)) (VolumeClaimTemplates (Spec cluster)))).

(** ** The step *)

(* controllers/pvc.go:66-77 reconcilePVC *)
Definition reportResize (cluster : MySQLCluster) (r : outcome (gmap string PVC)) : prog ctrlSig (outcome unit) :=
  match r with
  | Panic m => Ret (Panic m)
  | Error e => _ <-- rcall_ (RMetric "VolumeResizedErrorTotal" (Name cluster) (Namespace cluster) None) ;; Ret (Error e)
  | Return resized =>
      if bool_decide (resized = ∅) then Ret (Return ())
      else _ <-- rcall_ (RMetric "VolumeResizedTotal" (Name cluster) (Namespace cluster) None) ;; Ret (Return ())
  end.

(* controllers/pvc.go :: reconcilePVC *)
Definition reconcilePVC (cluster : MySQLCluster) : prog ctrlSig (outcome unit) :=
  r <-- rcall_ (RGetStatefulSet (Namespace cluster) (PrefixedName cluster)) ;;
  match r with
  | inl e =>
      Ret (if is_not_found e then Return ()
           else Error (ErrWrap ("failed to get StatefulSet " +:+ Namespace cluster +:+ "/" +:+ PrefixedName cluster) e))
  | inr sts =>
      _ <-? syncPVCLabelAndAnnotationValues cluster sts ;;
      if isUpdatingStatefulSet sts then Ret (Return ()) else
      target <-? Ret (needResizePVC cluster sts) ;;
      match target with
      | None => Ret (Return ())
      | Some resizeTarget => bind (resizePVCs cluster sts resizeTarget) (reportResize cluster)
      end
  end.
End pvc.
