(* ===== verification/PvcSpec.v ===== *)
(** * What resizing and synchronising claims guarantees

    Every write of [reconcilePVC] is a claim that was listed, with labels and
    annotations brought to the values of its template or with a larger request;
    a run that succeeds leaves no claim behind; and a claim without storage
    class makes the reconciler panic. *)

From S2P Require Import Prelude Prog GoLib Constants Api K8s Samples StatefulSets Webhook Controller ControllerSamples Pvc.
#[local] Open Scope Z_scope.

(** ** Names *)

Lemma claim_name_split t s i : claim_name t s i = (t +:+ "-" +:+ s) +:+ String "-" (Itoa i).
Proof. unfold claim_name. by rewrite !str_app_assoc. Qed.

Lemma claim_name_inj t1 t2 s i j :
  0 ≤ i → 0 ≤ j → claim_name t1 s i = claim_name t2 s j → t1 = t2 ∧ i = j.
Proof.
  rewrite !claim_name_split. intros Hi Hj H.
  assert (Itoa i = Itoa j) as Hij.
  { apply (f_equal (last_field "-")) in H. by rewrite !last_field_app in H by (by apply Itoa_no_sep). }
  rewrite Hij in H. split; [|by apply Itoa_inj]. by do 2 apply str_app_cancel_r in H.
Qed.

(** ** Maps built by a loop *)

Section fold_insert.
Context {A V : Type} (key : A → string) (val : A → V).

Definition fold_insert (m : gmap string V) (l : list A) : gmap string V := foldl (λ m x, <[key x := val x]> m) m l.

Lemma fold_insert_Some l m k v :
  fold_insert m l !! k = Some v → m !! k = Some v ∨ ∃ x, x ∈ l ∧ key x = k ∧ val x = v.
Proof.
  unfold fold_insert. revert m. induction l as [|x l IH]; intros m; cbn [foldl]; [by left|].
  intros [Hk|(y & ? & ?)]%IH; [|right; exists y; by split; [right|]].
  apply lookup_insert_Some in Hk as [[<- <-]|[_ Hk]]; [right; exists x; by split; [left|]|by left].
Qed.

Lemma fold_insert_other l m k : k ∉ key <$> l → fold_insert m l !! k = m !! k.
Proof.
  unfold fold_insert. revert m. induction l as [|x l IH]; intros m Hk; cbn [foldl]; [done|].
  apply not_elem_of_cons in Hk as [Hx Hk]. rewrite IH by done. by apply lookup_insert_ne.
Qed.

Lemma fold_insert_NoDup l m x : NoDup (key <$> l) → x ∈ l → fold_insert m l !! key x = Some (val x).
Proof.
  revert m. induction l as [|y l IH]; intros m Hnd Hx; [by apply elem_of_nil in Hx|].
  apply NoDup_cons in Hnd as [Hy Hnd]. change (fold_insert m (y :: l)) with (fold_insert (<[key y := val y]> m) l).
  apply elem_of_cons in Hx as [->|Hx]; [|by apply IH].
  rewrite fold_insert_other by done. apply lookup_insert_eq.
Qed.
End fold_insert.

(** ** The claims to enlarge *)

Lemma claims_by_name_fold l : claims_by_name l = fold_insert ct_Name id ∅ l.
Proof. done. Qed.

Lemma template_Storage_Return pvc q :
  template_Storage pvc = Return q ↔ is_Some (pvct_Requests pvc) ∧ q = StorageSize pvc.
Proof.
  unfold template_Storage, StorageSize. destruct (pvct_Requests pvc) as [[r|]|]; cbn; split;
    try (by intros [= <-]; eauto); try (by intros [_ ->]); try done. by intros [[? ?] _].
Qed.

Lemma newSizes_fold templates m m' :
  newSizes templates m = Return m' → m' = fold_insert pvct_Name StorageSize m templates.
Proof.
  revert m. induction templates as [|pvc rest IH]; intros m; cbn [newSizes]; [by intros [= ->]|].
  destruct (template_Storage pvc) as [q| |] eqn:Hq; [|done..].
  apply template_Storage_Return in Hq as [_ ->]. apply IH.
Qed.

Lemma resizeTargets_Some pvcSet templates m m' k ct :
  resizeTargets pvcSet templates m = Return m' → m' !! k = Some ct →
  m !! k = Some ct ∨ (pvcSet !! k = Some ct ∧
    ∃ pvc, pvc ∈ templates ∧ pvct_Name pvc = k ∧ ct_Storage ct < StorageSize pvc).
Proof.
  revert m. induction templates as [|pvc rest IH]; intros m; cbn [resizeTargets]; [intros [= ->]; by left|].
  assert (∀ m, resizeTargets pvcSet rest m = Return m' → m' !! k = Some ct →
    m !! k = Some ct ∨ (pvcSet !! k = Some ct ∧
      ∃ pvc', pvc' ∈ pvc :: rest ∧ pvct_Name pvc' = k ∧ ct_Storage ct < StorageSize pvc')) as IH'.
  { intros m0 H1 H2. destruct (IH _ H1 H2) as [?|(? & p & ? & ?)]; [by left|]. right. split; [done|]. exists p.
    by split; [right|]. }
  destruct (pvcSet !! pvct_Name pvc) as [current|] eqn:Hc; [|by apply IH'].
  destruct (template_Storage pvc) as [q| |] eqn:Hq; [|done..]. apply template_Storage_Return in Hq as [_ ->].
  destruct (Z.ltb_spec (ct_Storage current) (StorageSize pvc)) as [Hlt|]; [|by apply IH'].
  intros H1 H2. destruct (IH' _ H1 H2) as [Hk|?]; [|by right].
  apply lookup_insert_Some in Hk as [[<- <-]|[_ Hk]]; [|by left].
  right. split; [done|]. exists pvc. by split; [left|].
Qed.

Lemma resizeTargets_keep pvcSet templates m m' k ct :
  resizeTargets pvcSet templates m = Return m' → pvcSet !! k = Some ct → m !! k = Some ct → m' !! k = Some ct.
Proof.
  revert m. induction templates as [|pvc rest IH]; intros m; cbn [resizeTargets]; [by intros [= ->]|].
  destruct (pvcSet !! pvct_Name pvc) as [current|] eqn:Hc; [|by apply IH].
  destruct (template_Storage pvc) as [q| |] eqn:Hq; [|done..].
  destruct (Z.ltb_spec (ct_Storage current) q) as [Hlt|]; [|by apply IH].
  intros H1 H2 H3. apply (IH _ H1 H2). destruct (decide (pvct_Name pvc = k)) as [<-|Hne].
  - rewrite lookup_insert_eq. congruence.
  - by rewrite lookup_insert_ne.
Qed.

Lemma resizeTargets_complete pvcSet templates m m' pvc ct :
  resizeTargets pvcSet templates m = Return m' → pvc ∈ templates → pvcSet !! pvct_Name pvc = Some ct →
  ct_Storage ct < StorageSize pvc → m' !! pvct_Name pvc = Some ct.
Proof.
  revert m. induction templates as [|p rest IH]; intros m Hr Hin Hc Hlt; [by apply elem_of_nil in Hin|].
  cbn [resizeTargets] in Hr. apply elem_of_cons in Hin as [<-|Hin].
  - rewrite Hc in Hr. destruct (template_Storage pvc) as [q| |] eqn:Hq; [|done..].
    apply template_Storage_Return in Hq as [_ ->]. rewrite (proj2 (Z.ltb_lt _ _) Hlt) in Hr.
    eapply resizeTargets_keep; [exact Hr|done|]. apply lookup_insert_eq.
  - repeat case_match; try done; by eapply IH.
Qed.

Lemma pvcsToKeep_Some sizes s n target name v :
  pvcsToKeep sizes s n target !! name = Some v →
  ∃ k ct i, target !! k = Some ct ∧ 0 ≤ i < n ∧ name = claim_name (ct_Name ct) s i ∧ v = sizes !! ct_Name ct.
Proof.
  intros H%elem_of_list_to_map_2. apply list_elem_of_bind in H as ([k ct] & H & Ht%elem_of_map_to_list).
  apply list_elem_of_bind in H as (i & H & Hi%elem_of_upto). apply list_elem_of_singleton in H as [= -> ->].
  by exists k, ct, i.
Qed.

Lemma pvcsToKeep_lookup sizes s n target k ct i :
  target !! k = Some ct → 0 ≤ i < n →
  pvcsToKeep sizes s n target !! claim_name (ct_Name ct) s i = Some (sizes !! ct_Name ct).
Proof.
  intros Ht Hi. apply elem_of_list_to_map_1'.
  - intros v Hv. apply list_elem_of_bind in Hv as ([k' ct'] & H & _).
    apply list_elem_of_bind in H as (j & H & Hj%elem_of_upto). apply list_elem_of_singleton in H as [= Hn ->].
    apply claim_name_inj in Hn as [-> _]; [done|lia|lia].
  - apply list_elem_of_bind. exists (k, ct). split; [|by apply elem_of_map_to_list].
    apply list_elem_of_bind. exists i. split; [by left|]. by apply elem_of_upto.
Qed.

(** ** Labels and annotations *)

(** [m'] reads as [template] at the keys it has, and is [m] elsewhere. *)
Definition synced_map (keys : list string) (template : gmap string string) (m m' : option (gmap string string)) : Prop :=
  (∀ k v, k ∈ keys → template !! k = Some v → map_str (default ∅ m') k = v) ∧
  (∀ k, k ∉ keys ∨ template !! k = None → default ∅ m' !! k = default ∅ m !! k).

Lemma syncValues_spec keys template m b m' b' :
  syncValues keys template m b = Return (m', b') →
  synced_map keys template m m' ∧ (b' = false → m' = m ∧ b = false).
Proof.
  revert m b. induction keys as [|key keys IH]; intros m b; cbn [syncValues].
  { intros [= -> ->]. split; [|done]. split; [by intros ? ? ?%elem_of_nil|done]. }
  destruct (template !! key) as [value|] eqn:Hv; [case_match eqn:Heq; [|destruct m as [m|]; [|done]]|].
  - intros [[H1 H2] Hb]%IH. split; [|done]. bool_cases. split.
    + intros k v [->|Hk]%elem_of_cons Ht; [|by eapply H1]. destruct (decide (key ∈ keys)) as [Hin|Hin]; [by eapply H1|].
      unfold map_str in *. rewrite H2 by (by left). congruence.
    + intros k [Hk|Hk]; apply H2; [left; set_solver|by right].
  - intros [[H1 H2] Hb]%IH. split; [|intros [_ Hb']%Hb; done]. split.
    + intros k v [->|Hk]%elem_of_cons Ht; [|by eapply H1]. destruct (decide (key ∈ keys)) as [Hin|Hin]; [by eapply H1|].
      unfold map_str in *. rewrite H2 by (by left). cbn [default]. unfold id. rewrite lookup_insert_eq. cbn. congruence.
    + intros k Hk. rewrite H2 by (destruct Hk; [left; set_solver|by right]). cbn [default]. unfold id.
      apply lookup_insert_ne. intros ->. destruct Hk as [Hk|Hk]; [set_solver|congruence].
  - intros [[H1 H2] Hb]%IH. split; [|done]. split.
    + intros k v [->|Hk]%elem_of_cons Ht; [congruence|by eapply H1].
    + intros k [Hk|Hk]; apply H2; [left; set_solver|by right].
Qed.

(** The claim of a template: what is before the last dash of its name. *)
Definition claim_template (cluster : MySQLCluster) (sts : StatefulSet) (pvc : PVC) : option PersistentVolumeClaim :=
  if last_index "-" (pvc_Name pvc) =? -1 then None
  else templatePVCSet (meta_Name (sts_Meta sts)) (VolumeClaimTemplates (Spec cluster))
         !! take_str (Z.to_nat (last_index "-" (pvc_Name pvc))) (pvc_Name pvc).

Section pvc_logic.
Context {RE : Reconciler} {KL : KubeLibs} (cluster : MySQLCluster).
Implicit Types (h : trace ctrlSig) (sts : StatefulSet).

Definition synced (template : PersistentVolumeClaim) (pvc pvc' : PVC) : Prop :=
  ∃ labels annotations, pvc' = set_pvc_maps labels annotations pvc ∧
    synced_map PVCSyncLabelKeys (om_Labels (pvct_ObjectMeta template)) (pvc_Labels pvc) labels ∧
    synced_map PVCSyncAnnotationKeys (om_Annotations (pvct_ObjectMeta template)) (pvc_Annotations pvc) annotations.

(** [pvc'] is [pvc] with the larger request [size] of its template. *)
Definition grown sts (pvc pvc' : PVC) : Prop :=
  ∃ ct target size i,
    ct ∈ sts_VolumeClaimTemplates (sts_Spec sts) ∧
    target ∈ VolumeClaimTemplates (Spec cluster) ∧ pvct_Name target = ct_Name ct ∧
    ct_Storage ct < StorageSize target ∧
    0 ≤ i < default 1 (sts_Replicas (sts_Spec sts)) ∧
    pvc_Name pvc = claim_name (ct_Name ct) (meta_Name (sts_Meta sts)) i ∧
    (∃ last, last ∈ VolumeClaimTemplates (Spec cluster) ∧ pvct_Name last = ct_Name ct ∧ size = StorageSize last) ∧
    pvc_Storage pvc < size ∧ set_pvc_Storage size pvc = Return pvc'.

Definition expandable h (pvc : PVC) : Prop :=
  ∃ class sc, pvc_StorageClassName pvc = Some class ∧ occurs h (RGetStorageClass class) (inr sc) ∧
    sc_AllowVolumeExpansion sc = Some true.

Definition listed h sts (pvcs : list PVC) : Prop :=
  occurs h (RGetStatefulSet (Namespace cluster) (PrefixedName cluster)) (inr sts) ∧
  ∃ selector, occurs h (RListPVCs (meta_Namespace (sts_Meta sts)) selector) (inr pvcs).

Definition pvc_protocol h (c : call ctrlSig) : Prop :=
  match c with
  | RUpdatePVC pvc' =>
      ∃ sts pvcs pvc, listed h sts pvcs ∧ pvc ∈ pvcs ∧
        ((∃ template, claim_template cluster sts pvc = Some template ∧ synced template pvc pvc') ∨
         (grown sts pvc pvc' ∧ expandable h pvc ∧ isUpdatingStatefulSet sts = false))
  | RGetStatefulSet _ _ | RListPVCs _ _ | RGetStorageClass _ | RMetric _ _ _ _ => True
  | _ => False
  end.

(** What copying labels and annotations does. *)
Definition sync_protocol h (c : call ctrlSig) : Prop :=
  match c with
  | RUpdatePVC pvc' =>
      ∃ sts pvcs pvc template, listed h sts pvcs ∧ pvc ∈ pvcs ∧
        claim_template cluster sts pvc = Some template ∧ synced template pvc pvc'
  | RListPVCs _ _ => True
  | _ => False
  end.

Lemma sync_pvc_protocol h c : sync_protocol h c → pvc_protocol h c.
Proof.
  destruct c; try done. intros (sts & pvcs & p & tm & Hl & Hin & Ht & Hs). exists sts, pvcs, p.
  split; [done|]. split; [done|]. left. by exists tm.
Qed.

(** What a successful run leaves of a listed claim. *)
Definition claim_synced h sts (pvc : PVC) : Prop :=
  ∀ template, claim_template cluster sts pvc = Some template →
  synced template pvc pvc ∨ ∃ pvc', synced template pvc pvc' ∧ occurs h (RUpdatePVC pvc') (inr ()).

Definition claim_sized h sts (target : gmap string ClaimTemplate) (pvc : PVC) : Prop :=
  ∀ sizes size,
    newSizes (VolumeClaimTemplates (Spec cluster)) ∅ = Return sizes →
    pvcsToKeep sizes (meta_Name (sts_Meta sts)) (default 1 (sts_Replicas (sts_Spec sts))) target !! pvc_Name pvc = Some (Some size) →
    (∃ class sc, pvc_StorageClassName pvc = Some class ∧ occurs h (RGetStorageClass class) (inr sc) ∧
                 sc_AllowVolumeExpansion sc ≠ Some true) ∨
    pvc_Storage pvc = size ∨
    ∃ pvc', set_pvc_Storage size pvc = Return pvc' ∧ occurs h (RUpdatePVC pvc') (inr ()).

Lemma listed_pvcs_app h h' sts pvcs : listed h sts pvcs → listed (h ++ h') sts pvcs.
Proof. intros (? & sel & ?). split; [by apply occurs_app_l|]. exists sel. by apply occurs_app_l. Qed.
Lemma claim_synced_app h h' sts pvc : claim_synced h sts pvc → claim_synced (h ++ h') sts pvc.
Proof.
  intros H t Ht. destruct (H t Ht) as [?|(p & ? & ?)]; [by left|]. right. exists p. split; [done|by apply occurs_app_l].
Qed.
Lemma claim_sized_app h h' sts target pvc : claim_sized h sts target pvc → claim_sized (h ++ h') sts target pvc.
Proof.
  intros H s q Hs Hq. destruct (H s q Hs Hq) as [(c & sc & ? & ? & ?)|[?|(p & ? & ?)]].
  - left. exists c, sc. split; [done|]. split; [by apply occurs_app_l|done].
  - by right; left.
  - right; right. exists p. split; [done|by apply occurs_app_l].
Qed.

Lemma wp_syncOne h sts pvcs pvc :
  listed h sts pvcs → pvc ∈ pvcs →
  wp sync_protocol
    (syncOne (templatePVCSet (meta_Name (sts_Meta sts)) (VolumeClaimTemplates (Spec cluster))) () pvc) h
    (λ h' o, is_return o = true → claim_synced h' sts pvc).
Proof.
  intros Hl Hin. unfold syncOne. destruct (_ =? -1) eqn:Hi.
  { intros _ t. unfold claim_template. by rewrite Hi. }
  destruct (templatePVCSet _ _ !! _) as [template|] eqn:Ht.
  2: { intros _ t. unfold claim_template. by rewrite Hi, Ht. }
  assert (claim_template cluster sts pvc = Some template) as Hct by (unfold claim_template; by rewrite Hi).
  rewrite wp_bind_outcome, wp_ret. destruct (syncValues PVCSyncLabelKeys _ _ _) as [[l b]| |] eqn:Hsl; [|done..].
  rewrite wp_bind_outcome, wp_ret. cbn [fst snd].
  destruct (syncValues PVCSyncAnnotationKeys _ _ _) as [[a b']| |] eqn:Hsa; [|done..]. cbn [fst snd].
  apply syncValues_spec in Hsl as [Hsl Hbl], Hsa as [Hsa Hba].
  assert (synced template pvc (set_pvc_maps l a pvc)) as Hs by (exists l, a; done).
  destruct b'.
  - rewrite wp_fallible, wp_wrap_err. cbn. split.
    + by exists sts, pvcs, pvc, template.
    + intros [e|[]] Ho; [done|]. intros t Ht'. right. exists (set_pvc_maps l a pvc).
      split; [congruence|]. apply occurs_last.
  - intros _ t Ht'. left. destruct (Hba eq_refl) as [-> ->]. destruct (Hbl eq_refl) as [-> _].
    replace pvc with (set_pvc_maps (pvc_Labels pvc) (pvc_Annotations pvc) pvc) at 2 by (by destruct pvc). congruence.
Qed.

Lemma wp_sync h sts :
  occurs h (RGetStatefulSet (Namespace cluster) (PrefixedName cluster)) (inr sts) →
  wp sync_protocol (syncPVCLabelAndAnnotationValues cluster sts) h
    (λ h' o, is_return o = true →
       (PVCSyncLabelKeys = [] ∧ PVCSyncAnnotationKeys = []) ∨
       ∃ pvcs, listed h' sts pvcs ∧ ∀ pvc, pvc ∈ pvcs → claim_synced h' sts pvc).
Proof.
  intros Hsts. unfold syncPVCLabelAndAnnotationValues. destruct (_ && _) eqn:Hk.
  { intros _. left. bool_cases. unfold go_len in *. by destruct PVCSyncLabelKeys, PVCSyncAnnotationKeys. }
  rewrite wp_bind_outcome, wp_fallible, wp_wrap_err, wp_ret.
  destruct (LabelSelectorAsSelector _) as [e|selector]; [done|]. cbn [outcome_of].
  rewrite wp_bind_outcome, wp_fallible, wp_wrap_err. split; [done|]. intros [e|pvcs]; [done|]. rewrite wp_ret. cbn [outcome_of].
  set (h1 := h ++ _).
  assert (listed h1 sts pvcs) as Hl.
  { split; [by apply occurs_app_l|]. exists selector. apply occurs_last. }
  eapply wp_conseq.
  { apply wp_extends, (wp_for_each _ _ _ _ _ (λ h, claim_synced h sts)).
    - intros *. apply claim_synced_app.
    - intros t [] pvc Hin. apply (wp_syncOne _ _ pvcs); [by apply listed_pvcs_app|done]. }
  intros h' o [H [t ->]] Hret. right. exists pvcs. split; [by apply listed_pvcs_app|by apply H].
Qed.

Lemma grown_intro sts target sizes pvc pvc' size :
  needResizePVC cluster sts = Return (Some target) →
  newSizes (VolumeClaimTemplates (Spec cluster)) ∅ = Return sizes →
  pvcsToKeep sizes (meta_Name (sts_Meta sts)) (default 1 (sts_Replicas (sts_Spec sts))) target !! pvc_Name pvc = Some (Some size) →
  pvc_Storage pvc < size → set_pvc_Storage size pvc = Return pvc' → grown sts pvc pvc'.
Proof.
  unfold needResizePVC. intros Hneed Hsizes Hkeep Hlt Hset.
  destruct (sts_VolumeClaimTemplates (sts_Spec sts)) as [|c0 cts] eqn:Hcts; [done|].
  destruct (resizeTargets _ _ _) as [t| |] eqn:Ht; [|done..]. case_bool_decide; [done|]. injection Hneed as ->.
  apply pvcsToKeep_Some in Hkeep as (k & ct & i & Hk & Hi & Hn & Hs). symmetry in Hs.
  destruct (resizeTargets_Some _ _ _ _ _ _ Ht Hk) as [?%lookup_empty_Some|(Hc & tg & Htg & <- & Hlt')]; [done|].
  rewrite claims_by_name_fold in Hc.
  apply fold_insert_Some in Hc as [?%lookup_empty_Some|(ct' & Hct & Hname & Hid)]; [done|]. cbn in Hid. subst ct'.
  apply newSizes_fold in Hsizes as ->.
  apply fold_insert_Some in Hs as [?%lookup_empty_Some|(last & Hlast & Hlname & <-)]; [done|].
  exists ct, tg, (StorageSize last), i. rewrite Hcts. repeat (split; [done|]).
  split; [by exists last|]. done.
Qed.

Lemma wp_resizeOne h sts target sizes pvcs pvc acc :
  needResizePVC cluster sts = Return (Some target) → isUpdatingStatefulSet sts = false →
  newSizes (VolumeClaimTemplates (Spec cluster)) ∅ = Return sizes →
  listed h sts pvcs → pvc ∈ pvcs →
  wp pvc_protocol
    (resizeOne (pvcsToKeep sizes (meta_Name (sts_Meta sts)) (default 1 (sts_Replicas (sts_Spec sts))) target) acc pvc) h
    (λ h' o, is_return o = true → claim_sized h' sts target pvc).
Proof.
  intros Hneed Hup Hsizes Hl Hin. unfold resizeOne. destruct (_ !! pvc_Name pvc) as [newSize|] eqn:Hkeep.
  2: { intros _ s q Hs Hq. rewrite Hsizes in Hs. congruence. }
  assert (∀ s q, newSizes (VolumeClaimTemplates (Spec cluster)) ∅ = Return s →
    pvcsToKeep s (meta_Name (sts_Meta sts)) (default 1 (sts_Replicas (sts_Spec sts))) target !! pvc_Name pvc = Some (Some q) →
    newSize = Some q) as Hq.
  { intros s q Hs Hq. rewrite Hsizes in Hs. injection Hs as <-. congruence. }
  unfold isVolumeExpansionSupported.
  rewrite wp_bind_outcome, wp_fallible, wp_wrap_err.
  destruct (pvc_StorageClassName pvc) as [class|] eqn:Hclass; rewrite ?wp_ret.
  2: { cbn [outcome_of negb]. rewrite wp_bind_outcome, wp_ret. unfold log_unsupported. by rewrite Hclass. }
  rewrite wp_bind_ext, wp_wrap_err. split; [done|]. intros [e|sc]; [done|]. rewrite !wp_ret. cbn [outcome_of].
  destruct (default false _) eqn:Hsup; cbn [negb].
  2: { rewrite wp_bind_outcome, wp_ret. unfold log_unsupported. rewrite Hclass. intros _ s q Hs Hk. left.
       exists class, sc. split; [done|]. split; [apply occurs_last|]. by intros H; rewrite H in Hsup. }
  unfold or_panic. rewrite wp_bind_outcome, wp_ret. destruct newSize as [newSize|]; [|done].
  destruct (pvc_Storage pvc =? newSize) eqn:Heq.
  { intros _ s q Hs Hk. right; left. bool_cases. pose proof (Hq _ _ Hs Hk). congruence. }
  destruct (newSize <? pvc_Storage pvc) eqn:Hlt; [done|]. bool_cases.
  rewrite wp_bind_outcome, wp_ret. destruct (set_pvc_Storage newSize pvc) as [pvc'| |] eqn:Hset; [|done..].
  rewrite wp_bind_outcome, wp_fallible, wp_wrap_err. split.
  - exists sts, pvcs, pvc. split; [by apply listed_pvcs_app|]. split; [done|]. right.
    split; [|split; [|done]].
    2: { exists class, sc. split; [done|]. split; [apply occurs_last|]. revert Hsup.
         by destruct (sc_AllowVolumeExpansion sc) as [[]|]. }
    eapply grown_intro; [done|done|exact Hkeep|lia|done].
  - intros [e|[]]; [done|]. intros _ s q Hs Hk. right; right. exists pvc'. pose proof (Hq _ _ Hs Hk) as [= ->].
    split; [done|apply occurs_last].
Qed.

Lemma wp_resize h sts target :
  needResizePVC cluster sts = Return (Some target) → isUpdatingStatefulSet sts = false →
  occurs h (RGetStatefulSet (Namespace cluster) (PrefixedName cluster)) (inr sts) →
  wp pvc_protocol (resizePVCs cluster sts target) h
    (λ h' o, is_return o = true →
       is_return (newSizes (VolumeClaimTemplates (Spec cluster)) ∅) = true ∧
       ∃ pvcs, listed h' sts pvcs ∧ ∀ pvc, pvc ∈ pvcs → claim_sized h' sts target pvc).
Proof.
  intros Hneed Hup Hsts. unfold resizePVCs. rewrite wp_bind_outcome, wp_ret.
  destruct (newSizes _ _) as [sizes| |] eqn:Hsizes; [|done..].
  rewrite wp_bind_outcome, wp_fallible, wp_wrap_err, wp_ret.
  destruct (LabelSelectorAsSelector _) as [e|selector]; [done|]. cbn [outcome_of].
  rewrite wp_bind_outcome, wp_fallible, wp_wrap_err. split; [done|]. intros [e|pvcs]; [done|]. rewrite wp_ret. cbn [outcome_of].
  set (h1 := h ++ _).
  assert (listed h1 sts pvcs) as Hl.
  { split; [by apply occurs_app_l|]. exists selector. apply occurs_last. }
  eapply wp_conseq.
  { apply wp_extends, (wp_for_each _ _ _ _ _ (λ h, claim_sized h sts target)).
    - intros *. apply claim_sized_app.
    - intros t acc pvc Hin. apply (wp_resizeOne _ _ _ _ pvcs); try done. by apply listed_pvcs_app. }
  intros h' o [H [t ->]] Hret. split; [done|]. exists pvcs. split; [by apply listed_pvcs_app|by apply H].
Qed.

(** A template that outgrew the one of the StatefulSet. *)
Definition outgrown sts (template : PersistentVolumeClaim) : Prop :=
  template ∈ VolumeClaimTemplates (Spec cluster) ∧
  ∃ ct, ct ∈ sts_VolumeClaimTemplates (sts_Spec sts) ∧ ct_Name ct = pvct_Name template ∧
        ct_Storage ct < StorageSize template.

Definition names_distinct sts : Prop :=
  NoDup (pvct_Name <$> VolumeClaimTemplates (Spec cluster)) ∧ NoDup (ct_Name <$> sts_VolumeClaimTemplates (sts_Spec sts)).

Definition sized h sts (pvc : PVC) : Prop :=
  ∀ template i, outgrown sts template → 0 ≤ i < default 1 (sts_Replicas (sts_Spec sts)) →
    pvc_Name pvc = claim_name (pvct_Name template) (meta_Name (sts_Meta sts)) i →
    (∃ class sc, pvc_StorageClassName pvc = Some class ∧ occurs h (RGetStorageClass class) (inr sc) ∧
                 sc_AllowVolumeExpansion sc ≠ Some true) ∨
    pvc_Storage pvc = StorageSize template ∨
    ∃ pvc', set_pvc_Storage (StorageSize template) pvc = Return pvc' ∧ occurs h (RUpdatePVC pvc') (inr ()).

Lemma outgrown_target sts template t :
  names_distinct sts → outgrown sts template → needResizePVC cluster sts = Return t →
  ∃ target ct, t = Some target ∧ target !! pvct_Name template = Some ct ∧ ct_Name ct = pvct_Name template.
Proof.
  intros [_ Hnd] (Htm & ct & Hct & Hname & Hlt). unfold needResizePVC.
  destruct (sts_VolumeClaimTemplates (sts_Spec sts)) as [|c cts] eqn:Hcts; [by apply elem_of_nil in Hct|].
  destruct (resizeTargets _ _ _) as [tg| |] eqn:Htg; [|done..]. intros [= <-].
  assert (tg !! pvct_Name template = Some ct) as Hk.
  { eapply resizeTargets_complete; [exact Htg|done| |done]. rewrite claims_by_name_fold, <- Hname.
    by apply (fold_insert_NoDup ct_Name id). }
  rewrite bool_decide_eq_false_2 by (intros ->; by apply lookup_empty_Some in Hk). by exists tg, ct.
Qed.

Lemma claim_sized_sized h sts target pvc :
  names_distinct sts → needResizePVC cluster sts = Return (Some target) →
  is_return (newSizes (VolumeClaimTemplates (Spec cluster)) ∅) = true →
  claim_sized h sts target pvc → sized h sts pvc.
Proof.
  intros Hnd Hneed Hsizes H template i Hout Hi Hname.
  destruct (outgrown_target _ _ _ Hnd Hout Hneed) as (tg & ct & [= <-] & Hk & Hct).
  destruct (newSizes _ _) as [sizes| |] eqn:Hs; [|done..]. apply (H sizes (StorageSize template) Hs).
  rewrite Hname, <- Hct. erewrite pvcsToKeep_lookup by done. f_equal. rewrite Hct.
  rewrite (newSizes_fold _ _ _ Hs). destruct Hout as [Hin _]. apply fold_insert_NoDup; [apply Hnd|done].
Qed.

Lemma sized_app h h' sts pvc : sized h sts pvc → sized (h ++ h') sts pvc.
Proof.
  intros H tm i Ho Hi Hn. destruct (H tm i Ho Hi Hn) as [(c & sc & ? & ? & ?)|[?|(p & ? & ?)]].
  - left. exists c, sc. split; [done|]. split; [by apply occurs_app_l|done].
  - by right; left.
  - right; right. exists p. split; [done|by apply occurs_app_l].
Qed.

(** What a run that succeeds leaves, for the StatefulSet that was read. *)
Definition all_synced h sts : Prop :=
  (PVCSyncLabelKeys = [] ∧ PVCSyncAnnotationKeys = []) ∨
  ∃ pvcs, listed h sts pvcs ∧ ∀ pvc, pvc ∈ pvcs → claim_synced h sts pvc.
Definition all_sized h sts : Prop :=
  isUpdatingStatefulSet sts = false → names_distinct sts → (∃ template, outgrown sts template) →
  ∃ pvcs, listed h sts pvcs ∧ ∀ pvc, pvc ∈ pvcs → sized h sts pvc.

Lemma all_synced_app h h' sts : all_synced h sts → all_synced (h ++ h') sts.
Proof.
  intros [?|(pvcs & Hl & Hs)]; [by left|]. right. exists pvcs. split; [by apply listed_pvcs_app|].
  intros pvc Hin. by apply claim_synced_app, Hs.
Qed.
Lemma all_sized_app h h' sts : all_sized h sts → all_sized (h ++ h') sts.
Proof.
  intros H Hup Hnd Ho. destruct (H Hup Hnd Ho) as (pvcs & Hl & Hs). exists pvcs. split; [by apply listed_pvcs_app|].
  intros pvc Hin. by apply sized_app, Hs.
Qed.

Lemma wp_reportResize h o :
  wp pvc_protocol (reportResize cluster o) h (λ h' o', is_return o' = true → is_return o = true).
Proof. destruct o as [m|e|m]; cbn; [|done..]. case_bool_decide; cbn; done. Qed.

Lemma wp_resize_step h sts :
  occurs h (RGetStatefulSet (Namespace cluster) (PrefixedName cluster)) (inr sts) →
  wp pvc_protocol
    (if isUpdatingStatefulSet sts then Ret (Return ()) else
     target <-? Ret (needResizePVC cluster sts) ;;
     match target with
     | None => Ret (Return ())
     | Some resizeTarget => bind (resizePVCs cluster sts resizeTarget) (reportResize cluster)
     end) h (λ h' o, is_return o = true → all_sized h' sts).
Proof.
  intros Hsts. destruct (isUpdatingStatefulSet sts) eqn:Hup; [intros _ Hup'; congruence|].
  rewrite wp_bind_outcome, wp_ret. destruct (needResizePVC cluster sts) as [[target|]| |] eqn:Hneed; [| |done..].
  2: { intros _ _ Hnd [tm Ho]. by destruct (outgrown_target _ _ _ Hnd Ho Hneed) as (? & ? & ? & _). }
  rewrite wp_bind. eapply wp_conseq; [by apply wp_resize|]. intros h' o Ho.
  eapply wp_conseq; [apply wp_extends, wp_reportResize|]. intros h'' o' [Hr [t ->]] Ho'.
  apply all_sized_app. intros _ Hnd _. destruct (Ho (Hr Ho')) as (Hsz & pvcs & Hl & Hs).
  exists pvcs. split; [done|]. intros pvc Hin. by eapply claim_sized_sized, Hs.
Qed.

Definition get_sts (r : extres StatefulSet) : event ctrlSig :=
  ev (S := ctrlSig) (RGetStatefulSet (Namespace cluster) (PrefixedName cluster)) r.

Lemma wp_reconcilePVC :
  wp pvc_protocol (reconcilePVC cluster) [] (λ h' o, is_return o = true →
    (∃ e, h' = [get_sts (inl e)] ∧ is_not_found e = true) ∨
    ∃ sts t, h' = get_sts (inr sts) :: t ∧ all_synced h' sts ∧ all_sized h' sts).
Proof.
  unfold reconcilePVC, rcall_. rewrite wp_bind. split; [done|]. intros [e|sts]; rewrite wp_ret.
  { destruct (is_not_found e) eqn:He; [|done]. intros _. left. by exists e. }
  assert (occurs ([] ++ [get_sts (inr sts)]) (RGetStatefulSet (Namespace cluster) (PrefixedName cluster)) (inr sts)) as Hsts
    by apply (occurs_last []).
  rewrite wp_bind_outcome. eapply wp_mono; [exact sync_pvc_protocol| |apply wp_extends, (wp_sync _ _ Hsts)].
  intros h' [[]|e|m] [Hsync [t ->]]; [|done..].
  eapply wp_conseq; [apply wp_extends, wp_resize_step; exact (occurs_app_l _ _ _ _ Hsts)|].
  intros h' o [Hsize [t' ->]] Ho. right. exists sts, (t ++ t'). split; [by rewrite <- app_assoc|].
  split; [by apply all_synced_app, Hsync|by apply Hsize].
Qed.
End pvc_logic.

(** C16. Reconciling the claims writes nothing but claims, and each write is a
    claim that was listed for the StatefulSet that was read: either with the
    values of its template at the configured keys, all else kept, or with the
    larger request of its template, when the StatefulSet is settled, the claim is
    one of its Pods', the template outgrew the deployed one and the storage class
    allows the expansion. *)
Theorem pvc_writes_follow_protocol {RE : Reconciler} {KL : KubeLibs} cluster t o :
  exec (reconcilePVC cluster) t o →
  ∀ t1 c r t2, t = t1 ++ ev c r :: t2 → pvc_protocol cluster t1 c.
Proof. intros H. exact (proj2 (wp_exec _ _ [] _ _ _ (wp_reconcilePVC cluster) H)). Qed.


(** ** A claim without storage class *)

Lemma newSizes_returns templates m :
  (∀ tm, tm ∈ templates → is_Some (pvct_Requests tm)) → is_return (newSizes templates m) = true.
Proof.
  revert m. induction templates as [|tm rest IH]; intros m H; [done|]. cbn [newSizes].
  destruct (H tm ltac:(left)) as [q Hq]. unfold template_Storage. rewrite Hq. apply IH. intros x Hx. apply H. by right.
Qed.

Lemma resizeTargets_returns set templates m :
  (∀ tm, tm ∈ templates → is_Some (pvct_Requests tm)) → is_return (resizeTargets set templates m) = true.
Proof.
  revert m. induction templates as [|tm rest IH]; intros m H; [done|]. cbn [resizeTargets].
  destruct (H tm ltac:(left)) as [q Hq]. unfold template_Storage. rewrite Hq.
  assert (∀ tm, tm ∈ rest → is_Some (pvct_Requests tm)) as H' by (intros x Hx; apply H; by right).
  repeat case_match; auto.
Qed.

Lemma needResizePVC_returns cluster sts :
  (∀ tm, tm ∈ VolumeClaimTemplates (Spec cluster) → is_Some (pvct_Requests tm)) →
  is_return (needResizePVC cluster sts) = true.
Proof.
  intros H. unfold needResizePVC. destruct (sts_VolumeClaimTemplates (sts_Spec sts)) as [|c cts]; [done|].
  pose proof (resizeTargets_returns (claims_by_name (c :: cts)) _ ∅ H). by destruct (resizeTargets _ _ _).
Qed.

(** Enlarging a claim that has no storage class name panics: the log line
    that says the claim is skipped dereferences the name. *)
Theorem resize_panics_without_class {RE : Reconciler} {KL : KubeLibs} cluster sts template i pvc rest selector :
  PVCSyncLabelKeys = [] → PVCSyncAnnotationKeys = [] →
  (∀ tm, tm ∈ VolumeClaimTemplates (Spec cluster) → is_Some (pvct_Requests tm)) →
  isUpdatingStatefulSet sts = false → names_distinct cluster sts → outgrown cluster sts template →
  0 ≤ i < default 1 (sts_Replicas (sts_Spec sts)) →
  pvc_Name pvc = claim_name (pvct_Name template) (meta_Name (sts_Meta sts)) i →
  pvc_StorageClassName pvc = None →
  LabelSelectorAsSelector (sts_MatchLabels (sts_Spec sts)) = inr selector →
  exec (reconcilePVC cluster)
    [get_sts cluster (inr sts);
     ev (S := ctrlSig) (RListPVCs (meta_Namespace (sts_Meta sts)) selector) (inr (pvc :: rest))]
    (Panic "nil pointer dereference").
Proof.
  intros Hk1 Hk2 Hreq Hup Hnd Hout Hi Hname Hclass Hsel.
  unfold reconcilePVC. exists (inr sts). split; [done|]. cbn [bind rcall_ perform].
  unfold syncPVCLabelAndAnnotationValues. rewrite Hk1, Hk2. cbn [go_len length andb Z.eqb Z.of_nat]. cbn [bind bind_outcome].
  rewrite Hup. pose proof (needResizePVC_returns cluster sts Hreq) as Hneed.
  destruct (needResizePVC cluster sts) as [t| |] eqn:Hn; [|done..].
  destruct (outgrown_target _ _ _ _ Hnd Hout Hn) as (target & ct & -> & Hk & Hct). cbn [bind bind_outcome].
  unfold resizePVCs. pose proof (newSizes_returns _ ∅ Hreq) as Hsz.
  destruct (newSizes _ _) as [sizes| |] eqn:Hs; [|done..]. cbn [bind bind_outcome]. rewrite Hsel.
  exists (inr (pvc :: rest)). split; [done|]. cbn [bind outcome_of for_range bind_outcome].
  unfold bind_outcome. cbn [bind outcome_of for_range]. unfold resizeOne at 1.
  rewrite Hname, <- Hct. erewrite pvcsToKeep_lookup by done. unfold isVolumeExpansionSupported, log_unsupported.
  by rewrite Hclass.
Qed.

(** ** At a concrete cluster *)

Definition sample_pvc_api (c : rcall) (s : unit) : rresp c * unit :=
  (match c as c return rresp c with
   | RGetStatefulSet _ _ => inr (settled_sts 10)
   | RListPVCs _ _ => inr [sample_pvc 0 (Some "fast") 10; sample_pvc 1 (Some "fast") 20; sample_pvc 2 (Some "slow") 10]
   | RGetStorageClass name => inr {| sc_Name := name; sc_Annotations := ∅; sc_AllowVolumeExpansion := Some (name =s "fast") |}
   | c => sample_answer c
   end, ()).

Definition sample_pvc_run := run (S := ctrlSig) sample_pvc_api (reconcilePVC (admissible_cluster 3 20)) ().

Definition updated_claims (t : trace ctrlSig) : list (string * option (option Z)) :=
  omap (λ e, match projT1 e with RUpdatePVC p => Some (pvc_Name p, pvc_Requests p) | _ => None end) t.

Example sample_pvc_run_updates :
  updated_claims sample_pvc_run.1 = [("mysql-data-moco-test-0", Some (Some 20))] ∧ sample_pvc_run.2 = Return ().
Proof. by vm_compute. Qed.

Lemma sample_pvc_run_exec : exec (reconcilePVC (admissible_cluster 3 20)) sample_pvc_run.1 (Return ()).
Proof.
  replace (Return ()) with sample_pvc_run.2 by (by vm_compute). apply (run_exec (S := ctrlSig)).
Qed.

Lemma pvc_writes_follow_protocol_witness :
  ∃ t1 t2 pvc', sample_pvc_run.1 = t1 ++ ev (S := ctrlSig) (RUpdatePVC pvc') (inr ()) :: t2 ∧
    pvc_protocol (admissible_cluster 3 20) t1 (RUpdatePVC pvc').
Proof.
  assert (∃ t1 t2 pvc', sample_pvc_run.1 = t1 ++ ev (S := ctrlSig) (RUpdatePVC pvc') (inr ()) :: t2) as (t1 & t2 & pvc' & Heq).
  { exists (take 4 sample_pvc_run.1), (drop 5 sample_pvc_run.1), (sample_pvc 0 (Some "fast") 20). vm_compute. reflexivity. }
  exists t1, t2, pvc'. split; [exact Heq|].
  exact (pvc_writes_follow_protocol (admissible_cluster 3 20) _ _ sample_pvc_run_exec _ _ _ _ Heq).
Defined.


Lemma resize_panics_without_class_witness :
  ∃ t, exec (reconcilePVC (RE := plain_reconciler) (admissible_cluster 3 20)) t (Panic "nil pointer dereference").
Proof.
  eexists. apply (resize_panics_without_class (RE := plain_reconciler) (admissible_cluster 3 20) (settled_sts 10) (sample_claim 20) 0
    (sample_pvc 0 None 10) []); try reflexivity.
  - intros tm Hin. apply list_elem_of_singleton in Hin as ->. by exists (Some 20).
  - split; apply (bool_decide_unpack _); vm_compute; done.
  - split; [by apply list_elem_of_here|]. eexists. split; [by apply list_elem_of_here|]. split; reflexivity.
  - cbn. lia.
Defined.
