(* ===== verification/Reconcile.v ===== *)
(** * Reconciling a MySQLCluster (controllers/mysqlcluster_controller.go)

    [Reconcile] brings the objects of a cluster up to date step by step, records
    the outcome in the status, and tells the cluster manager to start, pause or
    stop the clustering.  The status of the local copy of the cluster changes on
    the way, so the functions that write it return the cluster. *)

From S2P Require Import Prelude Prog GoLib Constants Api K8s Mycnf StatefulSets Webhook Controller Secrets ConfigMaps Services.
From S2P Require Import Pvc Containers StatefulSetStep Jobs.
#[local] Open Scope Z_scope.

Definition condition (typ : string) (status : ConditionStatus) (generation : Z) (reason message : string) : Condition :=
  {| cond_Type := typ; cond_Status := status; cond_ObservedGeneration := generation; cond_Reason := reason;
     cond_Message := message |}.

Definition set_Conditions (conds : list Condition) (st : MySQLClusterStatus) : MySQLClusterStatus :=
  {| Conditions := conds; CurrentPrimaryIndex := CurrentPrimaryIndex st; SyncedReplicas := SyncedReplicas st;
     ErrantReplicas := ErrantReplicas st; ErrantReplicaList := ErrantReplicaList st; Backup := Backup st;
     RestoredTime := RestoredTime st; Cloned := Cloned st; ReconcileInfo_ := ReconcileInfo_ st |}.

Definition set_ReconcileInfo (i : ReconcileInfo) (st : MySQLClusterStatus) : MySQLClusterStatus :=
  {| Conditions := Conditions st; CurrentPrimaryIndex := CurrentPrimaryIndex st; SyncedReplicas := SyncedReplicas st;
     ErrantReplicas := ErrantReplicas st; ErrantReplicaList := ErrantReplicaList st; Backup := Backup st;
     RestoredTime := RestoredTime st; Cloned := Cloned st; ReconcileInfo_ := i |}.

Definition set_cluster_Finalizers (l : list string) (c : MySQLCluster) : MySQLCluster :=
  {| cluster_Meta := set_Finalizers l (cluster_Meta c); Spec := Spec c; Status := Status c |}.

(** Status, reason and message of the condition [StatefulSetReady]. *)
(* controllers/mysqlcluster_controller.go:1758-1775 updateStatus *)
Definition stsReadiness (r : extres StatefulSet) : ConditionStatus * string * string :=
  match r with
  | inl e =>
      if is_not_found e then (ConditionFalse, "StatefulSetNotFound", "StatefulSet not found")
      else (ConditionFalse, "FaildToGetStatefulSet", "failed to get StatefulSet")
  | inr sts =>
      let st := sts_Status sts in
      if bool_decide (sts_Replicas (sts_Spec sts) = Some (sts_AvailableReplicas st)) &&
         (sts_CurrentRevision st =s sts_UpdateRevision st) &&
         (meta_Generation (sts_Meta sts) =? sts_ObservedGeneration st)
      then (ConditionTrue, "StatefulSetReady", "StatefulSet is ready")
      else (ConditionFalse, "StatefulSetNotReady", "StatefulSet is not ready")
  end.

Section reconcile.
Context {RE : Reconciler} {KL : KubeLibs} {AM : ApiMachinery} {FN : Finalizers} {RG : MapRange} {SA : SortByAge}.

Definition metric (name : string) (cluster : MySQLCluster) (v : Z) : prog ctrlSig unit :=
  rcall_ (RMetric name (Name cluster) (Namespace cluster) (Some v)).
Definition metricDelete (name : string) (cluster : MySQLCluster) : prog ctrlSig unit :=
  rcall_ (RMetricDelete name (Name cluster) (Namespace cluster)).

(** [if !DeepEqual(orig, cluster) { r.Status().Update(cluster) }]. *)
Definition updateIfChanged (orig cluster : MySQLCluster) : prog ctrlSig (extres unit) :=
  if Semantic_DeepEqual (Status orig) (Status cluster) then Ret (inr ()) else rcall_ (RStatusUpdate cluster).

(** ** The status *)

(* controllers/mysqlcluster_controller.go:1753-1811 updateStatus *)
Definition reconciledStatus (cluster : MySQLCluster) (sts : extres StatefulSet) (reconcileErr : option error) : MySQLClusterStatus :=
  let gen := meta_Generation (cluster_Meta cluster) in
  let st := set_ReconcileInfo {| ri_Generation := gen; ri_ReconcileVersion := 1 |} (Status cluster) in
  let '(stsReady, reason, message) := stsReadiness sts in
  let conds := SetStatusCondition (Conditions st) (condition ConditionStatefulSetReady stsReady gen reason message) in
  let conds := SetStatusCondition conds
                 (match reconcileErr with
                  | None => condition ConditionReconcileSuccess ConditionTrue gen "ReconcileSuccess" "reconcile successfully"
                  | Some _ => condition ConditionReconcileSuccess ConditionFalse gen "ReconcileFailed" "reconcile failed"
                  end) in
  let conds := SetStatusCondition conds
                 (condition ConditionReconciliationActive ConditionTrue 0 "ReconciliationActive" "reconciliation is active") in
  set_Conditions conds st.

(* controllers/mysqlcluster_controller.go :: updateStatus *)
Definition updateStatus (cluster : MySQLCluster) (reconcileErr : option error) : prog ctrlSig (extres unit) :=
  sts <-- rcall_ (RGetStatefulSet (Namespace cluster) (PrefixedName cluster)) ;;
  _ <-! updateIfChanged cluster (set_Status (reconciledStatus cluster sts reconcileErr) cluster) ;;
  _ <-- metric "ReconciliationStoppedVec" cluster 0 ;;
  Ret (inr ()).

(** ** Stopping *)

(** The conditions while the clustering is stopped. *)
(* controllers/mysqlcluster_controller.go:1835-1849 clusteringStopV1 *)
Definition stoppedConditions (conds : list Condition) : list Condition :=
  let conds := foldl (λ acc cond,
                        if (cond_Type cond =s ConditionAvailable) || (cond_Type cond =s ConditionHealthy)
                        then SetStatusCondition acc
                               (condition (cond_Type cond) ConditionUnknown (cond_ObservedGeneration cond)
                                  (cond_Reason cond) (cond_Message cond))
                        else acc) conds conds in
  SetStatusCondition conds
    (condition ConditionClusteringActive ConditionFalse 0 "ClusteringInactive" "clustering is inactive").

(* controllers/mysqlcluster_controller.go :: clusteringStopV1 *)
Definition clusteringStopV1 (cluster : MySQLCluster) : prog ctrlSig (extres unit * MySQLCluster) :=
  if IsStatusConditionFalse (Conditions (Status cluster)) ConditionClusteringActive then Ret (inr (), cluster) else
  _ <-- rcall_ (RManagerPause (Namespace cluster) (Name cluster)) ;;
  let stopped := set_Status (set_Conditions (stoppedConditions (Conditions (Status cluster))) (Status cluster)) cluster in
  r <-- (_ <-! updateIfChanged cluster stopped ;;
         _ <-- metric "ClusteringStoppedVec" cluster 1 ;;
         Ret (inr ())) ;;
  Ret (r, stopped).

(* controllers/mysqlcluster_controller.go :: reconciliationStopV1 *)
Definition reconciliationStopV1 (cluster : MySQLCluster) : prog ctrlSig (extres unit) :=
  if IsStatusConditionFalse (Conditions (Status cluster)) ConditionReconciliationActive then Ret (inr ()) else
  let conds := SetStatusCondition (Conditions (Status cluster))
                 (condition ConditionReconciliationActive ConditionFalse 0 "ReconciliationInactive" "reconciliation is inactive") in
  _ <-! updateIfChanged cluster (set_Status (set_Conditions conds (Status cluster)) cluster) ;;
  _ <-- metric "ReconciliationStoppedVec" cluster 1 ;;
  Ret (inr ()).

(** ** Finalizing *)

Definition deleteOrNotFound (k : kind) (namespace name failure : string) : prog ctrlSig (extres unit) :=
  r <-- rcall_ (RDelete k namespace name) ;;
  Ret (match r with
       | inl e => if is_not_found e then inr () else inl (ErrWrap failure e)
       | inr _ => inr ()
       end).

(* controllers/mysqlcluster_controller.go :: finalizeV1 *)
Definition finalizeV1 (cluster : MySQLCluster) : prog ctrlSig (extres unit) :=
  let secretName := ControllerSecretName cluster in
  _ <-! deleteOrNotFound KSecret SystemNamespace secretName ("failed to delete controller secret " +:+ secretName) ;;
  let certName := CertificateName cluster in
  _ <-! deleteOrNotFound KCertificate SystemNamespace certName ("failed to delete certificate " +:+ certName) ;;
  _ <-- metricDelete "ClusteringStoppedVec" cluster ;;
  _ <-- metricDelete "ReconciliationStoppedVec" cluster ;;
  _ <-- metricDelete "CurrentReplicasVec" cluster ;;
  _ <-- metricDelete "UpdatedReplicasVec" cluster ;;
  _ <-- metricDelete "LastPartitionUpdatedVec" cluster ;;
  Ret (inr ()).

(* controllers/mysqlcluster_controller.go:201-224 reconcileV1 *)
Definition finalizeStep (namespace name : string) (cluster : MySQLCluster) : prog ctrlSig (extres unit) :=
  if negb (ContainsFinalizer MySQLClusterFinalizer (meta_Finalizers (cluster_Meta cluster))) then Ret (inr ()) else
  _ <-- rcall_ (RManagerStop namespace name) ;;
  _ <-! finalizeV1 cluster ;;
  rcall_ (RUpdateCluster
            (set_cluster_Finalizers (RemoveFinalizer MySQLClusterFinalizer (meta_Finalizers (cluster_Meta cluster))) cluster)).

(** ** Reconciling *)

Definition startClustering (cluster : MySQLCluster) : prog ctrlSig unit :=
  _ <-- rcall_ (RManagerUpdate (Namespace cluster) (Name cluster)) ;;
  metric "ClusteringStoppedVec" cluster 0.

(* controllers/mysqlcluster_controller.go:226-242 reconcileV1 *)
Definition stoppedStep (cluster : MySQLCluster) : prog ctrlSig (extres unit) :=
  if isClusteringStopped cluster then
    rc <-- clusteringStopV1 cluster ;;
    match rc.1 with
    | inl e => Ret (inl e)
    | inr _ => reconciliationStopV1 rc.2
    end
  else
    _ <-- startClustering cluster ;;
    reconciliationStopV1 cluster.

(** The objects, in order. *)
(* controllers/mysqlcluster_controller.go:251-304 reconcileV1 *)
Definition reconcileObjects (cluster : MySQLCluster) : prog ctrlSig (outcome unit) :=
  _ <-? fallible (reconcileV1Secret cluster) ;;
  _ <-? fallible (reconcileV1Certificate cluster) ;;
  _ <-? fallible (reconcileV1GRPCSecret cluster) ;;
  mycnf <-? reconcileV1MyCnf cluster ;;
  slowlogConf <-? fallible (reconcileV1FluentBitConfigMap cluster) ;;
  _ <-? fallible (reconcileV1ServiceAccount cluster) ;;
  _ <-? fallible (reconcileV1Service cluster) ;;
  _ <-? reconcilePVC cluster ;;
  _ <-? reconcileV1StatefulSet cluster mycnf slowlogConf ;;
  _ <-? fallible (reconcileV1PDB cluster) ;;
  _ <-? fallible (reconcileV1BackupJob cluster) ;;
  fallible (reconcileV1RestoreJob cluster).

(** The end of a reconciliation whose objects are up to date. *)
(* controllers/mysqlcluster_controller.go:306-316 reconcileV1 *)
Definition clusteringStep (cluster : MySQLCluster) : prog ctrlSig (extres unit * MySQLCluster) :=
  if isClusteringStopped cluster then clusteringStopV1 cluster
  else _ <-- startClustering cluster ;; Ret (inr (), cluster).

(** [err] in the deferred function: nil unless a step returned an error, so nil
    after a panic as well; an error of [updateStatus] replaces it. *)
(* controllers/mysqlcluster_controller.go:244-249 reconcileV1 *)
Definition deferredUpdate (cluster : MySQLCluster) (o : outcome unit) : prog ctrlSig (outcome unit) :=
  r <-- updateStatus cluster (match o with Error e => Some e | _ => None end) ;;
  Ret (match o, r with
       | Panic m, _ => Panic m
       | _, inl e => Error e
       | o, inr _ => o
       end).

(* controllers/mysqlcluster_controller.go :: reconcileV1 *)
Definition reconcileV1 (namespace name : string) (cluster : MySQLCluster) : prog ctrlSig (outcome unit) :=
  if bool_decide (meta_DeletionTimestamp (cluster_Meta cluster) ≠ None) then fallible (finalizeStep namespace name cluster)
  else if isReconciliationStopped cluster then fallible (stoppedStep cluster)
  else
    o <-- reconcileObjects cluster ;;
    match o with
    | Return _ => rc <-- clusteringStep cluster ;; deferredUpdate rc.2 (outcome_of rc.1)
    | o => deferredUpdate cluster o
    end.

(** Both versions of the reconciler are [reconcileV1]. *)
(* controllers/mysqlcluster_controller.go :: Reconcile *)
Definition Reconcile (namespace name : string) : prog ctrlSig (outcome unit) :=
  r <-- rcall_ (RGetCluster namespace name) ;;
  match r with
  | inl e =>
      if is_not_found e then _ <-- rcall_ (RManagerStop namespace name) ;; Ret (Return ())
      else Ret (Error e)
  | inr cluster => reconcileV1 namespace name cluster
  end.
End reconcile.
