(* ===== verification/ReconcileSpec.v ===== *)
(** * What reconciling a cluster guarantees

    Which calls a reconciliation makes and in which order, and what it records
    in the status. *)

From S2P Require Import Prelude Prog GoLib Constants Api K8s Password Samples Mycnf StatefulSets Webhook Controller ControllerSamples.
From S2P Require Import Secrets ConfigMaps Services Pvc Containers StatefulSetStep Jobs Reconcile Metrics.
#[local] Open Scope Z_scope.

(** The calls of the steps for the objects of a cluster: among them the reads of
    the ConfigMap and of the backup policy its specification names, and the metrics
    with the name and the namespace of the cluster as labels. *)
Definition own_read (cluster : MySQLCluster) (c : call ctrlSig) : bool :=
  match c with
  | RGetConfigMap ns n => bool_decide (ns = Namespace cluster ∧ MySQLConfigMapName (Spec cluster) = Some n)
  | RGetBackupPolicy ns n => bool_decide (ns = Namespace cluster ∧ BackupPolicyName (Spec cluster) = Some n)
  | RMetric m n ns _ | RMetricDelete m n ns => bool_decide (label_count m = Some 2%nat ∧ n = Name cluster ∧ ns = Namespace cluster)
  | _ => true
  end.

Definition object_call (cluster : MySQLCluster) (c : call ctrlSig) : bool :=
  match c with
  | RGetCluster _ _ | RUpdateCluster _ | RStatusUpdate _ | RManagerUpdate _ _ | RManagerStop _ _ | RManagerPause _ _
  | RMetricDelete _ _ _ | RDelete (KSecret | KCertificate | KStatefulSet) _ _ => false
  | c => own_read cluster c
  end.

Section calls.
Context {RE : Reconciler} {KL : KubeLibs} {AM : ApiMachinery} {FN : Finalizers} {RG : MapRange} {SA : SortByAge}.
Implicit Types (cluster : MySQLCluster).

(** A read of an object the specification names. *)
Ltac only_read := apply only_call; apply bool_decide_eq_true; by split_and!.
Ltac only_tac := repeat first [only_step | apply only_fallible | only_read | case_match].

Lemma only_apply cluster ns n cfg : only (object_call cluster) (apply ns n cfg).
Proof. unfold apply. only_tac. Qed.
Lemma only_applyOwned cluster what failure cfg p :
  only (object_call cluster) p → only (object_call cluster) (applyOwned cluster what failure cfg p).
Proof. intros Hp. unfold applyOwned. only_tac; try done; apply only_apply. Qed.
Lemma only_debugDiff cluster k what ns n : only (object_call cluster) (debugDiff k what ns n).
Proof. unfold debugDiff. only_tac. Qed.

Lemma only_password cluster : only (object_call cluster) (translate rand_call NewMySQLPassword).
Proof.
  assert (∀ A (p : prog randSig A), only (object_call cluster) (translate rand_call p)) as H; [|apply H].
  intros A p. induction p as [a|[n] k IH]; cbn [translate]; [apply only_ret|].
  apply (only_bind (S := ctrlSig)); [exact (only_call (S := ctrlSig) (object_call cluster) (RRand n) eq_refl)|apply IH].
Qed.

Lemma only_secret cluster : only (object_call cluster) (reconcileV1Secret cluster).
Proof.
  unfold reconcileV1Secret, controllerSecretStep, reconcileUserSecret, reconcileMyCnfSecret.
  repeat first [apply only_password | apply only_applyOwned | only_step | only_read | case_match].
Qed.
Lemma only_certificate cluster : only (object_call cluster) (reconcileV1Certificate cluster).
Proof. unfold reconcileV1Certificate. only_tac. Qed.

Lemma only_grpc cluster : only (object_call cluster) (reconcileV1GRPCSecret cluster).
Proof. unfold reconcileV1GRPCSecret. only_tac. Qed.

Lemma only_cleanup cluster prefix current : only (object_call cluster) (cleanupOldConfigMaps cluster prefix current).
Proof.
  unfold cleanupOldConfigMaps. only_step; [only_tac|]. generalize 0. generalize (sort_by_age a).
  intros l. induction l as [|cm l IH]; intros n; cbn [cleanupLoop]; only_tac; apply IH.
Qed.

Lemma only_mycnf cluster : only (object_call cluster) (reconcileV1MyCnf cluster).
Proof.
  unfold reconcileV1MyCnf, userConf, applyConfigMap.
  repeat first [apply only_cleanup | apply only_applyOwned | apply only_fallible | only_step | only_read | case_match].
Qed.

Lemma only_fluentbit cluster : only (object_call cluster) (reconcileV1FluentBitConfigMap cluster).
Proof.
  unfold reconcileV1FluentBitConfigMap, applyConfigMap.
  repeat first [apply only_cleanup | apply only_applyOwned | only_step | only_read | case_match].
  induction a as [|cm l IH]; cbn [deleteAllLoop]; only_tac; apply IH.
Qed.

Lemma only_account cluster : only (object_call cluster) (reconcileV1ServiceAccount cluster).
Proof. apply only_applyOwned, only_ret. Qed.

Lemma only_service cluster : only (object_call cluster) (reconcileV1Service cluster).
Proof.
  unfold reconcileV1Service, reconcileV1Service1.
  repeat first [apply only_debugDiff | apply only_applyOwned | only_step].
Qed.

Lemma only_pvc cluster : only (object_call cluster) (reconcilePVC cluster).
Proof.
  unfold reconcilePVC, syncPVCLabelAndAnnotationValues, resizePVCs, reportResize, syncOne, resizeOne,
    isVolumeExpansionSupported, or_panic. only_tac.
Qed.

Lemma only_wait n cluster : only (object_call cluster) (waitGone n cluster).
Proof. induction n as [|n IH]; cbn [waitGone]; only_tac. apply IH. Qed.

Lemma only_statefulset cluster mycnf slow : only (object_call cluster) (reconcileV1StatefulSet cluster mycnf slow).
Proof.
  unfold reconcileV1StatefulSet, makePodSpec, makeContainers, makeV1InitContainer, makeMocoInitContainer,
    getEnableLowerCaseTableNamesFromConf, deleteForRecreate, applyStatefulSet, recreateError.
  repeat first [apply only_wait | apply only_debugDiff | apply only_fallible | only_step | only_read | case_match].
Qed.

Lemma only_pdb cluster : only (object_call cluster) (reconcileV1PDB cluster).
Proof.
  unfold reconcileV1PDB, backupIsRunning.
  repeat first [apply only_debugDiff | apply only_applyOwned | only_step | only_read | case_match].
Qed.

Lemma only_backup cluster : only (object_call cluster) (reconcileV1BackupJob cluster).
Proof.
  unfold reconcileV1BackupJob, deleteIfExists, reconcileV1BackupJobRole, reconcileV1BackupJobRoleBinding, jobRole, jobRoleBinding.
  repeat first [apply only_debugDiff | apply only_applyOwned | only_step | only_read | case_match].
Qed.

Lemma only_restore cluster : only (object_call cluster) (reconcileV1RestoreJob cluster).
Proof.
  unfold reconcileV1RestoreJob, reconcileV1RestoreJobRole, reconcileV1RestoreJobRoleBinding, jobRole, jobRoleBinding.
  repeat first [apply only_debugDiff | apply only_applyOwned | only_step | only_read | case_match].
Qed.

Lemma only_objects cluster : only (object_call cluster) (reconcileObjects cluster).
Proof.
  unfold reconcileObjects.
  repeat first [ apply only_secret | apply only_certificate | apply only_grpc | apply only_mycnf | apply only_fluentbit
               | apply only_account | apply only_service | apply only_pvc | apply only_statefulset | apply only_pdb
               | apply only_backup | apply only_restore | apply only_fallible | apply only_bind_outcome; [|intros ?] ].
Qed.
End calls.

(** ** The order of the calls *)

Definition deleted (cluster : MySQLCluster) : Prop := meta_DeletionTimestamp (cluster_Meta cluster) ≠ None.

Section order.
Context {RE : Reconciler} {KL : KubeLibs} {AM : ApiMachinery} {FN : Finalizers} {RG : MapRange} {SA : SortByAge}.
Context (namespace name : string).

(** The object is gone: its deletion was accepted, or it was not found. *)
Definition gone (h : trace ctrlSig) (k : kind) (ns n : string) : Prop :=
  occurs h (RDelete k ns n) (inr ()) ∨ ∃ e, is_not_found e = true ∧ occurs h (RDelete k ns n) (inl e).

(** The metrics that go with the cluster. *)
Definition finalised_metrics : list string :=
  ["ClusteringStoppedVec"; "ReconciliationStoppedVec"; "CurrentReplicasVec"; "UpdatedReplicasVec"; "LastPartitionUpdatedVec"].

(** When [c] may follow [h], the history after the cluster was read. *)
Definition cluster_protocol (cluster : MySQLCluster) (h : trace ctrlSig) (c : call ctrlSig) : Prop :=
  match c with
  | RManagerStop ns n =>
      deleted cluster ∧ MySQLClusterFinalizer ∈ meta_Finalizers (cluster_Meta cluster) ∧ ns = namespace ∧ n = name ∧ h = []
  | RDelete (KSecret | KCertificate) _ _ => deleted cluster ∧ occurs h (RManagerStop namespace name) ()
  | RMetricDelete m _ _ =>
      deleted cluster ∧ occurs h (RManagerStop namespace name) () ∧ own_read cluster c = true ∧ m ∈ finalised_metrics
  | RUpdateCluster c' =>
      deleted cluster ∧ occurs h (RManagerStop namespace name) () ∧
      gone h KSecret SystemNamespace (ControllerSecretName cluster) ∧
      gone h KCertificate SystemNamespace (CertificateName cluster) ∧
      c' = set_cluster_Finalizers (RemoveFinalizer MySQLClusterFinalizer (meta_Finalizers (cluster_Meta cluster))) cluster
  | RManagerUpdate ns n =>
      ns = Namespace cluster ∧ n = Name cluster ∧ ¬ deleted cluster ∧ isClusteringStopped cluster = false ∧
      (isReconciliationStopped cluster = true ∨ exec (reconcileObjects cluster) h (Return ()))
  | RManagerPause ns n =>
      ns = Namespace cluster ∧ n = Name cluster ∧ ¬ deleted cluster ∧ isClusteringStopped cluster = true ∧
      (isReconciliationStopped cluster = true ∨ exec (reconcileObjects cluster) h (Return ()))
  | RStatusUpdate _ => ¬ deleted cluster
  | RMetric _ _ _ _ => ¬ deleted cluster ∧ own_read cluster c = true
  | _ => object_call cluster c = true ∧ ¬ deleted cluster ∧ isReconciliationStopped cluster = false
  end.

Definition got (r : extres MySQLCluster) : event ctrlSig := ev (S := ctrlSig) (RGetCluster namespace name) r.

Definition reconcile_protocol (h : trace ctrlSig) (c : call ctrlSig) : Prop :=
  match h with
  | [] => c = RGetCluster namespace name
  | e :: h' =>
      (∃ err, e = got (inl err) ∧ is_not_found err = true ∧ h' = [] ∧ c = RManagerStop namespace name) ∨
      (∃ cluster, e = got (inr cluster) ∧ cluster_protocol cluster h' c)
  end.

(** Within the part after the cluster was read. *)
Lemma wp_got {A} cluster (p : prog ctrlSig A) h (Q : trace ctrlSig → A → Prop) :
  wp (cluster_protocol cluster) p h (λ h' a, Q (got (inr cluster) :: h') a) →
  wp reconcile_protocol p (got (inr cluster) :: h) Q.
Proof.
  revert h. induction p as [a|c k IH]; intros h; [done|]. intros [HP Hk]. split.
  - right. exists cluster. done.
  - intros r. apply (IH r (h ++ [ev c r])), Hk.
Qed.

Lemma wp_objects cluster :
  ¬ deleted cluster → isReconciliationStopped cluster = false →
  wp (cluster_protocol cluster) (reconcileObjects cluster) [] (λ h o, exec (reconcileObjects cluster) h o).
Proof.
  intros Hd Hs. eapply wp_mono; [| |apply wp_self, only_objects].
  - intros h c Hc. destruct c; try done. by destruct k.
  - intros h o (_ & t & -> & Hex). done.
Qed.

(** A metric of the cluster, also as a step may have changed it. *)
Lemma own_metric cluster c m v :
  label_count m = Some 2%nat → cluster_Meta c = cluster_Meta cluster → own_read cluster (RMetric m (Name c) (Namespace c) v) = true.
Proof. intros Hm Hc. apply bool_decide_eq_true. unfold Name, Namespace. by rewrite Hc. Qed.

Lemma wp_metric cluster c m v h (Q : trace ctrlSig → unit → Prop) :
  ¬ deleted cluster → cluster_Meta c = cluster_Meta cluster → label_count m = Some 2%nat → (∀ h', Q h' ()) →
  wp (cluster_protocol cluster) (metric m c v) h Q.
Proof. intros Hd Hc Hm HQ. split; [|by intros []; apply HQ]. split; [done|by apply own_metric]. Qed.

Lemma wp_startClustering cluster h :
  ¬ deleted cluster → isClusteringStopped cluster = false →
  (isReconciliationStopped cluster = true ∨ exec (reconcileObjects cluster) h (Return ())) →
  wp (cluster_protocol cluster) (startClustering cluster) h (λ _ _, True).
Proof. intros Hd Hc Hs. split; [by split_and!|]. intros []. by apply wp_metric. Qed.

Lemma wp_updateIfChanged cluster orig c h :
  ¬ deleted cluster → wp (cluster_protocol cluster) (updateIfChanged orig c) h (λ _ _, True).
Proof. intros Hd. unfold updateIfChanged. by destruct (Semantic_DeepEqual _ _). Qed.

Lemma wp_recordStatus cluster c e h :
  ¬ deleted cluster → isReconciliationStopped cluster = false → cluster_Meta c = cluster_Meta cluster →
  wp (cluster_protocol cluster) (updateStatus c e) h (λ _ _, True).
Proof.
  intros Hd Hs Hm. unfold updateStatus. rewrite wp_bind. split; [by split_and!|]. intros sts.
  rewrite wp_ret, wp_bind_ext. eapply wp_conseq; [by apply wp_updateIfChanged|]. intros h' [e'|[]] _; [done|].
  rewrite wp_bind. by apply wp_metric.
Qed.

Lemma wp_clusteringStop cluster h :
  ¬ deleted cluster → isClusteringStopped cluster = true →
  (isReconciliationStopped cluster = true ∨ exec (reconcileObjects cluster) h (Return ())) →
  wp (cluster_protocol cluster) (clusteringStopV1 cluster) h (λ _ rc, cluster_Meta rc.2 = cluster_Meta cluster).
Proof.
  intros Hd Hc Hs. unfold clusteringStopV1. destruct (IsStatusConditionFalse _ _); [done|].
  rewrite wp_bind. split; [by split_and!|]. intros []. rewrite wp_ret, wp_bind, wp_bind_ext.
  eapply wp_conseq; [by apply wp_updateIfChanged|]. intros h' [e'|[]] _; [done|]. rewrite wp_bind. by apply wp_metric.
Qed.

Lemma wp_reconciliationStop cluster c h :
  ¬ deleted cluster → cluster_Meta c = cluster_Meta cluster →
  wp (cluster_protocol cluster) (reconciliationStopV1 c) h (λ _ _, True).
Proof.
  intros Hd Hm. unfold reconciliationStopV1. destruct (IsStatusConditionFalse _ _); [done|].
  rewrite wp_bind_ext. eapply wp_conseq; [by apply wp_updateIfChanged|]. intros h' [e'|[]] _; [done|].
  rewrite wp_bind. by apply wp_metric.
Qed.

Lemma wp_deleteOrNotFound cluster k ns n failure (h : trace ctrlSig) (Hk : k = KSecret ∨ k = KCertificate) :
  deleted cluster → occurs h (RManagerStop namespace name) () →
  wp (cluster_protocol cluster) (deleteOrNotFound k ns n failure) h
    (λ h' r, ∃ t, h' = h ++ t ∧ (r = inr () → gone h' k ns n)).
Proof.
  intros Hd Hst. split; [by destruct Hk as [->| ->]|]. intros r. eexists [_]. split; [done|].
  destruct r as [e|[]]; [|intros _; left; apply occurs_last].
  destruct (is_not_found e) eqn:He; [|done]. intros _. right. exists e. split; [done|apply occurs_last].
Qed.

Lemma gone_app h h' k ns n : gone h k ns n → gone (h ++ h') k ns n.
Proof. intros [?|(e & ? & ?)]; [left|right; exists e; split; [done|]]; by apply occurs_app_l. Qed.

Lemma wp_finalize cluster (h : trace ctrlSig) :
  deleted cluster → occurs h (RManagerStop namespace name) () →
  wp (cluster_protocol cluster) (finalizeV1 cluster) h
    (λ h' r, r = inr () → ∃ t, h' = h ++ t ∧
       gone h' KSecret SystemNamespace (ControllerSecretName cluster) ∧
       gone h' KCertificate SystemNamespace (CertificateName cluster)).
Proof.
  intros Hd Hst. unfold finalizeV1. rewrite wp_bind_ext.
  eapply wp_conseq; [apply wp_deleteOrNotFound; auto|]. intros h1 [e|[]] (t1 & -> & H1); [done|].
  rewrite wp_bind_ext. eapply wp_conseq; [apply wp_deleteOrNotFound; auto using occurs_app_l|].
  intros h2 [e|[]] (t2 & -> & H2); [done|].
  eapply wp_conseq.
  { apply wp_extends with (Q := λ _ _, True). repeat (split; [split; [done|split; [auto 20 using occurs_app_l|split; [by apply bool_decide_eq_true|by apply (bool_decide_unpack _)]]]|intros []]). done. }
  intros h' r [_ [t ->]] _. exists (t1 ++ t2 ++ t). split; [by rewrite <- !app_assoc|].
  split; apply gone_app; [by apply gone_app, H1|by apply H2].
Qed.

Lemma wp_finalizeStep cluster :
  deleted cluster → wp (cluster_protocol cluster) (finalizeStep namespace name cluster) [] (λ _ _, True).
Proof.
  intros Hd. unfold finalizeStep. destruct (ContainsFinalizer _ _) eqn:Hf; [|done]. cbn [negb].
  apply ContainsFinalizer_spec in Hf. rewrite wp_bind. split; [by split_and!|]. intros []. rewrite wp_ret.
  assert (occurs (S := ctrlSig) ([] ++ [ev (S := ctrlSig) (RManagerStop namespace name) ()]) (RManagerStop namespace name) ()) as Hst
    by apply (occurs_last []).
  rewrite wp_bind_ext. eapply wp_conseq; [by apply wp_finalize|]. intros h' [e|[]] H; [done|].
  destruct (H eq_refl) as (t & -> & H1 & H2). split; [|done]. split_and!; auto using occurs_app_l.
Qed.

Lemma wp_deferred cluster c o h :
  ¬ deleted cluster → isReconciliationStopped cluster = false → cluster_Meta c = cluster_Meta cluster →
  wp (cluster_protocol cluster) (deferredUpdate c o) h (λ _ _, True).
Proof. intros Hd Hs Hm. unfold deferredUpdate. rewrite wp_bind. eapply wp_conseq; [by apply wp_recordStatus|]. done. Qed.

Lemma wp_stoppedStep cluster :
  ¬ deleted cluster → isReconciliationStopped cluster = true →
  wp (cluster_protocol cluster) (stoppedStep cluster) [] (λ _ _, True).
Proof.
  intros Hd Hs. unfold stoppedStep. destruct (isClusteringStopped cluster) eqn:Hc; rewrite wp_bind.
  - eapply wp_conseq; [apply wp_clusteringStop; auto|]. intros h' [[e|[]] c] Hm; [done|]. by apply wp_reconciliationStop.
  - eapply wp_conseq; [apply wp_startClustering; auto|]. intros h' [] _. by apply wp_reconciliationStop.
Qed.

Lemma wp_activeStep cluster :
  ¬ deleted cluster → isReconciliationStopped cluster = false →
  wp (cluster_protocol cluster)
    (o <-- reconcileObjects cluster ;;
     match o with
     | Return _ => rc <-- clusteringStep cluster ;; deferredUpdate rc.2 (outcome_of rc.1)
     | o => deferredUpdate cluster o
     end) [] (λ _ _, True).
Proof.
  intros Hd Hs. rewrite wp_bind. eapply wp_conseq; [by apply wp_objects|].
  intros h' [[]|e|m] Hex; [|by apply wp_deferred..]. unfold clusteringStep.
  destruct (isClusteringStopped cluster) eqn:Hc; rewrite wp_bind.
  - eapply wp_conseq; [apply wp_clusteringStop; auto|]. intros h'' [r c] Hm. by apply wp_deferred.
  - rewrite wp_bind. eapply wp_conseq; [apply wp_startClustering; auto|]. intros h'' [] _. by apply wp_deferred.
Qed.

Lemma wp_Reconcile : wp reconcile_protocol (Reconcile namespace name) [] (λ _ _, True).
Proof.
  unfold Reconcile. rewrite wp_bind. split; [done|]. intros [e|cluster]; rewrite wp_ret.
  - destruct (is_not_found e) eqn:He; [|done]. split; [|done]. left. by exists e.
  - apply wp_got. unfold reconcileV1. case_bool_decide as Hd.
    + rewrite wp_fallible. eapply wp_conseq; [by apply wp_finalizeStep|done].
    + assert (¬ deleted cluster) by (intros H; exact (H Hd)). destruct (isReconciliationStopped cluster) eqn:Hs.
      * rewrite wp_fallible. eapply wp_conseq; [by apply wp_stoppedStep|done].
      * by apply wp_activeStep.
Qed.


(** Every call of a reconciliation that read [cluster], the first one apart, is
    one that its protocol permits. *)
Lemma Reconcile_calls t o cluster c r :
  exec (Reconcile namespace name) t o → got (inr cluster) ∈ t → ev c r ∈ t →
  c = RGetCluster namespace name ∨ ∃ h, cluster_protocol cluster h c.
Proof.
  intros Hex Hgot Hin. destruct (wp_exec _ _ [] _ _ _ wp_Reconcile Hex) as [_ Hall].
  destruct t as [|e t]; [by apply elem_of_nil in Hin|].
  assert (e = got (inr cluster)) as ->.
  { apply elem_of_cons in Hgot as [->|(u1 & u2 & ->)%list_elem_of_split]; [done|]. exfalso.
    destruct (Hall (e :: u1) _ _ u2 eq_refl) as [(err & _ & _ & _ & [=])|(cl & _ & H & _)]. done. }
  apply list_elem_of_split in Hin as (t1 & t2 & Heq). pose proof (Hall _ _ _ _ Heq) as Hp. rewrite app_nil_l in Hp.
  destruct t1 as [|e t1]; cbn in Hp; [by left|]. right. injection Heq as <- _.
  destruct Hp as [(err & He & _)|(cl & He & Hp)]; apply ev_inj in He; [done|]. injection He as <-. eauto.
Qed.
End order.

(** ** The status *)

Section status.
Context {RE : Reconciler} {KL : KubeLibs} {AM : ApiMachinery} {FN : Finalizers} {RG : MapRange} {SA : SortByAge}.

(** The StatefulSet is up to date and all its Pods are available. *)
Definition sts_ready (sts : StatefulSet) : Prop :=
  sts_Replicas (sts_Spec sts) = Some (sts_AvailableReplicas (sts_Status sts)) ∧
  sts_CurrentRevision (sts_Status sts) = sts_UpdateRevision (sts_Status sts) ∧
  meta_Generation (sts_Meta sts) = sts_ObservedGeneration (sts_Status sts).

Lemma stsReadiness_spec r : (stsReadiness r).1.1 = ConditionTrue ↔ ∃ sts, r = inr sts ∧ sts_ready sts.
Proof.
  unfold stsReadiness, sts_ready. destruct r as [e|sts].
  - destruct (is_not_found e); cbn; split; try done; by intros (? & [=] & _).
  - destruct (bool_decide _ && _ && _) eqn:E; cbn; split; try done.
    + intros _. exists sts. bool_cases. done.
    + intros (? & [= <-] & H1 & H2 & H3). rewrite H2, H3, H1 in E. rewrite bool_decide_eq_true_2 in E by done.
      by rewrite String.eqb_refl, Z.eqb_refl in E.
Qed.

(** What the status says of a reconciliation with the error [err]. *)
Definition records (cluster : MySQLCluster) (sts : extres StatefulSet) (err : option error) (st : MySQLClusterStatus) : Prop :=
  let gen := meta_Generation (cluster_Meta cluster) in
  ReconcileInfo_ st = {| ri_Generation := gen; ri_ReconcileVersion := 1 |} ∧
  (∃ c, find_condition ConditionReconcileSuccess (Conditions st) = Some c ∧ cond_ObservedGeneration c = gen ∧
        cond_Status c = match err with None => ConditionTrue | Some _ => ConditionFalse end) ∧
  (∃ c, find_condition ConditionStatefulSetReady (Conditions st) = Some c ∧ cond_ObservedGeneration c = gen ∧
        (cond_Status c = ConditionTrue ↔ ∃ s, sts = inr s ∧ sts_ready s)) ∧
  (∃ c, find_condition ConditionReconciliationActive (Conditions st) = Some c ∧ cond_Status c = ConditionTrue) ∧
  ∀ typ, typ ∉ [ConditionReconcileSuccess; ConditionStatefulSetReady; ConditionReconciliationActive] →
         find_condition typ (Conditions st) = find_condition typ (Conditions (Status cluster)).

Lemma SetStatusCondition_found typ conds c :
  cond_Type c = typ → find_condition typ (SetStatusCondition conds c) = Some c.
Proof. intros <-. apply SetStatusCondition_same. Qed.

Lemma reconciledStatus_records cluster sts err : records cluster sts err (reconciledStatus cluster sts err).
Proof.
  unfold records, reconciledStatus. pose proof (stsReadiness_spec sts) as Hr.
  destruct (stsReadiness sts) as [[ready reason] message]. cbn [fst] in Hr. cbn [set_Conditions set_ReconcileInfo Conditions ReconcileInfo_].
  split; [done|]. split; [|split; [|split]].
  - rewrite SetStatusCondition_other by done. destruct err; (eexists; split; [by apply SetStatusCondition_found|done]).
  - rewrite !SetStatusCondition_other by (by destruct err). eexists. split; [by apply SetStatusCondition_found|done].
  - eexists. split; [by apply SetStatusCondition_found|done].
  - intros typ Ht. rewrite !not_elem_of_cons in Ht. destruct Ht as (H1 & H2 & H3 & _).
    by rewrite !SetStatusCondition_other by (by destruct err).
Qed.

(** The status a run of [updateStatus] writes or leaves. *)
Definition status_written (cluster : MySQLCluster) (err : option error) (t : trace ctrlSig) (r : extres unit) : Prop :=
  ∃ sts t' st,
    t = ev (S := ctrlSig) (RGetStatefulSet (Namespace cluster) (PrefixedName cluster)) sts :: t' ∧
    records cluster sts err st ∧
    ((Status cluster = st ∧ ∀ c' r', ev (S := ctrlSig) (RStatusUpdate c') r' ∉ t') ∨
     ∃ r' t'', t' = ev (S := ctrlSig) (RStatusUpdate (set_Status st cluster)) r' :: t'' ∧ (r = inr () ↔ r' = inr ()) ∧
       ∀ c' r', ev (S := ctrlSig) (RStatusUpdate c') r' ∉ t'').

Lemma updateStatus_writes cluster err t r : exec (updateStatus cluster err) t r → status_written cluster err t r.
Proof.
  unfold updateStatus. destruct t as [|e t]; [done|]. intros (sts & -> & Hex). cbn [bind rcall_ perform] in Hex.
  exists sts, t, (reconciledStatus cluster sts err). split; [done|]. split; [apply reconciledStatus_records|].
  unfold updateIfChanged in Hex. destruct (Semantic_DeepEqual _ _) eqn:Heq.
  - left. apply Semantic_DeepEqual_eq in Heq. split; [done|]. destruct t as [|e t]; [done|].
    destruct Hex as ([] & -> & -> & <-). intros c' r' Hin%list_elem_of_singleton. discriminate.
  - right. destruct t as [|e t]; [done|]. destruct Hex as (r' & -> & Hex). exists r', t. split; [done|].
    destruct r' as [e|[]]; [|destruct t as [|e t]; [done|]; destruct Hex as ([] & -> & Hex)]; destruct Hex as [-> <-].
    + split; [by split|]. intros c' r' Hin. by apply elem_of_nil in Hin.
    + split; [by split|]. intros c' r' Hin%list_elem_of_singleton. discriminate.
Qed.

(** [updateStatus] writes the status once, if it changes at all, and what it
    writes or leaves says whether the reconciliation failed and whether the
    StatefulSet it read is up to date and available, for this generation. *)
Theorem update_status_records cluster err t r :
  exec (updateStatus cluster err) t r → status_written cluster err t r.
Proof. apply updateStatus_writes. Qed.

Lemma deferredUpdate_writes cluster o t res :
  exec (deferredUpdate cluster o) t res →
  ∃ r, status_written cluster (match o with Error e => Some e | _ => None end) t r ∧
       res = match o, r with Panic m, _ => Panic m | _, inl e => Error e | o, inr _ => o end.
Proof.
  intros (t1 & t2 & r & -> & H1 & -> & <-)%exec_bind_inv. rewrite app_nil_r. exists r. split; [|done].
  by apply updateStatus_writes.
Qed.

Lemma reconcileV1_objects ns n cluster t1 t2 o res :
  ¬ deleted cluster → isReconciliationStopped cluster = false →
  exec (reconcileObjects cluster) t1 o → is_return o = false →
  exec (reconcileV1 ns n cluster) (t1 ++ t2) res → exec (deferredUpdate cluster o) t2 res.
Proof.
  intros Hd Hs Hobj Ho. unfold reconcileV1. rewrite bool_decide_eq_false_2 by done. rewrite Hs.
  intros Hex. apply (exec_bind_prefix _ _ _ _ _ _ Hex) in Hobj. by destruct o.
Qed.

(** C32. When bringing the objects of an active cluster up to date fails, the
    reconciliation returns an error and the status says that it failed. *)
Theorem failure_is_recorded ns n cluster t1 t2 e res :
  ¬ deleted cluster → isReconciliationStopped cluster = false →
  exec (reconcileObjects cluster) t1 (Error e) →
  exec (reconcileV1 ns n cluster) (t1 ++ t2) res →
  ∃ r, status_written cluster (Some e) t2 r ∧ res = Error (match r with inl e' => e' | inr _ => e end).
Proof.
  intros Hd Hs Hobj Hex. destruct (deferredUpdate_writes _ _ _ _ (reconcileV1_objects _ _ _ _ _ _ _ Hd Hs Hobj eq_refl Hex))
    as (r & Hw & ->). exists r. split; [done|]. by destruct r.
Qed.

(** When bringing the objects up to date panics, the deferred update of the
    status still runs, with no error at hand: it records a success. *)
Theorem panic_recorded_as_success ns n cluster t1 t2 m res :
  ¬ deleted cluster → isReconciliationStopped cluster = false →
  exec (reconcileObjects cluster) t1 (Panic m) →
  exec (reconcileV1 ns n cluster) (t1 ++ t2) res →
  res = Panic m ∧ ∃ r, status_written cluster None t2 r.
Proof.
  intros Hd Hs Hobj Hex. destruct (deferredUpdate_writes _ _ _ _ (reconcileV1_objects _ _ _ _ _ _ _ Hd Hs Hobj eq_refl Hex))
    as (r & Hw & ->). split; [done|]. by exists r.
Qed.
End status.

(** ** At concrete clusters *)

#[export] Existing Instance apimachinery_inplace.
#[export] Existing Instance finalizers_list.
#[export] Existing Instance range_ascending.
#[export] Existing Instance sort_by_age_merge.

(** The API server has the cluster [c] and accepts every write. *)
Definition api_with (c : MySQLCluster) (call : rcall) (s : unit) : rresp call * unit :=
  (match call as call return rresp call with
   | RGetCluster _ _ => inr c
   | call => sample_answer call
   end, s).

Definition sample_deletion := run (S := ctrlSig) (api_with sample_deleting) (Reconcile "default" "test") ().


Definition sample_update := run (S := ctrlSig) (api_with (sample_cluster 3 0)) (updateStatus (sample_cluster 3 0) None) ().

Lemma update_status_records_witness : status_written (sample_cluster 3 0) None sample_update.1 sample_update.2.
Proof. apply update_status_records. apply (run_exec (S := ctrlSig)). Defined.

(** The API server answers no read of a Secret. *)
Definition api_down (call : rcall) (s : unit) : rresp call * unit :=
  (match call as call return rresp call with
   | RGetSecret _ _ => inl (ErrNew "connection refused")
   | call => sample_answer call
   end, s).

Definition failed_objects := run (S := ctrlSig) api_down (reconcileObjects (sample_cluster 3 0)) ().
Definition failed_run := run (S := ctrlSig) api_down (reconcileV1 "default" "test" (sample_cluster 3 0)) ().

Lemma sample_not_deleted : ¬ deleted (sample_cluster 3 0).
Proof. by intros H. Qed.

Lemma failed_objects_exec : exec (reconcileObjects (sample_cluster 3 0)) failed_objects.1 (Error (ErrNew "connection refused")).
Proof.
  replace (Error (ErrNew "connection refused")) with failed_objects.2 by (vm_compute; reflexivity).
  exact (run_exec (S := ctrlSig) api_down (reconcileObjects (sample_cluster 3 0)) ()).
Qed.

Lemma failed_run_exec :
  exec (reconcileV1 "default" "test" (sample_cluster 3 0)) (failed_objects.1 ++ drop (length failed_objects.1) failed_run.1) failed_run.2.
Proof.
  replace (failed_objects.1 ++ drop (length failed_objects.1) failed_run.1) with failed_run.1 by (vm_compute; reflexivity).
  exact (run_exec (S := ctrlSig) api_down (reconcileV1 "default" "test" (sample_cluster 3 0)) ()).
Qed.

Lemma failure_is_recorded_witness :
  ∃ r, status_written (sample_cluster 3 0) (Some (ErrNew "connection refused")) (drop (length failed_objects.1) failed_run.1) r ∧
       failed_run.2 = Error (match r with inl e' => e' | inr _ => ErrNew "connection refused" end).
Proof.
  exact (failure_is_recorded "default" "test" (sample_cluster 3 0) failed_objects.1 _ _ _ sample_not_deleted eq_refl
           failed_objects_exec failed_run_exec).
Defined.

(** A claim without storage class is to be enlarged. *)
Definition api_panic (call : rcall) (s : unit) : rresp call * unit :=
  (match call as call return rresp call with
   | RGetStatefulSet _ _ => inr (settled_sts 10)
   | RListPVCs _ _ => inr [sample_pvc 0 None 10]
   | call => sample_answer call
   end, s).

Definition panicking : MySQLCluster := admissible_cluster 3 20.
Definition panic_objects := run (S := ctrlSig) api_panic (reconcileObjects (RE := plain_reconciler) panicking) ().
Definition panic_run := run (S := ctrlSig) api_panic (reconcileV1 (RE := plain_reconciler) "default" "test" panicking) ().

Lemma panic_objects_exec :
  exec (reconcileObjects (RE := plain_reconciler) panicking) panic_objects.1 (Panic "nil pointer dereference").
Proof.
  replace (Panic "nil pointer dereference") with panic_objects.2 by (vm_compute; reflexivity).
  exact (run_exec (S := ctrlSig) api_panic (reconcileObjects (RE := plain_reconciler) panicking) ()).
Qed.

Lemma panic_run_exec :
  exec (reconcileV1 (RE := plain_reconciler) "default" "test" panicking)
    (panic_objects.1 ++ drop (length panic_objects.1) panic_run.1) panic_run.2.
Proof.
  replace (panic_objects.1 ++ drop (length panic_objects.1) panic_run.1) with panic_run.1 by (vm_compute; reflexivity).
  exact (run_exec (S := ctrlSig) api_panic (reconcileV1 (RE := plain_reconciler) "default" "test" panicking) ()).
Qed.

Lemma panic_recorded_as_success_witness :
  panic_run.2 = Panic "nil pointer dereference" ∧
  ∃ r, status_written panicking None (drop (length panic_objects.1) panic_run.1) r.
Proof.
  exact (panic_recorded_as_success (RE := plain_reconciler) "default" "test" panicking panic_objects.1 _ _ _
           (λ H, H eq_refl) eq_refl panic_objects_exec panic_run_exec).
Defined.
