(* ===== verification/LostUpdates.v ===== *)
(** * Updates a reconciliation loses

    The steps of a reconciliation decide what to do from state that other steps
    change: the deployed claim templates and the generation in the status.  The
    theorems compose the steps and show what is lost. *)

From S2P Require Import Prelude Prog GoLib Constants Api K8s Password Samples Mycnf StatefulSets Webhook Controller ControllerSamples.
From S2P Require Import ConfigMaps Pvc PvcSpec Containers StatefulSetStep StatefulSetSpec Jobs Reconcile ReconcileSpec.
#[local] Open Scope Z_scope.

Section resize.
Context {RE : Reconciler} {KL : KubeLibs} (cluster : MySQLCluster).

(** Nothing is too small for the templates deployed with their sizes. *)
Lemma needResizePVC_equal sts target :
  (∀ p ct, p ∈ VolumeClaimTemplates (Spec cluster) → ct ∈ sts_VolumeClaimTemplates (sts_Spec sts) →
           ct_Name ct = pvct_Name p → ct_Storage ct = StorageSize p) →
  needResizePVC cluster sts ≠ Return (Some target).
Proof.
  intros Heq. unfold needResizePVC. destruct (sts_VolumeClaimTemplates (sts_Spec sts)) as [|c0 cts]; [done|].
  destruct (resizeTargets _ _ _) as [t| |] eqn:Ht; [|done..]. case_bool_decide as Hne; [done|]. intros [= ->].
  apply map_choose in Hne as (k & ct & Hk).
  destruct (resizeTargets_Some _ _ _ _ _ _ Ht Hk) as [?%lookup_empty_Some|(Hc & p & Hp & <- & Hlt)]; [done|].
  rewrite claims_by_name_fold in Hc.
  apply fold_insert_Some in Hc as [?%lookup_empty_Some|(ct' & Hct & Hname & Hid)]; [done|]. cbn in Hid. subst ct'.
  rewrite (Heq p ct Hp Hct Hname) in Hlt. lia.
Qed.

(** Every write keeps the request of a claim that was listed. *)
Lemma updating_keeps_requests sts t o :
  isUpdatingStatefulSet sts = true →
  exec (reconcilePVC cluster) (get_sts cluster (inr sts) :: t) o →
  ∀ pvc' r, ev (S := ctrlSig) (RUpdatePVC pvc') r ∈ t →
  ∃ ns sel pvcs pvc, ev (S := ctrlSig) (RListPVCs ns sel) (inr pvcs) ∈ t ∧ pvc ∈ pvcs ∧
    pvc_Name pvc' = pvc_Name pvc ∧ pvc_Requests pvc' = pvc_Requests pvc.
Proof.
  intros Hup (r0 & Heq & Hex) pvc' r Hin. apply ev_inj in Heq as <-. cbn [bind rcall_ perform] in Hex.
  set (h := [get_sts cluster (inr sts)]).
  assert (Hex' : ∃ o', exec (syncPVCLabelAndAnnotationValues cluster sts) t o').
  { apply exec_bind_outcome_inv in Hex as [(t1 & t2 & [] & -> & H1 & H2)|[(e & H & _)|(m & H & _)]]; [|by eauto..].
    rewrite Hup in H2. destruct H2 as [-> _]. rewrite app_nil_r. eauto. }
  destruct Hex' as [o' Hex'].
  assert (occurs h (RGetStatefulSet (Namespace cluster) (PrefixedName cluster)) (inr sts)) as Hsts by apply (occurs_last []).
  destruct (wp_exec _ _ h _ _ _ (wp_sync cluster h sts Hsts) Hex') as [_ Hall].
  apply list_elem_of_split in Hin as (t1 & t2 & ->).
  destruct (Hall t1 _ r t2 eq_refl) as (s & pvcs & pvc & tm & (_ & sel & Hl) & Hp & _ & (l & a & -> & _)).
  apply elem_of_app in Hl as [Hl|Hl]; [by apply list_elem_of_singleton in Hl|].
  exists (meta_Namespace (sts_Meta s)), sel, pvcs, pvc. split; [|done]. apply elem_of_app. by left.
Qed.

(** The StatefulSet that is applied asks for the sizes of the templates. *)
Lemma applied_requests mycnf slow t o cfg r :
  exec (reconcileV1StatefulSet cluster mycnf slow) t o → ev (S := ctrlSig) (RApply cfg) r ∈ t →
  Forall2 (λ c p, cla_Name c = pvct_Name p ∧ cla_Requests c = pvct_Requests p)
    (default [] (applied_claims (Some cfg))) (VolumeClaimTemplates (Spec cluster)).
Proof.
  intros Hex Hin. apply list_elem_of_split in Hin as (t1 & t2 & ->).
  destruct (proj2 (wp_exec _ _ [] _ _ _ (wp_statefulset cluster mycnf slow) Hex) _ _ _ _ eq_refl)
    as (orig & old & _ & (claims & podSpec & Hc & Hcfg & _) & _).
  unfold setControllerReference in Hcfg. destruct GVKForObject as [e|[gv kd]]; [done|]. injection Hcfg as <-.
  apply makeClaims_Forall2 in Hc. cbn. destruct claims as [|c cs]; [by inversion Hc|].
  eapply Forall2_impl; [exact Hc|]. by intros c' p (? & ? & _).
Qed.
End resize.

(** While the StatefulSet is being updated a reconciliation enlarges no
    claim, yet the StatefulSet it applies has the new sizes; once it is deployed
    no claim counts as too small any more: the enlargement is lost. *)
Theorem resize_lost_while_updating {RE : Reconciler} {KL : KubeLibs} cluster sts t o :
  isUpdatingStatefulSet sts = true →
  exec (reconcilePVC cluster) (get_sts cluster (inr sts) :: t) o →
  (∀ pvc' r, ev (S := ctrlSig) (RUpdatePVC pvc') r ∈ t →
     ∃ ns sel pvcs pvc, ev (S := ctrlSig) (RListPVCs ns sel) (inr pvcs) ∈ t ∧ pvc ∈ pvcs ∧
       pvc_Name pvc' = pvc_Name pvc ∧ pvc_Requests pvc' = pvc_Requests pvc) ∧
  (∀ mycnf slow t' o' cfg r,
     exec (reconcileV1StatefulSet cluster mycnf slow) t' o' → ev (S := ctrlSig) (RApply cfg) r ∈ t' →
     Forall2 (λ c p, cla_Name c = pvct_Name p ∧ cla_Requests c = pvct_Requests p)
       (default [] (applied_claims (Some cfg))) (VolumeClaimTemplates (Spec cluster))) ∧
  (∀ sts' target,
     (∀ p ct, p ∈ VolumeClaimTemplates (Spec cluster) → ct ∈ sts_VolumeClaimTemplates (sts_Spec sts') →
              ct_Name ct = pvct_Name p → ct_Storage ct = StorageSize p) →
     needResizePVC cluster sts' ≠ Return (Some target)).
Proof.
  intros Hup Hex. split; [by eapply updating_keeps_requests|]. split; [by apply applied_requests|].
  intros sts' target. apply needResizePVC_equal.
Qed.

(** ** The slow-log container *)

Section slow_log.
Context {RE : Reconciler} {KL : KubeLibs}.

(** The containers after mysqld, the agent and the slow-log container. *)
Definition further_containers (cluster : MySQLCluster) : list Container :=
  (if 0 <? go_len (Collectors (Spec cluster)) then [makeV1ExporterContainer cluster (Collectors (Spec cluster))] else []) ++
  makeV1OptionalContainers cluster.

Lemma makeContainers_slow cluster orig cfg mysqld c :
  DisableSlowQueryLogContainer (Spec cluster) = false →
  makeV1MySQLDContainer cluster = Return mysqld → ExtractStatefulSet orig = inr cfg →
  makeV1SlowQueryLogContainer cluster cfg
    (negb (ri_Generation (ReconcileInfo_ (Status cluster)) =? meta_Generation (cluster_Meta cluster))) = Return c →
  exec (makeContainers cluster orig) []
    (Return (mysqld, [mysqld; makeV1AgentContainer cluster; c] ++ further_containers cluster)).
Proof.
  intros Hdis Hm Hext Hc. unfold makeContainers. rewrite Hm, Hdis, Hext. cbn [negb]. cbn [wrap_err bind fallible outcome_of].
  unfold fallible, wrap_err, bind_outcome. cbn [bind outcome_of]. rewrite Hc. done.
Qed.
End slow_log.

(** A reconciliation of a new generation that fails, at whatever step,
    records the generation as reconciled.  The next one then keeps the deployed
    slow-log container, where the failed one would have used a new one: a change
    of the specification of that container is lost. *)
Theorem slow_log_update_lost {RE : Reconciler} {KL : KubeLibs} {AM : ApiMachinery} {RG : MapRange} {SA : SortByAge} {FN : Finalizers}
    ns n cluster t1 t2 e res c' r orig cfg deployed mysqld :
  ¬ deleted cluster → isReconciliationStopped cluster = false →
  DisableSlowQueryLogContainer (Spec cluster) = false →
  ri_Generation (ReconcileInfo_ (Status cluster)) ≠ meta_Generation (cluster_Meta cluster) →
  exec (reconcileObjects cluster) t1 (Error e) → exec (reconcileV1 ns n cluster) (t1 ++ t2) res →
  ev (S := ctrlSig) (RStatusUpdate c') r ∈ t2 →
  makeV1MySQLDContainer cluster = Return mysqld →
  ExtractStatefulSet orig = inr cfg →
  findNamed SlowQueryLogAgentContainerName (applied_containers cfg) = Return (Some deployed) →
  exec (makeContainers cluster orig) []
    (Return (mysqld, [mysqld; makeV1AgentContainer cluster; newSlowQueryLogContainer cluster] ++ further_containers cluster)) ∧
  exec (makeContainers c' orig) []
    (Return (mysqld, [mysqld; makeV1AgentContainer cluster; deployed] ++ further_containers cluster)).
Proof.
  intros Hd Hs Hdis Hgen Hobj Hex Hin Hm Hext Hfind. split.
  { eapply makeContainers_slow; [done..|]. apply Z.eqb_neq in Hgen as ->. done. }
  destruct (deferredUpdate_writes _ _ _ _ (reconcileV1_objects _ _ _ _ _ _ _ Hd Hs Hobj eq_refl Hex))
    as (r0 & (sts & t' & st & -> & (Hinfo & _) & Hwrite) & _).
  apply elem_of_cons in Hin as [Hin|Hin]; [discriminate|].
  assert (c' = set_Status st cluster) as ->.
  { destruct Hwrite as [[_ Hno]|(r' & t'' & -> & _ & Hno)]; [by apply Hno in Hin|].
    apply elem_of_cons in Hin as [Hin|Hin]; [|by apply Hno in Hin]. by injection Hin. }
  eapply (makeContainers_slow (set_Status st cluster)); [done..|]. unfold makeV1SlowQueryLogContainer.
  cbn [Status set_Status cluster_Meta]. rewrite Hinfo. cbn [ri_Generation]. by rewrite Z.eqb_refl, Hfind.
Qed.

(** ** Witnesses *)

(** The rollout of a new generation has not been observed yet. *)
Definition updating_sts : StatefulSet :=
  {| sts_Meta := sts_Meta (settled_sts 10); sts_Spec := sts_Spec (settled_sts 10);
     sts_Status := {| sts_ObservedGeneration := 2; sts_ReadyReplicas := 3; sts_AvailableReplicas := 3;
                      sts_CurrentReplicas := 3; sts_UpdatedReplicas := 3; sts_CurrentRevision := "r1";
                      sts_UpdateRevision := "r1" |} |}.

Definition updating_api (c : rcall) (s : unit) : rresp c * unit :=
  (match c as c return rresp c with
   | RGetStatefulSet _ _ => inr updating_sts
   | RListPVCs _ _ => inr [sample_pvc 0 (Some "fast") 10]
   | c => sample_answer c
   end, s).

Definition updating_run := run (S := ctrlSig) updating_api (reconcilePVC (admissible_cluster 3 20)) ().

Lemma updating_run_exec :
  exec (reconcilePVC (admissible_cluster 3 20))
    (get_sts (admissible_cluster 3 20) (inr updating_sts) :: drop 1 updating_run.1) updating_run.2.
Proof.
  replace (get_sts (admissible_cluster 3 20) (inr updating_sts) :: drop 1 updating_run.1) with updating_run.1
    by (vm_compute; reflexivity).
  exact (run_exec (S := ctrlSig) updating_api (reconcilePVC (admissible_cluster 3 20)) ()).
Qed.

Lemma resize_lost_while_updating_witness :
  (∃ target, needResizePVC (admissible_cluster 3 20) (settled_sts 10) = Return (Some target)) ∧
  ∀ target, needResizePVC (admissible_cluster 3 20) (settled_sts 20) ≠ Return (Some target).
Proof.
  split; [eexists; vm_compute; reflexivity|].
  destruct (resize_lost_while_updating (admissible_cluster 3 20) updating_sts _ _ eq_refl updating_run_exec) as (_ & _ & H).
  intros target. apply H. intros p ct [->|[]%elem_of_nil]%elem_of_cons [->|[]%elem_of_nil]%elem_of_cons _. reflexivity.
Defined.

(** A cluster whose generation has not been reconciled, and an API server that
    answers no read of a Secret. *)
Definition next_generation : MySQLCluster :=
  let c := admissible_cluster 3 20 in
  {| cluster_Meta := {| meta_Name := "test"; meta_Namespace := "default"; meta_UID := "0123"; meta_Labels := ∅;
                        meta_Annotations := ∅; meta_Generation := 2; meta_DeletionTimestamp := None;
                        meta_Finalizers := []; meta_OwnerReferences := [] |};
     Spec := Spec c; Status := Status c |}.

Definition stale_objects := run (S := ctrlSig) api_down (reconcileObjects (KL := applied_libs) next_generation) ().
Definition stale_run := run (S := ctrlSig) api_down (reconcileV1 (KL := applied_libs) "default" "test" next_generation) ().

Lemma stale_objects_exec : exec (reconcileObjects (KL := applied_libs) next_generation) stale_objects.1 (Error (ErrNew "connection refused")).
Proof.
  replace (Error (ErrNew "connection refused")) with stale_objects.2 by (vm_compute; reflexivity).
  exact (run_exec (S := ctrlSig) api_down (reconcileObjects (KL := applied_libs) next_generation) ()).
Qed.

Lemma stale_run_exec :
  exec (reconcileV1 (KL := applied_libs) "default" "test" next_generation)
    (stale_objects.1 ++ drop (length stale_objects.1) stale_run.1) stale_run.2.
Proof.
  replace (stale_objects.1 ++ drop (length stale_objects.1) stale_run.1) with stale_run.1 by (vm_compute; reflexivity).
  exact (run_exec (S := ctrlSig) api_down (reconcileV1 (KL := applied_libs) "default" "test" next_generation) ()).
Qed.

Lemma stale_run_writes : ∃ c' r,
  ev (S := ctrlSig) (RStatusUpdate c') r ∈ drop (length stale_objects.1) stale_run.1.
Proof.
  destruct (list_find (λ e : {c & rresp c}, Is_true match projT1 e with RStatusUpdate _ => true | _ => false end)
    (drop (length stale_objects.1) stale_run.1)) as [[i [c x]]|] eqn:E; [|vm_compute in E; discriminate].
  apply list_find_Some in E as (Hi & Hc & _). apply list_elem_of_lookup_2 in Hi.
  destruct c; try done. by exists c, x.
Qed.

Lemma slow_log_update_lost_witness : ∃ (mysqld : Container) c' t,
  exec (makeContainers (KL := applied_libs) c' (Some (settled_sts 10))) t
    (Return (mysqld, [mysqld; makeV1AgentContainer next_generation; old_slow_log] ++ further_containers next_generation)).
Proof.
  destruct stale_run_writes as (c' & r & Hin).
  destruct (makeV1MySQLDContainer next_generation) as [mysqld|e|msg] eqn:Hm; [|vm_compute in Hm; discriminate..].
  exists mysqld, c', [].
  apply (slow_log_update_lost (KL := applied_libs) "default" "test" next_generation stale_objects.1
           (drop (length stale_objects.1) stale_run.1) (ErrNew "connection refused") stale_run.2 c' r (Some (settled_sts 10))
           (Some old_config) old_slow_log mysqld); [by intros H|reflexivity|reflexivity|done|exact stale_objects_exec|exact stale_run_exec|exact Hin|exact Hm|reflexivity|reflexivity].
Defined.
