(* ===== verification/Partition.v ===== *)
(** * The partition controller (controllers/partition_controller.go)

    [StatefulSetPartitionReconciler] lowers the partition of a StatefulSet by
    one when the Pods updated so far are ready.  The Pod helpers of kubectl and
    [meta.IsStatusConditionTrue] are parameters with their documented laws. *)

From S2P Require Import Prelude Prog GoLib Constants Api StatefulSets.
#[local] Open Scope Z_scope.

(** ** Helpers of k8s.io packages *)

Class PodUtils := {
  IsPodReady : Pod → bool;
  IsPodAvailable : Pod → Z → Z → bool;   (* pod, minReadySeconds, now *)
  (** "Precondition for an available pod is that it must be ready." *)
  IsPodAvailable_ready p m now : IsPodAvailable p m now = true → IsPodReady p = true;
  (** "true when the conditionType is present and set to ConditionTrue". *)
  IsStatusConditionTrue : list Condition → string → bool;
  IsStatusConditionTrue_spec conds typ :
    IsStatusConditionTrue conds typ = true ↔
    ∃ c, find_condition typ conds = Some c ∧ cond_Status c = ConditionTrue
}.

(** A concrete instance, on the conditions alone. *)
Definition pod_ready (p : Pod) : bool :=
  bool_decide (("Ready", ConditionTrue) ∈ pod_Conditions p).

#[refine] Definition podutils_conditions : PodUtils :=
  {| IsPodReady := pod_ready; IsPodAvailable p _ _ := pod_ready p;
     IsStatusConditionTrue conds typ :=
       match find_condition typ conds with
       | Some c => bool_decide (cond_Status c = ConditionTrue)
       | None => false
       end |}.
Proof.
  - done.
  - intros conds typ. destruct (find_condition typ conds) as [c|]; [|naive_solver].
    rewrite bool_decide_eq_true. naive_solver.
Defined.

(** ** Calls *)

Inductive pcall :=
| PGetStatefulSet (namespace name : string)
| PGetCluster (namespace name : string)
| PListPods (namespace : string) (labels : gmap string string)
| PNow                                          (* metav1.Now() *)
| PAllow                                        (* RateLimiter.Allow() *)
| PPatchStatefulSet (old new : StatefulSet)     (* r.Patch(new, MergeFrom(old)) *)
| PEventf (sts : StatefulSet) (reason message : string)
| PMetric (name cluster namespace : string) (v : option Z).

Definition presp (c : pcall) : Type :=
  match c with
  | PGetStatefulSet _ _ => extres StatefulSet
  | PGetCluster _ _ => extres MySQLCluster
  | PListPods _ _ => extres (list Pod)
  | PNow => Z
  | PAllow => bool
  | PPatchStatefulSet _ _ => extres unit
  | _ => unit
  end.

Definition partSig : signature := {| call := pcall; resp := presp |}.
Definition pcall_ (c : pcall) : prog partSig (presp c) := @perform partSig c.

(** The label with the revision of a Pod. *)
Definition ControllerRevisionHashLabelKey : string := "controller-revision-hash".
Definition revision (p : Pod) : string := map_str (pod_Labels p) ControllerRevisionHashLabelKey.

(** [reconcile.Result.RequeueAfter] in milliseconds; 0 asks for no requeue. *)
Abbreviation Result := Z (only parsing).

Section partition.
Context {PU : PodUtils}.
(** [r.UpdateInterval]. *)
Variable UpdateInterval : Z.

(* controllers/partition_controller.go :: needPartitionUpdate *)
Definition needPartitionUpdate (sts : StatefulSet) : bool :=
  if map_str (meta_Annotations (sts_Meta sts)) AnnForceRollingUpdate =s "true" then false else
  match partition_of sts with
  | None => false
  | Some p => 0 <? p
  end.

(* controllers/partition_controller.go :: nextRolloutTargetIndex *)
Definition nextRolloutTargetIndex (sts : StatefulSet) : Z :=
  match partition_of sts with
  | None => -1
  | Some p => p - 1
  end.

(* controllers/partition_controller.go :: isMySQLClusterHealthy *)
Definition isMySQLClusterHealthy (cluster : MySQLCluster) : bool :=
  IsStatusConditionTrue (Conditions (Status cluster)) ConditionHealthy.

(** [sort.Slice] by name.  The names of the Pods of a namespace are distinct, so
    the sorted slice does not depend on the sorting algorithm. *)
Definition name_le (a b : Pod) : Prop := String.le (pod_Name a) (pod_Name b).
#[export] Instance name_le_dec : RelDecision name_le := λ a b, String.le_dec (pod_Name a) (pod_Name b).
(* controllers/partition_controller.go:198-200 getSortedPodList *)
Definition sortPods (pods : list Pod) : list Pod := merge_sort name_le pods.

(* controllers/partition_controller.go :: getSortedPodList *)
Definition getSortedPodList (sts : StatefulSet) : prog partSig (outcome (list Pod)) :=
  labels <-? or_panic (sts_MatchLabels (sts_Spec sts)) "nil pointer dereference" ;;
  r <-- pcall_ (PListPods (meta_Namespace (sts_Meta sts)) labels) ;;
  pods <-? check_res id r ;;
  Ret (Return (sortPods pods)).

(** The loop over the Pods; an early [return false]. *)
(* controllers/partition_controller.go:205-235 areAllChildPodsRolloutReady *)
Fixpoint childPodsReady (sts : StatefulSet) (pods : list (Z * Pod)) : prog partSig (outcome bool) :=
  match pods with
  | [] => Ret (Return true)
  | (i, pod) :: rest =>
      if i =? nextRolloutTargetIndex sts then childPodsReady sts rest else
      ru <-? or_panic (sts_RollingUpdate (sts_Spec sts)) "nil pointer dereference" ;;
      if (default 0 (ru_Partition ru) <=? i) && (revision pod <>s sts_UpdateRevision (sts_Status sts))
      then Ret (Return false) else
      if bool_decide (is_Some (pod_DeletionTimestamp pod)) then Ret (Return false) else
      now <-- pcall_ PNow ;;
      if negb (IsPodAvailable pod 5 now) then Ret (Return false) else
      if existsb negb (pod_InitContainerReady pod) then Ret (Return false) else
      if existsb negb (pod_ContainerReady pod) then Ret (Return false) else
      childPodsReady sts rest
  end.

(* controllers/partition_controller.go :: areAllChildPodsRolloutReady *)
Definition areAllChildPodsRolloutReady (sts : StatefulSet) (sortedPodList : list Pod)
    : prog partSig (outcome bool) :=
  childPodsReady sts (indexed sortedPodList).

(* controllers/partition_controller.go :: isRolloutReady *)
Definition isRolloutReady (cluster : MySQLCluster) (sts : StatefulSet) : prog partSig (outcome bool) :=
  let replicas := default 1 (sts_Replicas (sts_Spec sts)) in
  if replicas =? sts_UpdatedReplicas (sts_Status sts) then Ret (Return true) else
  r <-- getSortedPodList sts ;;
  podList <-? Ret (match r with
                   | Error e => Error (ErrWrap "failed to get pod list" e)
                   | r => r
                   end) ;;
  if negb (replicas =? wrap32 (go_len podList)) then Ret (Return false) else
  let nextRolloutTarget := nextRolloutTargetIndex sts in
  if nextRolloutTarget <? 0 then Ret (Return false) else
  target <-? or_panic (index_at podList nextRolloutTarget) "index out of range" ;;
  if revision target =s sts_UpdateRevision (sts_Status sts) then Ret (Return true) else
  if IsPodReady target && negb (isMySQLClusterHealthy cluster) then Ret (Return false) else
  areAllChildPodsRolloutReady sts podList.

(* controllers/partition_controller.go :: getMySQLCluster *)
Definition getMySQLCluster (sts : StatefulSet) : prog partSig (extres MySQLCluster) :=
  let ns := meta_Namespace (sts_Meta sts) in
  match filter (λ o, (owner_Kind o =s "MySQLCluster") = true) (meta_OwnerReferences (sts_Meta sts)) with
  | [] => Ret (inl (ErrNew ("StatefulSet " +:+ ns +:+ "/" +:+ meta_Name (sts_Meta sts)
                            +:+ " has no owner reference to MySQLCluster")))
  | o :: _ => pcall_ (PGetCluster ns (owner_Name o))
  end.

(* controllers/partition_controller.go :: patchNewPartition *)
Definition patchNewPartition (sts : StatefulSet) : prog partSig (outcome unit) :=
  oldPartition <-? or_panic (partition_of sts) "nil pointer dereference" ;;
  let newPartition := wrap32 (oldPartition - 1) in
  if oldPartition =? 0 then Ret (Return ()) else
  let new := set_partition newPartition sts in
  r <-- pcall_ (PPatchStatefulSet sts new) ;;
  _ <-? check_res (ErrWrap ("failed to patch new partition to StatefulSet "
                            +:+ meta_Namespace (sts_Meta sts) +:+ "/" +:+ meta_Name (sts_Meta sts))) r ;;
  _ <-- pcall_ (PEventf new "PartitionUpdate"
                  ("Updated partition from " +:+ Itoa oldPartition +:+ " to " +:+ Itoa newPartition)) ;;
  Ret (Return ()).

(** From the check of the generations on. *)
(* controllers/partition_controller.go:71-101 Reconcile *)
Definition reconcilePartition (namespace : string) (cluster : MySQLCluster) (sts : StatefulSet)
    : prog partSig (outcome Result) :=
  if negb (meta_Generation (cluster_Meta cluster) =? ri_Generation (ReconcileInfo_ (Status cluster)))
     || negb (meta_Generation (sts_Meta sts) =? sts_ObservedGeneration (sts_Status sts))
  then Ret (Return 10000) else
  if negb (needPartitionUpdate sts) then Ret (Return 0) else
  ready <-? isRolloutReady cluster sts ;;
  if negb (ready : bool) then Ret (Return 30000) else
  allowed <-- pcall_ PAllow ;;
  if negb (allowed : bool) then
    _ <-- pcall_ (PMetric "partition_update_retries_total" "" namespace None) ;;
    Ret (Return UpdateInterval)
  else
    _ <-? patchNewPartition sts ;;
    _ <-- pcall_ (PMetric "last_partition_updated" (Name cluster) (Namespace cluster) None) ;;
    Ret (Return 10000).

(* controllers/partition_controller.go :: StatefulSetPartitionReconciler.Reconcile *)
Definition Partition_Reconcile (namespace name : string) : prog partSig (outcome Result) :=
  r <-- pcall_ (PGetStatefulSet namespace name) ;;
  match r with
  | inl e => if is_not_found e then Ret (Return 0) else Ret (Error e)
  | inr sts =>
      c <-- getMySQLCluster sts ;;
      cluster <-? check_res (ErrWrap "failed to get MySQLCluster") c ;;
      _ <-- pcall_ (PMetric "current_replicas" (Name cluster) (Namespace cluster)
                      (Some (sts_CurrentReplicas (sts_Status sts)))) ;;
      _ <-- pcall_ (PMetric "updated_replicas" (Name cluster) (Namespace cluster)
                      (Some (sts_UpdatedReplicas (sts_Status sts)))) ;;
      reconcilePartition namespace cluster sts
  end.
End partition.
