(* ===== verification/PartitionSpec.v ===== *)
(** * Rolling updates are safe

    The partition of a StatefulSet is lowered by one at a time, only while the
    Pods other than the next target are up and those already in the update run
    the new revision; a change of the specification starts over.  The controller
    and the webhook agree on which updates are steps of the rollout. *)

From S2P Require Import Prelude Prog GoLib Constants Api StatefulSets Partition Cluster Samples.
#[local] Open Scope Z_scope.

Lemma wrap32_le x : 0 ≤ x → wrap32 x ≤ x.
Proof.
  unfold wrap32, wrap. change (2 ^ (32 - 1)) with (2 ^ 31). intros Hx.
  pose proof (Z.mod_le (x + 2 ^ 31) (2 ^ 32)). lia.
Qed.

Lemma partition_of_set p q sts :
  partition_of sts = Some p → partition_of (set_partition q sts) = Some q.
Proof.
  unfold partition_of, set_partition, set_RollingUpdate, set_strategy. cbn.
  by destruct (sts_RollingUpdate (sts_Spec sts)).
Qed.

(** ** The controller *)

Section controller.
Context {PU : PodUtils}.
Variable UpdateInterval : Z.

(** A Pod that is not the target: it runs the new revision if it is in the
    update already, is not being deleted, and is ready with its containers. *)
Definition settled (sts : StatefulSet) (p i : Z) (pod : Pod) : Prop :=
  (p ≤ i → revision pod = sts_UpdateRevision (sts_Status sts)) ∧
  pod_DeletionTimestamp pod = None ∧ IsPodReady pod = true ∧
  Forall (λ b, b = true) (pod_InitContainerReady pod ++ pod_ContainerReady pod).

Definition others_settled (sts : StatefulSet) (p : Z) (pods : list (Z * Pod)) : Prop :=
  ∀ i pod, (i, pod) ∈ pods → i ≠ p - 1 → settled sts p i pod.

(** When lowering the partition [p] does not make the cluster lose an instance
    more than the one to be restarted. *)
Definition rollout_ready (h : trace partSig) (cluster : MySQLCluster) (sts : StatefulSet) (p : Z) : Prop :=
  default 1 (sts_Replicas (sts_Spec sts)) = sts_UpdatedReplicas (sts_Status sts) ∨
  ∃ labels pods target,
    occurs h (PListPods (meta_Namespace (sts_Meta sts)) labels : call partSig) (inr pods) ∧
    sts_MatchLabels (sts_Spec sts) = Some labels ∧
    index_at (sortPods pods) (p - 1) = Some target ∧
    (revision target = sts_UpdateRevision (sts_Status sts) ∨
     (IsPodReady target = true → isMySQLClusterHealthy cluster = true) ∧
     others_settled sts p (indexed (sortPods pods))).

Definition is_patch (c : pcall) : bool :=
  match c with PPatchStatefulSet _ _ => true | _ => false end.
Definition no_patch (h : trace partSig) : Prop := Forall (λ e, is_patch (projT1 e) = false) h.
Definition no_patches (h : trace partSig) (c : pcall) : Prop := is_patch c = false.

(** What holds when the controller patches a StatefulSet. *)
Definition lowered (ns name : string) (h : trace partSig) (old new : StatefulSet) : Prop :=
  ∃ cluster owner p,
    occurs h (PGetStatefulSet ns name : call partSig) (inr old) ∧
    occurs h (PGetCluster (meta_Namespace (sts_Meta old)) owner : call partSig) (inr cluster) ∧
    occurs h (PAllow : call partSig) true ∧ no_patch h ∧
    meta_Generation (cluster_Meta cluster) = ri_Generation (ReconcileInfo_ (Status cluster)) ∧
    meta_Generation (sts_Meta old) = sts_ObservedGeneration (sts_Status old) ∧
    map_str (meta_Annotations (sts_Meta old)) AnnForceRollingUpdate ≠ "true" ∧
    partition_of old = Some p ∧ 0 < p ∧ new = set_partition (wrap32 (p - 1)) old ∧
    rollout_ready h cluster old p.

Definition partition_protocol (ns name : string) (h : trace partSig) (c : pcall) : Prop :=
  match c with PPatchStatefulSet old new => lowered ns name h old new | _ => True end.

(** What the API server maintains: a selector and a partition in range. *)
Definition sane_sts (sts : StatefulSet) : Prop :=
  is_Some (sts_MatchLabels (sts_Spec sts)) ∧
  ∀ p, partition_of sts = Some p → p ≤ default 1 (sts_Replicas (sts_Spec sts)).

Lemma no_patch_snoc h c (r : resp partSig c) :
  no_patch h → is_patch c = false → no_patch (h ++ [@ev partSig c r]).
Proof. intros ??. apply Forall_app. split; [done|]. by apply Forall_singleton. Qed.

Lemma no_patches_invariant {A} (p : prog partSig A) h Q :
  no_patch h → wp no_patches p h Q →
  ∀ ns name, wp (partition_protocol ns name) p h (λ h' a, (Q h' a ∧ no_patch h') ∧ ∃ t, h' = h ++ t).
Proof.
  intros Hno Hp ns name. apply wp_extends.
  eapply wp_mono; [..|apply (wp_invariant no_patches no_patch); [|exact Hno|exact Hp]].
  - intros h' []; done.
  - done.
  - intros h' c r. apply no_patch_snoc.
Qed.

Lemma wp_childPodsReady sts p pods h :
  partition_of sts = Some p →
  wp no_patches (childPodsReady sts pods) h
     (λ _ o, match o with Return true => others_settled sts p pods | Panic _ => False | _ => True end).
Proof.
  intros Hp. unfold partition_of in Hp.
  destruct (sts_RollingUpdate (sts_Spec sts)) as [ru|] eqn:Hru; [|done]. cbn in Hp.
  assert (nextRolloutTargetIndex sts = p - 1) as Hnext.
  { unfold nextRolloutTargetIndex, partition_of. rewrite Hru. cbn. by rewrite Hp. }
  revert h. induction pods as [|[i pod] rest IH]; intros h; cbn [childPodsReady].
  { intros j q []%elem_of_nil. }
  rewrite Hnext. destruct (i =? p - 1) eqn:Hi; bool_cases.
  { eapply wp_conseq; [apply IH|]. intros h' [[]| |]; [|done..].
    intros Hall j q [?|?]%elem_of_cons Hj; [by simplify_eq|by apply Hall]. }
  rewrite Hru. wp_norm. rewrite Hp. change (default 0 (Some p)) with p.
  destruct ((p <=? i) && _) eqn:Hrev; [done|].
  case_bool_decide as Hdel; [done|]. unfold pcall_. wp_norm. split; [done|]. intros now.
  destruct (IsPodAvailable pod 5 now) eqn:Hav; [|done]. cbn [negb].
  destruct (existsb negb (pod_InitContainerReady pod)) eqn:Hic; [done|].
  destruct (existsb negb (pod_ContainerReady pod)) eqn:Hc; [done|].
  eapply wp_conseq; [apply IH|]. intros h' [[]| |]; [|done..].
  intros Hall j q [?|?]%elem_of_cons Hj; [|by apply Hall]. simplify_eq.
  split_and!.
  - intros Hle. apply andb_false_iff in Hrev as [?|?]; bool_cases; [lia|done].
  - by apply eq_None_not_Some.
  - by eapply IsPodAvailable_ready.
  - apply Forall_app; split; apply Forall_forall; intros b Hb; destruct b; try done; exfalso;
      [apply not_true_iff_false in Hic; apply Hic|apply not_true_iff_false in Hc; apply Hc];
      apply existsb_exists; exists false; (split; [by apply list_elem_of_In|done]).
Qed.

Lemma wp_isRolloutReady cluster sts p h :
  partition_of sts = Some p → 0 < p →
  wp no_patches (isRolloutReady cluster sts) h
     (λ h' o, match o with
              | Return true => rollout_ready h' cluster sts p
              | Panic _ => ¬ sane_sts sts
              | _ => True
              end).
Proof.
  intros Hp Hpos. unfold isRolloutReady.
  assert (nextRolloutTargetIndex sts = p - 1) as -> by (unfold nextRolloutTargetIndex; by rewrite Hp).
  destruct (_ =? sts_UpdatedReplicas _) eqn:Hup; bool_cases; [by left|].
  unfold getSortedPodList, pcall_. wp_norm.
  destruct (sts_MatchLabels (sts_Spec sts)) as [labels|] eqn:Hsel; cbn; [|intros [[] _]; congruence].
  split; [done|]. intros [e|pods]; cbn; [done|].
  destruct (_ =? wrap32 _) eqn:Hlen; bool_cases; cbn [negb]; [|done].
  destruct (p - 1 <? 0) eqn:Hneg; bool_cases; [done|]. wp_norm.
  destruct (index_at (sortPods pods) (p - 1)) as [target|] eqn:Htarget; cbn.
  2: { intros [_ Hle]. specialize (Hle _ Hp). apply index_at_None in Htarget.
       pose proof (wrap32_le (go_len (sortPods pods)) (go_len_nonneg _)). lia. }
  assert (occurs (h ++ [@ev partSig (PListPods (meta_Namespace (sts_Meta sts)) labels) (inr pods)])
            (PListPods (meta_Namespace (sts_Meta sts)) labels : call partSig) (inr pods)) as Hocc
    by apply occurs_last.
  destruct (revision target =s _) eqn:Hrev; bool_cases.
  { right. exists labels, pods, target. auto. }
  destruct (IsPodReady target && _) eqn:Hready; [done|].
  eapply wp_conseq; [apply wp_extends, (wp_childPodsReady _ p); done|].
  intros h' [[]| |m] [Hall [t ->]]; try done. right. exists labels, pods, target.
  split_and!; [by apply occurs_app_l|done|done|right]. split; [|done].
  intros Hr. rewrite Hr in Hready. cbn in Hready. by bool_cases.
Qed.

Lemma wp_getMySQLCluster sts h :
  wp no_patches (getMySQLCluster sts) h
     (λ h' r, match r with
              | inr cluster => ∃ owner, occurs h' (PGetCluster (meta_Namespace (sts_Meta sts)) owner : call partSig)
                                          (inr cluster)
              | inl _ => True
              end).
Proof.
  unfold getMySQLCluster. destruct (filter _ _) as [|o os]; [done|]. unfold pcall_. cbn.
  split; [done|]. intros [e|cluster]; [done|]. exists (owner_Name o). apply occurs_last.
Qed.

(** The result: which requeue a round asks for. *)
Definition requeued (sts : StatefulSet) (o : outcome Z) : Prop :=
  match o with
  | Return r => (needPartitionUpdate sts = true → 0 < r) ∧ 0 ≤ r
  | Error _ => True
  | Panic _ => ¬ sane_sts sts
  end.

Lemma wp_reconcilePartition ns name namespace cluster owner sts h :
  0 < UpdateInterval → no_patch h →
  occurs h (PGetStatefulSet ns name : call partSig) (inr sts) →
  occurs h (PGetCluster (meta_Namespace (sts_Meta sts)) owner : call partSig) (inr cluster) →
  wp (partition_protocol ns name) (reconcilePartition UpdateInterval namespace cluster sts) h
     (λ _ o, requeued sts o).
Proof.
  intros Hint Hno Hsts Hcl. unfold reconcilePartition.
  destruct (_ || _) eqn:Hgen; [split; lia|]. bool_cases.
  destruct (needPartitionUpdate sts) eqn:Hneed; cbn [negb].
  2: { split; [congruence|done]. }
  pose proof Hneed as Hneed'. unfold needPartitionUpdate in Hneed'.
  destruct (_ =s "true") eqn:Hforce; [done|]. bool_cases.
  destruct (partition_of sts) as [p|] eqn:Hp; [|done]. bool_cases.
  wp_norm. eapply wp_conseq.
  { apply no_patches_invariant; [done|]. by apply (wp_isRolloutReady cluster sts p). }
  intros h1 [[]|e|m] [[Hready Hno1] [t1 ->]]; cbn; [|split; lia|done|done].
  split; [done|]. intros [].
  2: { cbn. split; [done|]. intros _. split; lia. }
  cbn. unfold patchNewPartition, pcall_. rewrite Hp. wp_norm.
  destruct (p =? 0) eqn:Hp0; bool_cases; [lia|].
  wp_norm. split.
  { exists cluster, owner, p. split_and!; try done.
    - by apply occurs_app_l, occurs_app_l.
    - by apply occurs_app_l, occurs_app_l.
    - apply occurs_last.
    - by apply no_patch_snoc.
    - destruct Hready as [Hup|(labels & pods & target & Hl & Hrest)]; [by left|].
      right. exists labels, pods, target. split; [by apply occurs_app_l|done]. }
  intros [e|[]]; cbn; [done|]. split; [done|]. intros _. split; [done|]. intros _. split; lia.
Qed.

(** The first thing a round does is to read the StatefulSet; what follows is
    decided by the answer. *)
Definition round_result (ns name : string) (h : trace partSig) (o : outcome Z) : Prop :=
  ∃ r rest, h = @ev partSig (PGetStatefulSet ns name) r :: rest ∧
    match r with
    | inr sts => requeued sts o
    | inl e => o = if is_not_found e then Return 0 else Error e
    end.

Lemma wp_Partition_Reconcile ns name :
  0 < UpdateInterval →
  wp (partition_protocol ns name) (Partition_Reconcile UpdateInterval ns name) [] (round_result ns name).
Proof.
  intros Hint. unfold Partition_Reconcile, pcall_. wp_norm. split; [done|]. intros [e|sts].
  { destruct (is_not_found e) eqn:He; (eexists (inl e), _; split; [done|]; cbn; by rewrite He). }
  wp_norm. eapply wp_conseq; [apply no_patches_invariant; [|apply wp_getMySQLCluster]|].
  { by apply Forall_singleton. }
  intros h1 [e|cluster] [[Hc Hno] [t' ->]]; [by eexists _, _|]. destruct Hc as [owner Hocc]. wp_norm.
  split; [done|]. intros []. split; [done|]. intros [].
  eapply wp_conseq; [apply wp_extends, (wp_reconcilePartition _ _ _ cluster owner); [done| | |]|].
  - do 2 (apply no_patch_snoc; [|done]). exact Hno.
  - do 2 apply occurs_app_l. apply (occurs_app_l [_]). apply (occurs_last []).
  - by do 2 apply occurs_app_l.
  - intros h' o [Ho [t ->]]. eexists _, _. by split; [rewrite <- !app_assoc|].
Qed.


(** A rollout is not abandoned: as long as the partition the controller read
    is positive and updates are not forced, a round that returns without an
    error asks to be run again after a positive time; and no round panics on a
    StatefulSet with a selector and a partition of at most its replicas. *)
Theorem rollout_is_not_abandoned ns name t o :
  0 < UpdateInterval →
  exec (Partition_Reconcile UpdateInterval ns name) t o → round_result ns name t o.
Proof.
  intros Hint Hex. eapply (wp_exec _ _ []) in Hex as [HQ _]; [|by apply (wp_Partition_Reconcile ns name)].
  done.
Qed.
End controller.

(** ** Pods in order *)

Lemma string_le_app p a b : String.le a b → String.le (p +:+ a) (p +:+ b).
Proof.
  assert (String.compare (p +:+ a) (p +:+ b) = String.compare a b) as Hc.
  { induction p as [|c p IH]; [done|]. simpl. unfold Ascii.compare. by rewrite N.compare_refl. }
  unfold String.le, String.leb. by rewrite Hc.
Qed.

Lemma sortPods_by_name (f : Z → Pod) (l ks : list Z) prefix :
  (∀ i, pod_Name (f i) = prefix +:+ Itoa i) → ks ≡ₚ l →
  StronglySorted (λ i j, String.le (Itoa i) (Itoa j)) ks →
  ∀ pods, pods ≡ₚ f <$> l → sortPods pods = f <$> ks.
Proof.
  intros Hname Hks Hsorted pods Hpods.
  assert (sortPods pods ≡ₚ f <$> ks) as Hperm.
  { rewrite Hks, <- Hpods. apply merge_sort_Permutation. }
  apply (StronglySorted_unique_strong name_le); [|..|done].
  - intros a b Ha Hb Hab Hba. rewrite Hperm in Ha.
    apply list_elem_of_fmap in Ha as (i & -> & _). apply list_elem_of_fmap in Hb as (j & -> & _).
    assert (Itoa i = Itoa j) as ->%Itoa_inj; [|done].
    apply (String.app_inj prefix). rewrite <- !Hname. by apply (anti_symm String.le).
  - unfold sortPods. apply StronglySorted_merge_sort.
    + intros x y z. unfold name_le. apply transitivity.
    + intros x y. apply (total String.le).
  - clear -Hname Hsorted. induction Hsorted as [|i ks Hss IH Hall]; cbn; constructor; [done|].
    apply Forall_fmap. eapply Forall_impl; [exact Hall|]. intros j Hj. unfold name_le, compose.
    rewrite !Hname. by apply string_le_app.
Qed.

(** The Pods of a StatefulSet with at most ten replicas, listed in any
    order, are sorted by their ordinals, so the index of the next rollout target
    is the ordinal of its Pod; with eleven replicas it is not. *)
Theorem pods_sorted_by_ordinal (f : Z → Pod) (sname : string) (n : Z) (pods : list Pod) :
  (∀ i, pod_Name (f i) = sname +:+ "-" +:+ Itoa i) → pods ≡ₚ f <$> upto n →
  (n ≤ 10 → sortPods pods = f <$> upto n) ∧
  (n = 11 → index_at (sortPods pods) 2 = Some (f 10)).
Proof.
  intros Hname Hpods. set (prefix := sname +:+ "-").
  assert (∀ i, pod_Name (f i) = prefix +:+ Itoa i) as Hname'.
  { intros i. rewrite Hname. unfold prefix. by rewrite str_app_assoc. }
  split; intros Hn.
  - eapply sortPods_by_name; [done..| |done].
    assert (upto n ∈ upto <$> upto 11) as Hin.
    { destruct (decide (0 ≤ n)) as [H0|H0].
      - apply list_elem_of_fmap_2, elem_of_upto. lia.
      - replace (upto n) with (upto 0); [by left|]. unfold upto. do 2 f_equal. lia. }
    revert Hin. generalize (upto n). apply Forall_forall. clear.
    let v := eval vm_compute in (upto <$> upto 11) in change (upto <$> upto 11) with v.
    repeat (constructor; [repeat constructor; vm_compute; done|]). constructor.
  - subst n. rewrite (sortPods_by_name f (upto 11) [0; 1; 10; 2; 3; 4; 5; 6; 7; 8; 9] prefix); try done.
    + apply (bool_decide_unpack _). vm_compute. done.
    + repeat constructor; vm_compute; done.
Qed.

(** ** The webhook *)

Section webhook.
Context {EQ : SpecEquality} {PU : PodUtils}.
Variable Decode : string → extres StatefulSet.

Definition owned_by_cluster (sts : StatefulSet) : Prop :=
  ∃ o, meta_OwnerReferences (sts_Meta sts) = [o] ∧ owner_Kind o = "MySQLCluster".

Definition not_forced (sts : StatefulSet) : Prop :=
  map_str (meta_Annotations (sts_Meta sts)) AnnForceRollingUpdate ≠ "true".

(** The specification apart from the update strategy. *)
Definition spec_body (sts : StatefulSet) : StatefulSetSpec := set_strategy "" None (sts_Spec sts).

Definition update_of (raw : string) : AdmissionRequest :=
  {| adm_Operation := OpUpdate; adm_OldObject := Some raw |}.

Lemma spec_body_eq a b :
  spec_body a = spec_body b ↔
  set_strategy (sts_StrategyType (sts_Spec b)) (sts_RollingUpdate (sts_Spec b)) (sts_Spec a) = sts_Spec b.
Proof.
  unfold spec_body, set_strategy.
  destruct (sts_Spec a) as [r1 m1 t1 u1 p1 x1], (sts_Spec b) as [r2 m2 t2 u2 p2 x2]. cbn.
  split; intros [=]; congruence.
Qed.

Lemma Default_owned raw old sts p q :
  Decode raw = inr old → owned_by_cluster sts → not_forced sts →
  partition_of sts = Some p → partition_of old = Some q →
  StatefulSetDefaulter_Default Decode (inr (update_of raw)) sts =
  if decide (p ≠ q ∧ spec_body sts = spec_body old) then Return sts else resetPartition sts.
Proof.
  intros Hraw (o & Ho & Hkind) Hforce Hp Hq. unfold StatefulSetDefaulter_Default, readStatefulSet.
  cbn [update_of adm_Operation adm_OldObject]. rewrite Ho, Hkind, Hp, Hraw, Hq.
  change (negb ("MySQLCluster" =s "MySQLCluster")) with false. cbn [andb].
  apply String.eqb_neq in Hforce. rewrite Hforce.
  destruct (p =? q) eqn:Hpq; bool_cases; cbn [negb andb]; case_decide as Hd; try tauto.
  - rewrite spec_body_eq in Hd. destruct Hd as [_ Hd]. by apply Spec_DeepEqual_eq in Hd as ->.
  - destruct (Spec_DeepEqual _ _) eqn:E; [|done]. apply Spec_DeepEqual_eq in E.
    rewrite <- spec_body_eq in E. tauto.
Qed.

(** The webhook restarts a rollout: an update of a StatefulSet of a cluster
    that is not a mere change of the partition comes out with the partition set
    to the number of replicas, so no Pod is replaced by it; a mere change of the
    partition is let through; and nothing but the strategy is ever changed. *)
Theorem webhook_restarts_rollout raw old sts p q n :
  Decode raw = inr old → owned_by_cluster sts → not_forced sts →
  partition_of sts = Some p → partition_of old = Some q →
  sts_Replicas (sts_Spec sts) = Some n →
  ∃ sts', StatefulSetDefaulter_Default Decode (inr (update_of raw)) sts = Return sts' ∧
    sts_Meta sts' = sts_Meta sts ∧ spec_body sts' = spec_body sts ∧ sts_Status sts' = sts_Status sts ∧
    partition_of sts' = Some (if decide (p ≠ q ∧ spec_body sts = spec_body old) then p else n).
Proof.
  intros Hraw Ho Hforce Hp Hq Hn. rewrite (Default_owned raw old sts p q) by done.
  case_decide; [by exists sts|]. unfold resetPartition. rewrite Hn. by eexists.
Qed.

Lemma wrap32_pred_ne p : wrap32 (p - 1) ≠ p.
Proof.
  unfold wrap32, wrap. change (2 ^ (32 - 1)) with (2 ^ 31). intros H.
  pose proof (Z.div_mod (p - 1 + 2 ^ 31) (2 ^ 32)). lia.
Qed.

(** The controller and the webhook agree: every patch the partition
    controller makes is let through by the webhook as it is. *)
Theorem controller_patch_admitted ns name h raw old new :
  lowered ns name h old new → Decode raw = inr old → owned_by_cluster old →
  StatefulSetDefaulter_Default Decode (inr (update_of raw)) new = Return new.
Proof.
  intros (cl & ow & p & _ & _ & _ & _ & _ & _ & Hforce & Hp & Hpos & -> & _) Hraw Ho.
  rewrite (Default_owned raw old _ (wrap32 (p - 1)) p); try done.
  - rewrite decide_True; [done|]. split; [apply wrap32_pred_ne|done].
  - by apply (partition_of_set p).
Qed.
End webhook.

(** ** A sample rollout *)

Definition sample_sts (p : Z) : StatefulSet :=
  {| sts_Meta := {| meta_Name := "moco-test"; meta_Namespace := "default"; meta_UID := "1"; meta_Labels := ∅;
                    meta_Annotations := ∅; meta_Generation := 4; meta_DeletionTimestamp := None;
                    meta_Finalizers := [];
                    meta_OwnerReferences := [{| owner_APIVersion := "moco.cybozu.com/v1beta2";
                                                owner_Kind := "MySQLCluster"; owner_Name := "test";
                                                owner_UID := "0123"; owner_Controller := true |}] |};
     sts_Spec := {| sts_Replicas := Some 3; sts_MatchLabels := Some ∅; sts_StrategyType := "RollingUpdate";
                    sts_RollingUpdate := Some {| ru_Partition := Some p; ru_MaxUnavailable := None |};
                    sts_VolumeClaimTemplates := []; sts_Template := "{}"; sts_Rest := "{}" |};
     sts_Status := {| sts_ObservedGeneration := 4; sts_ReadyReplicas := 3; sts_AvailableReplicas := 3;
                      sts_CurrentReplicas := 2; sts_UpdatedReplicas := 1; sts_CurrentRevision := "r1";
                      sts_UpdateRevision := "r2" |} |}.

Definition sample_revision_pod (i : Z) (rev : string) (ready : bool) : Pod :=
  set_pod_Labels {[ControllerRevisionHashLabelKey := rev]} (sample_pod i ready false).

(** Pod 2 is updated and ready, Pod 1 is the target and not ready. *)
Definition partition_env (c : pcall) (s : unit) : presp c * unit :=
  (match c return presp c with
   | PGetStatefulSet _ _ => inr (sample_sts 2)
   | PGetCluster _ _ => inr (sample_cluster 3 0)
   | PListPods _ _ => inr [sample_revision_pod 2 "r2" true; sample_revision_pod 0 "r1" true;
                           sample_revision_pod 1 "r1" false]
   | PNow => 0
   | PAllow => true
   | PPatchStatefulSet _ _ => inr ()
   | PEventf _ _ _ => ()
   | PMetric _ _ _ _ => ()
   end, s).

Definition sample_rollout :=
  run (S := partSig) partition_env
      (Partition_Reconcile (PU := podutils_conditions) 5000 "default" "moco-test") ().

Lemma sample_rollout_exec :
  exec (Partition_Reconcile (PU := podutils_conditions) 5000 "default" "moco-test")
       sample_rollout.1 sample_rollout.2.
Proof. apply run_exec. Qed.


Lemma rollout_is_not_abandoned_witness :
  round_result "default" "moco-test" sample_rollout.1 (Return 10000).
Proof.
  apply (rollout_is_not_abandoned (PU := podutils_conditions) 5000 "default" "moco-test" sample_rollout.1
    (Return 10000) eq_refl). exact sample_rollout_exec.
Defined.

Lemma pods_sorted_by_ordinal_witness :
  sortPods ((λ i, sample_pod i true false) <$> [2; 0; 1]) = (λ i, sample_pod i true false) <$> upto 3.
Proof.
  apply (pods_sorted_by_ordinal (λ i, sample_pod i true false) "moco-test" 3); [done| |lia].
  apply (fmap_Permutation (λ i, sample_pod i true false) [2; 0; 1] (upto 3)).
  apply (bool_decide_unpack _). vm_compute. done.
Defined.

Definition sample_decode (raw : string) : extres StatefulSet := inr (sample_sts 2).

Lemma webhook_restarts_rollout_witness :
  ∃ sts', StatefulSetDefaulter_Default (EQ := spec_equality_dec) sample_decode (inr (update_of "{}"))
            (sample_sts 2) = Return sts' ∧ partition_of sts' = Some 3.
Proof.
  destruct (webhook_restarts_rollout (EQ := spec_equality_dec) sample_decode "{}" (sample_sts 2) (sample_sts 2) 2 2 3)
    as (sts' & HD & _ & _ & _ & Hp); try done.
  { by eexists. }
  exists sts'. split; [done|]. rewrite Hp. by vm_compute.
Defined.

Lemma sample_lowered :
  lowered (PU := podutils_conditions) "default" "moco-test" (take 8 sample_rollout.1)
          (sample_sts 2) (sample_sts 1).
Proof.
  destruct (wp_exec _ _ [] _ _ _ (wp_Partition_Reconcile (PU := podutils_conditions) 5000
    "default" "moco-test" eq_refl) sample_rollout_exec) as [_ HP].
  apply (HP (take 8 sample_rollout.1) (PPatchStatefulSet (sample_sts 2) (sample_sts 1)) (inr ())
    (drop 9 sample_rollout.1)). vm_compute. done.
Qed.

Lemma controller_patch_admitted_witness :
  StatefulSetDefaulter_Default (EQ := spec_equality_dec) sample_decode (inr (update_of "{}")) (sample_sts 1)
  = Return (sample_sts 1).
Proof.
  eapply (controller_patch_admitted (EQ := spec_equality_dec) (PU := podutils_conditions) sample_decode
    "default" "moco-test" (take 8 sample_rollout.1)); [|done|by eexists].
  exact sample_lowered.
Defined.
