(* ===== verification/Rollout.v ===== *)
(** * Rollouts from start to end

    The partition controller (controllers/partition_controller.go) composed with
    the StatefulSet webhook (api/v1beta2/statefulset_webhhok.go) in a healthy
    world: the API server applies a patch that the webhook lets through, and
    before the next round Kubernetes' StatefulSet controller replaces the Pods
    from the partition on, which become available.  With at most ten replicas
    the rollout ends after as many rounds as there are replicas; with eleven it
    never ends, because Pods are sorted by name. *)

From S2P Require Import Prelude Prog GoLib Constants Api StatefulSets Partition Cluster Samples PartitionSpec.
#[local] Open Scope Z_scope.

(** What there is when the partition is [p] and everything has settled:
    [ro_sts p] and the Pod [ro_pod p i] of ordinal [i]. *)
Record Rollout := {
  ro_replicas : Z;
  ro_cluster : MySQLCluster;
  ro_sts : Z → StatefulSet;
  ro_pod : Z → Z → Pod;
  ro_encode : StatefulSet → string
}.

Section rollout.
Context {EQ : SpecEquality} {PU : PodUtils}.
Variable Decode : string → extres StatefulSet.
Variable UpdateInterval : Z.

(** The Pod is available and all its containers are ready. *)
Definition up (pod : Pod) : Prop :=
  pod_DeletionTimestamp pod = None ∧ (∀ now, IsPodAvailable pod 5 now = true) ∧
  Forall (λ b, b = true) (pod_InitContainerReady pod ++ pod_ContainerReady pod).

Record settled_rollout (w : Rollout) : Prop := {
  sr_replicas : 0 < ro_replicas w < 2 ^ 31;
  sr_spec p : sts_Replicas (sts_Spec (ro_sts w p)) = Some (ro_replicas w);
  sr_selector p : is_Some (sts_MatchLabels (sts_Spec (ro_sts w p)));
  sr_partition p : partition_of (ro_sts w p) = Some p;
  sr_generation p : meta_Generation (sts_Meta (ro_sts w p)) = sts_ObservedGeneration (sts_Status (ro_sts w p));
  sr_updated p : sts_UpdatedReplicas (sts_Status (ro_sts w p)) = ro_replicas w - p;
  sr_owned p : owned_by_cluster (ro_sts w p);
  sr_not_forced p : not_forced (ro_sts w p);
  sr_name p i : pod_Name (ro_pod w p i) = meta_Name (sts_Meta (ro_sts w 0)) +:+ "-" +:+ Itoa i;
  sr_up p i : up (ro_pod w p i);
  sr_revision p i : revision (ro_pod w p i) = sts_UpdateRevision (sts_Status (ro_sts w p)) ↔ p ≤ i;
  sr_cluster : meta_Generation (cluster_Meta (ro_cluster w)) = ri_Generation (ReconcileInfo_ (Status (ro_cluster w)));
  sr_healthy : isMySQLClusterHealthy (ro_cluster w) = true;
  sr_decode p : 0 ≤ p ≤ ro_replicas w → Decode (ro_encode w (ro_sts w p)) = inr (ro_sts w p)
}.

(** The answers while the partition is [p], and the partition afterwards.  Pods
    are listed in any order, the rate limiter allows every round. *)
Definition rollout_world (w : Rollout) : world partSig Z := λ p c,
  match c as c return presp c → Z → Prop with
  | PGetStatefulSet _ _ => λ r p', r = inr (ro_sts w p) ∧ p' = p
  | PGetCluster _ _ => λ r p', r = inr (ro_cluster w) ∧ p' = p
  | PListPods _ _ => λ r p', (∃ l, r = inr l ∧ l ≡ₚ ro_pod w p <$> upto (ro_replicas w)) ∧ p' = p
  | PAllow => λ r p', r = true ∧ p' = p
  | PPatchStatefulSet _ new => λ r p',
      match StatefulSetDefaulter_Default Decode (inr (update_of (ro_encode w (ro_sts w p)))) new with
      | Return s => r = inr () ∧ p' = default 0 (partition_of s)
      | _ => (∃ e, r = inl e) ∧ p' = p
      end
  | _ => λ _ p', p' = p
  end.

(** A round of the controller. *)
Definition round (w : Rollout) (ns name : string) (p p' : Z) : Prop :=
  ∃ o, runs_in (rollout_world w) (Partition_Reconcile UpdateInterval ns name) p o p'.

Context (w : Rollout) (Hw : settled_rollout w).

Lemma rollout_world_total p c : ∃ r p', rollout_world w p c r p'.
Proof.
  destruct c as [ns n|ns n|ns labels| | |old new|sts reason msg|name cl ns v]; cbn; [eauto|eauto| | |eauto| | | ].
  - exists (inr (ro_pod w p <$> upto (ro_replicas w))). eauto.
  - by exists 0, p.
  - case_match; [by exists (inr ()); eauto| |]; exists (inl (ErrNew "")); eauto.
  - by exists (), p.
  - by exists (), p.
Qed.

(** All Pods but the target are up and of the new revision where they should be. *)
Lemma runs_childPodsReady sts p l o p' :
  partition_of sts = Some p →
  (∀ i pod, (i, pod) ∈ l → i ≠ p - 1 → up pod ∧ (p ≤ i → revision pod = sts_UpdateRevision (sts_Status sts))) →
  runs_in (rollout_world w) (childPodsReady sts l) p o p' → o = Return true ∧ p' = p.
Proof.
  intros Hp. unfold partition_of in Hp.
  destruct (sts_RollingUpdate (sts_Spec sts)) as [ru|] eqn:Hru; [|done]. cbn in Hp.
  assert (nextRolloutTargetIndex sts = p - 1) as Hnext.
  { unfold nextRolloutTargetIndex, partition_of. rewrite Hru. cbn. by rewrite Hp. }
  induction l as [|[i pod] rest IH]; intros Hall; cbn [childPodsReady]; [by intros [<- ->]|].
  rewrite Hnext. destruct (i =? p - 1) eqn:Hi; bool_cases.
  { apply IH. intros j q Hj. apply Hall. by right. }
  rewrite Hru. cbn [or_panic bind_outcome bind]. rewrite Hp. cbn [default].
  destruct (Hall i pod ltac:(left) Hi) as [(Hdel & Hav & Hready) Hrev]. unfold id.
  assert ((p <=? i) && negb (revision pod =s sts_UpdateRevision (sts_Status sts)) = false) as ->.
  { destruct (Z.leb_spec p i) as [Hle|]; [|done]. by rewrite Hrev, String.eqb_refl by done. }
  rewrite Hdel. cbn [pcall_ perform bind runs_in]. intros (now & q & -> & Hrun). revert Hrun. rewrite Hav. cbn [negb].
  assert (∀ l, Forall (λ b, b = true) l → existsb negb l = false) as Hnone.
  { intros l Hl. induction Hl as [|b l' -> _ IHl]; [done|exact IHl]. }
  apply Forall_app in Hready as [H1 H2]. rewrite !Hnone by done.
  apply IH. intros j q Hj. apply Hall. by right.
Qed.
(** A Pod that should be updated and is not stops the rollout. *)
Lemma childPodsReady_stale sts p l o p' i pod :
  partition_of sts = Some p → (i, pod) ∈ l → p ≤ i → revision pod ≠ sts_UpdateRevision (sts_Status sts) →
  runs_in (rollout_world w) (childPodsReady sts l) p o p' → o = Return false ∧ p' = p.
Proof.
  intros Hp Hin Hle Hrev. unfold partition_of in Hp.
  destruct (sts_RollingUpdate (sts_Spec sts)) as [ru|] eqn:Hru; [|done]. cbn in Hp.
  assert (nextRolloutTargetIndex sts = p - 1) as Hnext.
  { unfold nextRolloutTargetIndex, partition_of. rewrite Hru. cbn. by rewrite Hp. }
  induction l as [|[j q] rest IH]; [by apply elem_of_nil in Hin|]. cbn [childPodsReady]. rewrite Hnext.
  destruct (Z.eqb_spec j (p - 1)) as [->|Hj].
  { apply IH. apply elem_of_cons in Hin as [[= -> ->]|?]; [lia|done]. }
  rewrite Hru. cbn [or_panic bind_outcome bind]. rewrite Hp. cbn [default]. unfold id.
  destruct (_ && _) eqn:E; [by intros [<- ->]|].
  assert ((i, pod) ∈ rest) as Hrest.
  { apply elem_of_cons in Hin as [[= -> ->]|?]; [|done]. apply String.eqb_neq in Hrev. rewrite Hrev in E.
    destruct (Z.leb_spec p j); [done|lia]. }
  case_bool_decide; [by intros [<- ->]|]. cbn [pcall_ perform bind runs_in]. intros (now & q' & -> & Hrun). revert Hrun.
  repeat (case_match; [by intros [<- ->]|]). by apply IH.
Qed.

Lemma sorted_eleven l p :
  ro_replicas w = 11 → l ≡ₚ ro_pod w p <$> upto (ro_replicas w) →
  sortPods l = ro_pod w p <$> [0; 1; 10; 2; 3; 4; 5; 6; 7; 8; 9].
Proof.
  intros -> Hl. eapply (sortPods_by_name _ (upto 11)); [..|done].
  - intros i. rewrite (sr_name w Hw p). by rewrite str_app_assoc.
  - apply (bool_decide_unpack _). vm_compute. done.
  - repeat constructor; vm_compute; done.
Qed.

Lemma sorted_small l p :
  ro_replicas w ≤ 10 → l ≡ₚ ro_pod w p <$> upto (ro_replicas w) → sortPods l = ro_pod w p <$> upto (ro_replicas w).
Proof. intros Hn Hl. by apply (pods_sorted_by_ordinal (ro_pod w p) _ _ _ (sr_name w Hw p) Hl). Qed.

Lemma next_target p : nextRolloutTargetIndex (ro_sts w p) = p - 1.
Proof. unfold nextRolloutTargetIndex. by rewrite (sr_partition w Hw). Qed.

(** The list of the Pods, sorted, and its length. *)
Lemma runs_getSortedPodList p o p' :
  runs_in (rollout_world w) (getSortedPodList (ro_sts w p)) p o p' →
  p' = p ∧ ∃ l, l ≡ₚ ro_pod w p <$> upto (ro_replicas w) ∧ o = Return (sortPods l).
Proof.
  unfold getSortedPodList. destruct (sr_selector w Hw p) as [labels ->]. cbn.
  intros (r & q & ((l & -> & Hl) & ->) & [<- ->]). eauto.
Qed.

Lemma length_pods l p :
  l ≡ₚ ro_pod w p <$> upto (ro_replicas w) → wrap32 (go_len (sortPods l)) = ro_replicas w.
Proof.
  intros Hl. pose proof (sr_replicas w Hw) as Hn.
  assert (go_len (sortPods l) = ro_replicas w) as ->.
  { unfold go_len. assert (sortPods l ≡ₚ ro_pod w p <$> upto (ro_replicas w)) as -> by
      (rewrite <- Hl; apply merge_sort_Permutation).
    rewrite length_fmap, length_upto. lia. }
  apply wrap32_id. unfold int32_range. lia.
Qed.

Lemma runs_isRolloutReady p o p' :
  1 ≤ p ≤ ro_replicas w → ro_replicas w ≤ 10 →
  runs_in (rollout_world w) (isRolloutReady (ro_cluster w) (ro_sts w p)) p o p' → o = Return true ∧ p' = p.
Proof.
  intros Hp Hn. unfold isRolloutReady. rewrite (sr_spec w Hw), (sr_updated w Hw), next_target. cbn [default]. unfold id.
  destruct (Z.eqb_spec (ro_replicas w) (ro_replicas w - p)); [lia|].
  intros (r & q & (-> & l & Hl & ->)%runs_getSortedPodList & Hrun)%runs_in_bind. revert Hrun.
  cbn [bind_outcome bind]. rewrite (length_pods l p) by done. rewrite Z.eqb_refl. cbn [negb].
  destruct (Z.ltb_spec (p - 1) 0); [lia|]. rewrite (sorted_small l p) by done.
  assert (index_at (ro_pod w p <$> upto (ro_replicas w)) (p - 1) = Some (ro_pod w p (p - 1))) as ->.
  { apply index_at_Some. split; [lia|]. rewrite list_lookup_fmap.
    assert (upto (ro_replicas w) !! Z.to_nat (p - 1) = Some (p - 1)) as ->; [|done].
    unfold upto. rewrite list_lookup_fmap, lookup_seq_lt by lia. cbn. f_equal. lia. }
  cbn [or_panic bind bind_outcome]. case_match; [by intros [<- ->]|].
  rewrite (sr_healthy w Hw), andb_false_r. unfold areAllChildPodsRolloutReady.
  apply runs_childPodsReady; [apply Hw|]. intros i pod Hin _. apply elem_of_indexed, index_at_Some in Hin as [Hi Hpod].
  apply list_lookup_fmap_Some in Hpod as (j & -> & Hj). unfold upto in Hj.
  apply list_lookup_fmap_Some in Hj as (k & -> & Hk). apply lookup_seq in Hk as [-> Hk].
  split; [apply Hw|]. intros Hle. apply Hw. lia.
Qed.

(** The webhook lets the patch of the controller through. *)
Lemma patch_applied p r p' :
  1 ≤ p ≤ ro_replicas w →
  rollout_world w p (PPatchStatefulSet (ro_sts w p) (set_partition (wrap32 (p - 1)) (ro_sts w p))) r p' →
  r = inr () ∧ p' = p - 1.
Proof.
  intros Hp. pose proof (sr_replicas w Hw). cbn [rollout_world].
  rewrite wrap32_id by (unfold int32_range; lia).
  rewrite (Default_owned Decode _ (ro_sts w p) _ (p - 1) p); [|apply Hw; lia|apply Hw|apply Hw| |apply Hw].
  - rewrite decide_True by (split; [lia|done]). intros [-> ->]. split; [done|].
    by rewrite (partition_of_set p) by apply Hw.
  - by apply (partition_of_set p), Hw.
Qed.

(** The steps of a round up to the decision. *)
Lemma runs_Reconcile ns name p o p' :
  runs_in (rollout_world w) (Partition_Reconcile UpdateInterval ns name) p o p' →
  runs_in (rollout_world w) (reconcilePartition UpdateInterval ns (ro_cluster w) (ro_sts w p)) p o p'.
Proof.
  unfold Partition_Reconcile. cbn [pcall_ perform bind runs_in]. intros (r & q & [-> ->] & Hrun). revert Hrun. cbn.
  unfold getMySQLCluster. destruct (sr_owned w Hw p) as (ow & -> & Hk). rewrite filter_cons_True by (by rewrite Hk).
  cbn. by intros (r & q & [-> ->] & _ & ? & -> & _ & ? & -> & Hrun).
Qed.

(** A round lowers the partition. *)
Lemma round_lowers ns name p p' :
  1 ≤ p ≤ ro_replicas w → ro_replicas w ≤ 10 → round w ns name p p' → p' = p - 1.
Proof.
  intros Hp Hn (o & Hrun%runs_Reconcile). revert Hrun. unfold reconcilePartition.
  rewrite (sr_generation w Hw), !(sr_cluster w Hw), !Z.eqb_refl. cbn [negb orb].
  assert (needPartitionUpdate (ro_sts w p) = true) as ->.
  { unfold needPartitionUpdate. rewrite (sr_partition w Hw).
    pose proof (sr_not_forced w Hw p) as Hf. apply String.eqb_neq in Hf as ->. lia. }
  cbn [negb]. intros (r & q & (-> & ->)%runs_isRolloutReady & Hrun)%runs_in_bind; [|done..]. revert Hrun.
  cbn [negb pcall_ perform bind bind_outcome runs_in]. intros (r & q & [-> ->] & Hrun). revert Hrun.
  unfold patchNewPartition. rewrite (sr_partition w Hw). cbn [negb or_panic bind bind_outcome].
  destruct (Z.eqb_spec p 0); [lia|]. cbn [pcall_ perform bind bind_outcome runs_in].
  intros (r & q & (-> & ->)%patch_applied & Hrun); [|done]. revert Hrun. cbn.
  by intros (? & ? & -> & ? & ? & -> & _ & ->).
Qed.

(** Once the partition is zero a round asks for no further one. *)
Lemma round_ends ns name o p' :
  runs_in (rollout_world w) (Partition_Reconcile UpdateInterval ns name) 0 o p' → o = Return 0 ∧ p' = 0.
Proof.
  intros Hrun%runs_Reconcile. revert Hrun. unfold reconcilePartition.
  rewrite (sr_generation w Hw), !(sr_cluster w Hw), !Z.eqb_refl. cbn [negb orb].
  assert (needPartitionUpdate (ro_sts w 0) = false) as ->.
  { unfold needPartitionUpdate. rewrite (sr_partition w Hw). by destruct (_ =s _). }
  by intros [<- ->].
Qed.
End rollout.


(** With eleven replicas a rollout gets stuck: sorted by name, Pod 10 comes
    third, so at the partition ten the controller waits for Pod 9 to be updated,
    which Kubernetes leaves alone until the partition is nine. *)
Theorem rollout_stalls_with_eleven {EQ : SpecEquality} {PU : PodUtils} Decode UpdateInterval w ns name o p' :
  settled_rollout Decode w → ro_replicas w = 11 →
  runs_in (rollout_world Decode w) (Partition_Reconcile UpdateInterval ns name) 10 o p' → o = Return 30000 ∧ p' = 10.
Proof.
  intros Hw Hn Hrun. apply (runs_Reconcile _ _ _ Hw) in Hrun. revert Hrun. unfold reconcilePartition.
  rewrite (sr_generation _ w Hw), !(sr_cluster _ w Hw), !Z.eqb_refl. cbn [negb orb].
  assert (needPartitionUpdate (ro_sts w 10) = true) as ->.
  { unfold needPartitionUpdate. rewrite (sr_partition _ w Hw).
    pose proof (sr_not_forced _ w Hw 10) as Hf. apply String.eqb_neq in Hf as ->. lia. }
  cbn [negb]. intros (r & q & Hready & Hrun)%runs_in_bind. revert Hrun.
  assert (r = Return false ∧ q = 10) as [-> ->]; [|by intros [<- ->]]. revert Hready.
  unfold isRolloutReady. rewrite (sr_spec _ w Hw), (sr_updated _ w Hw), (next_target _ w Hw), Hn. cbn [default]. unfold id.
  change (11 =? 11 - 10) with false.
  intros (r' & q' & (-> & l & Hl & ->)%(runs_getSortedPodList _ w Hw) & Hrun)%runs_in_bind. revert Hrun.
  cbn [bind_outcome bind]. rewrite (length_pods _ w Hw l 10), Hn by done.
  rewrite (sorted_eleven _ w Hw l 10) by done. change (11 =? 11) with true. change (10 - 1 <? 0) with false. cbn [negb].
  change (index_at (ro_pod w 10 <$> [0; 1; 10; 2; 3; 4; 5; 6; 7; 8; 9]) (10 - 1)) with (Some (ro_pod w 10 8)).
  cbn [or_panic bind bind_outcome].
  destruct (revision (ro_pod w 10 8) =s sts_UpdateRevision (sts_Status (ro_sts w 10))) eqn:E.
  { apply String.eqb_eq, (sr_revision _ w Hw) in E. lia. }
  rewrite (sr_healthy _ w Hw), andb_false_r.
  apply (childPodsReady_stale _ w _ 10 _ _ _ 10 (ro_pod w 10 9)); [apply Hw| |lia|].
  - apply elem_of_indexed. reflexivity.
  - intros H%(sr_revision _ w Hw). lia.
Qed.

(** ** Rollouts of three and of eleven replicas *)

Definition settled_at (n p : Z) : StatefulSet :=
  {| sts_Meta := sts_Meta (sample_sts p);
     sts_Spec := {| sts_Replicas := Some n; sts_MatchLabels := Some ∅; sts_StrategyType := "RollingUpdate";
                    sts_RollingUpdate := Some {| ru_Partition := Some p; ru_MaxUnavailable := None |};
                    sts_VolumeClaimTemplates := []; sts_Template := "{}"; sts_Rest := "{}" |};
     sts_Status := {| sts_ObservedGeneration := 4; sts_ReadyReplicas := n; sts_AvailableReplicas := n;
                      sts_CurrentReplicas := p; sts_UpdatedReplicas := n - p; sts_CurrentRevision := "r1";
                      sts_UpdateRevision := "r2" |} |}.

Definition healthy_cluster : MySQLCluster :=
  let c := sample_cluster 3 0 in
  {| cluster_Meta := cluster_Meta c; Spec := Spec c;
     Status := {| Conditions := [{| cond_Type := ConditionHealthy; cond_Status := ConditionTrue;
                                    cond_ObservedGeneration := 1; cond_Reason := "";
                                    cond_Message := "" |}];
                  CurrentPrimaryIndex := 0; SyncedReplicas := 3; ErrantReplicas := 0; ErrantReplicaList := [];
                  Backup := sample_backup; RestoredTime := None; Cloned := false;
                  ReconcileInfo_ := {| ri_Generation := 1; ri_ReconcileVersion := 1 |} |} |}.

Definition rollout_of (n : Z) : Rollout :=
  {| ro_replicas := n; ro_cluster := healthy_cluster; ro_sts := settled_at n;
     ro_pod p i := sample_revision_pod i (if p <=? i then "r2" else "r1") true;
     ro_encode sts := Itoa (default 0 (partition_of sts)) |}.

Definition decode_partition (n : Z) (raw : string) : extres StatefulSet :=
  match Atoi raw with Some p => inr (settled_at n p) | None => inl (ErrNew "bad object") end.

Lemma rollout_of_settled n : 0 < n < 2 ^ 31 → settled_rollout (PU := podutils_conditions) (decode_partition n) (rollout_of n).
Proof.
  intros Hn. constructor; try done.
  - intros p. by eexists.
  - intros p i. split; [done|]. split; [done|]. by repeat constructor.
  - intros p i. cbn. unfold revision, map_str, sample_revision_pod. cbn [pod_Labels set_pod_Labels].
    rewrite lookup_singleton_eq. cbn. destruct (Z.leb_spec p i); split; intros; try done; lia.
  - intros p Hp. cbn in *. unfold decode_partition. by rewrite Atoi_Itoa by lia.
Qed.


Lemma eleven_runs : ∃ o p,
  runs_in (rollout_world (EQ := spec_equality_dec) (decode_partition 11) (rollout_of 11))
    (Partition_Reconcile (PU := podutils_conditions) 5000 "default" "moco-test") 10 o p.
Proof. apply runs_in_total. intros p c. apply rollout_world_total. Qed.

Lemma rollout_stalls_with_eleven_witness :
  ∃ o p, runs_in (rollout_world (EQ := spec_equality_dec) (decode_partition 11) (rollout_of 11))
           (Partition_Reconcile (PU := podutils_conditions) 5000 "default" "moco-test") 10 o p ∧ o = Return 30000 ∧ p = 10.
Proof.
  destruct eleven_runs as (o & p & Hrun). exists o, p. split; [exact Hrun|].
  apply (rollout_stalls_with_eleven (EQ := spec_equality_dec) (PU := podutils_conditions) (decode_partition 11) 5000 (rollout_of 11)
    "default" "moco-test"); [by apply rollout_of_settled|reflexivity|exact Hrun].
Defined.
