(* ===== verification/Keys.v ===== *)
(** * Object keys of backups (backup/key.go)

    The keys of the objects a backup writes, and what [path.Dir] and [path.Base]
    recover from them. *)

From S2P Require Import Prelude GoLib Time Constants.
#[local] Open Scope Z_scope.

(* backup/key.go:10-10 prefix *)
Definition key_prefix : string := "moco".

(* backup/key.go :: calcKey *)
Definition calcKey (clusterNS clusterName filename : string) (dt : Z) : string :=
  path_Join [key_prefix; clusterNS; clusterName; FormatBackup dt; filename].

(* backup/key.go :: calcPrefix *)
Definition calcPrefix (clusterNS clusterName : string) : string :=
  path_Join [key_prefix; clusterNS; clusterName] +:+ "/".

(** ** Paths of plain names *)

Definition no_slash : string → bool := no_char "/".

(** A path element that [path.Clean] keeps. *)
Definition plain (s : string) : Prop := s ≠ "" ∧ s ≠ "." ∧ s ≠ ".." ∧ no_slash s = true.

Definition slashed (l : list string) : string := join_str "/" l.

Lemma slashed_cons a b l : slashed (a :: b :: l) = a +:+ "/" +:+ slashed (b :: l).
Proof. done. Qed.

Lemma slashed_snoc l x : l ≠ [] → slashed (l ++ [x]) = slashed l +:+ "/" +:+ x.
Proof.
  destruct l as [|a l]; [done|]. intros _. revert a. induction l as [|b l IH]; intros a; [done|].
  change ((a :: b :: l) ++ [x]) with (a :: b :: (l ++ [x])). rewrite !slashed_cons.
  change (b :: l ++ [x]) with ((b :: l) ++ [x]). rewrite IH. by rewrite !str_app_assoc.
Qed.

Lemma split_slashed l :
  l ≠ [] → Forall (λ s, no_slash s = true) l → split_on "/" (slashed l) = l.
Proof.
  destruct l as [|a l]; [done|]. intros _. revert a. induction l as [|b l IH]; intros a Hall.
  - inversion Hall. by apply split_on_no_sep.
  - inversion Hall as [|?? Ha Hl]; subst. rewrite slashed_cons.
    change (a +:+ "/" +:+ slashed (b :: l)) with (a +:+ String "/" (slashed (b :: l))).
    rewrite split_on_app, IH by done. by rewrite (split_on_no_sep _ a).
Qed.

Lemma clean_plain r l st : Forall plain l → foldl (clean_step r) st l = reverse l ++ st.
Proof.
  intros Hl. revert st. induction Hl as [|x l (H1 & H2 & H3 & _) Hl IH]; intros st; [done|].
  cbn [foldl]. rewrite IH, reverse_cons, <- app_assoc. f_equal. cbn [app]. f_equal. unfold clean_step.
  apply String.eqb_neq in H1 as ->. apply String.eqb_neq in H2 as ->. by apply String.eqb_neq in H3 as ->.
Qed.

Lemma plain_no_slash l : Forall plain l → Forall (λ s, no_slash s = true) l.
Proof. intros Hl. eapply Forall_impl; [exact Hl|]. by intros s (_ & _ & _ & ?). Qed.

(** A path of plain elements starts with a character other than a slash. *)
Lemma slashed_head l r :
  l ≠ [] → Forall plain l → ∃ c s, slashed l +:+ r = String c s ∧ Ascii.eqb "/" c = false.
Proof.
  destruct l as [|a l]; [done|]. intros _ Hall. inversion Hall as [|?? (Ha & _ & _ & Hs) _]; subst.
  destruct a as [|c a]; [done|]. unfold no_slash, no_char in Hs. cbn in Hs. bool_cases.
  exists c, ((match l with [] => a | b :: l => a +:+ "/" +:+ slashed (b :: l) end) +:+ r).
  split; [by destruct l|]. by rewrite Ascii.eqb_sym.
Qed.

Lemma Clean_slashed l r :
  l ≠ [] → Forall plain l → r = "" ∨ r = "/" → path_Clean (slashed l +:+ r) = slashed l.
Proof.
  intros Hne Hall Hr. unfold path_Clean.
  destruct (slashed_head l r Hne Hall) as (c & s & Heq & Hc). rewrite Heq.
  assert (has_prefix (String c s) "/" = false) as ->
    by (change ((Ascii.eqb "/" c && has_prefix s "") = false); by rewrite Hc).
  change (String c s =s "") with false. rewrite <- Heq.
  assert (foldl (clean_step false) [] (split_on "/" (slashed l +:+ r)) = reverse l) as ->.
  { destruct Hr as [->| ->].
    - rewrite str_app_nil_r, split_slashed by auto using plain_no_slash.
      by rewrite clean_plain, app_nil_r.
    - rewrite split_on_app, split_slashed by auto using plain_no_slash.
      rewrite foldl_app, (clean_plain _ l), app_nil_r by done. done. }
  rewrite reverse_involutive. change (join_str "/" l) with (slashed l).
  destruct (slashed_head l "" Hne Hall) as (c' & s' & Heq' & _). rewrite str_app_nil_r in Heq'.
  by rewrite Heq'.
Qed.

Lemma Join_plain l : l ≠ [] → Forall plain l → path_Join l = slashed l.
Proof.
  intros Hne Hall. unfold path_Join.
  assert (filter (λ e, (e =s "") = false) l = l) as ->.
  { clear Hne. induction Hall as [|x l (Hx & _) Hall IH]; [done|]. rewrite filter_cons_True, IH; [done|].
    by apply String.eqb_neq. }
  destruct l as [|a l]; [done|]. change (join_str "/" (a :: l)) with (slashed (a :: l)).
  rewrite <- (str_app_nil_r (slashed _)) at 1. apply Clean_slashed; auto.
Qed.

Lemma last_index_from_app sep a b i best :
  str_forall (λ c, negb (Ascii.eqb c sep)) b = true →
  last_index_from sep (a +:+ String sep b) i best = i + Z.of_nat (String.length a).
Proof.
  intros Hb. revert i best. induction a as [|c a IH]; intros i best.
  - change ("" +:+ String sep b) with (String sep b). cbn. rewrite Ascii.eqb_refl, Z.add_0_r.
    generalize (i + 1). induction b as [|c b IHb]; intros j; cbn in *; [done|].
    bool_cases. rewrite H. by apply IHb.
  - change (String c a +:+ String sep b) with (String c (a +:+ String sep b)). cbn [last_index_from].
    rewrite IH. cbn [String.length]. lia.
Qed.

Lemma Dir_slashed l x :
  l ≠ [] → Forall plain l → no_slash x = true → path_Dir (slashed (l ++ [x])) = slashed l.
Proof.
  intros Hne Hall Hx. rewrite slashed_snoc by done. unfold path_Dir, dir_part, last_index.
  change (slashed l +:+ "/" +:+ x) with (slashed l +:+ String "/" x).
  rewrite last_index_from_app by done.
  replace (Z.to_nat (0 + Z.of_nat (String.length (slashed l)) + 1)) with (String.length (slashed l +:+ "/"))
    by (rewrite !length_str_app; cbn [String.length]; lia).
  replace (slashed l +:+ String "/" x) with ((slashed l +:+ "/") +:+ x) by by rewrite str_app_assoc.
  rewrite take_str_app. apply Clean_slashed; auto.
Qed.

Lemma has_suffix_slash a x : x ≠ "" → no_slash x = true → has_suffix (a +:+ x) "/" = false.
Proof.
  intros Hne Hx. unfold has_suffix. apply andb_false_iff. right. apply String.eqb_neq.
  assert (∃ y c, x = y +:+ String c "" ∧ Ascii.eqb c "/" = false) as (y & c & -> & Hc).
  { clear -Hne Hx. unfold no_slash, no_char in Hx. induction x as [|c x IH]; [done|]. cbn in Hx. bool_cases.
    destruct x as [|d x]; [by exists "", c|].
    destruct IH as (y & e & -> & He); [done..|]. by exists (String c y), e. }
  rewrite <- str_app_assoc.
  replace (String.length ((a +:+ y) +:+ String c "") - String.length "/")%nat with (String.length (a +:+ y))
    by (rewrite !length_str_app; cbn [String.length]; lia).
  rewrite drop_str_app. intros [= ->]. done.
Qed.

Lemma Base_slashed l x : l ≠ [] → plain x → path_Base (slashed (l ++ [x])) = x.
Proof.
  intros Hne (Hx & _ & _ & Hs). rewrite slashed_snoc by done. unfold path_Base.
  assert (∀ a, (a +:+ x =s "") = false) as Hnil.
  { intros a. apply String.eqb_neq. by destruct a, x. }
  rewrite <- str_app_assoc, Hnil.
  assert (strip_slashes ((slashed l +:+ "/") +:+ x) = (slashed l +:+ "/") +:+ x) as ->.
  { unfold strip_slashes. destruct (String.length _); [done|]. by rewrite has_suffix_slash. }
  rewrite Hnil. unfold last_index. rewrite str_app_assoc.
  change (slashed l +:+ "/" +:+ x) with (slashed l +:+ String "/" x). rewrite last_index_from_app by done.
  replace (Z.to_nat (0 + Z.of_nat (String.length (slashed l)) + 1)) with (String.length (slashed l +:+ "/"))
    by (rewrite !length_str_app; cbn [String.length]; lia).
  replace (slashed l +:+ String "/" x) with ((slashed l +:+ "/") +:+ x) by by rewrite str_app_assoc.
  apply drop_str_app.
Qed.

(** ** The keys *)

Lemma last_digits_no_slash w x : no_slash (last_digits w x) = true.
Proof.
  unfold no_slash, no_char. induction w as [|w IH]; [done|]. cbn [last_digits str_forall]. rewrite IH, andb_true_r.
  assert (x / 10 ^ Z.of_nat w mod 10 ∈ upto 10) as Hin by (apply elem_of_upto, Z.mod_pos_bound; lia).
  revert Hin. generalize (x / 10 ^ Z.of_nat w mod 10). apply Forall_forall.
  apply (bool_decide_unpack _). vm_compute. done.
Qed.

Lemma FormatBackup_plain t : four_digit_year t → plain (FormatBackup t).
Proof.
  unfold four_digit_year. intros Hy.
  destruct (fields_of_ranges t) as ([Hm Hd] & Hm2 & Hd2 & Hh & Hmi & Hs).
  unfold FormatBackup. rewrite !pad_small by lia.
  split_and!; try (intros Heq; apply (f_equal String.length) in Heq;
                   rewrite !length_str_app, !length_last_digits in Heq; done).
  unfold no_slash, no_char. rewrite !str_forall_app. fold (no_slash "-").
  rewrite !(last_digits_no_slash : ∀ w x, str_forall _ (last_digits w x) = true). done.
Qed.

Lemma DumpFilename_plain : plain DumpFilename.
Proof. done. Qed.
Lemma BinlogFilename_plain : plain BinlogFilename.
Proof. done. Qed.

Section keys.
Context (ns name : string).
Hypothesis Hns : plain ns.
Hypothesis Hname : plain name.

Definition key_dir (t : Z) : list string := [key_prefix; ns; name; FormatBackup t].

Lemma key_dir_plain t : four_digit_year t → Forall plain (key_dir t).
Proof.
  intros Ht. apply Forall_forall. intros s. unfold key_dir. rewrite !elem_of_cons, elem_of_nil.
  intros [->|[->|[->|[->|[]]]]]; [done..|]. by apply FormatBackup_plain.
Qed.

Lemma calcKey_slashed fn t :
  four_digit_year t → plain fn → calcKey ns name fn t = slashed (key_dir t ++ [fn]).
Proof.
  intros Ht Hfn. unfold calcKey. rewrite Join_plain; [done..|].
  change (Forall plain (key_dir t ++ [fn])). apply Forall_app.
  split; [by apply key_dir_plain|by apply Forall_singleton].
Qed.

Lemma Dir_calcKey fn t : four_digit_year t → plain fn → path_Dir (calcKey ns name fn t) = slashed (key_dir t).
Proof.
  intros Ht Hfn. rewrite calcKey_slashed by done.
  apply Dir_slashed; [done|by apply key_dir_plain|apply Hfn].
Qed.

Lemma Base_Dir_calcKey fn t :
  four_digit_year t → plain fn → path_Base (path_Dir (calcKey ns name fn t)) = FormatBackup t.
Proof.
  intros Ht Hfn. rewrite Dir_calcKey by done.
  apply (Base_slashed [key_prefix; ns; name]); [done|by apply FormatBackup_plain].
Qed.

(** Keys of one cluster are ordered by time, then by file name. *)
Lemma compare_calcKey fn fn' t t' :
  four_digit_year t → four_digit_year t' → plain fn → plain fn' →
  String.compare (calcKey ns name fn t) (calcKey ns name fn' t') =
  then_cmp (t / ns_per_second ?= t' / ns_per_second) (String.compare fn fn').
Proof.
  intros Ht Ht' Hfn Hfn'. rewrite !calcKey_slashed by done.
  assert (∀ t fn, slashed (key_dir t ++ [fn]) =
    slashed [key_prefix; ns; name] +:+ "/" +:+ FormatBackup t +:+ "/" +:+ fn) as Hform.
  { intros t0 fn0. rewrite slashed_snoc by done.
    change (key_dir t0) with ([key_prefix; ns; name] ++ [FormatBackup t0]).
    rewrite slashed_snoc by done. by rewrite !str_app_assoc. }
  rewrite !Hform, compare_app by done.
  assert (∀ s, String.compare s s = Eq) as Hrefl.
  { intros s. induction s as [|c s IH]; [done|]. cbn. unfold Ascii.compare. by rewrite N.compare_refl. }
  rewrite Hrefl. cbn [then_cmp]. rewrite (compare_app "/" "/") by done.
  change (String.compare "/" "/") with Eq. cbn [then_cmp].
  by rewrite compare_FormatBackup, (compare_app "/" "/") by done.
Qed.
End keys.
