(* ===== verification/Bkop.v ===== *)
(** * Backup and restore operations on an instance (pkg/bkop)

    The [Operator] interface of the backup tools and its implementation by SQL
    statements and by the commands mysqlsh, mysqlbinlog and mysql.  The commands
    themselves are calls whose results are not known. *)

From S2P Require Import Prelude Prog GoLib Time Constants.
#[local] Open Scope Z_scope.

(** ** types.go *)

(* pkg/bkop/types.go :: ServerStatus *)
Record ServerStatus := {
  srv_SuperReadOnly : bool;
  srv_UUID : string;
  CurrentBinlog : string
}.

(* pkg/bkop/types.go :: showBinaryLogStatus *)
Record showBinaryLogStatus := {
  bls_File : string;
  bls_Position : Z;
  bls_BinlogDoDB : string;
  bls_BinlogIgnoreDB : string;
  bls_ExecutedGTIDSet : string
}.

(* pkg/bkop/types.go :: showBinaryLogs *)
Record showBinaryLogs := {
  bl_LogName : string;
  bl_FileSize : Z;
  bl_Encrypted : string
}.

(** ** The Operator interface (operator.go)

    A point in time is a number of nanoseconds since the Unix epoch. *)

(* pkg/bkop/operator.go :: Operator *)
Inductive bopcall :=
| Ping
| BClose
| GetServerStatus
| DumpFull (dir : string)
| GetBinlogs
| DumpBinlog (dir binlogName filterGTID : string)
| PrepareRestore
| LoadDump (dir schema users : string)
| LoadBinlog (binlogDir tmpDir : string) (restorePoint : Z) (schema : string)
| FinishRestore.

Definition bopresp (m : bopcall) : Type :=
  match m with
  | BClose => unit
  | GetServerStatus => extres ServerStatus
  | GetBinlogs => extres (list string)
  | _ => extres unit
  end.

(** A type whose values answer the methods of [Operator]. *)
Class BkOperator (S : signature) (O : Type) := binvoke : O → ∀ m : bopcall, prog S (bopresp m).

(** ** Calls of the implementation *)

(** A command with its arguments, additions to its environment, and the ends of
    the pipe it is connected to. *)
Record Cmd := {
  cmd_Name : string;
  cmd_Args : list string;
  cmd_Env : list string
}.

(** The configuration of the MySQL driver; durations in seconds. *)
Record DriverConfig := {
  cfg_User : string; cfg_Passwd : string; cfg_Net : string; cfg_Addr : string; cfg_InterpolateParams : bool;
  cfg_ParseTime : bool; cfg_Timeout : Z; cfg_ReadTimeout : Z
}.

Inductive bcall :=
| BOpen (cfg : DriverConfig) (maxIdleConns connMaxIdleTime : Z)   (* sqlx.Open and the settings of the pool *)
| BGetString (query : string)
| BGetBinlogStatus (query : string)
| BGetServerVars (query : string)           (* @@super_read_only, @@server_uuid *)
| BSelectBinlogs (query : string)
| BExec (query : string)
| BPing
| BCloseDB
| BReadDir (dir : string)                   (* names with IsDir *)
| BPipe
| BClosePipe (writer : bool)
| BStart (c : Cmd)
| BRun (c : Cmd)
| BWait (c : Cmd)
| BCancel.                                  (* cancel() of the commands' context *)

Definition bresp (c : bcall) : Type :=
  match c with
  | BGetString _ => extres string
  | BGetBinlogStatus _ => extres showBinaryLogStatus
  | BGetServerVars _ => extres (bool * string)
  | BSelectBinlogs _ => extres (list showBinaryLogs)
  | BReadDir _ => extres (list (string * bool))
  | BClosePipe _ => unit
  | BCloseDB => unit
  | BCancel => unit
  | _ => extres unit
  end.

Definition bkopSig : signature := {| call := bcall; resp := bresp |}.
Definition bdo (c : bcall) : prog bkopSig (bresp c) := @perform bkopSig c.

(* pkg/bkop/operator.go :: operator *)
Record boperator := {
  bo_host : string;
  bo_port : Z;
  bo_user : string;
  bo_password : string;
  bo_threads : Z
}.

(** [net.JoinHostPort]. *)
Definition JoinHostPort (host port : string) : string :=
  if str_forall (λ c, negb (Ascii.eqb c ":")) host then host +:+ ":" +:+ port
  else "[" +:+ host +:+ "]:" +:+ port.

(* pkg/bkop/operator.go :: NewOperator *)
Definition NewOperator (host : string) (port : Z) (user password : string) (threads : Z) : prog bkopSig (extres boperator) :=
  let cfg := {| cfg_User := user; cfg_Passwd := password; cfg_Net := "tcp"; cfg_Addr := JoinHostPort host (Itoa port);
                cfg_InterpolateParams := true; cfg_ParseTime := true; cfg_Timeout := 5; cfg_ReadTimeout := 60 |} in
  _ <-! wrap_err ("failed to open " +:+ host) (bdo (BOpen cfg 1 30)) ;;
  Ret (inr {| bo_host := host; bo_port := port; bo_user := user; bo_password := password; bo_threads := threads |}).

Definition mysqlURL (o : boperator) : string :=
  "mysql://" +:+ bo_user o +:+ "@" +:+ JoinHostPort (bo_host o) (Itoa (bo_port o)).

(** ** status.go *)

(* pkg/bkop/status.go :: GetServerStatus *)
Definition boperator_GetServerStatus : prog bkopSig (extres ServerStatus) :=
  version <-! wrap_err "failed to get version"
                (bdo (BGetString "SELECT SUBSTRING_INDEX(VERSION(), '.', 2)")) ;;
  bls <-! (if version =s "8.4" then
             wrap_err "failed to show binary log status" (bdo (BGetBinlogStatus "SHOW BINARY LOG STATUS"))
           else if version =s "8.0" then
             wrap_err "failed to show master status" (bdo (BGetBinlogStatus "SHOW MASTER STATUS"))
           else Ret (inl (ErrNew ("unsupported version: " +:+ version)))) ;;
  vars <-! wrap_err "failed to get global variables"
             (bdo (BGetServerVars "SELECT @@super_read_only, @@server_uuid")) ;;
  Ret (inr {| srv_SuperReadOnly := vars.1; srv_UUID := vars.2; CurrentBinlog := bls_File bls |}).

(** ** backup.go *)

Definition mysqlsh (args : list string) : Cmd := {| cmd_Name := "mysqlsh"; cmd_Args := args; cmd_Env := [] |}.

(* pkg/bkop/backup.go :: DumpFull *)
Definition boperator_DumpFull (o : boperator) (dir : string) : prog bkopSig (extres unit) :=
  bdo (BRun (mysqlsh
    [mysqlURL o; "-p" +:+ bo_password o; "--save-passwords=never"; "-C"; "False"; "--"; "util";
     "dump-instance"; dir; "--excludeUsers=" +:+ join_str "," MocoUsers;
     "--threads=" +:+ Itoa (bo_threads o)])).

(* pkg/bkop/backup.go :: GetBinlogs *)
Definition boperator_GetBinlogs : prog bkopSig (extres (list string)) :=
  binlogs <-! wrap_err "failed to show binary logs" (bdo (BSelectBinlogs "SHOW BINARY LOGS")) ;;
  Ret (inr (bl_LogName <$> binlogs)).

(* pkg/bkop/backup.go :: DumpBinlog *)
Definition boperator_DumpBinlog (o : boperator) (dir binlogName filterGTID : string)
    : prog bkopSig (extres unit) :=
  bdo (BRun {| cmd_Name := "mysqlbinlog";
    cmd_Args := ["-h"; bo_host o; "--port"; Itoa (bo_port o); "--protocol=tcp"; "-u"; bo_user o;
                 "-p" +:+ bo_password o; "--get-server-public-key";
                 "--read-from-remote-master=BINLOG-DUMP-GTIDS"; "--exclude-gtids=" +:+ filterGTID;
                 "-t"; "--raw"; "--result-file=" +:+ dir +:+ "/"; binlogName];
    cmd_Env := [] |}).

(** ** binlog.go *)

(** The number in a name such as [binlog.000001]; 0 for another shape. *)
(* pkg/bkop/binlog.go:16-21 SortBinlogs *)
Definition binlogIndex (log : string) : Z :=
  match split_on "." log with
  | [_; n] => (ParseInt n 64).1
  | _ => 0
  end.

Definition binlog_le (a b : string) : Prop := binlogIndex a ≤ binlogIndex b.
#[export] Instance binlog_le_dec : RelDecision binlog_le := λ a b, Z.le_dec (binlogIndex a) (binlogIndex b).

(** [sort.Slice] by number.  mysqld numbers its binary logs, so the numbers are
    distinct and the sorted slice does not depend on the sorting algorithm. *)
(* pkg/bkop/binlog.go :: SortBinlogs *)
Definition SortBinlogs (binlogs : list string) : list string := merge_sort binlog_le binlogs.

(** ** restore.go *)

(* pkg/bkop/restore.go :: PrepareRestore *)
Definition boperator_PrepareRestore : prog bkopSig (extres unit) :=
  _ <-! wrap_err "failed to turn on local_infile" (bdo (BExec "SET GLOBAL local_infile=1")) ;;
  wrap_err "failed to set read_only=0" (bdo (BExec "SET GLOBAL read_only=0")).

(* pkg/bkop/restore.go :: LoadDump *)
Definition boperator_LoadDump (o : boperator) (dir schema users : string) : prog bkopSig (extres unit) :=
  bdo (BRun (mysqlsh
    ([mysqlURL o; "-p" +:+ bo_password o; "--save-passwords=never"; "-C"; "False"; "--"; "util";
      "load-dump"; dir; "--threads=" +:+ Itoa (bo_threads o); "--loadUsers=true"; "--analyzeTables=on";
      "--skipBinlog=true"; "--deferTableIndexes=all"; "--updateGtidSet=replace"]
     ++ (if schema =s "" then [] else ["--includeSchemas=" +:+ schema])
     ++ (if users =s "" then [] else ["--includeUsers=" +:+ users])))).

(** The binary logs among the entries of a directory. *)
(* pkg/bkop/restore.go:58-66 LoadBinlog *)
Definition binlogEntries (dirents : list (string * bool)) : list string :=
  fst <$> filter (λ e, e.2 = false ∧ has_prefix e.1 "binlog." = true) dirents.

(* pkg/bkop/restore.go:95-106 LoadBinlog *)
Definition binlogCmd (binlogFiles : list string) (tmpDir : string) (restorePoint : Z) (schema : string) : Cmd :=
  {| cmd_Name := "mysqlbinlog";
     cmd_Args := ("--stop-datetime=" +:+ FormatDateTime restorePoint) :: binlogFiles
                 ++ (if schema =s "" then [] else ["--database=" +:+ schema]);
     cmd_Env := ["TZ=Etc/UTC"; "TMPDIR=" +:+ tmpDir] |}.

Definition mysqlCmd (o : boperator) : Cmd :=
  {| cmd_Name := "mysql";
     cmd_Args := ["--binary-mode"; "-h"; bo_host o; "--port"; Itoa (bo_port o); "--protocol=tcp";
                  "-u"; bo_user o; "-p" +:+ bo_password o];
     cmd_Env := [] |}.

(** After the pipe is made: the deferred calls run in reverse order, and the
    writing end is closed early when mysqlbinlog has started. *)
(* pkg/bkop/restore.go:121-132 LoadBinlog *)
Definition pipeBinlog (o : boperator) (cmd : Cmd) : prog bkopSig (extres unit) :=
  r <-- bdo (BStart cmd) ;;
  match r with
  | inl e =>
      _ <-- bdo BCancel ;; _ <-- bdo (BClosePipe false) ;; _ <-- bdo (BClosePipe true) ;;
      Ret (inl (ErrWrap "failed to start mysqlbinlog" e))
  | inr _ =>
      _ <-- bdo (BClosePipe true) ;;
      r <-- (_ <-! wrap_err "failed to apply binlog" (bdo (BRun (mysqlCmd o))) ;;
             wrap_err "mysqlbinlog existed abnormally" (bdo (BWait cmd))) ;;
      _ <-- bdo BCancel ;; _ <-- bdo (BClosePipe false) ;;
      Ret r
  end.

(* pkg/bkop/restore.go :: LoadBinlog *)
Definition boperator_LoadBinlog (o : boperator) (binlogDir tmpDir : string) (restorePoint : Z) (schema : string)
    : prog bkopSig (extres unit) :=
  dirents <-! bdo (BReadDir binlogDir) ;;
  let binlogs := binlogEntries dirents in
  match binlogs with
  | [] => Ret (inl (ErrNew ("no binlog files in " +:+ binlogDir)))
  | _ =>
      let binlogFiles := (λ n, path_Join [binlogDir; n]) <$> SortBinlogs binlogs in
      _ <-! wrap_err "failed to create a pipe" (bdo BPipe) ;;
      pipeBinlog o (binlogCmd binlogFiles tmpDir restorePoint schema)
  end.

(* pkg/bkop/restore.go :: FinishRestore *)
Definition boperator_FinishRestore : prog bkopSig (extres unit) :=
  _ <-! wrap_err "failed to set super_read_only=1" (bdo (BExec "SET GLOBAL super_read_only=1")) ;;
  wrap_err "failed to turn off local_infile" (bdo (BExec "SET GLOBAL local_infile=0")).

(* pkg/bkop/operator.go :: Ping *)
Definition boperator_Ping : prog bkopSig (extres unit) := bdo BPing.

(* pkg/bkop/operator.go :: Close *)
Definition boperator_Close : prog bkopSig unit := bdo BCloseDB.

#[export] Instance boperator_BkOperator : BkOperator bkopSig boperator :=
  λ o m, match m return prog bkopSig (bopresp m) with
         | Ping => boperator_Ping
         | BClose => boperator_Close
         | GetServerStatus => boperator_GetServerStatus
         | DumpFull dir => boperator_DumpFull o dir
         | GetBinlogs => boperator_GetBinlogs
         | DumpBinlog dir name gtid => boperator_DumpBinlog o dir name gtid
         | PrepareRestore => boperator_PrepareRestore
         | LoadDump dir schema users => boperator_LoadDump o dir schema users
         | LoadBinlog dir tmp rp schema => boperator_LoadBinlog o dir tmp rp schema
         | FinishRestore => boperator_FinishRestore
         end.
