(* ===== verification/Backup.v ===== *)
(** * Taking a backup (backup/backup.go)

    [BackupManager] takes a full dump of an instance and, from the second backup
    on, the binary logs since the last one, puts them in a bucket and records the
    backup in the status of the cluster.  Its fields are the state of the monad
    [bmM]; the Kubernetes API, the instance, the file system, the commands and
    the bucket are calls. *)

From S2P Require Import Prelude Prog Worlds GoLib Time Constants Api Event Keys Bkop.
#[local] Open Scope Z_scope.

(** ** Calls of the backup and restore tools *)

Inductive bkcall :=
| KListPods (namespace : string) (labels : list (string * string))
| KGetPod (namespace name : string)
| KGetCluster (namespace name : string)
| KUpdateClusterStatus (cluster : MySQLCluster)
| KCreateEvent (e : MOCOEvent)
| KGetReference                                   (* reference.GetReference of the cluster *)
| KSetup (what : string)                          (* clients made at start *)
| KOpen (host : string) (port : Z) (user password : string) (threads : Z)   (* newOperator *)
| KOp (host : string) (m : bopcall)               (* a method of the operator for the host *)
| KMkdirAll (dir : string)
| KRemoveAll (dir : string)
| KReadFile (name : string)
| KWalkDir (dir : string)
| KPipe (id : Z)
| KClosePipe (id : Z) (writer : bool)
| KStart (c : Cmd)
| KRun (c : Cmd)
| KWait (c : Cmd)
| KCancel
| KPut (key : string) (objectSize : Z)            (* reading from the last pipe through a TeeReader *)
| KGet (key : string)
| KCloseObject (key : string)
| KList (prefix : string)
| KNow
| KSince (t : Z)
| KSleep (milliseconds : Z)
| KTick.                                          (* true when the context is done *)

(** An entry [WalkDir] visits: its error, or size and blocks when it has them. *)
Abbreviation walked := (extres (Z * option Z)).

Definition bkresp (c : bkcall) : Type :=
  match c with
  | KListPods _ _ => extres (list Pod)
  | KGetPod _ _ => extres Pod
  | KGetCluster _ _ => extres MySQLCluster
  | KUpdateClusterStatus _ | KCreateEvent _ | KGetReference | KSetup _ => extres unit
  | KOpen _ _ _ _ _ => extres unit
  | KOp _ m => bopresp m
  | KMkdirAll _ => extres unit
  | KReadFile _ => extres string
  | KWalkDir _ => list walked
  | KPipe _ | KStart _ | KRun _ | KWait _ => extres unit
  | KPut _ _ => list Z * extres unit   (* the lengths of the chunks read, and the result *)
  | KGet _ => extres unit
  | KList _ => extres (list string)
  | KNow | KSince _ => Z
  | KTick => bool
  | KRemoveAll _ | KClosePipe _ _ | KCancel | KCloseObject _ | KSleep _ => unit
  end.

Definition bkSig : signature := {| call := bkcall; resp := bkresp |}.
Definition bk (c : bkcall) : prog bkSig (bkresp c) := @perform bkSig c.

(** ** ByteCountWriter *)

(* backup/bytecounter.go :: ByteCountWriter *)
Record ByteCountWriter := { written : Z }.

(** [atomic.Int64] wraps around. *)
(* backup/bytecounter.go :: Write *)
Definition Write (w : ByteCountWriter) (len : Z) : ByteCountWriter :=
  {| written := wrap64 (written w + len) |}.

(* backup/bytecounter.go :: Written *)
Definition Written (w : ByteCountWriter) : Z := written w.

(** ** BackupManager *)

(* backup/backup.go :: BackupManager *)
Record BackupManager := {
  bm_cluster : MySQLCluster;
  bm_mysqlPassword : string;
  bm_workDir : string;
  bm_threads : Z;
  bm_startTime : Z;
  bm_sourceIndex : Z;
  bm_status : ServerStatus;
  bm_uuidSet : gmap string string;
  bm_gtidSet : string;
  bm_dumpSize : Z;
  bm_binlogSize : Z;
  bm_workDirUsage : Z;
  bm_warnings : list string
}.

Definition set_bm_source (start index : Z) (st : ServerStatus) (uuids : gmap string string)
    (warnings : list string) (bm : BackupManager) : BackupManager :=
  {| bm_cluster := bm_cluster bm; bm_mysqlPassword := bm_mysqlPassword bm; bm_workDir := bm_workDir bm;
     bm_threads := bm_threads bm; bm_startTime := start; bm_sourceIndex := index; bm_status := st;
     bm_uuidSet := uuids; bm_gtidSet := bm_gtidSet bm; bm_dumpSize := bm_dumpSize bm;
     bm_binlogSize := bm_binlogSize bm; bm_workDirUsage := bm_workDirUsage bm; bm_warnings := warnings |}.

Definition set_startTime (t : Z) (bm : BackupManager) : BackupManager :=
  set_bm_source t (bm_sourceIndex bm) (bm_status bm) (bm_uuidSet bm) (bm_warnings bm) bm.
Definition set_sourceIndex (i : Z) (bm : BackupManager) : BackupManager :=
  set_bm_source (bm_startTime bm) i (bm_status bm) (bm_uuidSet bm) (bm_warnings bm) bm.
Definition set_status (st : ServerStatus) (bm : BackupManager) : BackupManager :=
  set_bm_source (bm_startTime bm) (bm_sourceIndex bm) st (bm_uuidSet bm) (bm_warnings bm) bm.
Definition set_uuidSet (u : gmap string string) (bm : BackupManager) : BackupManager :=
  set_bm_source (bm_startTime bm) (bm_sourceIndex bm) (bm_status bm) u (bm_warnings bm) bm.
Definition add_warning (w : string) (bm : BackupManager) : BackupManager :=
  set_bm_source (bm_startTime bm) (bm_sourceIndex bm) (bm_status bm) (bm_uuidSet bm) (bm_warnings bm ++ [w]) bm.

Definition set_bm_result (gtid : string) (dump binlog usage : Z) (bm : BackupManager) : BackupManager :=
  {| bm_cluster := bm_cluster bm; bm_mysqlPassword := bm_mysqlPassword bm; bm_workDir := bm_workDir bm;
     bm_threads := bm_threads bm; bm_startTime := bm_startTime bm; bm_sourceIndex := bm_sourceIndex bm;
     bm_status := bm_status bm; bm_uuidSet := bm_uuidSet bm; bm_gtidSet := gtid; bm_dumpSize := dump;
     bm_binlogSize := binlog; bm_workDirUsage := usage; bm_warnings := bm_warnings bm |}.

Definition set_gtidSet (g : string) (bm : BackupManager) : BackupManager :=
  set_bm_result g (bm_dumpSize bm) (bm_binlogSize bm) (bm_workDirUsage bm) bm.
Definition set_dumpSize (n : Z) (bm : BackupManager) : BackupManager :=
  set_bm_result (bm_gtidSet bm) n (bm_binlogSize bm) (bm_workDirUsage bm) bm.
Definition set_binlogSize (n : Z) (bm : BackupManager) : BackupManager :=
  set_bm_result (bm_gtidSet bm) (bm_dumpSize bm) n (bm_workDirUsage bm) bm.
Definition set_workDirUsage (n : Z) (bm : BackupManager) : BackupManager :=
  set_bm_result (bm_gtidSet bm) (bm_dumpSize bm) (bm_binlogSize bm) n bm.

(** ** The monad of its methods: the fields, calls, errors and panics *)

Definition bmM (A : Type) : Type := BackupManager → prog bkSig (BackupManager * outcome A).

Definition bm_ret {A} (o : outcome A) : bmM A := λ bm, Ret (bm, o).
Definition bm_bind {A B} (m : bmM A) (f : A → bmM B) : bmM B :=
  λ bm, r <-- m bm ;;
        match r with
        | (bm, Return a) => f a bm
        | (bm, Error e) => Ret (bm, Error e)
        | (bm, Panic p) => Ret (bm, Panic p)
        end.
Notation "x <-m m ;; q" := (bm_bind m (λ x, q))
  (at level 100, m at next level, right associativity) : go_scope.

Definition bm_get : bmM BackupManager := λ bm, Ret (bm, Return bm).
Definition bm_modify (f : BackupManager → BackupManager) : bmM unit := λ bm, Ret (f bm, Return ()).

(** A call whose answer is used as it is. *)
Definition bm_call (c : bkcall) : bmM (bkresp c) := λ bm, r <-- bk c ;; Ret (bm, Return r).

(** [if err := ...; err != nil { return fmt.Errorf(msg, err) }]. *)
Definition bm_check {A} (msg : string) (p : prog bkSig (extres A)) : bmM A :=
  λ bm, r <-- p ;;
        Ret (bm, match r with inr a => Return a | inl e => Error (ErrWrap msg e) end).

Definition bm_try {A} (msg : string) (m : bmM A) : bmM A :=
  λ bm, r <-- m bm ;;
        Ret (r.1, match r.2 with Error e => Error (ErrWrap msg e) | o => o end).

(** A deferred call: it runs whatever the outcome. *)
Definition bm_defer {A} (cleanup : prog bkSig unit) (m : bmM A) : bmM A :=
  λ bm, r <-- m bm ;; _ <-- cleanup ;; Ret r.

(** ** Helpers *)

(* backup/backup.go:458-463 podIsReady *)
Fixpoint podIsReady_conditions (conds : list (string * ConditionStatus)) : bool :=
  match conds with
  | [] => false
  | c :: rest => if c.1 <>s PodReady then podIsReady_conditions rest
                 else bool_decide (c.2 = ConditionTrue)
  end.
(* backup/backup.go :: podIsReady *)
Definition podIsReady (pod : Pod) : bool := podIsReady_conditions (pod_Conditions pod).

(** [podIsReady(pods[i])]: out of range or nil it panics. *)
Definition readyAt (pods : list (option Pod)) (i : Z) : option bool :=
  pod ← mjoin (index_at pods i); Some (podIsReady pod).

(* backup/backup.go:469-484 dirUsage *)
Fixpoint sumUsage (usage : Z) (entries : list walked) : extres Z :=
  match entries with
  | [] => inr usage
  | inl e :: _ => inl e
  | inr (size, blocks) :: rest =>
      sumUsage (wrap64 (usage + match blocks with Some b => wrap64 (b * 512) | None => size end)) rest
  end.
(* backup/backup.go :: dirUsage *)
Definition dirUsage (dir : string) : prog bkSig (extres Z) :=
  entries <-- bk (KWalkDir dir) ;; Ret (sumUsage 0 entries).

(** Map iteration is in no particular order; the result is sorted. *)
(* backup/backup.go :: getIdxsWithUnchangedUUID *)
Definition getIdxsWithUnchangedUUID (current last : gmap string string) : list Z :=
  sort_ints (omap (λ kv, if decide (last !! kv.1 = Some kv.2) then Atoi kv.1 else None)
                  (map_to_list current)).

(** ** GetUUIDSet *)

Definition openOperator (bm : BackupManager) (host : string) : prog bkSig (extres unit) :=
  bk (KOpen host MySQLPort BackupUser (bm_mysqlPassword bm) (bm_threads bm)).

(** The loop; every opened operator is closed when the function returns. *)
(* backup/backup.go:212-229 GetUUIDSet *)
Fixpoint uuidLoop (pods : list (Z * option Pod)) (uuids : gmap string string) : bmM (gmap string string) :=
  match pods with
  | [] => bm_ret (Return uuids)
  | (_, None) :: _ => bm_ret (Panic "nil pointer dereference")
  | (i, Some pod) :: rest =>
      if podIsReady pod then
        bm <-m bm_get ;;
        let host := PodHostname (bm_cluster bm) i in
        _ <-m bm_check "failed to create operator" (openOperator bm host) ;;
        bm_defer (bk (KOp host BClose))
          (st <-m bm_call (KOp host GetServerStatus) ;;
           match st with
           | inl _ => uuidLoop rest uuids
           | inr st => _ <-m bm_modify (set_status st) ;; uuidLoop rest (<[Itoa i := srv_UUID st]> uuids)
           end)
      else uuidLoop rest uuids
  end.

(* backup/backup.go :: GetUUIDSet *)
Definition GetUUIDSet (pods : list (option Pod)) : bmM (gmap string string) :=
  uuidLoop (indexed pods) ∅.

(** ** ChoosePod *)

(** The first ready Pod other than the primary; [None] is a panic. *)
(* backup/backup.go:241-248 ChoosePod *)
Fixpoint firstReady (primary : Z) (pods : list (Z * option Pod)) : option (option Z) :=
  match pods with
  | [] => Some None
  | (i, pod) :: rest =>
      if i =? primary then firstReady primary rest else
      pod ← pod;
      if podIsReady pod then Some (Some i) else firstReady primary rest
  end.

(** A ready replica, or else the primary. *)
(* backup/backup.go:241-253 ChoosePod *)
Definition chooseReady (primary : Z) (pods : list (option Pod)) : outcome (Z * bool) :=
  match firstReady primary (indexed pods) with
  | None => Panic "nil pointer dereference"
  | Some (Some i) => Return (i, false)
  | Some None =>
      match readyAt pods primary with
      | None => Panic "index out of range or nil pointer dereference"
      | Some true => Return (primary, false)
      | Some false => Error (ErrNew "no ready pod exists")
      end
  end.

(** Among the instances that kept their UUID: the last source, the first
    replica, or the primary. *)
(* backup/backup.go:284-299 ChoosePod *)
Fixpoint chooseUnchanged (primary lastIndex : Z) (idxs replicas : list Z) : Z :=
  match idxs with
  | [] => match replicas with i :: _ => i | [] => primary end
  | i :: rest =>
      if i =? primary then chooseUnchanged primary lastIndex rest replicas else
      if i =? lastIndex then i else
      chooseUnchanged primary lastIndex rest (replicas ++ [i])
  end.

(** The indices a backup of the binary logs can be taken from. *)
(* backup/backup.go:256-264 ChoosePod *)
Definition choosable (uuids : gmap string string) (last : BackupStatus) : list Z :=
  if decide (bk_UUIDSet last = ∅)
  then getIdxsWithUnchangedUUID uuids {[Itoa (bk_SourceIndex last) := bk_SourceUUID last]}
  else getIdxsWithUnchangedUUID uuids (bk_UUIDSet last).

Definition skipWarning : string := "skip binlog backups because some binlog files may be missing".

(* backup/backup.go :: ChoosePod *)
Definition ChoosePod (pods : list (option Pod)) : bmM (Z * bool) :=
  bm <-m bm_get ;;
  let primary := CurrentPrimaryIndex (Status (bm_cluster bm)) in
  let lastBackup := Backup (Status (bm_cluster bm)) in
  match bk_Time lastBackup with
  | None => bm_ret (chooseReady primary pods)
  | Some _ =>
      match choosable (bm_uuidSet bm) lastBackup with
      | [] => _ <-m bm_modify (add_warning skipWarning) ;; bm_ret (chooseReady primary pods)
      | idxs => bm_ret (Return (chooseUnchanged primary (bk_SourceIndex lastBackup) idxs [], true))
      end
  end.

(** ** The full dump *)

Definition tarCreate (bm : BackupManager) (sub : string) : Cmd :=
  {| cmd_Name := "tar"; cmd_Args := ["-c"; "-f"; "-"; "-C"; bm_workDir bm; sub]; cmd_Env := [] |}.
Definition zstdCmd (bm : BackupManager) : Cmd :=
  {| cmd_Name := "zstd"; cmd_Args := ["--no-progress"; "-T" +:+ Itoa (bm_threads bm)]; cmd_Env := [] |}.

(** [bm.bucket.Put(ctx, key, io.TeeReader(pr, bw), usage)]: the bytes the bucket
    reads are counted by [bw]. *)
Definition putCounting (msg key : string) (usage : Z) : bmM ByteCountWriter :=
  r <-m bm_call (KPut key usage) ;;
  match r.2 with
  | inl e => bm_ret (Error (ErrWrap msg e))
  | inr _ => bm_ret (Return (foldl Write {| written := 0 |} r.1))
  end.

(** Make pipe [id], start a command that writes to it and close our writing end.
    The deferred function closes the ends that are still open. *)
(* backup/backup.go:324-347 backupFull *)
Definition withPipe {A} (id : Z) (startMsg : string) (cmd : Cmd) (rest : bmM A) : bmM A :=
  _ <-m bm_check "failed to create pipe" (bk (KPipe id)) ;;
  r <-m bm_call (KStart cmd) ;;
  match r with
  | inl e =>
      _ <-m bm_call (KClosePipe id false) ;;
      _ <-m bm_call (KClosePipe id true) ;;
      bm_ret (Error (ErrWrap startMsg e))
  | inr _ =>
      _ <-m bm_call (KClosePipe id true) ;;
      bm_defer (bk (KClosePipe id false)) rest
  end.

Section backup.
Context {RC : ConflictRetry bkSig}.
(** [json.Unmarshal] of [@.json]: the member [gtidExecuted]. *)
Variable Unmarshal_gtidExecuted : string → extres string.

(* pkg/bkop/gtid.go :: GetGTIDExecuted *)
Definition GetGTIDExecuted (dir : string) : prog bkSig (extres string) :=
  let fname := path_Join [dir; "@.json"] in
  data <-! wrap_err ("could not read " +:+ fname) (bk (KReadFile fname)) ;;
  wrap_err "failed to parse contents in @.json" (Ret (Unmarshal_gtidExecuted data)).

(** Between making the dump directory and its deferred removal. *)
(* backup/backup.go:308-358 backupFull *)
Definition backupFullIn (host dumpDir : string) : bmM unit :=
  _ <-m bm_check "failed to take a full dump" (bk (KOp host (DumpFull dumpDir))) ;;
  gtid <-m bm_check "failed to get GTID set from the dump" (GetGTIDExecuted dumpDir) ;;
  _ <-m bm_modify (set_gtidSet gtid) ;;
  usage <-m bm_check "failed to calculate dir usage" (dirUsage dumpDir) ;;
  _ <-m bm_modify (set_workDirUsage usage) ;;
  bm <-m bm_get ;;
  let tarCmd := tarCreate bm "dump" in
  withPipe 1 "failed to start tar process" tarCmd
    (let key := calcKey (Namespace (bm_cluster bm)) (Name (bm_cluster bm)) DumpFilename (bm_startTime bm) in
     bw <-m putCounting "failed to put dump.tar" key usage ;;
     _ <-m bm_check "tar command failed" (bk (KWait tarCmd)) ;;
     bm_modify (set_dumpSize (Written bw))).

(* backup/backup.go :: backupFull *)
Definition backupFull (host : string) : bmM unit :=
  bm <-m bm_get ;;
  let dumpDir := path_Join [bm_workDir bm; "dump"] in
  _ <-m bm_check "failed to make dump directory" (bk (KMkdirAll dumpDir)) ;;
  bm_defer (bk (KRemoveAll dumpDir)) (backupFullIn host dumpDir).

(** ** The binary logs *)

(** A [metav1.Time] as a [time.Time]; the zero time is year 1. *)
Definition zero_time : Z := (day_number 1 1 1 - epoch_days) * 86400 * ns_per_second.
Definition time_or_zero (t : option Z) : Z := match t with Some s => s * ns_per_second | None => zero_time end.

(** The first binary log to dump. *)
(* backup/backup.go:368-380 backupBinlog *)
Definition firstBinlog (host : string) (lastBackup : BackupStatus) : bmM string :=
  bm <-m bm_get ;;
  if bm_sourceIndex bm =? bk_SourceIndex lastBackup then bm_ret (Return (bk_BinlogFilename lastBackup)) else
  binlogs <-m bm_check "failed to list binlog files" (bk (KOp host GetBinlogs)) ;;
  match SortBinlogs binlogs with
  | [] => bm_ret (Error (ErrNew "no binlog files found"))
  | name :: _ => bm_ret (Return name)
  end.

(** Between making the directory and its deferred removal. *)
(* backup/backup.go:368-454 backupBinlog *)
Definition backupBinlogIn (host binlogDir : string) : bmM unit :=
  bm <-m bm_get ;;
  let lastBackup := Backup (Status (bm_cluster bm)) in
  binlogName <-m firstBinlog host lastBackup ;;
  _ <-m bm_check "failed to exec mysqlbinlog command"
          (bk (KOp host (DumpBinlog binlogDir binlogName (bk_GTIDSet lastBackup)))) ;;
  usage <-m bm_check "failed to calculate dir usage" (dirUsage binlogDir) ;;
  _ <-m bm_modify (λ bm, if bm_workDirUsage bm <? usage then set_workDirUsage usage bm else bm) ;;
  let tarCmd := tarCreate bm "binlog" in
  withPipe 1 "failed to start tar process" tarCmd
    (withPipe 2 "failed to start zstd process" (zstdCmd bm)
      (let key := calcKey (Namespace (bm_cluster bm)) (Name (bm_cluster bm)) BinlogFilename
                    (time_or_zero (bk_Time lastBackup)) in
       bw <-m putCounting "failed to put binlog.tar.zst" key usage ;;
       _ <-m bm_check "tar command failed" (bk (KWait tarCmd)) ;;
       _ <-m bm_check "zstd command failed" (bk (KWait (zstdCmd bm))) ;;
       bm_modify (set_binlogSize (Written bw)))).

(* backup/backup.go :: backupBinlog *)
Definition backupBinlog (host : string) : bmM unit :=
  bm <-m bm_get ;;
  let binlogDir := path_Join [bm_workDir bm; "binlog"] in
  _ <-m bm_check "failed to make binlog dump directory" (bk (KMkdirAll binlogDir)) ;;
  bm_defer (bk (KRemoveAll binlogDir)) (backupBinlogIn host binlogDir).

(** ** Backup *)

(** The Pods by their ordinals; [None] where there is none. *)
(* backup/backup.go:113-125 Backup *)
Fixpoint orderPods (n : Z) (pods : list Pod) (ordered : list (option Pod)) : outcome (list (option Pod)) :=
  match pods with
  | [] => Return ordered
  | pod :: rest =>
      match Atoi (last_field "-" (pod_Name pod)) with
      | None => Error (ErrNew ("bad pod name: " +:+ pod_Name pod))
      | Some index =>
          if (index <? 0) || (n <=? index) then Error (ErrNew ("index out of range: " +:+ Itoa index)) else
          match set_at ordered index (Some pod) with
          | None => Panic "index out of range"
          | Some ordered => orderPods n rest ordered
          end
      end
  end.

Definition cluster_labels (name : string) : list (string * string) :=
  [(LabelAppName, AppNameMySQL); (LabelAppInstance, name); (LabelAppCreatedBy, AppCreator)].

(** The Pods of an online cluster, when all are there. *)
(* backup/backup.go:96-125 Backup *)
Definition listPods : bmM (list (option Pod)) :=
  bm <-m bm_get ;;
  let cl := bm_cluster bm in
  let at_ := Namespace cl +:+ "/" +:+ Name cl in
  pods <-m bm_check "failed to get pod list" (bk (KListPods (Namespace cl) (cluster_labels (Name cl)))) ;;
  if Offline (Spec cl) then bm_ret (Error (ErrNew ("cluster is configured to be offline " +:+ at_))) else
  if negb (go_len pods =? Replicas (Spec cl)) then bm_ret (Error (ErrNew ("too few Pods for " +:+ at_))) else
  bm_ret (orderPods (go_len pods) pods (replicate (Z.to_nat (Replicas (Spec cl))) None)).

(** The status of the backup as the manager's fields have it. *)
(* backup/backup.go:175-186 Backup *)
Definition newBackupStatus (bm : BackupManager) (elapsed : Z) : BackupStatus :=
  {| bk_Time := Some (bm_startTime bm / ns_per_second); bk_Elapsed := elapsed;
     bk_SourceIndex := bm_sourceIndex bm; bk_SourceUUID := srv_UUID (bm_status bm);
     bk_UUIDSet := bm_uuidSet bm; bk_BinlogFilename := CurrentBinlog (bm_status bm);
     bk_GTIDSet := bm_gtidSet bm; bk_DumpSize := bm_dumpSize bm; bk_BinlogSize := bm_binlogSize bm;
     bk_WorkDirUsage := bm_workDirUsage bm; bk_Warnings := bm_warnings bm |}.

Definition set_Backup (b : BackupStatus) (c : MySQLCluster) : MySQLCluster :=
  set_Status {| Conditions := Conditions (Status c); CurrentPrimaryIndex := CurrentPrimaryIndex (Status c);
                SyncedReplicas := SyncedReplicas (Status c); ErrantReplicas := ErrantReplicas (Status c);
                ErrantReplicaList := ErrantReplicaList (Status c); Backup := b;
                RestoredTime := RestoredTime (Status c); Cloned := Cloned (Status c);
                ReconcileInfo_ := ReconcileInfo_ (Status c) |} c.

(** The function given to [RetryOnConflict]. *)
(* backup/backup.go:169-189 Backup *)
Definition recordBackup (bm : BackupManager) (elapsed : Z) : prog bkSig (extres unit) :=
  cluster <-! bk (KGetCluster (Namespace (bm_cluster bm)) (Name (bm_cluster bm))) ;;
  bk (KUpdateClusterStatus (set_Backup (newBackupStatus bm elapsed) cluster)).

(** A failed dump of the binary logs is reported, not returned. *)
(* backup/backup.go:155-165 Backup *)
Definition tryBackupBinlog (host : string) : bmM unit :=
  λ bm, r <-- backupBinlog host bm ;;
        match r with
        | (bm, Error e) =>
            _ <-- bk (KCreateEvent BackupNoBinlog) ;;
            Ret (add_warning ("failed to backup binary logs: " +:+ error_string e) bm, Return ())
        | r => Ret r
        end.

(** From the opened operator to the end; the operator is closed by a deferred call. *)
(* backup/backup.go:142-208 Backup *)
Definition backupFrom (host : string) (doBackupBinlog : bool) : bmM unit :=
  st <-m bm_check "failed to get server status" (bk (KOp host GetServerStatus)) ;;
  _ <-m bm_modify (set_status st) ;;
  now <-m bm_call KNow ;;
  _ <-m bm_modify (set_startTime now) ;;
  _ <-m bm_try "failed to take a full dump" (backupFull host) ;;
  _ <-m (if doBackupBinlog then tryBackupBinlog host else bm_ret (Return ())) ;;
  bm <-m bm_get ;;
  elapsed <-m bm_call (KSince (bm_startTime bm)) ;;
  _ <-m bm_check "failed to update MySQLCluster status" (RetryOnConflict (recordBackup bm elapsed)) ;;
  _ <-m bm_call (KCreateEvent BackupCreated) ;;
  bm_ret (Return ()).

(* backup/backup.go :: BackupManager.Backup *)
Definition BackupManager_Backup : bmM unit :=
  orderedPods <-m listPods ;;
  uuidSet <-m bm_try "failed to get server_uuid set" (GetUUIDSet orderedPods) ;;
  _ <-m bm_modify (set_uuidSet uuidSet) ;;
  choice <-m bm_try "failed to choose source instance" (ChoosePod orderedPods) ;;
  _ <-m bm_modify (set_sourceIndex choice.1) ;;
  match mjoin (index_at orderedPods choice.1) with
  | None => bm_ret (Panic "index out of range or nil pointer dereference")
  | Some pod =>
      bm <-m bm_get ;;
      let host := pod_PodIP pod in
      _ <-m bm_check "failed to create operator" (openOperator bm host) ;;
      bm_defer (bk (KOp host BClose)) (backupFrom host choice.2)
  end.
End backup.
