(* ===== verification/BackupSpec.v ===== *)
(** * Backups are recorded truthfully

    What [ChoosePod] chooses, when a backup is recorded in the status of the
    cluster, and that it leaves nothing behind. *)

From S2P Require Import Prelude Prog Worlds GoLib Time Constants Api Event Keys Bkop Backup Cluster Samples.
#[local] Open Scope Z_scope.

(** ** Choosing the source *)

(** The instance with index [j] kept its UUID since the last backup. *)
Definition unchanged (uuids last : gmap string string) (j : Z) : Prop :=
  ∃ k u, Atoi k = Some j ∧ uuids !! k = Some u ∧ last !! k = Some u.

Lemma elem_of_getIdxs uuids last j : j ∈ getIdxsWithUnchangedUUID uuids last ↔ unchanged uuids last j.
Proof.
  unfold getIdxsWithUnchangedUUID, unchanged. rewrite sort_ints_perm, list_elem_of_omap. split.
  - intros ([k u] & Hin%elem_of_map_to_list & Hd). cbn in Hd. case_decide; [|done]. by exists k, u.
  - intros (k & u & Hk & Hu & Hl). exists (k, u). rewrite elem_of_map_to_list. cbn.
    split; [done|]. by rewrite decide_True.
Qed.

(** The UUIDs of the last backup; old backups recorded only that of the source. *)
Definition last_uuids (last : BackupStatus) : gmap string string :=
  if decide (bk_UUIDSet last = ∅) then {[Itoa (bk_SourceIndex last) := bk_SourceUUID last]}
  else bk_UUIDSet last.

Lemma choosable_spec uuids last j : j ∈ choosable uuids last ↔ unchanged uuids (last_uuids last) j.
Proof. unfold choosable, last_uuids. case_decide; apply elem_of_getIdxs. Qed.

Lemma choosable_sorted uuids last : StronglySorted Z.le (choosable uuids last).
Proof. unfold choosable. case_decide; apply sort_ints_sorted. Qed.

(** The choice among unchanged instances: the last source if it is a replica,
    or else the first replica, or else the primary. *)
Lemma chooseUnchanged_spec primary lastIndex idxs acc :
  StronglySorted Z.le (acc ++ idxs) → primary ∉ acc → lastIndex ∉ acc →
  let c := chooseUnchanged primary lastIndex idxs acc in
  (lastIndex ∈ idxs → lastIndex ≠ primary → c = lastIndex) ∧
  (c ∈ acc ++ idxs ∨ c = primary ∧ acc = []) ∧
  (c = primary → ∀ j, j ∈ acc ++ idxs → j = primary) ∧
  (c ≠ lastIndex → c ≠ primary → ∀ j, j ∈ acc ++ idxs → j ≠ primary → c ≤ j).
Proof.
  revert acc. induction idxs as [|i idxs IH]; intros acc Hs Hp Hl; cbn [chooseUnchanged].
  - rewrite app_nil_r in *. destruct acc as [|a acc]; cbn zeta.
    + split_and!; [by intros ?%elem_of_nil|by right|by intros _ j ?%elem_of_nil|by intros].
    + split_and!; [by intros ?%elem_of_nil|left; left|intros ->; exfalso; apply Hp; left|].
      intros _ _ j [->|Hj]%elem_of_cons _; [done|]. inversion Hs as [|?? _ Hall]; subst.
      rewrite Forall_forall in Hall. by apply Hall.
  - destruct (Z.eqb_spec i primary) as [->|Hip].
    { destruct (IH acc) as (H1 & H2 & H3 & H4); [|done..|].
      { apply StronglySorted_app in Hs as (Ha & Hb & Hc). apply StronglySorted_app.
        inversion Hc; subst. split_and!; [|done..]. intros x y Hx Hy. apply Ha; [done|by right]. }
      split_and!.
      - intros [->|?]%elem_of_cons ?; [done|by apply H1].
      - destruct H2 as [[?|?]%elem_of_app|?]; [left; set_solver..|by right].
      - intros Hc j [?|[->|?]%elem_of_cons]%elem_of_app; [|done|]; apply H3; set_solver.
      - intros Hc1 Hc2 j Hj Hne. apply H4; [done..| |done]. set_solver. }
    destruct (Z.eqb_spec i lastIndex) as [->|Hil]; cbn zeta.
    { split_and!; [done|left; set_solver|done|done]. }
    destruct (IH (acc ++ [i])) as (H1 & H2 & H3 & H4); [by rewrite <- app_assoc|set_solver..|].
    rewrite <- app_assoc in *. split_and!.
    + intros [->|?]%elem_of_cons ?; [done|by apply H1].
    + destruct H2 as [?|[_ Hn]]; [by left|]. by apply app_eq_nil in Hn as [_ ?].
    + done.
    + done.
Qed.

Definition ready (pods : list (option Pod)) (j : Z) : Prop := readyAt pods j = Some true.
Definition no_nil (pods : list (option Pod)) : Prop := Forall is_Some pods.

Lemma readyAt_Some pods j :
  no_nil pods → 0 ≤ j < go_len pods → is_Some (readyAt pods j).
Proof.
  intros Hall Hj. unfold readyAt. apply index_at_lt in Hj as [p Hp]. rewrite Hp. cbn.
  apply index_at_Some in Hp as [_ Hp]. eapply Forall_lookup_1 in Hall as [q ->]; [|exact Hp]. by eexists.
Qed.

Lemma firstReady_spec primary pods l :
  (∀ i p, (i, p) ∈ l → is_Some p ∧ index_at pods i = Some p) →
  ∃ r, firstReady primary l = Some r ∧
    match r with
    | Some i => ready pods i ∧ i ≠ primary
    | None => ∀ i p, (i, p) ∈ l → i ≠ primary → ¬ ready pods i
    end.
Proof.
  induction l as [|[i p] l IH]; intros Hl; cbn [firstReady].
  { exists None. split; [done|]. by intros ?? ?%elem_of_nil. }
  destruct IH as (r & Hr & Hspec); [by intros; apply Hl; right|].
  destruct (Hl i p) as [[pod ->] Hi]; [by left|].
  assert (readyAt pods i = Some (podIsReady pod)) as Hat by (unfold readyAt; by rewrite Hi).
  destruct (Z.eqb_spec i primary) as [->|Hip].
  - exists r. split; [done|]. destruct r as [j|]; [done|].
    intros k q [?|?]%elem_of_cons Hk; [by simplify_eq|by eapply Hspec].
  - cbn [mbind option_bind]. destruct (podIsReady pod) eqn:Hpr.
    + exists (Some i). by split.
    + exists r. split; [done|]. destruct r as [j|]; [done|].
      intros k q [?|?]%elem_of_cons Hk; [|by eapply Hspec]. simplify_eq. unfold ready. by rewrite Hat.
Qed.

(** A ready instance, a replica if there is one. *)
Lemma chooseReady_spec primary pods :
  no_nil pods → 0 ≤ primary < go_len pods →
  match chooseReady primary pods with
  | Return (i, b) => b = false ∧ ready pods i ∧ (i = primary → ∀ j, ready pods j → j = primary)
  | Error _ => ∀ j, ¬ ready pods j
  | Panic _ => False
  end.
Proof.
  intros Hall Hp. unfold chooseReady.
  assert (∀ i p, (i, p) ∈ indexed pods → is_Some p ∧ index_at pods i = Some p) as Hl.
  { intros i p Hin%elem_of_indexed. split; [|done]. apply index_at_Some in Hin as [_ Hin].
    by eapply Forall_lookup_1 in Hall. }
  destruct (firstReady_spec primary pods _ Hl) as ([i|] & -> & Hr).
  { destruct Hr. split_and!; [done..|congruence]. }
  assert (∀ j, ready pods j → j = primary) as Honly.
  { intros j Hj. destruct (decide (j = primary)) as [|Hne]; [done|]. exfalso.
    unfold ready, readyAt in Hj. destruct (index_at pods j) as [p|] eqn:Hjp; [|done].
    eapply Hr; [by apply elem_of_indexed|done|]. unfold ready, readyAt. by rewrite Hjp. }
  destruct (readyAt_Some pods primary Hall Hp) as [[] Hr2]; rewrite Hr2.
  - by split_and!.
  - intros j Hj. pose proof (Honly _ Hj) as ->. unfold ready in Hj. congruence.
Qed.

(** C28. The source of a backup is well chosen.  [ChoosePod] makes no call and
    does not panic.  A backup without binary logs is taken from a ready Pod, from
    the primary only if no other is ready; it fails only if none is ready.
    Binary logs are taken exactly when there was a backup and some instance kept
    its UUID since, and then from such an instance: from the last source if it is
    a replica, otherwise from the first such replica, and from the primary only
    if it is the only one. *)
Theorem choose_pod_correct pods bm :
  let cl := Status (bm_cluster bm) in
  let primary := CurrentPrimaryIndex cl in
  let kept := unchanged (bm_uuidSet bm) (last_uuids (Backup cl)) in
  no_nil pods → 0 ≤ primary < go_len pods →
  ∃ bm' o, ChoosePod pods bm = Ret (bm', o) ∧
    match o with
    | Return (i, false) =>
        ready pods i ∧ (i = primary → ∀ j, ready pods j → j = primary) ∧
        (bk_Time (Backup cl) ≠ None → ∀ j, ¬ kept j)
    | Return (i, true) =>
        bk_Time (Backup cl) ≠ None ∧ kept i ∧ (i = primary → ∀ j, kept j → j = primary) ∧
        (kept (bk_SourceIndex (Backup cl)) → bk_SourceIndex (Backup cl) ≠ primary →
         i = bk_SourceIndex (Backup cl)) ∧
        (i ≠ bk_SourceIndex (Backup cl) → i ≠ primary → ∀ j, kept j → j ≠ primary → i ≤ j)
    | Error _ => ∀ j, ¬ ready pods j
    | Panic _ => False
    end.
Proof.
  intros cl primary kept Hall Hp. pose proof (chooseReady_spec primary pods Hall Hp) as Hready.
  unfold ChoosePod, bm_bind, bm_get, bm_ret, bm_modify. cbn [bind]. fold cl. fold primary.
  destruct (bk_Time (Backup cl)) as [t|] eqn:Ht.
  2: { eexists _, _. split; [done|]. destruct (chooseReady primary pods) as [[i []]|e|m];
         [by destruct Hready|by destruct Hready as (_ & ? & ?)|done..]. }
  pose proof (choosable_spec (bm_uuidSet bm) (Backup cl)) as Hc.
  pose proof (choosable_sorted (bm_uuidSet bm) (Backup cl)) as Hs.
  destruct (choosable (bm_uuidSet bm) (Backup cl)) as [|a idxs].
  - cbn [bind]. eexists _, _. split; [done|].
    destruct (chooseReady primary pods) as [[i []]|e|m]; [by destruct Hready| |done..].
    destruct Hready as (_ & ? & ?). split_and!; [done..|]. intros _ j Hj%Hc. by apply elem_of_nil in Hj.
  - eexists _, _. split; [done|].
    destruct (chooseUnchanged_spec primary (bk_SourceIndex (Backup cl)) (a :: idxs) []) as (H1 & H2 & H3 & H4);
      [done|by intros ?%elem_of_nil..|]. cbn [app] in *.
    split_and!; [done| | | |].
    + destruct H2 as [H2|[Heq _]]; [by apply Hc|].
      assert (a = primary) as <- by (apply H3; [done|left]). rewrite Heq. apply Hc. left.
    + intros Hi j Hj. apply H3; [done|by apply Hc].
    + intros Hj%Hc Hne. by apply H1.
    + intros Hi1 Hi2 j Hj%Hc Hne. by apply H4.
Qed.

(** ** Reasoning about the manager's methods *)

Section methods.
Context (P : trace bkSig → bkcall → Prop).
Implicit Types h : trace bkSig.

Lemma wp_bm_bind {A B} (m : bmM A) (f : A → bmM B) bm h Q :
  wp P (bm_bind m f bm) h Q ↔
  wp P (m bm) h (λ h' r, match r with
                         | (bm, Return a) => wp P (f a bm) h' Q
                         | (bm, Error e) => Q h' (bm, Error e)
                         | (bm, Panic p) => Q h' (bm, Panic p)
                         end).
Proof.
  unfold bm_bind. rewrite wp_bind. split; intros H; (eapply wp_conseq; [exact H|]);
    intros h' [bm' [a|e|p]]; cbn; auto.
Qed.

Lemma wp_bm_call c bm h Q :
  wp P (bm_call c bm) h Q ↔ P h c ∧ ∀ r, Q (h ++ [@ev bkSig c r]) (bm, Return r).
Proof. unfold bm_call, bk. rewrite wp_bind. done. Qed.

Lemma wp_bm_check {A} msg (p : prog bkSig (extres A)) bm h Q :
  wp P (bm_check msg p bm) h Q ↔
  wp P p h (λ h' r, Q h' (bm, match r with inr a => Return a | inl e => Error (ErrWrap msg e) end)).
Proof. unfold bm_check. rewrite wp_bind. done. Qed.

Lemma wp_bm_try {A} msg (m : bmM A) bm h Q :
  wp P (bm_try msg m bm) h Q ↔
  wp P (m bm) h (λ h' r, Q h' (r.1, match r.2 with Error e => Error (ErrWrap msg e) | o => o end)).
Proof. unfold bm_try. rewrite wp_bind. done. Qed.

Lemma wp_bm_defer {A} c (m : bmM A) bm h Q :
  wp P (bm_defer c m bm) h Q ↔ wp P (m bm) h (λ h' r, wp P c h' (λ h'' _, Q h'' r)).
Proof.
  unfold bm_defer. rewrite wp_bind. split; intros H; (eapply wp_conseq; [exact H|]);
    intros h' r; cbn; rewrite wp_bind; auto.
Qed.
End methods.

Create Rewrite HintDb bm_rw.
#[export] Hint Rewrite @wp_bm_bind @wp_bm_call @wp_bm_check @wp_bm_try @wp_bm_defer : bm_rw.

(** Expose the next call of a method. *)
Ltac bm_norm :=
  repeat (progress (autorewrite with bm_rw wp_rw; unfold bk;
                    cbn [wp perform bind bm_ret bm_get bm_modify fst snd])).

(** What is left when only deferred calls remain. *)
Ltac bm_leaf := intros; bm_norm; repeat (split; [done|intros]); done.

(** The fields a backup of the binary logs does not touch. *)
Definition core (bm : BackupManager) :=
  (bm_cluster bm, bm_startTime bm, bm_sourceIndex bm, bm_status bm, bm_uuidSet bm, bm_gtidSet bm,
   bm_dumpSize bm).

Definition is_record (c : bkcall) : bool := match c with KUpdateClusterStatus _ => true | _ => false end.
Definition no_record (h : trace bkSig) (c : bkcall) : Prop := is_record c = false.

Lemma wp_dirUsage dir h (Q : trace bkSig → extres Z → Prop) :
  (∀ entries r, Q (h ++ [@ev bkSig (KWalkDir dir) entries]) r) → wp no_record (dirUsage dir) h Q.
Proof. intros HQ. unfold dirUsage, bk. cbn. split; [done|]. intros entries. apply HQ. Qed.
#[local] Opaque dirUsage.

(** Whatever [rest] does with its pipe: a property kept by the pipe's calls. *)
Lemma wp_withPipe {A} (P : trace bkSig → bkcall → Prop) id msg cmd (rest : bmM A) bm h (Q : trace bkSig → BackupManager * outcome A → Prop) :
  (∀ h, P h (KPipe id)) → (∀ h, P h (KStart cmd)) → (∀ h b, P h (KClosePipe id b)) →
  (∀ h' e, (∃ t, h' = h ++ t) → Q h' (bm, Error e)) →
  (∀ h', (∃ t, h' = h ++ t) → wp P (rest bm) h' (λ h'' r, ∀ h3, (∃ t, h3 = h'' ++ t) → Q h3 r)) →
  wp P (withPipe id msg cmd rest bm) h Q.
Proof.
  intros H1 H2 H3 Herr Hrest. unfold withPipe. bm_norm. split; [done|]. intros [e|[]].
  { apply Herr. by eexists. }
  bm_norm. split; [done|]. intros [e|[]]; bm_norm.
  - split; [done|]. intros []. split; [done|]. intros []. apply Herr. rewrite <- !app_assoc. by eexists.
  - split; [done|]. intros []. bm_norm. eapply wp_conseq; [apply Hrest; rewrite <- !app_assoc; by eexists|].
    intros h' r HQ. cbn. split; [done|]. intros []. apply HQ. by eexists.
Qed.
#[local] Opaque withPipe.

Section recording.
Context {RC : ConflictRetry bkSig}.
Variable Unmarshal_gtidExecuted : string → extres string.

(** A backup of the binary logs leaves the core of the record alone. *)
Definition frame (bm : BackupManager) (h : trace bkSig) (r : BackupManager * outcome unit) : Prop :=
  core r.1 = core bm ∧ is_panic r.2 = false.

Lemma wp_firstBinlog host last bm h :
  wp no_record (firstBinlog host last bm) h (λ _ r, r.1 = bm ∧ is_panic r.2 = false).
Proof.
  unfold firstBinlog. bm_norm. destruct (_ =? _); bm_norm; [done|]. split; [done|].
  intros [e|bs]; bm_norm; [done|]. by destruct (SortBinlogs bs).
Qed.
#[local] Opaque firstBinlog.

Lemma wp_putCounting (P : trace bkSig → bkcall → Prop) msg key usage bm h :
  P h (KPut key usage) →
  wp P (putCounting msg key usage bm) h
     (λ h' r, r.1 = bm ∧ ∃ chunks res, h' = h ++ [@ev bkSig (KPut key usage) (chunks, res)] ∧
        match r.2 with
        | Return bw => res = inr () ∧ bw = foldl Write {| written := 0 |} chunks
        | Error _ => True
        | Panic _ => False
        end).
Proof.
  intros HP. unfold putCounting. bm_norm. split; [done|]. intros [chunks [e|[]]]; bm_norm.
  - split; [done|]. by exists chunks, (inl e).
  - split; [done|]. by exists chunks, (inr ()).
Qed.
#[local] Opaque putCounting.

Lemma wp_backupBinlog host bm h : wp no_record (backupBinlog host bm) h (frame bm).
Proof.
  unfold backupBinlog, backupBinlogIn. bm_norm. split; [done|]. intros [e|[]]; bm_norm; [done|].
  eapply wp_conseq; [apply wp_firstBinlog|].
  intros h1 [bm1 [name|e|m]]; cbn [fst snd]; intros [-> Hnp]; bm_norm; [|by bm_leaf..].
  split; [done|]. intros [e|[]]; bm_norm; [by bm_leaf|].
  apply wp_dirUsage. intros entries [e|usage]; bm_norm; [by bm_leaf|].
  set (bm2 := if bm_workDirUsage bm <? usage then _ else _).
  assert (core bm2 = core bm) as Hbm2 by (unfold bm2; by destruct (_ <? _)).
  apply wp_withPipe; [by intros..|by bm_leaf|]. intros h3 _.
  apply wp_withPipe; [by intros..|by bm_leaf|]. intros h4 _. bm_norm.
  eapply wp_conseq; [by apply wp_putCounting|].
  intros h5 [bm5 [bw|e|m]] (Heq & chunks & res & -> & Hres); cbn in Heq; subst bm5; bm_norm; [|by bm_leaf|done].
  split; [done|]. intros [e|[]]; bm_norm; [by bm_leaf|].
  split; [done|]. intros [e|[]]; bm_norm; by bm_leaf.
Qed.
#[local] Opaque backupBinlog.

Lemma wp_tryBackupBinlog host bm h : wp no_record (tryBackupBinlog host bm) h (frame bm).
Proof.
  unfold tryBackupBinlog. bm_norm. eapply wp_conseq; [apply wp_backupBinlog|].
  intros h' [bm' [[]|e|m]] [Hc Hp]; by bm_leaf.
Qed.
#[local] Opaque tryBackupBinlog.

(** What a full dump does, in this order: the dump, the GTID set read from it,
    the object with its key, and the end of tar. *)
Definition dump_steps (bm : BackupManager) (host : string) (gtid : string) (size : Z) (t : trace bkSig) : Prop :=
  let dir := path_Join [bm_workDir bm; "dump"] in
  let key := calcKey (Namespace (bm_cluster bm)) (Name (bm_cluster bm)) DumpFilename (bm_startTime bm) in
  ∃ data usage chunks,
    [@ev bkSig (KOp host (DumpFull dir)) (inr ());
     @ev bkSig (KReadFile (path_Join [dir; "@.json"])) (inr data);
     @ev bkSig (KPut key usage) (chunks, inr ());
     @ev bkSig (KWait (tarCreate bm "dump")) (inr ())] `sublist_of` t ∧
    Unmarshal_gtidExecuted data = inr gtid ∧
    size = Written (foldl Write {| written := 0 |} chunks).

Lemma wp_GetGTIDExecuted dir h (Q : trace bkSig → extres string → Prop) :
  let fname := path_Join [dir; "@.json"] in
  (∀ h' e, Q h' (inl e)) →
  (∀ data gtid, Unmarshal_gtidExecuted data = inr gtid →
     Q (h ++ [@ev bkSig (KReadFile fname) (inr data)]) (inr gtid)) →
  wp no_record (GetGTIDExecuted Unmarshal_gtidExecuted dir) h Q.
Proof.
  intros fname He Hg. unfold GetGTIDExecuted, bk. wp_norm. split; [done|]. intros [e|data]; [apply He|].
  cbn. destruct (Unmarshal_gtidExecuted data) as [e|gtid] eqn:E; [apply He|]. by apply Hg.
Qed.
#[local] Opaque GetGTIDExecuted.

(** A list in the history, with the last event at its end. *)
Lemma sublist_snoc {A} (l h : list A) x y : l `sublist_of` h → x = y → l ++ [x] `sublist_of` h ++ [y].
Proof. intros ? ->. by apply sublist_app. Qed.

Lemma sublist_grow {A} (l h t : list A) : l `sublist_of` h → l `sublist_of` h ++ t.
Proof. apply sublist_inserts_r. Qed.

Lemma wp_backupFull host bm h :
  wp no_record (backupFull Unmarshal_gtidExecuted host bm) h
     (λ h' r, match r.2 with
              | Return _ => ∃ gtid size usage t,
                  r.1 = set_bm_result gtid size (bm_binlogSize bm) usage bm ∧
                  h' = h ++ t ∧ dump_steps bm host gtid size t
              | Error _ => True
              | Panic _ => False
              end).
Proof.
  unfold backupFull, backupFullIn. bm_norm. split; [done|]. intros [e|[]]; bm_norm; [done|].
  split; [done|]. intros [e|[]]; bm_norm; [by bm_leaf|].
  apply wp_GetGTIDExecuted; [by bm_leaf|]. intros data gtid Hgtid. bm_norm.
  apply wp_dirUsage. intros entries [e|usage]; bm_norm; [by bm_leaf|].
  apply wp_withPipe; [by intros..|by bm_leaf|]. intros h3 [t3 ->]. bm_norm.
  eapply wp_conseq; [by apply wp_putCounting|].
  intros h5 [bm5 [bw|e|m]] (Heq & chunks & res & -> & Hres); cbn in Heq; subst bm5; bm_norm; [|by bm_leaf|done].
  destruct Hres as [-> ->]. split; [done|]. intros [e|[]]; bm_norm; [by bm_leaf|].
  intros h6 [t6 ->]. split; [done|]. intros [].
  eexists gtid, _, usage, _. split; [done|]. rewrite <- !app_assoc. split; [done|].
  exists data, usage, chunks. split_and!; [|done..].
  apply sublist_cons, sublist_skip, sublist_skip, sublist_cons, sublist_inserts_l.
  apply sublist_skip, sublist_skip, sublist_nil_l.
Qed.
#[local] Opaque backupFull.

(** The dump as a whole: the status of the server, and with it the current
    binary log, is read before the dump is taken. *)
Definition dumped (bm : BackupManager) (host : string) (st : ServerStatus) (start : Z) (gtid : string)
    (size : Z) (h : trace bkSig) : Prop :=
  ∃ h1 h2 t, h = h1 ++ @ev bkSig (KOp host GetServerStatus) (inr st) :: @ev bkSig KNow start :: t ++ h2 ∧
    dump_steps (set_startTime start bm) host gtid size t.

Lemma dumped_app bm host st start gtid size h t :
  dumped bm host st start gtid size h → dumped bm host st start gtid size (h ++ t).
Proof.
  intros (h1 & h2 & t' & -> & Hsteps). exists h1, (h2 ++ t), t'. split; [|done].
  rewrite <- !app_assoc. cbn. by rewrite <- !app_assoc.
Qed.

(** The status written to the cluster tells what was done. *)
Definition truthful (bm : BackupManager) (host : string) (index : Z) (h : trace bkSig) (cluster : MySQLCluster)
    : Prop :=
  ∃ cl b st start gtid size,
    occurs h (KGetCluster (Namespace (bm_cluster bm)) (Name (bm_cluster bm)) : call bkSig) (inr cl) ∧
    cluster = set_Backup b cl ∧ dumped bm host st start gtid size h ∧
    bk_Time b = Some (start / ns_per_second) ∧ bk_SourceIndex b = index ∧
    bk_SourceUUID b = srv_UUID st ∧ bk_BinlogFilename b = CurrentBinlog st ∧
    bk_GTIDSet b = gtid ∧ bk_DumpSize b = size ∧ bk_UUIDSet b = bm_uuidSet bm.

Definition backup_protocol (bm : BackupManager) (host : string) (index : Z) (h : trace bkSig) (c : bkcall) : Prop :=
  match c with
  | KUpdateClusterStatus cluster => truthful bm host index h cluster
  | _ => True
  end.

Definition recorded (h : trace bkSig) : Prop :=
  ∃ cluster, occurs h (KUpdateClusterStatus cluster : call bkSig) (inr ()).

Lemma no_record_protocol {A} bm host index (p : prog bkSig A) h Q :
  wp no_record p h Q → wp (backup_protocol bm host index) p h (λ h' a, Q h' a ∧ ∃ t, h' = h ++ t).
Proof.
  intros Hp. apply wp_extends. eapply wp_mono; [| |exact Hp]; [|done]. by intros h' [].
Qed.

Lemma wp_recordBackup bm0 host bm elapsed st start gtid size h :
  dumped bm0 host st start gtid size h →
  bm_cluster bm = bm_cluster bm0 → bm_startTime bm = start → bm_status bm = st → bm_uuidSet bm = bm_uuidSet bm0 →
  bm_gtidSet bm = gtid → bm_dumpSize bm = size →
  wp (backup_protocol bm0 host (bm_sourceIndex bm)) (RetryOnConflict (recordBackup bm elapsed)) h
     (λ h' r, r = inr () → recorded h').
Proof.
  intros Hd Hcl Hstart Hst Huu Hg Hs.
  apply (wp_RetryOnConflict _ _ (λ h', ∃ t, h' = h ++ t)); [by exists []; rewrite app_nil_r|].
  intros h' [t ->]. unfold recordBackup. bm_norm. rewrite Hcl. split; [done|]. intros [e|cl]; bm_norm.
  { split; [done|]. intros _. rewrite <- app_assoc. by eexists. }
  split.
  - exists cl, (newBackupStatus bm elapsed), st, start, gtid, size. cbn. rewrite Hstart, Hst, Hg, Hs, Huu.
    split_and!; try done; [apply occurs_last|].
    by do 2 apply dumped_app.
  - intros [e|[]]; cbn; (split; [|try done; intros _; rewrite <- !app_assoc; by eexists]); [done|].
    intros _. eexists. apply occurs_last.
Qed.

Lemma wp_backupFrom host binlog bm h :
  wp (backup_protocol bm host (bm_sourceIndex bm)) (backupFrom Unmarshal_gtidExecuted host binlog bm) h
     (λ h' r, (r.2 = Return () → recorded h') ∧ is_panic r.2 = false).
Proof.
  unfold backupFrom. bm_norm. split; [done|]. intros [e|st]; bm_norm; [done|].
  split; [done|]. intros now. bm_norm. set (bm1 := set_startTime now (set_status st bm)).
  eapply wp_conseq; [apply no_record_protocol, wp_backupFull|].
  intros h1 [bm2 [[]|e|m]] [Hfull [t ->]]; cbn in Hfull; bm_norm; [|done..].
  destruct Hfull as (gtid & size & usage & t' & -> & Ht & Hsteps). apply app_inv_head in Ht as ->.
  set (bm2 := set_bm_result gtid size (bm_binlogSize bm1) usage bm1).
  assert (dumped bm host st now gtid size (((h ++ [@ev bkSig (KOp host GetServerStatus) (inr st)]) ++
            [@ev bkSig KNow now]) ++ t')) as Hd.
  { exists h, [], t'. rewrite app_nil_r, <- !app_assoc. done. }
  match goal with |- wp _ _ ?h0 _ => set (h2 := h0) in * end. clearbody h2.
  eapply (wp_conseq _ _ _ (λ h3 r, frame bm2 h3 r ∧ ∃ t, h3 = h2 ++ t)).
  { destruct binlog; [apply no_record_protocol, wp_tryBackupBinlog|].
    cbn. split; [done|]. exists []. by rewrite app_nil_r. }
  intros h3 [bm3 [[]|e|m]] [[Hcore Hp] [t3 ->]]; bm_norm; [|done..].
  cbn in Hcore. unfold core in Hcore. injection Hcore as Hcl Hstart Hidx Hst Huu Hg Hs.
  split; [done|]. intros elapsed. bm_norm.
  eapply wp_conseq.
  { replace (bm_sourceIndex bm) with (bm_sourceIndex bm3) by done.
    eapply (wp_recordBackup bm host bm3 elapsed st now gtid size); try done. by do 2 apply dumped_app. }
  intros h4 [e|[]] Hr; bm_norm; [done|]. split; [done|]. intros r. split; [|done]. intros _.
  destruct (Hr eq_refl) as [c Hc]. exists c. by apply occurs_app_l.
Qed.
#[local] Opaque backupFrom.

(** ** The whole backup *)

Definition ordinal (pod : Pod) : option Z := Atoi (last_field "-" (pod_Name pod)).

Lemma orderPods_spec n pods ordered :
  go_len ordered = n →
  match orderPods n pods ordered with
  | Return l =>
      go_len l = n ∧
      (∀ i p, index_at l i = Some (Some p) → index_at ordered i = Some (Some p) ∨ p ∈ pods ∧ ordinal p = Some i) ∧
      (∀ i, i ∈ omap ordinal pods → 0 ≤ i < n ∧ ∃ p, index_at l i = Some (Some p)) ∧
      (∀ i p, index_at ordered i = Some (Some p) → ∃ q, index_at l i = Some (Some q)) ∧
      Forall (λ p, is_Some (ordinal p)) pods
  | Error _ => True
  | Panic _ => False
  end.
Proof.
  revert ordered. induction pods as [|pod pods IH]; intros ordered Hlen; cbn [orderPods].
  { split_and!; [done|by auto|by intros ? ?%elem_of_nil|by eauto|done]. }
  fold (ordinal pod). destruct (ordinal pod) as [index|] eqn:Hidx; [|done].
  destruct (_ || _) eqn:Hr; [done|]. bool_cases.
  destruct (set_at ordered index (Some pod)) as [ordered'|] eqn:Hset.
  2: { unfold set_at in Hset. destruct (index_at ordered index) eqn:E; [done|].
       apply index_at_None in E. lia. }
  apply set_at_Some in Hset as [Hin ->].
  specialize (IH (<[Z.to_nat index:=Some pod]> ordered)). rewrite go_len_insert in IH.
  specialize (IH Hlen). destruct (orderPods n pods _) as [l|e|m]; [|done..].
  destruct IH as (H1 & H2 & H3 & H4 & H5).
  assert (∃ q, index_at l index = Some (Some q)) as Hfilled
    by (eapply H4; by apply index_at_insert_eq).
  split_and!; [done| | | |by constructor].
  - intros i p Hp. destruct (H2 _ _ Hp) as [Ho|[? ?]]; [|right; split; [by right|done]].
    destruct (decide (index = i)) as [<-|Hne].
    + rewrite index_at_insert_eq in Ho by done. simplify_eq. right. split; [left|done].
    + rewrite index_at_insert_ne in Ho by lia. by left.
  - intros i. cbn. rewrite Hidx. cbn. intros [->|Hi]%elem_of_cons; [split; [lia|done]|by apply H3].
  - intros i p Hp. destruct (decide (index = i)) as [<-|Hne]; [done|].
    eapply H4. rewrite index_at_insert_ne by lia. done.
Qed.

(** Pods with distinct ordinals fill all places. *)
Lemma orderPods_full n pods l :
  orderPods n pods (replicate (Z.to_nat n) None) = Return l → go_len pods = n →
  NoDup (omap ordinal pods) → no_nil l.
Proof.
  intros Ho Hn Hnd. pose proof (orderPods_spec n pods (replicate (Z.to_nat n) None)) as Hs.
  rewrite Ho in Hs. unfold go_len in Hs, Hn. rewrite length_replicate in Hs.
  destruct Hs as (H1 & _ & H3 & _ & H5); [lia|].
  assert (length (omap ordinal pods) = length pods) as Hlen.
  { clear -H5. induction H5 as [|p pods [i Hi] H5 IH]; cbn; [done|]. rewrite Hi. cbn. by rewrite IH. }
  assert (upto n ⊆ omap ordinal pods) as Hsub.
  { intros i Hi. destruct (decide (i ∈ omap ordinal pods)) as [|Hni]; [done|]. exfalso.
    assert (NoDup (i :: omap ordinal pods)) as Hnd' by by constructor.
    assert (i :: omap ordinal pods ⊆ upto n) as Hsub'.
    { intros j [->|Hj]%elem_of_cons; [done|]. apply elem_of_upto. by apply H3. }
    pose proof (submseteq_length _ _ (NoDup_submseteq _ _ Hnd' Hsub')) as Hle.
    rewrite length_upto in Hle. cbn in Hle. lia. }
  apply Forall_lookup. intros k x Hk.
  assert (Z.of_nat k ∈ omap ordinal pods) as Hin.
  { apply Hsub, elem_of_upto. apply lookup_lt_Some in Hk. lia. }
  destruct (H3 _ Hin) as [_ [p Hp]]. apply index_at_Some in Hp as [_ Hp]. rewrite Nat2Z.id in Hp.
  by simplify_eq.
Qed.

(** [GetUUIDSet]: keys are ordinals of Pods, the rest of the manager is kept. *)
Definition same_manager (bm bm' : BackupManager) : Prop :=
  bm_cluster bm' = bm_cluster bm ∧ bm_workDir bm' = bm_workDir bm.

Definition ordinal_keys (n : Z) (uuids : gmap string string) : Prop :=
  ∀ k u, uuids !! k = Some u → ∃ j, k = Itoa j ∧ 0 ≤ j < n.

Lemma wp_uuidLoop n pods uuids bm h :
  ordinal_keys n uuids → (∀ i p, (i, p) ∈ pods → 0 ≤ i < n) →
  wp no_record (uuidLoop pods uuids bm) h
     (λ _ r, same_manager bm r.1 ∧
             match r.2 with
             | Return u => ordinal_keys n u
             | Error _ => True
             | Panic _ => Exists (λ x, x.2 = None) pods
             end).
Proof.
  revert uuids bm h. induction pods as [|[i [pod|]] pods IH]; intros uuids bm h Hk Hn; cbn [uuidLoop].
  - done.
  - assert (∀ uuids bm h, ordinal_keys n uuids →
      wp no_record (uuidLoop pods uuids bm) h (λ _ r, same_manager bm r.1 ∧ match r.2 with
        | Return u => ordinal_keys n u | Error _ => True
        | Panic _ => Exists (λ x, x.2 = None) ((i, Some pod) :: pods) end)) as IH'.
    { intros u b h' Hu. eapply wp_conseq; [apply IH; [done|]|].
      - intros j p Hin. eapply Hn. by right.
      - intros h'' [b' [u'|e|m]] [? ?]; split; try done. by right. }
    destruct (podIsReady pod); [|by apply IH'].
    unfold openOperator. bm_norm. split; [done|]. intros [e|[]]; bm_norm; [done|].
    split; [done|]. intros [e|st]; bm_norm.
    + eapply wp_conseq; [by apply IH'|]. intros h' r Hr. by bm_leaf.
    + eapply wp_conseq; [apply (IH' _ (set_status st bm))|].
      * intros k u. destruct (decide (k = Itoa i)) as [->|Hne].
        { intros _. exists i. split; [done|]. eapply Hn. by left. }
        rewrite lookup_insert_ne by done. apply Hk.
      * intros h' r Hr. by bm_leaf.
  - cbn. split; [done|]. by left.
Qed.
#[local] Opaque uuidLoop.

Section whole.
Context (bm0 : BackupManager).
Let cl := bm_cluster bm0.
Let pod_list : bkcall := KListPods (Namespace cl) (cluster_labels (Name cl)).
Hypothesis Hreplicas : Replicas (Spec cl) < 2 ^ 63.
Hypothesis Hprimary : 0 ≤ CurrentPrimaryIndex (Status cl) < Replicas (Spec cl).

(** The status written is truthful about a dump of one of the cluster's Pods. *)
Definition backup_recorded (h : trace bkSig) (c : bkcall) : Prop :=
  match c with
  | KUpdateClusterStatus cluster =>
      ∃ bm pods pod index, same_manager bm0 bm ∧ occurs h (pod_list : call bkSig) (inr pods) ∧ pod ∈ pods ∧
        ordinal pod = Some index ∧ truthful bm (pod_PodIP pod) index h cluster
  | _ => True
  end.

Definition listed (pods : list Pod) (h : trace bkSig) : Prop :=
  ∃ t, h = @ev bkSig pod_list (inr pods) :: t.

Definition backup_end (h : trace bkSig) (r : BackupManager * outcome unit) : Prop :=
  (r.2 = Return () → recorded h) ∧
  (is_panic r.2 = true → ∃ pods, listed pods h ∧ ¬ NoDup (omap ordinal pods)).

Lemma listed_app pods h t : listed pods h → listed pods (h ++ t).
Proof. intros [t' ->]. by exists (t' ++ t). Qed.

Lemma no_record_recorded {A} pods (p : prog bkSig A) h Q :
  listed pods h → wp no_record p h Q → wp backup_recorded p h (λ h' a, Q h' a ∧ listed pods h').
Proof.
  intros Hl Hp. eapply (wp_mono backup_recorded); [done| |apply wp_extends; eapply wp_mono; [| |exact Hp]]; try done.
  - intros h' a [HQ [t ->]]. split; [done|]. by apply listed_app.
  - by intros h' [].
Qed.

(** From the chosen Pod on. *)
Lemma wp_backup_chosen pods pod index binlog bm h :
  listed pods h → pod ∈ pods → ordinal pod = Some index → same_manager bm0 bm → bm_sourceIndex bm = index →
  wp backup_recorded (backupFrom Unmarshal_gtidExecuted (pod_PodIP pod) binlog bm) h
     (λ h' r, (r.2 = Return () → recorded h') ∧ is_panic r.2 = false).
Proof.
  intros Hl Hpod Hord Hsame <-.
  eapply (wp_protocol (backup_protocol bm (pod_PodIP pod) (bm_sourceIndex bm)) _ (listed pods));
    [|intros; by apply listed_app|exact Hl|apply wp_backupFrom].
  intros h' [] Hl' Ht; try done. destruct Hl' as [t ->]. exists bm, pods, pod, (bm_sourceIndex bm).
  split_and!; try done. left.
Qed.

Lemma ChoosePod_pure ordered bm :
  ∃ bm' o, ChoosePod ordered bm = Ret (bm', o) ∧ same_manager bm bm'.
Proof.
  unfold ChoosePod, bm_bind, bm_get, bm_ret, bm_modify. cbn [bind].
  destruct (bk_Time _); [|by eexists _, _]. destruct (choosable _ _); by eexists _, _.
Qed.

(** The choice is a Pod of the list. *)
Lemma chosen_is_pod n ordered pods bm bm' i b :
  orderPods n pods (replicate (Z.to_nat n) None) = Return ordered → go_len pods = n → no_nil ordered →
  bm_cluster bm = cl → n = Replicas (Spec cl) → ordinal_keys n (bm_uuidSet bm) →
  ChoosePod ordered bm = Ret (bm', Return (i, b)) →
  ∃ pod, mjoin (index_at ordered i) = Some pod ∧ pod ∈ pods ∧ ordinal pod = Some i.
Proof.
  intros Ho Hn Hall Hcl Hr Hkeys Hc.
  pose proof (orderPods_spec n pods (replicate (Z.to_nat n) None)) as Hs. rewrite Ho in Hs.
  unfold go_len at 1 in Hs. rewrite length_replicate in Hs. destruct Hs as (Hlen & Hfrom & _); [lia|].
  assert (0 ≤ i < n) as Hi.
  { destruct (choose_pod_correct ordered bm Hall) as (bm2 & o & Hc2 & Hspec); [rewrite Hcl; lia|].
    rewrite Hc in Hc2. injection Hc2 as <- <-. destruct b.
    - destruct Hspec as (_ & (k & u & Hk & Hu & _) & _). destruct (Hkeys _ _ Hu) as (j & -> & Hj).
      rewrite Atoi_Itoa in Hk by lia. by simplify_eq.
    - destruct Hspec as (Hready & _). unfold ready, readyAt in Hready.
      destruct (index_at ordered i) as [p|] eqn:E; [|done]. rewrite <- Hlen. apply index_at_lt. by eexists. }
  rewrite <- Hlen in Hi. apply index_at_lt in Hi as [p Hp].
  assert (is_Some p) as [pod ->].
  { apply index_at_Some in Hp as [_ Hp]. by eapply Forall_lookup_1 in Hall. }
  exists pod. rewrite Hp. split; [done|]. destruct (Hfrom _ _ Hp) as [Hrep|?]; [|done].
  apply index_at_Some in Hrep as [_ Hrep]. apply lookup_replicate in Hrep as [? _]. done.
Qed.

Lemma wp_Backup : wp backup_recorded (BackupManager_Backup Unmarshal_gtidExecuted bm0) [] backup_end.
Proof.
  unfold BackupManager_Backup, listPods. bm_norm. split; [done|]. intros [e|pods]; bm_norm; [done|].
  assert (listed pods ([] ++ [@ev bkSig pod_list (inr pods)])) as Hl by by eexists.
  fold cl in Hl |- *. destruct (Offline (Spec cl)); bm_norm; [done|].
  destruct (go_len pods =? Replicas (Spec cl)) eqn:Hlen; bool_cases; cbn [negb]; bm_norm; [|done].
  rewrite <- Hlen. pose proof (orderPods_spec (go_len pods) pods (replicate (Z.to_nat (go_len pods)) None)) as Hs.
  pose proof (orderPods_full (go_len pods) pods) as Hfull.
  destruct (orderPods (go_len pods) pods _) as [ordered|e|m] eqn:Ho;
    [|done|exfalso; apply Hs; unfold go_len; rewrite length_replicate; lia].
  destruct Hs as (Hlen2 & Hfrom & _); [unfold go_len; rewrite length_replicate; lia|].
  specialize (Hfull _ eq_refl eq_refl). unfold GetUUIDSet. bm_norm.
  eapply wp_conseq.
  { eapply no_record_recorded; [exact Hl|]. apply (wp_uuidLoop (go_len pods)); [by intros ??|].
    intros i p Hin%elem_of_indexed. rewrite <- Hlen2. apply index_at_lt. by eexists. }
  intros h1 [bm1 [uuids|e|m]] [[[Hcl Hwd] Hr] Hl1]; cbn [fst snd] in *; bm_norm; [|done|].
  2: { split; [done|]. intros _. exists pods. split; [done|]. intros Hnd%Hfull.
       apply Exists_exists in Hr as ([i p] & Hin%elem_of_indexed & Hp). cbn in Hp. subst p.
       apply index_at_Some in Hin as [_ Hin]. eapply Forall_lookup_1 in Hnd; [|exact Hin]. by destruct Hnd. }
  set (bm2 := set_uuidSet uuids bm1).
  destruct (ChoosePod_pure ordered bm2) as (bm3 & o & Hc & Hcl3 & Hwd3). rewrite Hc. cbn [wp fst snd].
  assert (bm_cluster bm2 = cl) as Hcl2 by done.
  assert (∀ i, mjoin (index_at ordered i) = None → (∃ b, o = Return (i, b)) → ¬ NoDup (omap ordinal pods)) as Hsafe.
  { intros i Hnone [b ->] Hnd%Hfull.
    destruct (chosen_is_pod (go_len pods) ordered pods bm2 bm3 i b) as (? & ? & _); try done. congruence. }
  destruct o as [[i b]|e|m]; bm_norm; [|done|].
  2: { split; [done|]. intros _. exists pods. split; [done|]. intros Hnd%Hfull.
       destruct (choose_pod_correct ordered bm2 Hnd) as (? & ? & Hc2 & Hspec); [rewrite Hcl2; lia|].
       rewrite Hc in Hc2. by injection Hc2 as <- <-. }
  destruct (mjoin (index_at ordered i)) as [pod|] eqn:Hpod; bm_norm.
  2: { split; [done|]. intros _. exists pods. split; [done|]. eapply Hsafe; [done|by eexists]. }
  unfold openOperator. bm_norm. split; [done|]. intros [e|[]]; bm_norm; [done|].
  destruct (Hfrom i pod) as [Hrep|[Hin Hord]]; [by destruct (index_at ordered i); cbn in Hpod; simplify_eq| |].
  { apply index_at_Some in Hrep as [_ Hrep]. apply lookup_replicate in Hrep as [? _]. done. }
  eapply wp_conseq.
  { apply (wp_backup_chosen pods pod i); [by apply listed_app|done..| |done]. split; cbn; [by rewrite Hcl3|by rewrite Hwd3]. }
  intros h4 r [Hrec Hnp]. cbn. split; [done|]. intros []. split; [|congruence].
  intros Hret. destruct (Hrec Hret) as [c Hoc]. exists c. by apply occurs_app_l.
Qed.
End whole.

(** C10. A backup is recorded truthfully, whatever the other systems answer.  The
    status of the cluster is updated only after, in this order: the status of the
    source, and with it its current binary log, was read, the full dump of the
    source succeeded, its GTID set was read, the object was put under the key of
    the start time, and tar succeeded; and it names this source, UUID, binary
    log, GTID set, time and size.  A backup that returns no error has recorded
    itself, and a backup panics only if two Pods have the same ordinal. *)
Theorem backup_recorded_truthfully bm t bm' o :
  Replicas (Spec (bm_cluster bm)) < 2 ^ 63 →
  0 ≤ CurrentPrimaryIndex (Status (bm_cluster bm)) < Replicas (Spec (bm_cluster bm)) →
  exec (BackupManager_Backup Unmarshal_gtidExecuted bm) t (bm', o) →
  (∀ t1 c r t2, t = t1 ++ @ev bkSig c r :: t2 → backup_recorded bm t1 c) ∧
  backup_end bm t (bm', o).
Proof.
  intros Hrep Hprim Hex. destruct (wp_exec _ _ [] _ _ _ (wp_Backup bm Hrep Hprim) Hex) as [HQ HP].
  split; [|done]. intros t1 c r t2 Ht. by apply (HP t1 c r t2).
Qed.
End recording.
