(* ===== verification/TidySpec.v ===== *)
(** * Backups clean up after themselves

    Every directory made, pipe opened and connection opened by a backup is
    removed or closed again, also when a step fails. *)

From S2P Require Import Prelude Prog Worlds GoLib Time Constants Api Event Keys Bkop Backup BackupSpec Cluster Samples.
#[local] Open Scope Z_scope.

(** The calls that give back what a successful call acquired. *)
Definition releases (c : bkcall) : bkresp c → list bkcall :=
  match c return bkresp c → list bkcall with
  | KMkdirAll dir => λ r, match r with inr _ => [KRemoveAll dir] | inl _ => [] end
  | KPipe id => λ r, match r with inr _ => [KClosePipe id true; KClosePipe id false] | inl _ => [] end
  | KOpen host _ _ _ _ => λ r, match r with inr _ => [KOp host BClose] | inl _ => [] end
  | KGet key => λ r, match r with inr _ => [KCloseObject key] | inl _ => [] end
  | _ => λ _, []
  end.

Definition released (e : event bkSig) : list bkcall := releases (projT1 e) (projT2 e).

Definition calls (t : trace bkSig) : list bkcall := List.map (λ e : event bkSig, projT1 e) t.
Lemma calls_app t t' : calls (t ++ t') = calls t ++ calls t'.
Proof. apply List.map_app. Qed.

(** Whatever is acquired is released later. *)
Definition tidy (t : trace bkSig) : Prop :=
  ∀ t1 e t2, t = t1 ++ e :: t2 → ∀ c, c ∈ released e → c ∈ calls t2.

Lemma tidy_nil : tidy [].
Proof. intros [] ? ? Heq; done. Qed.

Lemma tidy_cons e t :
  (∀ c, c ∈ released e → c ∈ calls t) → tidy t → tidy (e :: t).
Proof.
  intros He Ht [|e' t1] e0 t2 Heq; injection Heq as <- Heq; [by subst|]. by apply (Ht t1).
Qed.

Lemma tidy_app t t' : tidy t → tidy t' → tidy (t ++ t').
Proof.
  intros H H'. induction t as [|e t IH]; [done|]. apply tidy_cons.
  - intros c Hc. rewrite calls_app. apply elem_of_app. left. by apply (H [] e t).
  - apply IH. intros t1 e' t2 ->. by apply (H (e :: t1)).
Qed.

(** ** Programs and methods that tidy up *)

Definition tidies {A} (p : prog bkSig A) : Prop :=
  ∀ h, wp (λ _ _, True) p h (λ h' _, ∃ t, h' = h ++ t ∧ tidy t).

Definition tidiesM {A} (m : bmM A) : Prop := ∀ bm, tidies (m bm).

(** A call that acquires nothing. *)
Definition neutral (c : bkcall) : Prop := ∀ r : bkresp c, releases c r = [].

Lemma tidies_ret {A} (a : A) : tidies (Ret a).
Proof. intros h. exists []. split; [by rewrite app_nil_r|apply tidy_nil]. Qed.

Lemma tidies_bind {A B} (p : prog bkSig A) (f : A → prog bkSig B) :
  tidies p → (∀ a, tidies (f a)) → tidies (bind p f).
Proof.
  intros Hp Hf h. rewrite wp_bind. eapply wp_conseq; [apply Hp|]. intros h' a (t & -> & Ht).
  eapply wp_conseq; [apply Hf|]. intros h'' b (t' & -> & Ht'). exists (t ++ t').
  split; [by rewrite app_assoc|by apply tidy_app].
Qed.

Lemma tidies_call c : neutral c → tidies (bk c).
Proof.
  intros Hn h. split; [done|]. intros r. exists [@ev bkSig c r]. split; [done|].
  apply tidy_cons; [|apply tidy_nil]. intros c'. unfold released. cbn. rewrite Hn. by intros ?%elem_of_nil.
Qed.

(** Acquire with [c]; the rest ends with the releasing calls on every path. *)
Lemma tidies_acquire {A} c (k : bkresp c → prog bkSig A) :
  (∀ r h, wp (λ _ _, True) (k r) h (λ h' _, ∃ t, h' = h ++ t ∧ tidy t ∧
     ∀ c', c' ∈ releases c r → c' ∈ calls t)) →
  tidies (Vis (S := bkSig) c k).
Proof.
  intros Hk h. split; [done|]. intros r. eapply wp_conseq; [apply Hk|].
  intros h' a (t & -> & Ht & Hr). exists (@ev bkSig c r :: t). split; [by rewrite <- app_assoc|].
  by apply tidy_cons.
Qed.

Lemma tidies_outcome {A B} (p : prog bkSig (outcome A)) (f : A → prog bkSig (outcome B)) :
  tidies p → (∀ a, tidies (f a)) → tidies (bind_outcome p f).
Proof. intros Hp Hf. apply tidies_bind; [done|]. intros [a|e|m]; [done|apply tidies_ret..]. Qed.

Lemma tidies_ext {A B} (p : prog bkSig (extres A)) (f : A → prog bkSig (extres B)) :
  tidies p → (∀ a, tidies (f a)) → tidies (bind_ext p f).
Proof. intros Hp Hf. apply tidies_bind; [done|]. intros [e|a]; [apply tidies_ret|done]. Qed.

Lemma tidies_wrap {A} msg (p : prog bkSig (extres A)) : tidies p → tidies (wrap_err msg p).
Proof. intros Hp. apply tidies_bind; [done|]. intros r. apply tidies_ret. Qed.

Lemma tidies_retry `{!ConflictRetry bkSig} fn : tidies fn → tidies (RetryOnConflict fn).
Proof.
  intros Hfn h. apply (wp_RetryOnConflict _ _ (λ h', ∃ t, h' = h ++ t ∧ tidy t)).
  { exists []. split; [by rewrite app_nil_r|apply tidy_nil]. }
  intros h' (t & -> & Ht). eapply wp_conseq; [apply Hfn|]. intros h'' r (t' & -> & Ht').
  assert (∃ t0, (h ++ t) ++ t' = h ++ t0 ∧ tidy t0) as Hall.
  { exists (t ++ t'). split; [by rewrite app_assoc|by apply tidy_app]. }
  split; [done|]. by destruct r.
Qed.

Lemma tidiesM_ret {A} (o : outcome A) : tidiesM (bm_ret o).
Proof. intros bm. apply tidies_ret. Qed.
Lemma tidiesM_get : tidiesM bm_get.
Proof. intros bm. apply tidies_ret. Qed.
Lemma tidiesM_modify f : tidiesM (bm_modify f).
Proof. intros bm. apply tidies_ret. Qed.
Lemma tidiesM_bind {A B} (m : bmM A) (f : A → bmM B) :
  tidiesM m → (∀ a, tidiesM (f a)) → tidiesM (bm_bind m f).
Proof.
  intros Hm Hf bm. apply tidies_bind; [apply Hm|]. intros [bm' [a|e|p]]; [apply Hf|apply tidies_ret..].
Qed.
Lemma tidiesM_call c : neutral c → tidiesM (bm_call c).
Proof. intros Hc bm. apply tidies_bind; [by apply tidies_call|]. intros r. apply tidies_ret. Qed.
Lemma tidiesM_check {A} msg (p : prog bkSig (extres A)) : tidies p → tidiesM (bm_check msg p).
Proof. intros Hp bm. apply tidies_bind; [done|]. intros r. apply tidies_ret. Qed.
Lemma tidiesM_try {A} msg (m : bmM A) : tidiesM m → tidiesM (bm_try msg m).
Proof. intros Hm bm. apply tidies_bind; [apply Hm|]. intros r. apply tidies_ret. Qed.

(** A deferred call that releases [rel], around a tidy method. *)
Lemma wp_releasing {A} rel (cleanup : prog bkSig unit) (m : bmM A) bm h :
  neutral rel → (∀ h, wp (λ _ _, True) cleanup h (λ h' _, ∃ r, h' = h ++ [@ev bkSig rel r])) → tidiesM m →
  wp (λ _ _, True) (bm_defer cleanup m bm) h (λ h' _, ∃ t, h' = h ++ t ∧ tidy t ∧ rel ∈ calls t).
Proof.
  intros Hn Hc Hm. rewrite wp_bm_defer. eapply wp_conseq; [apply Hm|]. intros h' r (t & -> & Ht).
  eapply wp_conseq; [apply Hc|]. intros h'' _ [r' ->]. exists (t ++ [@ev bkSig rel r']). split_and!.
  - by rewrite app_assoc.
  - apply tidy_app; [done|]. apply tidy_cons; [|apply tidy_nil].
    intros c'. unfold released. cbn. rewrite Hn. by intros ?%elem_of_nil.
  - rewrite calls_app. apply elem_of_app. right. by left.
Qed.

Lemma tidiesM_defer {A} rel cleanup (m : bmM A) :
  neutral rel → (∀ h, wp (λ _ _, True) cleanup h (λ h' _, ∃ r, h' = h ++ [@ev bkSig rel r])) → tidiesM m →
  tidiesM (bm_defer cleanup m).
Proof.
  intros Hn Hc Hm bm h. eapply wp_conseq; [by apply (wp_releasing rel)|]. intros h' a (t & -> & Ht & _).
  by exists t.
Qed.

(** Make a directory, and remove it in the end. *)
Lemma tidiesM_dir {A} msg dir (m : bmM A) :
  tidiesM m → tidiesM (_ <-m bm_check msg (bk (KMkdirAll dir)) ;; bm_defer (bk (KRemoveAll dir)) m).
Proof.
  intros Hm bm. apply tidies_acquire. intros [e|[]] h; cbn.
  - exists []. rewrite app_nil_r. split_and!; [done|apply tidy_nil|by intros ? ?%elem_of_nil].
  - eapply wp_conseq; [apply (wp_releasing (KRemoveAll dir)); [done| |done]|].
    { intros h'. split; [done|]. intros r. by exists r. }
    intros h' a (t & -> & Ht & Hr). exists t. split_and!; try done.
    intros c' [->|?%elem_of_nil]%elem_of_cons; done.
Qed.

(** Open an operator, and close it in the end. *)
Lemma tidiesM_open {A} msg host port user pw threads (m : bmM A) :
  tidiesM m →
  tidiesM (_ <-m bm_check msg (bk (KOpen host port user pw threads)) ;; bm_defer (bk (KOp host BClose)) m).
Proof.
  intros Hm bm. apply tidies_acquire. intros [e|[]] h; cbn.
  - exists []. rewrite app_nil_r. split_and!; [done|apply tidy_nil|by intros ? ?%elem_of_nil].
  - eapply wp_conseq; [apply (wp_releasing (KOp host BClose)); [done| |done]|].
    { intros h'. split; [done|]. intros r. by exists r. }
    intros h' a (t & -> & Ht & Hr). exists t. split_and!; try done.
    intros c' [->|?%elem_of_nil]%elem_of_cons; done.
Qed.

(** Make a pipe, and close both its ends. *)
Lemma tidiesM_pipe {A} id msg cmd (m : bmM A) : tidiesM m → tidiesM (withPipe id msg cmd m).
Proof.
  intros Hm bm. apply tidies_acquire. intros [e|[]] h; cbn.
  - exists []. rewrite app_nil_r. split_and!; [done|apply tidy_nil|by intros ? ?%elem_of_nil].
  - split; [done|]. intros [e|[]]; cbn.
    + split; [done|]. intros []. split; [done|]. intros []. rewrite <- !app_assoc. eexists. split; [done|].
      split.
      * repeat (apply tidy_cons; [by intros ? ?%elem_of_nil|]). apply tidy_nil.
      * cbn. intros c' Hc'. set_solver.
    + split; [done|]. intros []. eapply wp_conseq; [apply (wp_releasing (KClosePipe id false)); [done| |done]|].
      { intros h'. split; [done|]. intros r. by exists r. }
      intros h' a (t & -> & Ht & Hr). rewrite <- !app_assoc. eexists. split; [done|]. split.
      * do 2 (apply tidy_cons; [by intros ? ?%elem_of_nil|]). done.
      * cbn. intros c' Hc'. set_solver.
Qed.

Create HintDb tidy.
#[export] Hint Resolve tidies_ret tidies_bind tidies_call tidies_outcome tidies_ext tidies_wrap tidies_retry
  tidiesM_ret tidiesM_get tidiesM_modify tidiesM_call tidiesM_check tidiesM_try : tidy.
#[export] Hint Extern 1 (tidies (bk ?c)) => (apply (tidies_call c); intros ?; reflexivity) : tidy.
#[export] Hint Extern 1 (neutral _) => (intros ?; reflexivity) : tidy.

(** ** The methods of the manager *)

Section manager.
Context {RC : ConflictRetry bkSig}.
Variable Unmarshal_gtidExecuted : string → extres string.

(** One step of the proof that a method is tidy: acquire, or go on. *)
Ltac tidy_step :=
  first [ apply tidiesM_dir | apply tidiesM_open | apply tidiesM_pipe
        | solve [eauto 6 with tidy]
        | apply tidiesM_bind; [|intros ?]
        | apply tidies_ext; [|intros ?] | apply tidies_bind; [|intros ?] ].

Lemma tidies_dirUsage dir : tidies (dirUsage dir).
Proof. unfold dirUsage. repeat tidy_step. Qed.

Lemma tidies_GetGTIDExecuted dir : tidies (GetGTIDExecuted Unmarshal_gtidExecuted dir).
Proof. unfold GetGTIDExecuted. repeat tidy_step. Qed.

Lemma tidiesM_putCounting msg key usage : tidiesM (putCounting msg key usage).
Proof. unfold putCounting. apply tidiesM_bind; [by apply tidiesM_call|]. intros [c [e|[]]]; apply tidiesM_ret. Qed.

Hint Resolve tidies_dirUsage tidies_GetGTIDExecuted tidiesM_putCounting : tidy.

Lemma tidiesM_backupFull host : tidiesM (backupFull Unmarshal_gtidExecuted host).
Proof. unfold backupFull, backupFullIn. repeat tidy_step. Qed.

Lemma tidiesM_firstBinlog host last : tidiesM (firstBinlog host last).
Proof.
  unfold firstBinlog. apply tidiesM_bind; [apply tidiesM_get|]. intros bm.
  destruct (_ =? _); [apply tidiesM_ret|]. apply tidiesM_bind.
  - apply tidiesM_check. by apply (tidies_call (KOp host GetBinlogs)).
  - intros bs. destruct (SortBinlogs bs); apply tidiesM_ret.
Qed.

Hint Resolve tidiesM_backupFull tidiesM_firstBinlog : tidy.

Lemma tidiesM_backupBinlog host : tidiesM (backupBinlog host).
Proof. unfold backupBinlog, backupBinlogIn. repeat tidy_step. Qed.

Lemma tidiesM_tryBackupBinlog host : tidiesM (tryBackupBinlog host).
Proof.
  intros bm. unfold tryBackupBinlog. apply tidies_bind; [apply tidiesM_backupBinlog|].
  intros [bm' [[]|e|m]]; [apply tidies_ret| |apply tidies_ret].
  apply tidies_bind; [by apply (tidies_call (KCreateEvent BackupNoBinlog))|]. intros r. apply tidies_ret.
Qed.

Lemma tidies_recordBackup bm elapsed : tidies (recordBackup bm elapsed).
Proof. unfold recordBackup. repeat tidy_step. Qed.

Hint Resolve tidiesM_tryBackupBinlog tidies_recordBackup : tidy.

Lemma tidiesM_backupFrom host binlog : tidiesM (backupFrom Unmarshal_gtidExecuted host binlog).
Proof. unfold backupFrom. destruct binlog; repeat tidy_step. Qed.

Lemma tidiesM_uuidLoop pods uuids : tidiesM (uuidLoop pods uuids).
Proof.
  revert uuids. induction pods as [|[i [pod|]] pods IH]; intros uuids; cbn [uuidLoop]; [apply tidiesM_ret| |apply tidiesM_ret].
  destruct (podIsReady pod); [|apply IH]. apply tidiesM_bind; [apply tidiesM_get|]. intros bm.
  apply tidiesM_open. apply tidiesM_bind; [by apply tidiesM_call|].
  intros [e|st]; [apply IH|]. apply tidiesM_bind; [apply tidiesM_modify|]. intros _. apply IH.
Qed.

Lemma tidiesM_listPods : tidiesM listPods.
Proof.
  unfold listPods. apply tidiesM_bind; [apply tidiesM_get|]. intros bm. apply tidiesM_bind; [by eauto with tidy|].
  intros pods. destruct (Offline _); [apply tidiesM_ret|]. destruct (negb _); apply tidiesM_ret.
Qed.

Lemma tidiesM_ChoosePod pods : tidiesM (ChoosePod pods).
Proof. intros bm. destruct (ChoosePod_pure pods bm) as (bm' & o & -> & _). apply tidies_ret. Qed.

Hint Resolve tidiesM_uuidLoop tidiesM_listPods tidiesM_ChoosePod tidiesM_backupFrom : tidy.

Lemma tidiesM_Backup : tidiesM (BackupManager_Backup Unmarshal_gtidExecuted).
Proof.
  unfold BackupManager_Backup, GetUUIDSet. do 5 (apply tidiesM_bind; [by eauto 6 with tidy|]; intros ?).
  case_match; [|apply tidiesM_ret]. apply tidiesM_bind; [apply tidiesM_get|]. intros bm.
  apply tidiesM_open, tidiesM_backupFrom.
Qed.

(** C34. A backup leaves nothing behind: whatever the other systems answer and
    wherever it fails, every work directory it made is removed, every pipe is
    closed at both ends and every connection to an instance is closed. *)
Theorem backup_cleans_up bm t r :
  exec (BackupManager_Backup Unmarshal_gtidExecuted bm) t r → tidy t.
Proof.
  intros Hex. destruct (wp_exec _ _ [] _ _ _ (tidiesM_Backup bm []) Hex) as [(t' & Ht & Htidy) _].
  cbn in Ht. by subst.
Qed.
End manager.

(** ** A sample backup *)

Definition sample_bm : BackupManager :=
  {| bm_cluster := set_Backup {| bk_Time := Some 1700000000; bk_Elapsed := 0; bk_SourceIndex := 1;
                                 bk_SourceUUID := "u"; bk_UUIDSet := {["1" := "u"]};
                                 bk_BinlogFilename := "binlog.000001"; bk_GTIDSet := "p0:1-5";
                                 bk_DumpSize := 0; bk_BinlogSize := 0; bk_WorkDirUsage := 0;
                                 bk_Warnings := [] |} (sample_cluster 3 0);
     bm_mysqlPassword := "f"; bm_workDir := "/work"; bm_threads := 4; bm_startTime := 0;
     bm_sourceIndex := 0; bm_status := {| srv_SuperReadOnly := false; srv_UUID := ""; CurrentBinlog := "" |};
     bm_uuidSet := ∅; bm_gtidSet := ""; bm_dumpSize := 0; bm_binlogSize := 0; bm_workDirUsage := 0;
     bm_warnings := [] |}.

Definition sample_op (m : bopcall) : bopresp m :=
  match m return bopresp m with
  | Ping => inr ()
  | BClose => ()
  | GetServerStatus => inr {| srv_SuperReadOnly := true; srv_UUID := "u"; CurrentBinlog := "binlog.000002" |}
  | DumpFull _ => inr ()
  | GetBinlogs => inr ["binlog.000002"; "binlog.000001"]
  | DumpBinlog _ _ _ => inr ()
  | PrepareRestore => inr ()
  | LoadDump _ _ _ => inr ()
  | LoadBinlog _ _ _ _ => inr ()
  | FinishRestore => inr ()
  end.

(** zstd does not start, so the backup of the binary logs fails. *)
Definition backup_env (c : bkcall) (s : unit) : bkresp c * unit :=
  (match c return bkresp c with
   | KListPods _ _ => inr [sample_pod 2 true false; sample_pod 0 true false; sample_pod 1 true false]
   | KGetPod _ _ => inr (sample_pod 0 true false)
   | KGetCluster _ _ => inr (bm_cluster sample_bm)
   | KUpdateClusterStatus _ => inr ()
   | KCreateEvent _ => inr ()
   | KGetReference => inr ()
   | KSetup _ => inr ()
   | KSleep _ => ()
   | KOpen _ _ _ _ _ => inr ()
   | KOp _ m => sample_op m
   | KMkdirAll _ => inr ()
   | KRemoveAll _ => ()
   | KReadFile _ => inr "p0:1-9"
   | KWalkDir _ => [inr (100, Some 8); inr (5, None)]
   | KPipe _ => inr ()
   | KClosePipe _ _ => ()
   | KStart cmd => if cmd_Name cmd =s "zstd" then inl (ErrExt KindOther "no such file") else inr ()
   | KRun _ => inr ()
   | KWait _ => inr ()
   | KCancel => ()
   | KPut _ _ => ([512; 512], inr ())
   | KGet _ => inr ()
   | KCloseObject _ => ()
   | KList _ => inr []
   | KNow => 1700086400 * ns_per_second
   | KSince _ => 60
   | KTick => false
   end, s).

Definition sample_backup_prog := BackupManager_Backup (RC := retry_five) (λ data, inr data) sample_bm.
Definition sample_backup_run := run (S := bkSig) backup_env sample_backup_prog ().

Lemma sample_backup_exec : exec sample_backup_prog sample_backup_run.1 sample_backup_run.2.
Proof. unfold sample_backup_run. apply run_exec. Qed.

(** The status recorded in the sample. *)
Definition sample_recorded : list BackupStatus :=
  omap (λ e : event bkSig, match projT1 e with KUpdateClusterStatus c => Some (Backup (Status c)) | _ => None end)
       sample_backup_run.1.

Example sample_backup_status :
  sample_recorded =
    [{| bk_Time := Some 1700086400; bk_Elapsed := 60; bk_SourceIndex := 1; bk_SourceUUID := "u";
        bk_UUIDSet := {["0" := "u"; "1" := "u"; "2" := "u"]}; bk_BinlogFilename := "binlog.000002";
        bk_GTIDSet := "p0:1-9"; bk_DumpSize := 1024; bk_BinlogSize := 0; bk_WorkDirUsage := 4101;
        bk_Warnings := ["failed to backup binary logs: failed to start zstd process: no such file"] |}] ∧
  sample_backup_run.2.2 = Return ().
Proof. vm_compute. done. Qed.

Lemma backup_recorded_truthfully_witness :
  recorded sample_backup_run.1 ∧ sample_backup_run.2.2 = Return ().
Proof.
  destruct (backup_recorded_truthfully (RC := retry_five) (λ data, inr data) sample_bm sample_backup_run.1
    sample_backup_run.2.1 sample_backup_run.2.2) as [_ [Hr _]]; [by vm_compute|by vm_compute| |].
  - rewrite <- surjective_pairing. exact sample_backup_exec.
  - split; [apply Hr|]; by vm_compute.
Defined.

Lemma backup_cleans_up_witness : tidy sample_backup_run.1 ∧ sample_backup_run.2.2 = Return ().
Proof.
  split; [|by vm_compute].
  exact (backup_cleans_up (RC := retry_five) (λ data, inr data) sample_bm _ _ sample_backup_exec).
Defined.

Lemma choose_pod_correct_witness :
  ∃ bm' o, ChoosePod [Some (sample_pod 0 true false); Some (sample_pod 1 false false)] sample_bm = Ret (bm', o) ∧
    o = Return (0, false).
Proof.
  destruct (choose_pod_correct [Some (sample_pod 0 true false); Some (sample_pod 1 false false)] sample_bm)
    as (bm' & o & Hc & _); [by repeat constructor|by vm_compute|].
  exists bm', o. split; [exact Hc|]. vm_compute in Hc. by injection Hc as <- <-.
Defined.
