(* ===== verification/Restore.v ===== *)
(** * Restoring from a backup (backup/restore.go, cmd/moco-backup/cmd/restore.go)

    [RestoreManager] waits for the instance, finds the dump nearest to the
    restore point, loads it and the binary logs kept beside it, and records the
    restoration in the status of the cluster. *)

From S2P Require Import Prelude Prog Worlds GoLib Time Constants Api Event Keys Bkop Backup.
#[local] Open Scope Z_scope.

(* backup/restore.go :: RestoreManager *)
Record RestoreManager := {
  rm_namespace : string;
  rm_name : string;
  rm_password : string;
  rm_threads : Z;
  rm_keyPrefix : string;
  rm_restorePoint : Z;
  rm_workDir : string;
  rm_schema : string;
  rm_users : string
}.

(* backup/restore.go :: NewRestoreManager *)
Definition NewRestoreManager (dir srcNS srcName ns name password : string) (threads restorePoint : Z)
    (schema users : string) : RestoreManager :=
  {| rm_namespace := ns; rm_name := name; rm_password := password; rm_threads := threads;
     rm_keyPrefix := calcPrefix srcNS srcName; rm_restorePoint := restorePoint; rm_workDir := dir;
     rm_schema := schema; rm_users := users |}.

(** ** FindNearestDump *)

(** The loop over the sorted keys; [acc] is [(nearestDump, nearestBinlog, nearest)]. *)
(* backup/restore.go:206-235 FindNearestDump *)
Fixpoint nearestLoop (restorePoint : Z) (keys : list string) (acc : string * string * Z) : string * string * Z :=
  match keys with
  | [] => acc
  | key :: rest =>
      let isBinlog := has_suffix key BinlogFilename in
      let isDump := has_suffix key DumpFilename in
      if negb isBinlog && negb isDump then nearestLoop restorePoint rest acc else
      match ParseBackup (path_Base (path_Dir key)) with
      | None => nearestLoop restorePoint rest acc
      | Some bkt =>
          if restorePoint <? bkt then acc else
          let '(dump, binlog, nearest) := acc in
          if isBinlog then nearestLoop restorePoint rest (dump, key, nearest)
          else nearestLoop restorePoint rest
                 (key, if path_Dir key <>s path_Dir binlog then "" else binlog, bkt)
      end
  end.

(* backup/restore.go :: FindNearestDump *)
Definition FindNearestDump (rm : RestoreManager) (keys : list string) : string * string * Z :=
  nearestLoop (rm_restorePoint rm) (sort_strings keys) ("", "", zero_time).

(** ** Loading *)

(** [defer f()] around the rest of a function. *)
Definition withDefer {A} (c : bkcall) (p : prog bkSig A) : prog bkSig A :=
  r <-- p ;; _ <-- bk c ;; Ret r.

Definition tarExtract (rm : RestoreManager) : Cmd :=
  {| cmd_Name := "tar"; cmd_Args := ["-C"; rm_workDir rm; "-x"; "-f"; "-"]; cmd_Env := [] |}.
Definition zstdDecompress : Cmd := {| cmd_Name := "zstd"; cmd_Args := ["-d"; "--no-progress"]; cmd_Env := [] |}.

(* backup/restore.go :: RestoreManager.loadDump *)
Definition loadDump (rm : RestoreManager) (host key : string) : prog bkSig (extres unit) :=
  _ <-! wrap_err ("failed to get object " +:+ key) (bk (KGet key)) ;;
  withDefer (KCloseObject key)
    (let dumpDir := path_Join [rm_workDir rm; "dump"] in
     withDefer (KRemoveAll dumpDir)
       (_ <-! wrap_err "failed to untar dump file" (bk (KRun (tarExtract rm))) ;;
        bk (KOp host (LoadDump dumpDir (rm_schema rm) (rm_users rm))))).

(** After the pipe is made and zstd started. *)
(* backup/restore.go:299-324 applyBinlog *)
Definition extractAndLoad (rm : RestoreManager) (host binlogDir : string) : prog bkSig (extres unit) :=
  _ <-! wrap_err "failed to run tar" (bk (KRun (tarExtract rm))) ;;
  _ <-! wrap_err "zstd exited abnormally" (bk (KWait zstdDecompress)) ;;
  let tmpDir := path_Join [rm_workDir rm; "tmp"] in
  _ <-! wrap_err ("failed to create " +:+ tmpDir) (bk (KMkdirAll tmpDir)) ;;
  withDefer (KRemoveAll tmpDir)
    (bk (KOp host (LoadBinlog binlogDir tmpDir (rm_restorePoint rm) (rm_schema rm)))).

(* backup/restore.go :: RestoreManager.applyBinlog *)
Definition applyBinlog (rm : RestoreManager) (host key : string) : prog bkSig (extres unit) :=
  _ <-! wrap_err ("failed to get object " +:+ key) (bk (KGet key)) ;;
  withDefer (KCloseObject key)
    (let binlogDir := path_Join [rm_workDir rm; "binlog"] in
     withDefer (KRemoveAll binlogDir)
       (_ <-! wrap_err "failed to create pipe" (bk (KPipe 1)) ;;
        r <-- bk (KStart zstdDecompress) ;;
        match r with
        | inl e =>
            _ <-- bk KCancel ;; _ <-- bk (KClosePipe 1 false) ;; _ <-- bk (KClosePipe 1 true) ;;
            Ret (inl (ErrWrap "failed to start zstd" e))
        | inr _ =>
            _ <-- bk (KClosePipe 1 true) ;;
            withDefer (KClosePipe 1 false) (withDefer KCancel (extractAndLoad rm host binlogDir))
        end)).

(** ** Restore *)

Section restore.
Context {RC : ConflictRetry bkSig}.

(** Wait until the Pod has an address, at most [n] seconds; the address of the
    Pod read last. *)
(* backup/restore.go:91-107 Restore *)
Fixpoint waitPod (ns podName : string) (n : nat) (ip : string) : prog bkSig (outcome string) :=
  match n with
  | O => Ret (Return ip)
  | S n =>
      cancelled <-- bk KTick ;;
      if (cancelled : bool) then Ret (Error ErrCtxDone) else
      r <-- bk (KGetPod ns podName) ;;
      match r with
      | inl _ => waitPod ns podName n ""
      | inr pod => if pod_PodIP pod <>s "" then Ret (Return (pod_PodIP pod)) else waitPod ns podName n ""
      end
  end.

(** Ping until mysqld answers and is super-read-only, at most [n] seconds. *)
(* backup/restore.go:117-139 Restore *)
Fixpoint waitReady (host : string) (n : nat) : prog bkSig (outcome unit) :=
  match n with
  | O => Ret (Return ())
  | S n =>
      cancelled <-- bk KTick ;;
      if (cancelled : bool) then Ret (Error ErrCtxDone) else
      r <-- bk (KOp host Ping) ;;
      match r with
      | inl _ => waitReady host n
      | inr _ =>
          st <-- bk (KOp host GetServerStatus) ;;
          match st with
          | inl _ => Ret (Panic (error_string ErrBadConnection))
          | inr st => if srv_SuperReadOnly st then Ret (Return ()) else waitReady host n
          end
      end
  end.

Definition set_RestoredTime (t : Z) (c : MySQLCluster) : MySQLCluster :=
  set_Status {| Conditions := Conditions (Status c); CurrentPrimaryIndex := CurrentPrimaryIndex (Status c);
                SyncedReplicas := SyncedReplicas (Status c); ErrantReplicas := ErrantReplicas (Status c);
                ErrantReplicaList := ErrantReplicaList (Status c); Backup := Backup (Status c);
                RestoredTime := Some t; Cloned := Cloned (Status c);
                ReconcileInfo_ := ReconcileInfo_ (Status c) |} c.

(** The function given to [RetryOnConflict]. *)
(* backup/restore.go:174-183 Restore *)
Definition recordRestore (rm : RestoreManager) : prog bkSig (extres unit) :=
  cluster <-! bk (KGetCluster (rm_namespace rm) (rm_name rm)) ;;
  now <-- bk KNow ;;
  bk (KUpdateClusterStatus (set_RestoredTime (now / ns_per_second) cluster)).

(** [if err := ...; err != nil { return fmt.Errorf(msg, err) }] in a function
    that may panic. *)
Definition checked {A} (msg : string) (p : prog bkSig (extres A)) : prog bkSig (outcome A) :=
  r <-- p ;; check_res (ErrWrap msg) r.

(** Load the data into the ready instance. *)
(* backup/restore.go:141-172 Restore *)
Definition loadData (rm : RestoreManager) (host : string) : prog bkSig (outcome unit) :=
  keys <-? checked "failed to list object keys" (bk (KList (rm_keyPrefix rm))) ;;
  let '(dumpKey, binlogKey, backupTime) := FindNearestDump rm keys in
  if dumpKey =s "" then Ret (Error (ErrNew "no available backup")) else
  _ <-? checked "failed to prepare instance for restoration" (bk (KOp host PrepareRestore)) ;;
  _ <-? checked "failed to load dump" (loadDump rm host dumpKey) ;;
  _ <-? (if negb (backupTime =? rm_restorePoint rm) && (binlogKey <>s "")
         then checked "failed to apply transactions" (applyBinlog rm host binlogKey)
         else Ret (Return ())) ;;
  checked "failed to finalize the restoration" (bk (KOp host FinishRestore)).

(** Between opening the operator and its deferred [Close]. *)
(* backup/restore.go:115-201 Restore *)
Definition restoreFrom (rm : RestoreManager) (host : string) : prog bkSig (outcome unit) :=
  _ <-? waitReady host 600 ;;
  _ <-? loadData rm host ;;
  _ <-? checked "failed to update MySQLCluster status" (RetryOnConflict (recordRestore rm)) ;;
  _ <-? checked "failed to get reference for MySQLCluster" (bk KGetReference) ;;
  _ <-- bk (KCreateEvent Restored) ;;
  Ret (Return ()).

(** The Pod with ordinal 0 of the cluster. *)
Definition restorePodName (rm : RestoreManager) : string := "moco-" +:+ rm_name rm +:+ "-" +:+ Itoa 0.

(* backup/restore.go :: Restore *)
Definition RestoreManager_Restore (rm : RestoreManager) : prog bkSig (outcome unit) :=
  host <-? waitPod (rm_namespace rm) (restorePodName rm) 600 "" ;;
  _ <-? checked "failed to create an operator"
          (bk (KOpen host MySQLPort AdminUser (rm_password rm) (rm_threads rm))) ;;
  withDefer (KOp host BClose) (restoreFrom rm host).

(** ** The command *)

(** The arguments of the command; [workDir], [threads] and the password are
    options and environment of the process. *)
Record RestoreArgs := {
  arg_bucket : string; arg_srcNamespace : string; arg_srcName : string; arg_namespace : string;
  arg_name : string; arg_restorePoint : string; arg_schema : string; arg_users : string;
  arg_workDir : string; arg_threads : Z; arg_password : string
}.

(** A panic with [ErrBadConnection] is recovered and becomes the error. *)
Definition recoverBadConnection (o : outcome unit) : outcome unit :=
  match o with
  | Panic m => if m =s error_string ErrBadConnection then Error ErrBadConnection else Panic m
  | o => o
  end.

(* cmd/moco-backup/cmd/restore.go :: runRestore *)
Definition runRestore (args : RestoreArgs) : prog bkSig (outcome unit) :=
  o <-- match ParseBackup (arg_restorePoint args) with
        | None => Ret (Error (ErrWrap ("invalid restore point " +:+ arg_restorePoint args) (ErrNew "time.Parse")))
        | Some restorePoint =>
            _ <-? checked "failed to create a bucket interface" (bk (KSetup (arg_bucket args))) ;;
            _ <-? checked "failed to get config for Kubernetes" (bk (KSetup "config")) ;;
            _ <-? checked "failed to create a restore manager" (bk (KSetup "client")) ;;
            RestoreManager_Restore
              (NewRestoreManager (arg_workDir args) (arg_srcNamespace args) (arg_srcName args)
                 (arg_namespace args) (arg_name args) (arg_password args) (arg_threads args) restorePoint
                 (arg_schema args) (arg_users args))
        end ;;
  Ret (recoverBadConnection o).

(** At most [n] attempts while the connection is bad. *)
(* cmd/moco-backup/cmd/restore.go:29-41 restoreCmd *)
Fixpoint restoreAttempts (args : RestoreArgs) (n : nat) : prog bkSig (outcome unit) :=
  match n with
  | O => Ret (Return ())
  | S n =>
      o <-- runRestore args ;;
      match o with
      | Error e => if decide (e = ErrBadConnection)
                   then _ <-- bk (KSleep 1000) ;; restoreAttempts args n
                   else Ret (Error e)
      | o => Ret o
      end
  end.

Definition restoreCmd_RunE (args : RestoreArgs) : prog bkSig (outcome unit) := restoreAttempts args 3.
End restore.
