(* ===== verification/RestoreSpec.v ===== *)
(** * Restoring is right

    [FindNearestDump] finds the last dump before the restore point together with
    its binary logs, and a restoration loads them in order before it is
    recorded. *)

From S2P Require Import Prelude Prog Worlds GoLib Time Constants Api Event Keys Bkop Backup BackupSpec TidySpec Restore Cluster Samples.
#[local] Open Scope Z_scope.

(** ** Suffixes *)

Lemma has_suffix_app a p : has_suffix (a +:+ p) p = true.
Proof.
  unfold has_suffix. rewrite length_str_app.
  replace (String.length a + String.length p - String.length p)%nat with (String.length a) by lia.
  rewrite drop_str_app, String.eqb_refl, andb_true_r. apply Nat.leb_le. lia.
Qed.

Lemma drop_str_spec n s : ∃ a, s = a +:+ drop_str n s.
Proof.
  revert s. induction n as [|n IH]; intros s; [by exists ""|].
  destruct s as [|c s]; [by exists ""|]. destruct (IH s) as [a Ha]. exists (String c a). cbn.
  change (String c a +:+ drop_str n s) with (String c (a +:+ drop_str n s)). by rewrite <- Ha.
Qed.

Lemma has_suffix_inv s p : has_suffix s p = true → ∃ a, s = a +:+ p.
Proof.
  unfold has_suffix. intros H. bool_cases. destruct (drop_str_spec (String.length s - String.length p) s) as [a Ha].
  exists a. congruence.
Qed.

Lemma str_snoc_inj a b c d : a +:+ String c "" = b +:+ String d "" → c = d.
Proof.
  revert b. induction a as [|x a IH]; intros [|y b] H; cbn in H.
  - by injection H.
  - change (String y b +:+ String d "") with (String y (b +:+ String d "")) in H.
    injection H as _ H. by destruct b.
  - change (String x a +:+ String c "") with (String x (a +:+ String c "")) in H.
    injection H as _ H. by destruct a.
  - change (String x a +:+ String c "") with (String x (a +:+ String c "")) in H.
    change (String y b +:+ String d "") with (String y (b +:+ String d "")) in H.
    injection H as _ H. by eapply IH.
Qed.

(** ** The nearest dump *)

Section nearest.
Context (ns name : string).
Hypothesis Hns : plain ns.
Hypothesis Hname : plain name.

(** An object of a backup: its time and whether it is the dump or the binary logs. *)
Abbreviation obj := (Z * bool)%type.
Definition filename (dump : bool) : string := if dump then DumpFilename else BinlogFilename.
Definition key (x : obj) : string := calcKey ns name (filename x.2) x.1.

(** A time a key can hold: whole seconds of a year with four digits. *)
Definition key_time (t : Z) : Prop := four_digit_year t ∧ t mod ns_per_second = 0.

Lemma filename_plain b : plain (filename b).
Proof. by destruct b. Qed.

Lemma key_time_div t : key_time t → t = t / ns_per_second * ns_per_second.
Proof. intros [_ Hm]. pose proof (Z.div_mod t ns_per_second ltac:(done)). lia. Qed.

Lemma key_form x : four_digit_year x.1 → ∃ a, key x = a +:+ "/" +:+ filename x.2.
Proof.
  intros Ht. unfold key. rewrite calcKey_slashed by (done || apply filename_plain).
  rewrite slashed_snoc by done. by eexists.
Qed.

Lemma key_isDump x : four_digit_year x.1 → has_suffix (key x) DumpFilename = x.2.
Proof.
  intros Ht. destruct (key_form x Ht) as [a ->]. destruct x as [t []]; cbn [snd filename].
  - rewrite <- str_app_assoc. apply has_suffix_app.
  - apply not_true_iff_false. intros [b Hb]%has_suffix_inv. 
    assert ("t" = "r")%char; [|done]. apply (str_snoc_inj (a +:+ "/binlog.tar.zs") (b +:+ "dump.ta")).
    rewrite !str_app_assoc. exact Hb.
Qed.

Lemma key_isBinlog x : four_digit_year x.1 → has_suffix (key x) BinlogFilename = negb x.2.
Proof.
  intros Ht. destruct (key_form x Ht) as [a ->]. destruct x as [t []]; cbn [snd filename negb].
  - apply not_true_iff_false. intros [b Hb]%has_suffix_inv.
    assert ("r" = "t")%char; [|done]. apply (str_snoc_inj (a +:+ "/dump.ta") (b +:+ "binlog.tar.zs")).
    rewrite !str_app_assoc. exact Hb.
  - rewrite <- str_app_assoc. apply has_suffix_app.
Qed.

Lemma key_parse x : key_time x.1 → ParseBackup (path_Base (path_Dir (key x))) = Some x.1.
Proof.
  intros Ht. unfold key. rewrite Base_Dir_calcKey by (done || apply filename_plain || apply Ht).
  rewrite Parse_Format by apply Ht. by rewrite <- key_time_div.
Qed.

(** Objects in the order of their keys: by time, the binary logs first. *)
Definition before (x y : obj) : Prop := x.1 < y.1 ∨ x.1 = y.1 ∧ (x.2 = true → y.2 = true).

Lemma key_le_before x y : key_time x.1 → key_time y.1 → String.le (key x) (key y) → before x y.
Proof.
  intros Hx Hy Hle. unfold String.le, String.leb, key in Hle.
  rewrite compare_calcKey in Hle by (done || apply filename_plain || apply Hx || apply Hy).
  pose proof (key_time_div _ Hx). pose proof (key_time_div _ Hy). unfold before.
  destruct (Z.compare_spec (x.1 / ns_per_second) (y.1 / ns_per_second)) as [Heq|Hlt|Hgt]; cbn in Hle;
    [|left; unfold ns_per_second in *; lia|done].
  right. split; [congruence|]. by destruct x as [? []], y as [? []].
Qed.

Lemma Dir_key_inj x y : key_time x.1 → key_time y.1 → path_Dir (key x) = path_Dir (key y) → x.1 = y.1.
Proof.
  intros Hx Hy Heq. pose proof (key_parse x Hx) as Hp. rewrite Heq, key_parse in Hp by done. by injection Hp.
Qed.

Lemma Dir_key_same t : four_digit_year t → path_Dir (key (t, true)) = path_Dir (key (t, false)).
Proof. intros Ht. unfold key. by rewrite !Dir_calcKey. Qed.

(** What the loop knows after the objects [done]. *)
Definition dump_inv (l : list obj) (dump : string) (nearest : Z) : Prop :=
  (dump = "" ∧ nearest = zero_time ∧ ∀ t, (t, true) ∉ l) ∨
  (∃ t, (t, true) ∈ l ∧ (∀ t', (t', true) ∈ l → t' ≤ t) ∧ dump = key (t, true) ∧ nearest = t).

Definition binlog_inv (l : list obj) (binlog : string) : Prop :=
  (binlog = "" ∧ ∀ s, (s, false) ∈ l → ∃ t, (t, true) ∈ l ∧ s < t) ∨
  (∃ s, (s, false) ∈ l ∧ (∀ x, x ∈ l → x.1 ≤ s) ∧ binlog = key (s, false)).

Definition loop_inv (l : list obj) (acc : string * string * Z) : Prop :=
  dump_inv l acc.1.1 acc.2 ∧ binlog_inv l acc.1.2.

Lemma before_le x y : before x y → x.1 ≤ y.1.
Proof. intros [?|[? _]]; lia. Qed.

Lemma loop_inv_binlog l dump binlog nearest s :
  (∀ x, x ∈ l → before x (s, false)) → loop_inv l (dump, binlog, nearest) →
  loop_inv (l ++ [(s, false)]) (dump, key (s, false), nearest).
Proof.
  intros Hl [Hd _]. split; cbn in *.
  - destruct Hd as [(-> & -> & Hno)|(t & Ht & Hmax & -> & ->)]; [left|right].
    + split_and!; [done..|]. intros t [?|?%list_elem_of_singleton]%elem_of_app; [by eapply Hno|done].
    + exists t. split_and!; try done; [by apply elem_of_app; left|].
      intros t' [?|?%list_elem_of_singleton]%elem_of_app; [by apply Hmax|done].
  - right. exists s. split_and!; [by apply elem_of_app; right; left| |done].
    intros x [Hx| ->%list_elem_of_singleton]%elem_of_app; [|cbn; lia]. by apply (before_le _ _ (Hl _ Hx)).
Qed.

Lemma loop_inv_dump l dump binlog nearest t :
  key_time t → (∀ x, x ∈ l → key_time x.1 ∧ before x (t, true)) → loop_inv l (dump, binlog, nearest) →
  loop_inv (l ++ [(t, true)])
    (key (t, true), if path_Dir (key (t, true)) <>s path_Dir binlog then "" else binlog, t).
Proof.
  intros Ht Hl [_ Hb]. split; cbn in *.
  - right. exists t. split_and!; [by apply elem_of_app; right; left| |done..].
    intros t' [Hx|Hx%list_elem_of_singleton]%elem_of_app; [|by simplify_eq].
    by apply (before_le _ _ (proj2 (Hl _ Hx))).
  - destruct Hb as [[-> Hb]|(s & Hs & Hmax & ->)].
    { left. split; [by destruct (negb _)|].
      intros s [Hx|Hx%list_elem_of_singleton]%elem_of_app; [|done]. destruct (Hb _ Hx) as (t' & ? & ?).
      exists t'. split; [by apply elem_of_app; left|done]. }
    destruct (Hl _ Hs) as [Hst Hbef]. cbn in Hst. destruct (decide (s = t)) as [->|Hne].
    + rewrite Dir_key_same, String.eqb_refl by apply Ht. right. exists t. split_and!; [|..|done].
      * by apply elem_of_app; left.
      * intros x [Hx| ->%list_elem_of_singleton]%elem_of_app; [by apply Hmax|cbn; lia].
    + rewrite (proj2 (String.eqb_neq _ _)).
      2: { intros Heq%Dir_key_inj; [done|done|done]. }
      left. split; [done|]. apply before_le in Hbef. cbn in Hbef.
      intros s' [Hx|Hx%list_elem_of_singleton]%elem_of_app; [|done].
      exists t. split; [by apply elem_of_app; right; left|]. pose proof (Hmax _ Hx). cbn in *. lia.
Qed.

Lemma key_suffixes x :
  key_time x.1 → negb (has_suffix (key x) BinlogFilename) && negb (has_suffix (key x) DumpFilename) = false.
Proof. intros [Ht _]. rewrite key_isBinlog, key_isDump by done. by destruct x as [? []]. Qed.

(** The loop over the objects in order stops at the first one after the restore
    point; what it knows then is about all objects up to that point. *)
Lemma nearestLoop_inv R l l0 acc :
  StronglySorted before (l0 ++ l) → Forall (λ x, key_time x.1) (l0 ++ l) → Forall (λ x : obj, x.1 ≤ R) l0 →
  loop_inv l0 acc →
  ∃ l', (∀ x, x ∈ l' ↔ x ∈ l0 ++ l ∧ x.1 ≤ R) ∧ loop_inv l' (nearestLoop R (key <$> l) acc).
Proof.
  revert l0 acc. induction l as [|x l IH]; intros l0 [[dump binlog] nearest] Hs Hk Hle Hinv.
  { exists l0. split; [|done]. intros x. rewrite app_nil_r, Forall_forall in *. naive_solver. }
  assert (key_time x.1) as Hx by (rewrite Forall_forall in Hk; apply Hk, elem_of_app; right; left).
  pose proof (StronglySorted_app before l0 (x :: l)) as [(Hcross & _ & Hsx) _]; [done|].
  inversion Hsx as [|?? _ Hafter]; subst. rewrite Forall_forall in Hafter.
  cbn [fmap list_fmap nearestLoop]. rewrite key_suffixes, key_parse by done.
  destruct (Z.ltb_spec R x.1) as [Hgt|Hle'].
  { exists l0. split; [|done]. intros y. rewrite Forall_forall in Hle. split.
    - intros Hy. split; [by apply elem_of_app; left|by apply Hle].
    - intros [[Hy|[->|Hy]%elem_of_cons]%elem_of_app Hr]; [done|lia|].
      pose proof (before_le _ _ (Hafter _ Hy)). lia. }
  assert (l0 ++ x :: l = (l0 ++ [x]) ++ l) as Happ by by rewrite <- app_assoc. rewrite Happ in *.
  assert (∀ y, y ∈ l0 → key_time y.1 ∧ before y x) as Hl0.
  { intros y Hy. rewrite Forall_forall in Hk. split; [apply Hk; set_solver|]. apply Hcross; [done|left]. }
  rewrite key_isBinlog by apply Hx. destruct x as [t []]; cbn [snd negb]; apply IH; try done.
  1, 3: apply Forall_app; split; [done|by apply Forall_singleton].
  - eapply loop_inv_dump; [done| |exact Hinv]. intros y Hy. by apply Hl0.
  - eapply loop_inv_binlog; [|exact Hinv]. intros y Hy. by apply Hl0.
Qed.

(** Keys that are neither dumps nor binary logs are skipped. *)
Definition garbage (k : string) : Prop := has_suffix k BinlogFilename = false ∧ has_suffix k DumpFilename = false.
#[local] Instance garbage_dec k : Decision (garbage k).
Proof. unfold garbage. apply _. Defined.

Lemma nearestLoop_garbage R keys acc :
  nearestLoop R keys acc = nearestLoop R (filter (λ k, ¬ garbage k) keys) acc.
Proof.
  revert acc. induction keys as [|k keys IH]; intros acc; [done|]. rewrite filter_cons. case_decide as Hg.
  - cbn [nearestLoop]. destruct (_ && _); [apply IH|]. destruct (ParseBackup _); [|apply IH].
    destruct (_ <? _); [done|]. destruct acc as [[]]. destruct (has_suffix k BinlogFilename); apply IH.
  - assert (garbage k) as [Hb Hd] by (destruct (decide (garbage k)); tauto).
    cbn [nearestLoop]. rewrite Hb, Hd. apply IH.
Qed.

Lemma keys_of_objects (objs : list obj) (ks : list string) :
  (∀ k, k ∈ ks → ∃ x, x ∈ objs ∧ k = key x) → ∃ l, ks = key <$> l ∧ ∀ x, x ∈ l → x ∈ objs.
Proof.
  induction ks as [|k ks IH]; intros H; [exists []; split; [done|by intros ? ?%elem_of_nil]|].
  destruct (H k) as (x & Hx & ->); [left|]. destruct IH as (l & -> & Hl); [intros k Hk; apply H; by right|].
  exists (x :: l). split; [done|]. intros y [->|Hy]%elem_of_cons; [done|by apply Hl].
Qed.

Lemma StronglySorted_filter {A} (R : relation A) (P : A → Prop) `{∀ x, Decision (P x)} l :
  StronglySorted R l → StronglySorted R (filter P l).
Proof.
  induction 1 as [|x l Hs IH Hall]; [constructor|]. rewrite filter_cons. case_decide; [|done].
  constructor; [done|]. apply Forall_forall. intros y [_ Hy]%list_elem_of_filter.
  rewrite Forall_forall in Hall. by apply Hall.
Qed.

Lemma sorted_objects l :
  Forall (λ x, key_time x.1) l → StronglySorted String.le (key <$> l) → StronglySorted before l.
Proof.
  induction l as [|x l IH]; intros Hk Hs; [constructor|].
  apply Forall_cons in Hk as [Hx Hl]. inversion Hs as [|?? Hs' Hall]; subst. constructor; [by apply IH|].
  apply Forall_forall. intros y Hy. rewrite Forall_forall in Hl. rewrite Forall_forall in Hall.
  apply key_le_before; [done|by apply Hl|]. by apply Hall, list_elem_of_fmap_2.
Qed.

(** What is in the bucket: the objects of backups, and garbage. *)
Definition bucket_holds (objs : list obj) (keys : list string) : Prop :=
  (∀ x, x ∈ objs → key_time x.1 ∧ key x ∈ keys) ∧
  (∀ k, k ∈ keys → garbage k ∨ ∃ x, x ∈ objs ∧ k = key x).

Lemma FindNearestDump_inv rm objs keys :
  bucket_holds objs keys →
  ∃ l, (∀ x, x ∈ l ↔ x ∈ objs ∧ x.1 ≤ rm_restorePoint rm) ∧ loop_inv l (FindNearestDump rm keys).
Proof.
  intros [Hobj Hkey]. unfold FindNearestDump. rewrite nearestLoop_garbage.
  destruct (keys_of_objects objs (filter (λ k, ¬ garbage k) (sort_strings keys))) as (l & Hl & Hsub).
  { intros k [Hg Hk]%list_elem_of_filter. rewrite sort_strings_perm in Hk. by destruct (Hkey _ Hk). }
  assert (Forall (λ x, key_time x.1) l) as Hkt.
  { apply Forall_forall. intros x Hx. by apply Hobj, Hsub. }
  assert (StronglySorted before l) as Hs.
  { apply sorted_objects; [done|]. rewrite <- Hl. apply StronglySorted_filter, sort_strings_sorted. }
  assert (∀ x, x ∈ objs → x ∈ l) as Hsup.
  { intros x Hx. destruct (Hobj _ Hx) as [Ht Hk].
    assert (key x ∈ key <$> l) as (y & Heq & Hy)%list_elem_of_fmap.
    { rewrite <- Hl. apply list_elem_of_filter. split; [|by rewrite sort_strings_perm].
      intros [Hb Hd]. rewrite key_isBinlog in Hb by apply Ht. rewrite key_isDump in Hd by apply Ht. by destruct x.2. }
    assert (key_time y.1) as Hyt by (rewrite Forall_forall in Hkt; by apply Hkt).
    assert (x.1 = y.1) as H1 by (apply Dir_key_inj; [done..|by rewrite Heq]).
    assert (x.2 = y.2) as H2.
    { pose proof (key_isDump x (proj1 Ht)) as Hd. rewrite Heq, key_isDump in Hd by apply Hyt. done. }
    destruct x, y. cbn in *. by subst. }
  rewrite Hl. destruct (nearestLoop_inv (rm_restorePoint rm) l [] ("", "", zero_time)) as (l' & Hl' & Hinv);
    [done..| |].
  { split; [left|left]; (split_and! || split); try done; by intros ? ?%elem_of_nil. }
  exists l'. split; [|done]. intros x. rewrite Hl'. cbn. split; intros [Hx ?]; (split; [|done]); auto.
Qed.


(** Binary logs without their dump are taken for those of an older dump: if
    the last backup before the restore point has lost its dump, the dump of an
    earlier backup is restored with the binary logs of the later one, although
    these do not contain the transactions between the two. *)
Theorem orphan_binlog_is_mispaired rm t1 t2 :
  key_time t1 → key_time t2 → t1 < t2 → t2 ≤ rm_restorePoint rm →
  FindNearestDump rm [key (t1, true); key (t2, false)] = (key (t1, true), key (t2, false), t1).
Proof.
  intros H1 H2 Hlt Hle.
  assert (sort_strings [key (t1, true); key (t2, false)] = [key (t1, true); key (t2, false)]) as Hsort.
  { apply (StronglySorted_unique String.le); [apply sort_strings_sorted| |apply sort_strings_perm].
    repeat constructor. unfold String.le, String.leb, key.
    rewrite compare_calcKey by (done || apply filename_plain || apply H1 || apply H2). cbn [fst snd].
    pose proof (key_time_div _ H1). pose proof (key_time_div _ H2).
    replace (t1 / ns_per_second ?= t2 / ns_per_second) with Lt; [done|]. symmetry. apply Z.compare_lt_iff.
    unfold ns_per_second in *. lia. }
  unfold FindNearestDump. rewrite Hsort. cbn [nearestLoop].
  rewrite !key_suffixes, !key_parse by done. cbn [fst].
  destruct (Z.ltb_spec (rm_restorePoint rm) t1); [lia|]. rewrite !key_isBinlog by (apply H1 || apply H2).
  cbn [negb snd]. destruct (Z.ltb_spec (rm_restorePoint rm) t2); [lia|done].
Qed.
End nearest.

(** ** The protocol of a restoration *)

Section protocol.
Context {RC : ConflictRetry bkSig}.
Context (rm : RestoreManager) (host : string).
Implicit Types h : trace bkSig.

(** What was chosen from the listing of the bucket. *)
Definition chosen h (choice : string * string * Z) : Prop :=
  ∃ keys, occurs h (KList (rm_keyPrefix rm) : call bkSig) (inr keys) ∧ FindNearestDump rm keys = choice ∧
          choice.1.1 ≠ "".

Definition dump_dir : string := path_Join [rm_workDir rm; "dump"].
Definition binlog_dir : string := path_Join [rm_workDir rm; "binlog"].
Definition tmp_dir : string := path_Join [rm_workDir rm; "tmp"].

Definition prepared (d : string) : trace bkSig :=
  [@ev bkSig (KOp host PrepareRestore) (inr ()); @ev bkSig (KGet d) (inr ());
   @ev bkSig (KRun (tarExtract rm)) (inr ())].
Definition dump_loaded (d : string) : trace bkSig :=
  prepared d ++ [@ev bkSig (KOp host (LoadDump dump_dir (rm_schema rm) (rm_users rm))) (inr ())].
Definition binlog_ready (d b : string) : trace bkSig :=
  dump_loaded d ++ [@ev bkSig (KGet b) (inr ()); @ev bkSig (KRun (tarExtract rm)) (inr ())].
Definition binlog_loaded (d b : string) : trace bkSig :=
  binlog_ready d b ++
  [@ev bkSig (KOp host (LoadBinlog binlog_dir tmp_dir (rm_restorePoint rm) (rm_schema rm))) (inr ())].

(** The dump is loaded, and the binary logs where they are needed and there. *)
Definition all_loaded h : Prop :=
  ∃ d b t, chosen h (d, b, t) ∧ dump_loaded d `sublist_of` h ∧
           (t = rm_restorePoint rm ∨ b = "" ∨ binlog_loaded d b `sublist_of` h).

Definition restore_protocol h (c : bkcall) : Prop :=
  match c with
  | KOp host' PrepareRestore => host' = host ∧ ∃ choice, chosen h choice
  | KOp host' (LoadDump dir schema users) =>
      host' = host ∧ dir = dump_dir ∧ schema = rm_schema rm ∧ users = rm_users rm ∧
      ∃ d b t, chosen h (d, b, t) ∧ prepared d `sublist_of` h
  | KOp host' (LoadBinlog dir tmp restorePoint schema) =>
      host' = host ∧ dir = binlog_dir ∧ restorePoint = rm_restorePoint rm ∧ schema = rm_schema rm ∧
      ∃ d b t, chosen h (d, b, t) ∧ b ≠ "" ∧ t ≠ rm_restorePoint rm ∧ binlog_ready d b `sublist_of` h
  | KOp host' FinishRestore => host' = host ∧ all_loaded h
  | KUpdateClusterStatus cluster =>
      all_loaded h ∧ occurs h (KOp host FinishRestore : call bkSig) (inr ()) ∧
      ∃ now cl, cluster = set_RestoredTime (now / ns_per_second) cl
  | _ => True
  end.

Lemma chosen_app h t c : chosen h c → chosen (h ++ t) c.
Proof. intros (keys & Hk & Hc). exists keys. split; [by apply occurs_app_l|done]. Qed.

Lemma all_loaded_app h t : all_loaded h → all_loaded (h ++ t).
Proof.
  intros (d & b & n & Hc & Hd & Hb). exists d, b, n. split_and!; [by apply chosen_app|by apply sublist_inserts_r|].
  destruct Hb as [?|[?|?]]; auto using sublist_inserts_r.
Qed.

Lemma wp_withDefer {A} c (p : prog bkSig A) h (Q : trace bkSig → A → Prop) :
  (∀ h, restore_protocol h c) →
  wp restore_protocol p h (λ h' a, ∀ r, Q (h' ++ [@ev bkSig c r]) a) →
  wp restore_protocol (withDefer c p) h Q.
Proof.
  intros Hc Hp. unfold withDefer. rewrite wp_bind. eapply wp_conseq; [exact Hp|]. intros h' a HQ.
  cbn. split; [apply Hc|]. intros r. apply HQ.
Qed.
#[local] Opaque withDefer.

Lemma wp_loadDump d b t h :
  chosen h (d, b, t) → [@ev bkSig (KOp host PrepareRestore) (inr ())] `sublist_of` h →
  wp restore_protocol (loadDump rm host d) h
     (λ h' r, r = inr () → chosen h' (d, b, t) ∧ dump_loaded d `sublist_of` h').
Proof.
  intros Hc Hprep. unfold loadDump, bk. wp_norm. split; [done|]. intros [e|[]]; [done|].
  apply wp_withDefer; [done|]. apply wp_withDefer; [done|]. wp_norm.
  split; [done|]. intros [e|[]]; [done|]. wp_norm.
  assert (prepared d `sublist_of` (h ++ [@ev bkSig (KGet d) (inr ())]) ++ [@ev bkSig (KRun (tarExtract rm)) (inr ())])
    as Hp.
  { rewrite <- app_assoc. change (prepared d) with ([@ev bkSig (KOp host PrepareRestore) (inr ())] ++
      ([@ev bkSig (KGet d) (inr ())] ++ [@ev bkSig (KRun (tarExtract rm)) (inr ())])). by apply sublist_app. }
  split.
  - split_and!; try done. exists d, b, t. split; [by do 2 apply chosen_app|done].
  - intros r r1 r2 ->. split; [by do 5 apply chosen_app|]. do 2 apply sublist_inserts_r.
    unfold dump_loaded. by apply sublist_app.
Qed.
#[local] Opaque loadDump.

Lemma wp_applyBinlog d b t h :
  chosen h (d, b, t) → dump_loaded d `sublist_of` h → b ≠ "" → t ≠ rm_restorePoint rm →
  wp restore_protocol (applyBinlog rm host b) h
     (λ h' r, r = inr () → chosen h' (d, b, t) ∧ binlog_loaded d b `sublist_of` h').
Proof.
  intros Hc Hd Hb Ht. unfold applyBinlog, extractAndLoad, bk. wp_norm. split; [done|]. intros [e|[]]; [done|].
  apply wp_withDefer; [done|]. apply wp_withDefer; [done|]. wp_norm.
  split; [done|]. intros [e|[]]; [done|]. wp_norm. split; [done|]. intros [e|[]]; wp_norm.
  { split; [done|]. intros []. split; [done|]. intros []. split; [done|]. by intros []. }
  split; [done|]. intros []. apply wp_withDefer; [done|]. apply wp_withDefer; [done|]. wp_norm.
  split; [done|]. intros [e|[]]; [done|]. wp_norm.
  assert (binlog_ready d b `sublist_of`
    ((((h ++ [@ev bkSig (KGet b) (inr ())]) ++ [@ev bkSig (KPipe 1) (inr ())]) ++
      [@ev bkSig (KStart zstdDecompress) (inr ())]) ++ [@ev bkSig (KClosePipe 1 true) ()]) ++
      [@ev bkSig (KRun (tarExtract rm)) (inr ())]) as Hr.
  { unfold binlog_ready. change [?x; ?y] with ([x] ++ [y]). rewrite (app_assoc (dump_loaded d)).
    apply sublist_app; [|done]. do 3 apply sublist_inserts_r. by apply sublist_app. }
  match goal with Hr : _ `sublist_of` ?h1 |- _ => assert (chosen h1 (d, b, t)) as Hc1 by by do 5 apply chosen_app end.
  split; [done|]. intros [e|[]]; [done|]. wp_norm. split; [done|]. intros [e|[]]; [done|].
  apply wp_withDefer; [done|]. cbn. split.
  - split_and!; try done. exists d, b, t. split_and!; [by do 2 apply chosen_app|done..|].
    by do 2 apply sublist_inserts_r.
  - intros r r1 r2 r3 r4 r5 ->. split; [by do 8 apply chosen_app|]. do 5 apply sublist_inserts_r.
    apply (sublist_app (binlog_ready d b)); [|done]. by do 2 apply sublist_inserts_r.
Qed.
#[local] Opaque applyBinlog.

Lemma wp_checked {A} P msg (p : prog bkSig (extres A)) h Q :
  wp P (checked msg p) h Q ↔
  wp P p h (λ h' r, Q h' (match r with inr a => Return a | inl e => Error (ErrWrap msg e) end)).
Proof. unfold checked. rewrite wp_bind. done. Qed.

(** Only a bad connection makes the tool panic. *)
Definition only_bad_connection {A} (o : outcome A) : Prop :=
  match o with Panic m => m = error_string ErrBadConnection | _ => True end.

Lemma wp_loadData h :
  wp restore_protocol (loadData rm host) h
     (λ h' o, (o = Return () → all_loaded h' ∧ occurs h' (KOp host FinishRestore : call bkSig) (inr ())) ∧
              only_bad_connection o).
Proof.
  unfold loadData, bk. rewrite wp_bind_outcome, wp_checked. cbn [wp perform]. split; [done|]. intros [e|keys]; cbn [wp]; [by split|].
  destruct (FindNearestDump rm keys) as [[d b] t] eqn:Hf. cbv beta iota.
  destruct (d =s "") eqn:Hd; bool_cases; [by split|].
  assert (chosen (h ++ [@ev bkSig (KList (rm_keyPrefix rm)) (inr keys)]) (d, b, t)) as Hc.
  { exists keys. split_and!; [apply occurs_last|done|done]. }
  rewrite wp_bind_outcome, wp_checked. cbn [wp perform]. split; [split; [done|by exists (d, b, t)]|]. intros [e|[]]; cbn [wp]; [by split|].
  rewrite wp_bind_outcome, wp_checked. eapply wp_conseq.
  { apply (wp_loadDump d b t); [by apply chosen_app|]. by apply sublist_inserts_l. }
  intros h1 [e|[]] Hl; [by split|]. destruct (Hl eq_refl) as [Hc1 Hl1]. clear Hl.
  rewrite wp_bind_outcome.
  assert (∀ h2, all_loaded h2 → wp restore_protocol (checked "failed to finalize the restoration"
            (@perform bkSig (KOp host FinishRestore))) h2
            (λ h' o, (o = Return () → all_loaded h' ∧ occurs h' (KOp host FinishRestore : call bkSig) (inr ())) ∧
                     only_bad_connection o)) as Hfinish.
  { intros h2 Hal. rewrite wp_checked. cbn [wp perform]. split; [done|]. intros [e|[]]; cbn [wp]; [by split|]. split; [|done].
    intros _. split; [by apply all_loaded_app|apply occurs_last]. }
  destruct (negb (t =? rm_restorePoint rm) && _) eqn:Hneed.
  - bool_cases. rewrite wp_checked. eapply wp_conseq; [by apply (wp_applyBinlog d b t)|].
    intros h2 [e|[]] Hl; [by split|]. destruct (Hl eq_refl) as [Hc2 Hl2]. apply Hfinish. exists d, b, t.
    split_and!; [done| |by right; right]. etransitivity; [|exact Hl2].
    unfold binlog_loaded, binlog_ready. by do 2 apply sublist_inserts_r.
  - cbn. apply Hfinish. exists d, b, t. split_and!; [done..|].
    apply andb_false_iff in Hneed as [Hn|Hn]; bool_cases; auto.
Qed.
#[local] Opaque loadData.

Lemma wp_waitReady n h :
  wp restore_protocol (waitReady host n) h (λ _ o, only_bad_connection o).
Proof.
  revert h. induction n as [|n IH]; intros h; [done|]. cbn [waitReady]. unfold bk. wp_norm.
  split; [done|]. intros []; [done|]. wp_norm. split; [done|]. intros [e|[]]; [apply IH|]. wp_norm.
  split; [done|]. intros [e|st]; [done|]. destruct (srv_SuperReadOnly st); [done|apply IH].
Qed.
#[local] Opaque waitReady.

Lemma wp_restoreFrom h :
  wp restore_protocol (restoreFrom rm host) h
     (λ h' o, (o = Return () → recorded h') ∧ only_bad_connection o).
Proof.
  unfold restoreFrom. rewrite wp_bind_outcome. eapply wp_conseq; [apply wp_waitReady|].
  intros h1 [[]|e|m] Hp; [|done..]. rewrite wp_bind_outcome. eapply wp_conseq; [apply wp_loadData|].
  intros h2 [[]|e|m] [Hl Hp2]; [|done..]. destruct (Hl eq_refl) as [Hal Hfin].
  rewrite wp_bind_outcome, wp_checked.
  apply (wp_RetryOnConflict _ _ (λ h', ∃ t, h' = h2 ++ t)); [exists []; by rewrite app_nil_r|].
  intros h3 [t ->]. unfold recordRestore, bk. wp_norm. split; [done|]. intros [e|cl]; wp_norm.
  { split; [done|]. intros _. rewrite <- app_assoc. by eexists. }
  split; [done|]. intros now. split.
  { split_and!; [by do 3 apply all_loaded_app|by do 3 apply occurs_app_l|by eexists _, _]. }
  intros [e|[]]; [split; [done|]; intros _; rewrite <- !app_assoc; by eexists|]. split; [|done].
  rewrite wp_bind_outcome, wp_checked. cbn [wp perform]. split; [done|]. intros [e|[]]; cbn [wp]; [by split|]. wp_norm.
  split; [done|]. intros r. split; [|done]. intros _. eexists. do 2 apply occurs_app_l. apply occurs_last.
Qed.
End protocol.

(** The calls that change the instance or the cluster. *)
Definition is_load (c : bkcall) : bool :=
  match c with
  | KOp _ PrepareRestore | KOp _ (LoadDump _ _ _) | KOp _ (LoadBinlog _ _ _ _) | KOp _ FinishRestore
  | KUpdateClusterStatus _ => true
  | _ => false
  end.

Section whole.
Context {RC : ConflictRetry bkSig}.
Context (rm : RestoreManager).

Definition opened (host : string) : bkcall := KOpen host MySQLPort AdminUser (rm_password rm) (rm_threads rm).

Definition restore_steps (h : trace bkSig) (c : bkcall) : Prop :=
  is_load c = true →
  ∃ host, occurs h (opened host : call bkSig) (inr ()) ∧ restore_protocol rm host h c.

Lemma wp_waitPod ns pod n ip h :
  wp restore_steps (waitPod ns pod n ip) h (λ _ o, is_panic o = false).
Proof.
  revert ip h. induction n as [|n IH]; intros ip h; [done|]. cbn [waitPod]. unfold bk. wp_norm.
  split; [done|]. intros []; [done|]. wp_norm. split; [done|]. intros [e|p]; [apply IH|].
  destruct (negb _); [done|apply IH].
Qed.

(** C19. A restoration follows its protocol, whatever the other systems answer.
    The instance is prepared only after a dump was chosen; the dump of that
    choice is loaded after it was fetched and unpacked; binary logs are loaded
    only after the dump, from the object chosen with it, up to the restore point,
    and only if the dump is not from the restore point itself; and the
    restoration is finished and recorded in the cluster only after both are
    loaded.  It returns no error only when it is recorded, and panics only for a
    bad connection. *)
Theorem restore_follows_protocol t o :
  exec (RestoreManager_Restore rm) t o →
  (∀ t1 c r t2, t = t1 ++ @ev bkSig c r :: t2 → restore_steps t1 c) ∧
  (o = Return () → recorded t) ∧ only_bad_connection o.
Proof.
  intros Hex.
  assert (wp restore_steps (RestoreManager_Restore rm) []
            (λ h' o, (o = Return () → recorded h') ∧ only_bad_connection o)) as Hwp.
  { unfold RestoreManager_Restore, bk. rewrite wp_bind_outcome. eapply wp_conseq; [apply wp_waitPod|].
    intros h1 [host|e|m] Hp; [|done..]. rewrite wp_bind_outcome, wp_checked. cbn [wp perform].
    split; [done|]. intros [e|[]]; cbn [wp]; [by split|]. unfold withDefer. rewrite wp_bind.
    eapply wp_conseq.
    { eapply (wp_protocol (restore_protocol rm host) _
        (λ h, occurs h (opened host : call bkSig) (inr ()))); [| |apply occurs_last|apply wp_restoreFrom].
      - intros h c Hocc HP _. by exists host.
      - intros h c r Hocc. by apply occurs_app_l. }
    intros h2 o2 [Hr Hb]. cbn. split; [done|]. intros []. split; [|done].
    intros Ho. destruct (Hr Ho) as [c Hc]. exists c. by apply occurs_app_l. }
  destruct (wp_exec _ _ [] _ _ _ Hwp Hex) as [[Hr Hb] HP].
  split_and!; [|done..]. intros t1 c r t2 Ht. by apply (HP t1 c r t2).
Qed.
End whole.

(** ** Cleaning up *)

Lemma tidies_withDefer {A} c (p : prog bkSig A) : neutral c → tidies p → tidies (withDefer c p).
Proof.
  intros Hc Hp. apply tidies_bind; [done|]. intros a. apply tidies_bind; [by apply tidies_call|].
  intros r. apply tidies_ret.
Qed.

Lemma wp_releasing_prog {A} rel (p : prog bkSig A) h :
  neutral rel → tidies p →
  wp (λ _ _, True) (withDefer rel p) h (λ h' _, ∃ t, h' = h ++ t ∧ tidy t ∧ rel ∈ calls t).
Proof.
  intros Hn Hp. unfold withDefer. rewrite wp_bind. eapply wp_conseq; [apply Hp|]. intros h' a (t & -> & Ht).
  cbn. split; [done|]. intros r. exists (t ++ [@ev bkSig rel r]). split_and!.
  - by rewrite app_assoc.
  - apply tidy_app; [done|]. apply tidy_cons; [|apply tidy_nil].
    intros c'. unfold released. cbn. rewrite Hn. by intros ?%elem_of_nil.
  - rewrite calls_app. apply elem_of_app. right. by left.
Qed.

(** Acquire with one call, and give back with one deferred call. *)
Lemma tidies_guarded {A B} c rel (wrap : bkresp c → extres B) (p : prog bkSig (extres A)) :
  neutral rel → (∀ r, match wrap r with inr _ => ∀ c', c' ∈ releases c r → c' = rel | inl _ => releases c r = [] end) →
  tidies p → tidies (bind_ext (r <-- bk c ;; Ret (wrap r)) (λ _, withDefer rel p)).
Proof.
  intros Hn Hrel Hp. apply tidies_acquire. intros r h. specialize (Hrel r). cbn. destruct (wrap r) as [e|b]; cbn.
  - exists []. rewrite app_nil_r, Hrel. split_and!; [done|apply tidy_nil|by intros ? ?%elem_of_nil].
  - eapply wp_conseq; [by apply (wp_releasing_prog rel)|]. intros h' a (t & -> & Ht & Hin).
    exists t. split_and!; try done. by intros c' ->%Hrel.
Qed.

Definition wrapped {A} (msg : string) (r : extres A) : extres A :=
  match r with inr a => inr a | inl e => inl (ErrWrap msg e) end.

Lemma tidies_get {A} msg key (p : prog bkSig (extres A)) :
  tidies p → tidies (bind_ext (wrap_err msg (bk (KGet key))) (λ _, withDefer (KCloseObject key) p)).
Proof.
  apply (tidies_guarded (KGet key) (KCloseObject key) (wrapped msg)); [done|].
  intros [e|[]]; cbn; [done|]. by intros c' [->|?%elem_of_nil]%elem_of_cons.
Qed.

Lemma tidies_mkdir {A} msg dir (p : prog bkSig (extres A)) :
  tidies p → tidies (bind_ext (wrap_err msg (bk (KMkdirAll dir))) (λ _, withDefer (KRemoveAll dir) p)).
Proof.
  apply (tidies_guarded (KMkdirAll dir) (KRemoveAll dir) (wrapped msg)); [done|].
  intros [e|[]]; cbn; [done|]. by intros c' [->|?%elem_of_nil]%elem_of_cons.
Qed.

Section tidy_restore.
Context {RC : ConflictRetry bkSig}.
Context (rm : RestoreManager) (host : string).

Lemma tidies_loadDump key : tidies (loadDump rm host key).
Proof.
  unfold loadDump. apply tidies_get, tidies_withDefer; [done|]. apply tidies_ext.
  - apply tidies_wrap. by apply (tidies_call (KRun _)).
  - intros _. by apply (tidies_call (KOp host (LoadDump _ _ _))).
Qed.

Lemma tidies_extractAndLoad dir : tidies (extractAndLoad rm host dir).
Proof.
  unfold extractAndLoad. apply tidies_ext; [by apply tidies_wrap, (tidies_call (KRun _))|]. intros _.
  apply tidies_ext; [by apply tidies_wrap, (tidies_call (KWait _))|]. intros _. apply tidies_mkdir.
  by apply (tidies_call (KOp host (LoadBinlog _ _ _ _))).
Qed.

#[local] Opaque withDefer extractAndLoad.

Lemma tidies_applyBinlog key : tidies (applyBinlog rm host key).
Proof.
  unfold applyBinlog. apply tidies_get, tidies_withDefer; [done|].
  apply tidies_acquire. intros [e|[]] h; cbn.
  - exists []. rewrite app_nil_r. split_and!; [done|apply tidy_nil|by intros ? ?%elem_of_nil].
  - split; [done|]. intros [e|[]]; cbn.
    + split; [done|]. intros []. split; [done|]. intros []. split; [done|]. intros [].
      rewrite <- !app_assoc. eexists. split; [done|]. split.
      * repeat (apply tidy_cons; [by intros ? ?%elem_of_nil|]). apply tidy_nil.
      * cbn. intros c' Hc'. set_solver.
    + split; [done|]. intros []. eapply wp_conseq.
      { apply (wp_releasing_prog (KClosePipe 1 false)); [done|]. apply tidies_withDefer; [done|].
        apply tidies_extractAndLoad. }
      intros h' a (t & -> & Ht & Hr). rewrite <- !app_assoc. eexists. split; [done|]. split.
      * do 2 (apply tidy_cons; [by intros ? ?%elem_of_nil|]). done.
      * cbn. intros c' Hc'. set_solver.
Qed.

Lemma tidies_checked {A} msg (p : prog bkSig (extres A)) : tidies p → tidies (checked msg p).
Proof. intros Hp. apply tidies_bind; [done|]. intros r. apply tidies_ret. Qed.

Lemma tidies_waitPod ns pod n ip : tidies (waitPod ns pod n ip).
Proof.
  revert ip. induction n as [|n IH]; intros ip; [apply tidies_ret|]. cbn [waitPod].
  apply tidies_bind; [by apply (tidies_call KTick)|]. intros []; [apply tidies_ret|].
  apply tidies_bind; [by apply (tidies_call (KGetPod ns pod))|]. intros [e|p]; [apply IH|].
  destruct (negb _); [apply tidies_ret|apply IH].
Qed.

Lemma tidies_waitReady n : tidies (waitReady host n).
Proof.
  induction n as [|n IH]; [apply tidies_ret|]. cbn [waitReady].
  apply tidies_bind; [by apply (tidies_call KTick)|]. intros []; [apply tidies_ret|].
  apply tidies_bind; [by apply (tidies_call (KOp host Ping))|]. intros [e|[]]; [apply IH|].
  apply tidies_bind; [by apply (tidies_call (KOp host GetServerStatus))|].
  intros [e|st]; [apply tidies_ret|]. destruct (srv_SuperReadOnly st); [apply tidies_ret|apply IH].
Qed.

Lemma tidies_loadData : tidies (loadData rm host).
Proof.
  unfold loadData. apply tidies_outcome; [by apply tidies_checked, (tidies_call (KList _))|]. intros keys.
  destruct (FindNearestDump rm keys) as [[d b] t]. destruct (d =s ""); [apply tidies_ret|].
  apply tidies_outcome; [by apply tidies_checked, (tidies_call (KOp host PrepareRestore))|]. intros _.
  apply tidies_outcome; [apply tidies_checked, tidies_loadDump|]. intros _. apply tidies_outcome.
  - destruct (_ && _); [apply tidies_checked, tidies_applyBinlog|apply tidies_ret].
  - intros _. by apply tidies_checked, (tidies_call (KOp host FinishRestore)).
Qed.

Lemma tidies_recordRestore : tidies (recordRestore rm).
Proof.
  unfold recordRestore. apply tidies_ext; [by apply (tidies_call (KGetCluster _ _))|]. intros cl.
  apply tidies_bind; [by apply (tidies_call KNow)|]. intros now. by apply (tidies_call (KUpdateClusterStatus _)).
Qed.

Lemma tidies_restoreFrom : tidies (restoreFrom rm host).
Proof.
  unfold restoreFrom. apply tidies_outcome; [apply tidies_waitReady|]. intros _.
  apply tidies_outcome; [apply tidies_loadData|]. intros _.
  apply tidies_outcome; [apply tidies_checked, tidies_retry, tidies_recordRestore|]. intros _.
  apply tidies_outcome; [by apply tidies_checked, (tidies_call KGetReference)|]. intros _.
  apply tidies_bind; [by apply (tidies_call (KCreateEvent Restored))|]. intros _. apply tidies_ret.
Qed.
End tidy_restore.

#[local] Opaque restoreFrom withDefer.

Lemma tidies_Restore {RC : ConflictRetry bkSig} rm : tidies (RestoreManager_Restore rm).
Proof.
  unfold RestoreManager_Restore. apply tidies_outcome; [apply tidies_waitPod|]. intros host.
  apply tidies_acquire. intros [e|[]] h; cbn.
  - exists []. rewrite app_nil_r. split_and!; [done|apply tidy_nil|by intros ? ?%elem_of_nil].
  - eapply wp_conseq; [apply (wp_releasing_prog (KOp host BClose)); [done|apply tidies_restoreFrom]|].
    intros h' a (t & -> & Ht & Hr). exists t. split_and!; try done.
    by intros c' [->|?%elem_of_nil]%elem_of_cons.
Qed.

(** A restoration leaves nothing behind, wherever it fails or panics: the
    objects it fetched and the connection are closed, pipes are closed at both
    ends and the temporary directory is removed. *)
Theorem restore_cleans_up {RC : ConflictRetry bkSig} rm t o :
  exec (RestoreManager_Restore rm) t o → tidy t.
Proof.
  intros Hex. destruct (wp_exec _ _ [] _ _ _ (tidies_Restore rm []) Hex) as [(t' & Ht & Htidy) _].
  cbn in Ht. by subst.
Qed.

(** ** Giving up *)

#[local] Transparent restoreFrom withDefer extractAndLoad.

Section giving_up.
Context {RC : ConflictRetry bkSig}.
Context (args : RestoreArgs) (ip : string) (pod : Pod) (e : error).

(** One attempt: the Pod has an address, mysqld answers, but its status cannot
    be read. *)
Definition bad_attempt : trace bkSig :=
  [@ev bkSig (KSetup (arg_bucket args)) (inr ()); @ev bkSig (KSetup "config") (inr ());
   @ev bkSig (KSetup "client") (inr ()); @ev bkSig KTick false;
   @ev bkSig (KGetPod (arg_namespace args) ("moco-" +:+ arg_name args +:+ "-" +:+ Itoa 0)) (inr pod);
   @ev bkSig (KOpen ip MySQLPort AdminUser (arg_password args) (arg_threads args)) (inr ());
   @ev bkSig KTick false; @ev bkSig (KOp ip Ping) (inr ()); @ev bkSig (KOp ip GetServerStatus) (inl e);
   @ev bkSig (KOp ip BClose) ()].

Lemma exec_wait_bad n :
  exec (waitReady ip (S n))
    [@ev bkSig KTick false; @ev bkSig (KOp ip Ping) (inr ()); @ev bkSig (KOp ip GetServerStatus) (inl e)]
    (Panic (error_string ErrBadConnection)).
Proof. cbn [waitReady]. unfold bk. cbn. exists false. split; [done|]. exists (inr ()). split; [done|]. by exists (inl e). Qed.

Lemma exec_wait_pod ns name n ip0 :
  pod_PodIP pod = ip → ip ≠ "" →
  exec (waitPod ns name (S n) ip0) [@ev bkSig KTick false; @ev bkSig (KGetPod ns name) (inr pod)] (Return ip).
Proof.
  intros Hip Hne. cbn [waitPod]. unfold bk. cbn. exists false. split; [done|]. exists (inr pod). split; [done|].
  rewrite Hip. apply String.eqb_neq in Hne. rewrite Hne. done.
Qed.

Lemma exec_call c (r : bkresp c) : exec (bk c) [@ev bkSig c r] r.
Proof. by exists r. Qed.

Lemma exec_checked {A} msg (p : prog bkSig (extres A)) t a : exec p t (inr a) → exec (checked msg p) t (Return a).
Proof. intros Hp. rewrite <- (app_nil_r t). by apply (exec_bind _ _ _ (inr a)). Qed.

Lemma exec_bad_attempt rp :
  ParseBackup (arg_restorePoint args) = Some rp → pod_PodIP pod = ip → ip ≠ "" →
  exec (runRestore args) bad_attempt (Error ErrBadConnection).
Proof.
  intros Hrp Hip Hne. unfold runRestore. rewrite Hrp.
  rewrite <- (app_nil_r bad_attempt). apply (exec_bind _ _ _ (Panic (error_string ErrBadConnection))); [|done].
  do 3 (eapply (exec_bind _ _ [_] (Return ())); [apply exec_checked, exec_call|]).
  eapply (exec_bind _ _ [_; _] (Return ip)); [by apply exec_wait_pod|].
  eapply (exec_bind _ _ [_] (Return ())); [apply exec_checked, (exec_call (KOpen _ _ _ _ _))|].
  eapply (exec_bind _ _ [_; _; _] (Panic (error_string ErrBadConnection))); [|by exists ()].
  eapply (exec_bind _ _ [_; _; _] (Panic (error_string ErrBadConnection)) []); [apply exec_wait_bad|done].
Qed.

(** The restore command can give up without telling: when the connection is
    bad in each of its three attempts it returns no error, so the Job that runs
    it counts as done although nothing was loaded and the cluster was never told. *)
Theorem restore_gives_up_silently rp :
  ParseBackup (arg_restorePoint args) = Some rp → pod_PodIP pod = ip → ip ≠ "" →
  ∃ t, exec (restoreCmd_RunE args) t (Return ()) ∧ Forall (λ c, is_load c = false) (calls t).
Proof.
  intros Hrp Hip Hne. pose proof (exec_bad_attempt rp Hrp Hip Hne) as Hbad.
  set (sleep := [@ev bkSig (KSleep 1000) ()]).
  assert (∀ n, exec (restoreAttempts args n) (Nat.iter n (λ t, bad_attempt ++ sleep ++ t) []) (Return ())) as Hall.
  { induction n as [|n IH]; [done|]. cbn [restoreAttempts Nat.iter]. eapply exec_bind; [exact Hbad|].
    cbv beta iota. rewrite decide_True by done. cbn. by exists (). }
  eexists. split; [apply (Hall 3%nat)|]. by repeat constructor.
Qed.
End giving_up.

(** ** Samples *)

Definition sample_t1 : Z := 1700000000 * ns_per_second.
Definition sample_t2 : Z := 1700086400 * ns_per_second.
Definition sample_key (t : Z) (dump : bool) : string := key "default" "test" (t, dump).

Definition sample_keys : list string :=
  [sample_key sample_t2 true; "moco/default/test/readme.txt"; sample_key sample_t1 false; sample_key sample_t1 true].

Definition sample_rm : RestoreManager :=
  NewRestoreManager "/work" "default" "test" "default" "target" "f" 4 (sample_t1 + 60 * ns_per_second) "" "".

Definition sample_objs : list (Z * bool) := [(sample_t1, false); (sample_t1, true); (sample_t2, true)].

Lemma sample_bucket : bucket_holds "default" "test" sample_objs sample_keys.
Proof.
  split.
  - apply Forall_forall. apply Forall_cons. split; [|apply Forall_cons; split; [|apply Forall_cons; split; [|done]]];
      (split; [split; [by vm_compute|done]|]); cbn; repeat (left || right); by left.
  - apply Forall_forall. repeat (apply Forall_cons; split); [right|left|right|right|done].
    + exists (sample_t2, true). split; [|done]. right. right. left.
    + by vm_compute.
    + exists (sample_t1, false). split; [left|done].
    + exists (sample_t1, true). split; [right; left|done].
Qed.


Lemma orphan_binlog_is_mispaired_witness :
  FindNearestDump (NewRestoreManager "/work" "default" "test" "default" "target" "f" 4 sample_t2 "" "")
    [sample_key sample_t1 true; sample_key sample_t2 false]
  = (sample_key sample_t1 true, sample_key sample_t2 false, sample_t1).
Proof.
  apply (orphan_binlog_is_mispaired "default" "test"); try (by vm_compute); split; by vm_compute.
Defined.

(** A restoration to a minute after the first backup. *)
Definition restore_env (c : bkcall) (s : unit) : bkresp c * unit :=
  match c return bkresp c * unit with
  | KList _ => (inr sample_keys, s)
  | KStart _ => (inr (), s)
  | c => backup_env c s
  end.

Definition sample_restore := run (S := bkSig) restore_env (RestoreManager_Restore (RC := retry_five) sample_rm) ().

Lemma sample_restore_exec :
  exec (RestoreManager_Restore (RC := retry_five) sample_rm) sample_restore.1 sample_restore.2.
Proof. unfold sample_restore. apply run_exec. Qed.

Example sample_restore_loads :
  filter (λ c, is_load c = true) (calls sample_restore.1) =
    [KOp "10.1.2.3" PrepareRestore; KOp "10.1.2.3" (LoadDump "/work/dump" "" "");
     KOp "10.1.2.3" (LoadBinlog "/work/binlog" "/work/tmp" (sample_t1 + 60 * ns_per_second) "");
     KOp "10.1.2.3" FinishRestore;
     KUpdateClusterStatus (set_RestoredTime 1700086400 (bm_cluster sample_bm))].
Proof. vm_compute. done. Qed.

Lemma restore_follows_protocol_witness : recorded sample_restore.1 ∧ sample_restore.2 = Return ().
Proof.
  assert (sample_restore.2 = Return ()) as Ho by by vm_compute.
  destruct (restore_follows_protocol (RC := retry_five) sample_rm _ _ sample_restore_exec) as (_ & Hr & _).
  split; [by apply Hr|done].
Defined.

Lemma restore_cleans_up_witness : tidy sample_restore.1 ∧ sample_restore.2 = Return ().
Proof.
  split; [|by vm_compute]. exact (restore_cleans_up (RC := retry_five) sample_rm _ _ sample_restore_exec).
Defined.

Definition sample_args : RestoreArgs :=
  {| arg_bucket := "bucket"; arg_srcNamespace := "default"; arg_srcName := "test"; arg_namespace := "default";
     arg_name := "target"; arg_restorePoint := "20231114-221420"; arg_schema := ""; arg_users := "";
     arg_workDir := "/work"; arg_threads := 4; arg_password := "f" |}.

Lemma restore_gives_up_silently_witness :
  ∃ t, exec (restoreCmd_RunE (RC := retry_five) sample_args) t (Return ()) ∧
       Forall (λ c, is_load c = false) (calls t).
Proof.
  apply (restore_gives_up_silently (RC := retry_five) sample_args "10.1.2.3" (sample_pod 0 true false)
    (ErrExt KindOther "denied") (sample_t1 + 60 * ns_per_second)); by vm_compute.
Defined.
