(* ===== verification/Cert.v ===== *)
(** * Certificates that are reloaded, and the client of moco-agent (pkg/cert, clustering/agent.go)

    [Reloader] reads three files and hands out TLS configurations; its fields are
    replaced together under a lock, so that a reader sees those of one reload.
    The loop of [Run] and the readers are the steps of [step].  Certificates and
    pools are values of types that the code only passes on; parsing them is a
    parameter. *)

From S2P Require Import Prelude Prog GoLib Constants Api Gather.
#[local] Open Scope Z_scope.

Inductive certcall := CReadFile (name : string).
Definition certresp (c : certcall) : Type := extres string.
Definition certSig : signature := {| call := certcall; resp := certresp |}.
Definition cert_read (name : string) : prog certSig (extres string) := @perform certSig (CReadFile name).

(** The calls of the client of moco-agent.  [C] is the type of the configuration
    given to [credentials.NewTLS]. *)
Inductive agentcall {C : Type} :=
| AGetPod (namespace name : string)
| AGrpcNewClient (addr authority : string) (tls : C).
Arguments agentcall : clear implicits.

Definition agentresp {C} (c : agentcall C) : Type :=
  match c with AGetPod _ _ => extres Pod | AGrpcNewClient _ _ _ => extres unit end.
Definition agentSig (C : Type) : signature := {| call := agentcall C; resp := agentresp |}.
Definition ag {C} (c : agentcall C) : prog (agentSig C) (agentresp c) := @perform (agentSig C) c.

Section cert.
Context {CertPool Certificate : Type}.
(** [x509.NewCertPool] and [AppendCertsFromPEM], with the result of the latter. *)
Variable NewCertPool : string → CertPool * bool.
(** [tls.X509KeyPair]. *)
Variable X509KeyPair : string → string → extres Certificate.

(** The fields of [tls.Config] that are set; [VerifyConnection] gets the common
    names of the peer's certificates. *)
Record tlsConfig := {
  RootCAs : option CertPool;
  Certificates : list Certificate;
  RequireAndVerifyClientCert : bool;
  ClientCAs : option CertPool;
  VerifyConnection : option (list string → extres unit)
}.

(** Its fields but for the lock and the log; a nil pointer is [None]. *)
(* pkg/cert/cert.go :: Reloader *)
Record Reloader := {
  dir : string;
  ca : option CertPool;
  cert : option Certificate;
  clientConfig : option tlsConfig
}.

(** [tls.LoadX509KeyPair]. *)
Definition LoadX509KeyPair (certFile keyFile : string) : prog certSig (extres Certificate) :=
  crt <-! cert_read certFile ;;
  key <-! cert_read keyFile ;;
  Ret (X509KeyPair crt key).

(** The reading part of [check]; that a bundle holds no certificate is ignored. *)
(* pkg/cert/cert.go:64-76 check *)
Definition loadFiles (dir : string) : prog certSig (extres (CertPool * Certificate)) :=
  data <-! wrap_err "failed to load ca.crt" (cert_read (path_Join [dir; "ca.crt"])) ;;
  let pool := (NewCertPool data).1 in
  c <-! wrap_err "failed to load cert/key pair" (LoadX509KeyPair (path_Join [dir; "tls.crt"]) (path_Join [dir; "tls.key"])) ;;
  Ret (inr (pool, c)).

(** The assignments under the lock. *)
(* pkg/cert/cert.go:79-88 check *)
Definition assign (pc : CertPool * Certificate) (r : Reloader) : Reloader :=
  {| dir := dir r; ca := Some pc.1; cert := Some pc.2;
     clientConfig := Some {| RootCAs := Some pc.1; Certificates := [pc.2]; RequireAndVerifyClientCert := false;
                             ClientCAs := None; VerifyConnection := None |} |}.

Definition checked_reload (res : extres (CertPool * Certificate)) (r : Reloader) : Reloader :=
  match res with inl _ => r | inr pc => assign pc r end.

(* pkg/cert/cert.go :: Reloader.check *)
Definition check (r : Reloader) : prog certSig (Reloader * extres unit) :=
  res <-- loadFiles (dir r) ;;
  Ret (checked_reload res r, match res with inl e => inl e | inr _ => inr () end).

(* pkg/cert/cert.go :: NewReloader *)
Definition NewReloader (dir : string) : prog certSig (extres Reloader) :=
  res <-- check {| dir := dir; ca := None; cert := None; clientConfig := None |} ;;
  Ret (match res.2 with inl e => inl e | inr _ => inr res.1 end).

(** ** What readers get *)

(* pkg/cert/cert.go :: TLSClientConfig *)
Definition TLSClientConfig (r : Reloader) : option tlsConfig := clientConfig r.

(* pkg/cert/cert.go :: verifyConnection *)
Definition verifyConnection (peerCommonNames : list string) : extres unit :=
  match peerCommonNames with
  | [] => inl (ErrNew "no client cert")
  | cn :: _ =>
      if cn <>s "moco-controller" then inl (ErrNew ("invalid certificate: common name is not valid: " +:+ cn)) else inr ()
  end.

(** [None] when the certificate is a nil pointer. *)
(* pkg/cert/cert.go :: getConfigForClient *)
Definition getConfigForClient (r : Reloader) : option tlsConfig :=
  c ← cert r;
  Some {| RootCAs := None; Certificates := [c]; RequireAndVerifyClientCert := true; ClientCAs := ca r;
          VerifyConnection := Some verifyConnection |}.

(** ** The goroutine of Run *)

(** The files change at any time; [running] is what is left of the current reload. *)
Record system := {
  files : gmap string string;
  reloader : Reloader;
  running : option (prog certSig (extres (CertPool * Certificate)))
}.

(** Reading a file gives its contents or fails. *)
Definition file_world : world certSig (gmap string string) := λ fs '(CReadFile name) r fs',
  fs' = fs ∧ match r with inr data => fs !! name = Some data | inl _ => True end.

Inductive step : system → system → Prop :=
| step_files fs s :
    step s {| files := fs; reloader := reloader s; running := running s |}
| step_tick s :
    running s = None →
    step s {| files := files s; reloader := reloader s; running := Some (loadFiles (dir (reloader s))) |}
| step_read s c k r fs :
    running s = Some (Vis c k) → file_world (files s) c r fs →
    step s {| files := fs; reloader := reloader s; running := Some (k r) |}
| step_done s res :
    running s = Some (Ret res) →
    step s {| files := files s; reloader := checked_reload res (reloader s); running := None |}.

(** ** The client of moco-agent *)

(* cmd/moco-controller/cmd/run.go :: resolver.Resolve *)
Definition resolver_Resolve {C} (cluster : MySQLCluster) (index : Z) : prog (agentSig C) (extres string) :=
  pod <-! ag (AGetPod (Namespace cluster) (PodName cluster index)) ;;
  Ret (if pod_PodIP pod =s "" then
         inl (ErrNew ("pod " +:+ pod_Namespace pod +:+ "/" +:+ pod_Name pod +:+ " has not been assigned an IP address"))
       else inr (pod_PodIP pod)).

(* clustering/agent.go :: defaultAgentFactory.New *)
Definition AgentFactory_New (r : Reloader) (cluster : MySQLCluster) (index : Z)
    : prog (agentSig (option tlsConfig)) (extres unit) :=
  ip <-! resolver_Resolve cluster index ;;
  let addr := net_JoinHostPort ip (Itoa AgentPort) in
  ag (AGrpcNewClient addr (PodHostname cluster index) (TLSClientConfig r)).
End cert.
Arguments tlsConfig : clear implicits.
Arguments Reloader : clear implicits.
Arguments system : clear implicits.

(** ** The name in the certificate of moco-agent *)

(** The name in the template of the certificate. *)
(* controllers/certificate_tmpl.yaml:7-8 dnsNames *)
Definition certificate_dnsName (serviceName targetNamespace : string) : string :=
  "*." +:+ serviceName +:+ "." +:+ targetNamespace +:+ ".svc".

(** [crypto/x509]'s test of a name against a host name, both in lower case: the
    first label of the name may be an asterisk. *)
Definition matchHostnames (pattern host : string) : bool :=
  if (pattern =s "") || (host =s "") then false else
  match split_on "." pattern, split_on "." host with
  | p :: ps, h :: hs => ((p =s "*") || (p =s h)) && bool_decide (ps = hs)
  | _, _ => false
  end.
