(* ===== verification/CertSpec.v ===== *)
(** * What the reloader and the client of moco-agent guarantee

    Which configurations the readers of a [Reloader] can see while the files
    change, and which name a connection to moco-agent is made for. *)

From S2P Require Import Prelude Prog GoLib Constants Api Gather Samples Cert.
#[local] Open Scope Z_scope.

(** ** The reloader *)

(** What is left of a program after some of its calls. *)
Fixpoint remains {S A} (p : prog S A) (h : trace S) (q : prog S A) {struct h} : Prop :=
  match h with
  | [] => q = p
  | e :: h' => match p with
               | Ret _ => False
               | Vis c k => ∃ r, e = ev c r ∧ remains (k r) h' q
               end
  end.

Lemma remains_step {S : signature} {A} (p : prog S A) h c k r :
  remains p h (Vis c k) → remains p (h ++ [ev c r]) (k r).
Proof.
  revert p. induction h as [|e h IH]; intros p; cbn [remains app]; [intros <-; by exists r|].
  destruct p as [|c' k']; [done|]. intros (r' & -> & H). exists r'. split; [done|]. by apply IH.
Qed.

Lemma remains_exec {S A} (p : prog S A) h a : remains p h (Ret a) → exec p h a.
Proof.
  revert p. induction h as [|e h IH]; intros p; cbn [remains]; [by intros <-|].
  destruct p as [|c k]; [done|]. intros (r & -> & H). exists r. split; [done|]. by apply IH.
Qed.

Section reloader.
Context {CertPool Certificate : Type}.
Variable NewCertPool : string → CertPool * bool.
Variable X509KeyPair : string → string → extres Certificate.
Notation loadFiles := (loadFiles NewCertPool X509KeyPair).
Notation step := (step NewCertPool X509KeyPair).

(** The systems that can be reached, with the contents of the files so far, the
    latest first. *)
Inductive reaches (s0 : system CertPool Certificate) : list (gmap string string) → system CertPool Certificate → Prop :=
| reaches_start : reaches s0 [files s0] s0
| reaches_step past s s' : reaches s0 past s → step s s' → reaches s0 (files s' :: past) s'.

(** The steps as a function of a schedule. *)
Inductive action := ChangeFiles (fs : gmap string string) | Tick | ReadNext | Finish.

Definition act (a : action) (s : system CertPool Certificate) : option (system CertPool Certificate) :=
  match a, running s with
  | ChangeFiles fs, r => Some {| files := fs; reloader := reloader s; running := r |}
  | Tick, None => Some {| files := files s; reloader := reloader s; running := Some (loadFiles (dir (reloader s))) |}
  | ReadNext, Some (Vis (CReadFile name) k) =>
      let r := match files s !! name with Some data => inr data | None => inl (ErrExt KindNotFound name) end in
      Some {| files := files s; reloader := reloader s; running := Some (k r) |}
  | Finish, Some (Ret res) => Some {| files := files s; reloader := checked_reload res (reloader s); running := None |}
  | _, _ => None
  end.

Lemma act_step a s s' : act a s = Some s' → step s s'.
Proof.
  unfold act. destruct a as [fs| | |], (running s) as [[res|[name] k]|] eqn:E; intros [= <-]; try (rewrite <- E);
    try (by constructor).
  apply (step_read _ _ s (CReadFile name) k); [done|]. split; [done|]. by destruct (files s !! name).
Qed.

Fixpoint acts (l : list action) (ps : list (gmap string string) * system CertPool Certificate)
    : option (list (gmap string string) * system CertPool Certificate) :=
  match l with
  | [] => Some ps
  | a :: rest => s ← act a ps.2; acts rest (files s :: ps.1, s)
  end.

Lemma acts_reaches s0 l past s past' s' :
  reaches s0 past s → acts l (past, s) = Some (past', s') → reaches s0 past' s'.
Proof.
  revert past s. induction l as [|a l IH]; intros past s Hr; cbn [acts]; [by intros [= <- <-]|].
  cbn [fst snd]. destruct (act a s) as [s1|] eqn:E; [|done]. cbn [mbind option_bind]. apply IH.
  apply (reaches_step _ _ s); [done|by eapply act_step].
Qed.

(** A file had this content at some time. *)
Definition was (past : list (gmap string string)) (name data : string) : Prop :=
  ∃ fs, fs ∈ past ∧ fs !! name = Some data.

(** The pool and the certificate come from the files of the directory. *)
Definition loaded (past : list (gmap string string)) (d : string) (pool : CertPool) (c : Certificate) : Prop :=
  ∃ data crt key, was past (path_Join [d; "ca.crt"]) data ∧ was past (path_Join [d; "tls.crt"]) crt ∧
    was past (path_Join [d; "tls.key"]) key ∧ pool = (NewCertPool data).1 ∧ X509KeyPair crt key = inr c.

(** All fields are those of one reload. *)
Definition coherent (past : list (gmap string string)) (r : Reloader CertPool Certificate) : Prop :=
  ∃ pool c, loaded past (dir r) pool c ∧ ca r = Some pool ∧ cert r = Some c ∧
    clientConfig r = Some {| RootCAs := Some pool; Certificates := [c]; RequireAndVerifyClientCert := false;
                             ClientCAs := None; VerifyConnection := None |}.

Lemma was_mono fs past name data : was past name data → was (fs :: past) name data.
Proof. intros (f & Hf & H). exists f. split; [by right|done]. Qed.

Lemma coherent_mono fs past r : coherent past r → coherent (fs :: past) r.
Proof.
  intros (pool & c & (data & crt & key & H1 & H2 & H3 & Hp) & H). exists pool, c. split; [|done].
  exists data, crt, key. split; [by apply was_mono|]. split; [by apply was_mono|]. split; [by apply was_mono|done].
Qed.

(** What a complete reload read. *)
Lemma loadFiles_exec d t pool c :
  exec (loadFiles d) t (inr (pool, c)) →
  ∃ data crt key, t = [ev (S := certSig) (CReadFile (path_Join [d; "ca.crt"])) (inr data);
                       ev (S := certSig) (CReadFile (path_Join [d; "tls.crt"])) (inr crt);
                       ev (S := certSig) (CReadFile (path_Join [d; "tls.key"])) (inr key)] ∧
    pool = (NewCertPool data).1 ∧ X509KeyPair crt key = inr c.
Proof.
  unfold Cert.loadFiles, LoadX509KeyPair. destruct t as [|e1 t]; [done|]. intros ([e|data] & -> & H); [by destruct H|].
  destruct t as [|e2 t]; [done|]. destruct H as ([e|crt] & -> & H); [by destruct H|].
  destruct t as [|e3 t]; [done|]. destruct H as ([e|key] & -> & H); [by destruct H|].
  exists data, crt, key. cbn in H. destruct (X509KeyPair crt key) as [e|c']; [by destruct H|].
  destruct H as [-> [= <- <-]]. done.
Qed.

(** The current reload read files as they were. *)
Definition in_progress (past : list (gmap string string)) (s : system CertPool Certificate) : Prop :=
  ∀ p, running s = Some p → ∃ h, remains (loadFiles (dir (reloader s))) h p ∧
    ∀ name data, ev (S := certSig) (CReadFile name) (inr data) ∈ h → was past name data.

Lemma dir_checked res (r : Reloader CertPool Certificate) : dir (checked_reload res r) = dir r.
Proof. by destruct res. Qed.

Lemma reaches_inv s0 past s :
  reaches s0 past s → running s0 = None → coherent [files s0] (reloader s0) →
  head past = Some (files s) ∧ dir (reloader s) = dir (reloader s0) ∧ in_progress past s ∧ coherent past (reloader s).
Proof.
  intros Hr Hidle Hc. induction Hr as [|past s s' Hr (Hhd & Hd & Hp & Hc') Hstep].
  { split_and!; [done..| |done]. intros p Hp. congruence. }
  assert (in_progress (files s' :: past) s) as Hp'.
  { intros p E. destruct (Hp p E) as (h & H1 & H2). exists h. split; [done|]. intros name data H. by apply was_mono, H2. }
  apply (coherent_mono (files s')) in Hc'. split; [done|]. clear Hp Hr Hc.
  destruct Hstep as [fs s|s E|s c k r fs E Hw|s res E]; cbn [files reloader running] in *.
  - by split_and!.
  - split_and!; [done| |done]. intros p [= <-]. exists []. split; [done|]. by intros ? ? ?%elem_of_nil.
  - split_and!; [done| |done]. intros p [= <-]. destruct (Hp' _ E) as (h & H1 & H2).
    exists (h ++ [ev (S := certSig) c r]). split; [by apply remains_step|].
    intros name data [Hin|Hin%list_elem_of_singleton]%elem_of_app; [by apply H2|]. destruct c as [n].
    destruct Hw as [-> Hw]. pose proof (f_equal (λ e : event certSig, match projT1 e with CReadFile n => n end) Hin) as Hn.
    cbn in Hn. subst n. apply ev_inj in Hin as <-. exists (files s). split; [by left|done].
  - split; [by rewrite dir_checked|]. split; [by intros p [=]|]. destruct res as [e|[pool c]]; [done|].
    destruct (Hp' _ E) as (h & H1%remains_exec%loadFiles_exec & H2). destruct H1 as (data & crt & key & -> & -> & Hk).
    exists (NewCertPool data).1, c. split; [|done]. exists data, crt, key. cbn [dir assign checked_reload].
    split_and!; [apply H2; by left|apply H2; by right; left|apply H2; by right; right; left|done..].
Qed.


(** Reading files that do not change, a check either replaces the fields by
    what the files hold, or leaves the reloader as it is and returns an error. *)
Theorem check_loads_files (r r' : Reloader CertPool Certificate) fs fs' res :
  runs_in file_world (check NewCertPool X509KeyPair r) fs (r', res) fs' →
  fs' = fs ∧ ((res = inr () ∧ dir r' = dir r ∧ coherent [fs] r') ∨ (∃ e, res = inl e) ∧ r' = r).
Proof.
  unfold check. intros ([e|[pool c]] & fs1 & H & [= <- <-] & ->)%runs_in_bind.
  - split; [|right; eauto]. clear -H. revert H. unfold Cert.loadFiles, LoadX509KeyPair.
    intros ([e1|data] & s1 & [-> H1] & H); [by destruct H|].
    destruct H as ([e2|crt] & s2 & [-> H2] & H); [by destruct H|].
    destruct H as ([e3|key] & s3 & [-> H3] & H); [by destruct H|].
    cbn in H. by destruct (X509KeyPair crt key); destruct H.
  - revert H. unfold Cert.loadFiles, LoadX509KeyPair.
    intros ([e1|data] & s1 & [-> H1] & H); [by destruct H|].
    destruct H as ([e2|crt] & s2 & [-> H2] & H); [by destruct H|].
    destruct H as ([e3|key] & s3 & [-> H3] & H); [by destruct H|].
    cbn in H. destruct (X509KeyPair crt key) as [e|c'] eqn:Hk; [by destruct H|]. destruct H as [[= <- <-] ->].
    split; [done|]. left. split; [done|]. split; [done|]. exists (NewCertPool data).1, c'. split; [|done].
    assert (∀ name d, fs !! name = Some d → was [fs] name d) as Hw by (intros name d H; exists fs; split; [by left|done]).
    exists data, crt, key. split_and!; auto.
Qed.
End reloader.

(** ** Connections to moco-agent *)

(** Names of clusters and namespaces are single labels. *)
Definition single_labels (c : MySQLCluster) : Prop := no_char "." (Name c) = true ∧ no_char "." (Namespace c) = true.

Lemma split_dots a b c :
  no_char "." a = true → no_char "." b = true → no_char "." c = true →
  split_on "." (a +:+ "." +:+ b +:+ "." +:+ c +:+ ".svc") = [a; b; c; "svc"].
Proof.
  intros Ha Hb Hc. change (a +:+ "." +:+ ?x) with (a +:+ String "." x). change (b +:+ "." +:+ ?x) with (b +:+ String "." x).
  change (c +:+ ".svc") with (c +:+ String "." "svc"). rewrite !split_on_app. by rewrite !split_on_no_sep.
Qed.

Lemma dnsName_matches c c' i :
  single_labels c → single_labels c' → 0 ≤ i →
  matchHostnames (certificate_dnsName (HeadlessServiceName c') (Namespace c')) (PodHostname c i) = true ↔
  Name c' = Name c ∧ Namespace c' = Namespace c.
Proof.
  intros [Hn Hns] [Hn' Hns'] Hi. unfold HeadlessServiceName, PodHostname, PodName, HeadlessServiceName, PrefixedName.
  assert (∀ n, no_char "." n = true → no_char "." ("moco-" +:+ n) = true) as Hp by (intros n H; by rewrite no_char_app).
  assert (no_char "." (("moco-" +:+ Name c) +:+ "-" +:+ Itoa i) = true) as Hpod.
  { rewrite no_char_app, Hp by done. cbn. by apply Itoa_no_sep. }
  unfold matchHostnames, certificate_dnsName. change ("*." +:+ ?x) with ("*" +:+ "." +:+ x).
  rewrite (split_dots "*") by auto. rewrite split_dots by auto.
  cbn [String.eqb Ascii.eqb Bool.eqb orb andb].
  destruct (_ =s "") eqn:E; [apply String.eqb_eq in E; by destruct (Name c)|].
  cbn [orb]. rewrite bool_decide_eq_true. split.
  - intros [= H1 H2]. done.
  - by intros [-> ->].
Qed.

(** A connection to moco-agent of an instance goes to the address of its Pod
    with the configuration that the reloader holds, and it is made for a name that
    the certificate of this cluster has, and that of no other cluster. *)
Theorem agent_name_is_certified {CertPool Certificate : Type} (r : Reloader CertPool Certificate) cluster i t o :
  single_labels cluster → 0 ≤ i → exec (AgentFactory_New r cluster i) t o →
  ∀ addr authority tls res, ev (S := agentSig _) (AGrpcNewClient addr authority tls) res ∈ t →
    tls = TLSClientConfig r ∧
    (∃ pod, ev (S := agentSig _) (AGetPod (Namespace cluster) (PodName cluster i)) (inr pod) ∈ t ∧ pod_PodIP pod ≠ "" ∧
            addr = net_JoinHostPort (pod_PodIP pod) "9080") ∧
    ∀ cluster', single_labels cluster' →
      matchHostnames (certificate_dnsName (HeadlessServiceName cluster') (Namespace cluster')) authority = true ↔
      Name cluster' = Name cluster ∧ Namespace cluster' = Namespace cluster.
Proof.
  intros Hs Hi. unfold AgentFactory_New, resolver_Resolve. destruct t as [|e1 t]; [done|]. intros ([e|pod] & -> & H).
  { destruct H as [-> _]. intros ? ? ? ? Hin%list_elem_of_singleton. discriminate. }
  cbn [bind bind_ext] in H. destruct (String.eqb_spec (pod_PodIP pod) "") as [|Hip].
  { destruct H as [-> _]. intros ? ? ? ? Hin%list_elem_of_singleton. discriminate. }
  destruct t as [|e2 t]; [done|]. destruct H as (res & -> & -> & <-).
  intros addr authority tls res' [Hin|Hin%list_elem_of_singleton]%elem_of_cons; [discriminate|].
  pose proof (f_equal (λ e : event (agentSig _), projT1 e) Hin) as [= -> -> ->].
  split; [done|]. split; [exists pod; split; [by left|done]|]. intros c' Hc'. by apply dnsName_matches.
Qed.

(** ** At concrete files *)

Definition parse_pool (data : string) : string * bool := (data, negb (data =s "")).
Definition parse_pair (crt key : string) : extres (string * string) :=
  if crt =s key then inr (crt, key) else inl (ErrNew "tls: private key does not match public key").

(** The directory before and after a renewal. *)
Definition files_at (version : string) : gmap string string :=
  {[ "/cert/ca.crt" := version; "/cert/tls.crt" := version; "/cert/tls.key" := version ]}.

Definition started : Reloader string (string * string) :=
  assign ("1", ("1", "1")) {| dir := "/cert"; ca := None; cert := None; clientConfig := None |}.

Lemma started_coherent : coherent parse_pool parse_pair [files_at "1"] started.
Proof.
  exists "1", ("1", "1"). split; [|done]. exists "1", "1", "1".
  assert (∀ name, files_at "1" !! name = Some "1" → was [files_at "1"] name "1") as Hw
    by (intros name H; exists (files_at "1"); split; [by left|done]).
  split_and!; try done; apply Hw; (vm_compute; reflexivity).
Qed.

Definition at_rest (fs : gmap string string) (r : Reloader string (string * string)) : system string (string * string) :=
  {| files := fs; reloader := r; running := None |}.

Lemma files_at_lookup v :
  files_at v !! path_Join ["/cert"; "ca.crt"] = Some v ∧ files_at v !! path_Join ["/cert"; "tls.crt"] = Some v ∧
  files_at v !! path_Join ["/cert"; "tls.key"] = Some v.
Proof. vm_compute. done. Qed.

(** A renewal in the middle of a reload gives the old pool with the new certificate. *)
Lemma torn_reload :
  reaches parse_pool parse_pair (at_rest (files_at "1") started)
    [files_at "2"; files_at "2"; files_at "2"; files_at "2"; files_at "1"; files_at "1"; files_at "1"]
    (at_rest (files_at "2") (assign ("1", ("2", "2")) started)).
Proof.
  apply (acts_reaches parse_pool parse_pair _ [Tick; ReadNext; ChangeFiles (files_at "2"); ReadNext; ReadNext; Finish]
    [files_at "1"] (at_rest (files_at "1") started)); [apply reaches_start|].
  destruct (files_at_lookup "1") as (H1 & _), (files_at_lookup "2") as (_ & H2 & H3).
  generalize dependent (files_at "1"). generalize dependent (files_at "2"). intros f2 H2 H3 f1 H1.
  cbn -[path_Join lookup]. rewrite H1. cbn -[path_Join lookup]. rewrite H2. cbn -[path_Join lookup]. rewrite H3. reflexivity.
Qed.


Definition agent_api (c : agentcall (option (tlsConfig string (string * string)))) (s : unit) : agentresp c * unit :=
  (match c return agentresp c with
   | AGetPod _ _ => inr (sample_pod 1 true false)
   | AGrpcNewClient _ _ _ => inr ()
   end, s).

Lemma agent_name_is_certified_witness :
  matchHostnames "*.moco-test.default.svc" "moco-test-1.moco-test.default.svc" = true.
Proof.
  assert (single_labels (sample_cluster 3 0)) as Hs by (by split).
  destruct (agent_name_is_certified started (sample_cluster 3 0) 1 _ _ Hs ltac:(lia)
    (run_exec (S := agentSig _) agent_api (AgentFactory_New started (sample_cluster 3 0) 1) ())
    "10.1.2.3:9080" "moco-test-1.moco-test.default.svc" (TLSClientConfig started) (inr ())) as (_ & _ & H).
  - by right; left.
  - by apply (H (sample_cluster 3 0) Hs).
Defined.
