(* ===== verification/Bucket.v ===== *)
(** * Object storage (pkg/bucket)

    The interface [Bucket] and its implementations for Amazon S3, Google Cloud
    Storage and Azure.  The clients of the SDKs are calls; [reader] is the type of
    the data that is put and got, which the code only passes on. *)

From S2P Require Import Prelude Prog GoLib.
#[local] Open Scope Z_scope.

(** ** The size of a part *)

(* pkg/bucket/s3.go:17-17 PartSizeUnit *)
Definition PartSizeUnit : Z := Z.shiftl 128 20.
(* pkg/bucket/s3.go:20-20 UploadParts *)
Definition UploadParts : Z := Z.shiftl 4 10.

(* pkg/bucket/s3.go :: decidePartSize *)
Definition decidePartSize (objectSize : Z) : Z :=
  let partSize := Z.quot (wrap64 (wrap64 (objectSize + UploadParts) - 1)) UploadParts in
  wrap64 (Z.quot (wrap64 (wrap64 (partSize + PartSizeUnit) - 1)) PartSizeUnit * PartSizeUnit).

(** The switch of [Put], the same for S3 and Azure. *)
(* pkg/bucket/s3.go:77-83 Put *)
Definition contentType (key : string) : string :=
  if has_suffix key ".tar" then "application/x-tar"
  else if has_suffix key ".zst" then "application/zstd"
  else "application/octet-stream".

(** ** Calls *)

(** The options given to [manager.NewUploader]. *)
Record Uploader := { Concurrency : Z; LeavePartsOnError : bool; PartSize : Z }.

Section bucket.
Context {reader : Type}.

(** A paginator or iterator is what its successive pages or items are, up to the
    first error; a container's items may have no name. *)
Inductive storecall :=
| S3Upload (u : Uploader) (bucket key contentType : string) (body : reader)
| S3GetObject (bucket key : string)
| S3ListObjects (bucket : string) (prefix : option string)
| GCSCopy (bucket key : string) (data : reader)      (* io.Copy to the object's Writer *)
| GCSCloseWriter (bucket key : string)
| GCSNewReader (bucket key : string)
| GCSObjects (bucket prefix : string)
| AzureUploadStream (container key : string) (data : reader) (blockSize : Z) (contentType : string)
| AzureDownloadStream (container key : string)
| AzureListBlobs (container prefix : string).

Definition storeresp (c : storecall) : Type :=
  match c with
  | S3Upload _ _ _ _ _ | GCSCopy _ _ _ | GCSCloseWriter _ _ | AzureUploadStream _ _ _ _ _ => extres unit
  | S3GetObject _ _ | GCSNewReader _ _ | AzureDownloadStream _ _ => extres reader
  | S3ListObjects _ _ => list (extres (list string))
  | GCSObjects _ _ => list (extres string)
  | AzureListBlobs _ _ => list (extres (list (option string)))
  end.

Definition storeSig : signature := {| call := storecall; resp := storeresp |}.
Definition sc (c : storecall) : prog storeSig (storeresp c) := @perform storeSig c.

(* pkg/bucket/interface.go :: Bucket *)
Record Bucket := {
  Put : string → reader → Z → prog storeSig (extres unit);
  Get : string → prog storeSig (extres reader);
  List : string → prog storeSig (extres (list string))
}.

(** The loop of [List]: the keys of the pages so far, or the first error. *)
Fixpoint collect {A} (keys_of : A → list string) (keys : list string) (pages : list (extres A)) : extres (list string) :=
  match pages with
  | [] => inr keys
  | inl e :: _ => inl e
  | inr page :: rest => collect keys_of (keys ++ keys_of page) rest
  end.

(** ** Amazon S3 *)

(* pkg/bucket/s3.go :: s3Bucket.Put *)
Definition s3_Put (name key : string) (data : reader) (objectSize : Z) : prog storeSig (extres unit) :=
  sc (S3Upload {| Concurrency := 1; LeavePartsOnError := false; PartSize := decidePartSize objectSize |}
        name key (contentType key) data).

(* pkg/bucket/s3.go :: s3Bucket.Get *)
Definition s3_Get (name key : string) : prog storeSig (extres reader) := sc (S3GetObject name key).

(* pkg/bucket/s3.go :: s3Bucket.List *)
Definition s3_List (name prefix : string) : prog storeSig (extres (list string)) :=
  pages <-- sc (S3ListObjects name (if prefix <>s "" then Some prefix else None)) ;;
  Ret (collect (λ page, page) [] pages).

(** ** Google Cloud Storage *)

(** The writer is not closed when copying fails. *)
(* pkg/bucket/gcs.go :: gcsBucket.Put *)
Definition gcs_Put (name key : string) (data : reader) (objectSize : Z) : prog storeSig (extres unit) :=
  _ <-! sc (GCSCopy name key data) ;;
  sc (GCSCloseWriter name key).

(* pkg/bucket/gcs.go :: gcsBucket.Get *)
Definition gcs_Get (name key : string) : prog storeSig (extres reader) := sc (GCSNewReader name key).

(* pkg/bucket/gcs.go :: gcsBucket.List *)
Definition gcs_List (name prefix : string) : prog storeSig (extres (list string)) :=
  items <-- sc (GCSObjects name prefix) ;;
  Ret (collect (λ obj, [obj]) [] items).

(** ** Azure *)

(* pkg/bucket/azure.go:87-87 Put *)
Definition azureBlockSize : Z := 4 * 1024 * 1024.

(* pkg/bucket/azure.go :: azureBucket.Put *)
Definition azure_Put (name key : string) (data : reader) (objectSize : Z) : prog storeSig (extres unit) :=
  sc (AzureUploadStream name key data azureBlockSize (contentType key)).

(* pkg/bucket/azure.go :: azureBucket.Get *)
Definition azure_Get (name key : string) : prog storeSig (extres reader) := sc (AzureDownloadStream name key).

(* pkg/bucket/azure.go :: azureBucket.List *)
Definition azure_List (name prefix : string) : prog storeSig (extres (list string)) :=
  pages <-- sc (AzureListBlobs name prefix) ;;
  Ret (collect (omap (λ name, name)) [] pages).

(** ** The clients *)

(** What the options of [NewS3Bucket] set. *)
(* pkg/bucket/s3.go:30-56 WithRegion *)
Inductive S3Option :=
| WithRegion (region : string)
| WithEndpointURL (u : string)
| WithPathStyle
| WithHTTPClient (rootCAs : string).       (* the system's pool and these certificates *)

(** The buckets that are made, with what their client connects to. *)
(* pkg/bucket/s3.go :: s3Bucket *)
Inductive Client :=
| S3Client (name : string) (opts : list S3Option)
| GCSClient (name : string)
| AzureClient (serviceURL name : string)
| AzureConnection (connectionString name : string).

Definition bucket_of (c : Client) : Bucket :=
  match c with
  | S3Client name _ => {| Put := s3_Put name; Get := s3_Get name; List := s3_List name |}
  | GCSClient name => {| Put := gcs_Put name; Get := gcs_Get name; List := gcs_List name |}
  | AzureClient _ name | AzureConnection _ name =>
      {| Put := azure_Put name; Get := azure_Get name; List := azure_List name |}
  end.
End bucket.
Arguments storecall : clear implicits.
Arguments storeSig : clear implicits.
Arguments Bucket : clear implicits.
