(* ===== verification/BucketSpec.v ===== *)
(** * What the object storage guarantees

    The sizes of the parts of an upload, and that every implementation of [Bucket]
    keeps the contract of the interface. *)

From S2P Require Import Prelude Prog GoLib Bucket.
#[local] Open Scope Z_scope.

(** ** The size of a part *)

(** The number of parts of size [p] that [n] bytes take. *)
Definition parts (n p : Z) : Z := (n + p - 1) `div` p.

Lemma parts_le n p k : 0 < p → parts n p ≤ k ↔ n ≤ k * p.
Proof.
  intros Hp. unfold parts. split; intros H.
  - pose proof (Z.mod_pos_bound (n + p - 1) p Hp). pose proof (Z.div_mod (n + p - 1) p). nia.
  - apply Z.lt_succ_r, Z.div_lt_upper_bound; nia.
Qed.

(** [decidePartSize] without overflow. *)
Lemma decidePartSize_parts n :
  0 ≤ n < 2 ^ 63 - UploadParts → decidePartSize n = parts (parts n UploadParts) PartSizeUnit * PartSizeUnit.
Proof.
  intros Hn. change UploadParts with 4096 in *. unfold decidePartSize.
  change UploadParts with 4096. change PartSizeUnit with 134217728.
  assert (0 ≤ (n + 4096 - 1) `div` 4096 < 2 ^ 52) as H1.
  { split; [apply Z.div_pos; lia|]. apply Z.div_lt_upper_bound; lia. }
  rewrite (wrap64_id (n + 4096)), (wrap64_id (n + 4096 - 1)) by lia. rewrite (Z.quot_div_nonneg (n + 4096 - 1)) by lia. fold (parts n 4096).
  change ((n + 4096 - 1) `div` 4096) with (parts n 4096) in H1. set (q := parts n 4096) in *.
  rewrite (wrap64_id (q + 134217728)), (wrap64_id (q + 134217728 - 1)) by lia. rewrite Z.quot_div_nonneg by lia.
  unfold parts. apply wrap64_id. pose proof (Z.mul_div_le (q + 134217728 - 1) 134217728 ltac:(lia)).
  assert (0 ≤ (q + 134217728 - 1) `div` 134217728) by (apply Z.div_pos; lia). lia.
Qed.

(** The limits of Amazon S3 for a multi-part upload. *)
Definition S3MaxParts : Z := 10000.
Definition S3MinPartSize : Z := 5 * 2 ^ 20.
Definition S3MaxPartSize : Z := 5 * 2 ^ 30.
Definition S3MaxObjectSize : Z := 5 * 2 ^ 40.

(** C22. The part size of an upload of [n] announced bytes is the least multiple of
    128 MiB with which they fit in 4096 parts.  No arithmetic overflows, and up to
    the largest object of S3 the size is one that S3 accepts and leaves room: even
    an upload twice as long as announced stays below the limit of 10000 parts. *)
Theorem part_size_admissible n :
  0 < n < 2 ^ 63 - UploadParts →
  let p := decidePartSize n in
  0 < p ∧ p `mod` PartSizeUnit = 0 ∧ parts n p ≤ UploadParts ∧
  (∀ p', 0 < p' → p' `mod` PartSizeUnit = 0 → parts n p' ≤ UploadParts → p ≤ p') ∧
  (n ≤ S3MaxObjectSize → S3MinPartSize ≤ p ≤ S3MaxPartSize ∧ parts (2 * n) p ≤ S3MaxParts).
Proof.
  intros Hn p. unfold p. rewrite decidePartSize_parts by lia.
  assert (0 < UploadParts ∧ 0 < PartSizeUnit) as [HU HP] by done.
  set (q := parts n UploadParts). set (k := parts q PartSizeUnit).
  assert (∀ m, q ≤ m ↔ n ≤ m * UploadParts) as Hq by (intros m; by apply parts_le).
  assert (∀ m, k ≤ m ↔ q ≤ m * PartSizeUnit) as Hk by (intros m; by apply parts_le).
  assert (1 ≤ q) by (destruct (Z.le_gt_cases 1 q) as [|H]; [done|]; assert (q ≤ 0) as H'%Hq by lia; lia).
  assert (1 ≤ k) by (destruct (Z.le_gt_cases 1 k) as [|H']; [done|]; assert (k ≤ 0) as H''%Hk by lia; lia).
  assert (0 < k * PartSizeUnit) as Hpos by lia. split; [done|]. split; [by apply Z_mod_mult|].
  assert (n ≤ UploadParts * (k * PartSizeUnit)) as Hfit by (rewrite Z.mul_comm; by apply Hq, Hk).
  split; [by apply parts_le|]. split.
  - intros p' Hp' Hmod Hle%parts_le; [|done]. apply Z.mod_divide in Hmod as [m ->]; [|lia].
    apply Z.mul_le_mono_nonneg_r; [lia|]. apply Hk, Hq. lia.
  - unfold S3MaxObjectSize, S3MinPartSize, S3MaxPartSize, S3MaxParts. intros Hmax. change UploadParts with 4096 in *. change PartSizeUnit with 134217728 in *.
    assert (k ≤ 10) by (apply Hk, Hq; lia). split; [lia|]. apply parts_le; lia.
Qed.

Lemma part_size_admissible_witness :
  decidePartSize (5 * 2 ^ 40) = 10 * PartSizeUnit ∧ parts (5 * 2 ^ 40) (decidePartSize (5 * 2 ^ 40)) ≤ 4096.
Proof.
  destruct (part_size_admissible (5 * 2 ^ 40) ltac:(done)) as (_ & _ & H & _). split; [reflexivity|exact H].
Defined.

(** A part of size zero is asked for exactly when nothing is announced, and near
    the end of the range of int64 the sum overflows. *)
Example part_size_boundaries :
  decidePartSize 0 = 0 ∧ decidePartSize 1 = PartSizeUnit ∧ decidePartSize (PartSizeUnit * UploadParts) = PartSizeUnit ∧
  decidePartSize (PartSizeUnit * UploadParts + 1) = 2 * PartSizeUnit ∧ decidePartSize (2 ^ 63 - 1) < 0.
Proof. vm_compute. done. Qed.

(** Azure takes 50000 blocks: with blocks of 4 MiB, whatever the announced size,
    an upload of 200 GiB takes more. *)
Theorem azure_blocks_bound n : parts n azureBlockSize ≤ 50000 ↔ n ≤ 209715200000.
Proof. by apply parts_le. Qed.

(** ** The contract *)

Section contract.
Context {reader : Type}.
Implicit Types (c : Client) (key prefix : string) (data : reader).

(** The stored objects by bucket and key, and what was written to objects that are
    not closed. *)
Record objects := { stored : gmap (string * string) reader; unclosed : gmap (string * string) reader }.

Definition store_object (k : string * string) (data : reader) (s : objects) : objects :=
  {| stored := <[k := data]> (stored s); unclosed := unclosed s |}.
Definition write_object (k : string * string) (data : reader) (s : objects) : objects :=
  {| stored := stored s; unclosed := <[k := data]> (unclosed s) |}.

(** The keys of a bucket with a prefix. *)
Definition has_key (s : objects) (bucket prefix key : string) : Prop :=
  is_Some (stored s !! (bucket, key)) ∧ has_prefix key prefix = true.

(** If no page is an error, the names on all of them are those keys. *)
Definition lists {A} (keys_of : A → list string) (s : objects) (bucket prefix : string) (pages : list (extres A)) : Prop :=
  Forall (λ p, ∃ x, p = inr x) pages →
  ∀ key, key ∈ (p ← pages; match p with inr x => keys_of x | inl _ => [] end) ↔ has_key s bucket prefix key.

Definition put_result (s : objects) (k : string * string) data (r : extres unit) (s' : objects) : Prop :=
  r = inr () ∧ s' = store_object k data s ∨ (∃ e, r = inl e) ∧ s' = s.
Definition get_result (s : objects) (k : string * string) (r : extres reader) (s' : objects) : Prop :=
  (∀ data, r = inr data → stored s !! k = Some data) ∧ s' = s.

(** What the three services do. *)
Definition services : world (storeSig reader) objects := λ s call r s',
  match call return storeresp call → Prop with
  | S3Upload _ b k _ data | AzureUploadStream b k data _ _ => λ r, put_result s (b, k) data r s'
  | S3GetObject b k | GCSNewReader b k | AzureDownloadStream b k => λ r, get_result s (b, k) r s'
  | GCSCopy b k data => λ r, r = inr () ∧ s' = write_object (b, k) data s ∨ (∃ e, r = inl e) ∧ s' = s
  | GCSCloseWriter b k => λ r,
      (∃ data, unclosed s !! (b, k) = Some data ∧ r = inr () ∧ s' = store_object (b, k) data s) ∨ (∃ e, r = inl e) ∧ s' = s
  | S3ListObjects b p => λ r, lists (λ page, page) s b (default "" p) r ∧ s' = s
  | GCSObjects b p => λ r, lists (λ obj, [obj]) s b p r ∧ s' = s
  | AzureListBlobs b p => λ r, lists (omap (λ name, name)) s b p r ∧ s' = s
  end r.

(** The name of the bucket of a client. *)
Definition client_bucket (c : Client) : string :=
  match c with S3Client name _ | GCSClient name | AzureClient _ name | AzureConnection _ name => name end.

(** The loop over pages gives an error if there is one, and all keys otherwise. *)
Lemma collect_spec {A} (keys_of : A → list string) pages keys :
  match collect keys_of keys pages with
  | inr l => Forall (λ p, ∃ x, p = inr x) pages ∧ l = keys ++ (p ← pages; match p with inr x => keys_of x | inl _ => [] end)
  | inl e => inl e ∈ pages
  end.
Proof.
  revert keys. induction pages as [|[e|page] rest IH]; intros keys; cbn.
  - split; [done|by rewrite app_nil_r].
  - by left.
  - specialize (IH (keys ++ keys_of page)). destruct (collect _ _ _) as [e|l]; [by right|].
    destruct IH as [H ->]. split; [constructor; eauto|by rewrite <- app_assoc].
Qed.

Lemma collect_lists {A} (keys_of : A → list string) s b prefix pages l :
  lists keys_of s b prefix pages → collect keys_of [] pages = inr l → ∀ key, key ∈ l ↔ has_key s b prefix key.
Proof. intros Hl Hc. pose proof (collect_spec keys_of pages []) as H. rewrite Hc in H. destruct H as [Ha ->]. by apply Hl. Qed.

End contract.

Definition sample_objects : objects (reader := Z) :=
  {| stored := {[ ("dumps", "moco/ns/a/20210506-070809/dump.tar") := 1;
                  ("dumps", "moco/ns/a/20210506-070809/binlog.tar.zst") := 2;
                  ("dumps", "moco/ns/b/20210506-070809/dump.tar") := 3 ]}; unclosed := ∅ |}.

