(* ===== verification/BackupCmd.v ===== *)
(** * The command moco-backup (cmd/moco-backup)

    Its options, the bucket they choose, and the backup command.  The environment,
    files, certificates and the constructors of clients are calls. *)

From S2P Require Import Prelude Prog Worlds GoLib Constants Api Keys Bkop Backup Bucket.
#[local] Open Scope Z_scope.

(** ** The options *)

(* cmd/moco-backup/cmd/root.go:21-29 commonArgs *)
Record CommonArgs := {
  workDir : string; threads : Z; region : string; endpointURL : string; usePathStyle : bool;
  backendType : string; caCertFilePath : string
}.

(** The options and their defaults.  Of several flags with a name the last one
    counts.  The number of threads is taken to be decimal, as the jobs write it. *)
(* cmd/moco-backup/cmd/root.go:145-154 init *)
Definition common_args (flags : list (string * string)) : option CommonArgs :=
  let m : gmap string string := list_to_map (reverse flags) in
  n ← Atoi (default "4" (m !! "threads"));
  Some {| workDir := default "/work" (m !! "work-dir"); threads := n; region := default "" (m !! "region");
          endpointURL := default "" (m !! "endpoint"); usePathStyle := default "false" (m !! "use-path-style") =s "true";
          backendType := default "s3" (m !! "backend-type"); caCertFilePath := default "" (m !! "ca-cert") |}.

(** ** Calls *)

Inductive bccall :=
| CGetenv (name : string)
| CSetenv (name value : string)
| CParseURL (url : string)
| CReadFile (name : string)
| CSystemCertPool
| CAppendCertsFromPEM (pem : string)
| CLoadDefaultConfig                       (* config.LoadDefaultConfig *)
| CNewGCSClient
| CNewDefaultAzureCredential
| CNewAzureClient (serviceURL : string)
| CNewAzureClientFromConnectionString (connectionString : string).

Definition bcresp (c : bccall) : Type :=
  match c with
  | CGetenv _ => string
  | CReadFile _ => extres string
  | CAppendCertsFromPEM _ => bool
  | _ => extres unit
  end.

Definition cmdSig : signature := {| call := bccall; resp := bcresp |}.
Definition bc (c : bccall) : prog cmdSig (bcresp c) := @perform cmdSig c.

(** ** The constructors of package bucket *)

(* pkg/bucket/s3.go :: NewS3Bucket *)
Definition NewS3Bucket (name : string) (opts : list S3Option) : prog cmdSig (extres Client) :=
  _ <-! bc CLoadDefaultConfig ;;
  Ret (inr (S3Client name opts)).

(* pkg/bucket/gcs.go :: NewGCSBucket *)
Definition NewGCSBucket (name : string) : prog cmdSig (extres Client) :=
  _ <-! bc CNewGCSClient ;;
  Ret (inr (GCSClient name)).

(* pkg/bucket/azure.go :: NewAzureBucket *)
Definition NewAzureBucket (serviceURL name : string) : prog cmdSig (extres Client) :=
  _ <-! bc (CNewAzureClient serviceURL) ;;
  Ret (inr (AzureClient serviceURL name)).

(* pkg/bucket/azure.go :: NewAzureBucketFromConnectionString *)
Definition NewAzureBucketFromConnectionString (connectionString name : string) : prog cmdSig (extres Client) :=
  _ <-! bc (CNewAzureClientFromConnectionString connectionString) ;;
  Ret (inr (AzureConnection connectionString name)).

(** ** makeBucket *)

Section args.
Variable commonArgs : CommonArgs.

(** The option for the certificates of the file. *)
(* cmd/moco-backup/cmd/root.go:56-74 makeS3Bucket *)
Definition caCertOption (path : string) : prog cmdSig (extres S3Option) :=
  caCertFile <-! bc (CReadFile path) ;;
  _ <-! bc CSystemCertPool ;;
  ok <-- bc (CAppendCertsFromPEM caCertFile) ;;
  Ret (if negb ok then inl (ErrNew "failed to add ca cert") else inr (WithHTTPClient caCertFile)).

(* cmd/moco-backup/cmd/root.go :: makeS3Bucket *)
Definition makeS3Bucket (bucketName : string) : prog cmdSig (extres Client) :=
  let opts := (if region commonArgs <>s "" then [WithRegion (region commonArgs)] else []) ++
              (if endpointURL commonArgs <>s "" then [WithEndpointURL (endpointURL commonArgs)] else []) ++
              (if usePathStyle commonArgs then [WithPathStyle] else []) in
  if caCertFilePath commonArgs <>s "" then
    ca <-! caCertOption (caCertFilePath commonArgs) ;;
    NewS3Bucket bucketName (opts ++ [ca])
  else NewS3Bucket bucketName opts.

(* cmd/moco-backup/cmd/root.go :: makeGCSBucket *)
Definition makeGCSBucket (bucketName : string) : prog cmdSig (extres Client) := NewGCSBucket bucketName.

(** The URL of the service: the endpoint or the account's. *)
(* cmd/moco-backup/cmd/root.go:90-98 makeAzureBucket *)
Definition azureServiceURL : prog cmdSig (extres string) :=
  if endpointURL commonArgs <>s "" then Ret (inr (endpointURL commonArgs)) else
  accountName <-- bc (CGetenv "AZURE_STORAGE_ACCOUNT") ;;
  Ret (if accountName =s "" then
         inl (ErrNew ("AZURE_STORAGE_ACCOUNT environment variable is required for Azure backend " +:+
                      "when connection string is not provided"))
       else inr ("https://" +:+ accountName +:+ ".blob.core.windows.net/")).

(* cmd/moco-backup/cmd/root.go :: makeAzureBucket *)
Definition makeAzureBucket (containerName : string) : prog cmdSig (extres Client) :=
  connStr <-- bc (CGetenv "AZURE_STORAGE_CONNECTION_STRING") ;;
  if connStr <>s "" then NewAzureBucketFromConnectionString connStr containerName else
  serviceURL <-! azureServiceURL ;;
  _ <-! wrap_err "failed to create Azure credential" (bc CNewDefaultAzureCredential) ;;
  NewAzureBucket serviceURL containerName.

(* cmd/moco-backup/cmd/root.go :: makeBucket *)
Definition makeBucket (bucketName : string) : prog cmdSig (extres Client) :=
  if backendType commonArgs =s BackendTypeS3 then makeS3Bucket bucketName
  else if backendType commonArgs =s BackendTypeGCS then makeGCSBucket bucketName
  else if backendType commonArgs =s BackendTypeAzure then makeAzureBucket bucketName
  else makeS3Bucket bucketName.

(** ** PersistentPreRunE *)

(* cmd/moco-backup/cmd/root.go:117-133 rootCmd *)
Definition PersistentPreRunE (mysqlPassword : string) : prog cmdSig (extres unit) :=
  if mysqlPassword =s "" then Ret (inl (ErrNew "no MYSQL_PASSWORD environment variable")) else
  _ <-! (if endpointURL commonArgs <>s "" then
           wrap_err ("invalid endpoint URL " +:+ endpointURL commonArgs) (bc (CParseURL (endpointURL commonArgs)))
         else Ret (inr ())) ;;
  bc (CSetenv "HOME" (workDir commonArgs)).
End args.

(** ** The backup command *)

Section backup.
Context {RC : ConflictRetry bkSig}.
Variable Unmarshal_gtidExecuted : string → extres string.

(* backup/backup.go :: NewBackupManager *)
Definition NewBackupManager (dir ns name password : string) (threads : Z) : prog bkSig (extres BackupManager) :=
  _ <-! bk (KSetup "clientgoscheme.AddToScheme") ;;
  _ <-! bk (KSetup "mocov1beta2.AddToScheme") ;;
  _ <-! wrap_err "failed to create controller-runtime client" (bk (KSetup "client")) ;;
  cluster <-! wrap_err ("failed to get MySQLCluster " +:+ ns +:+ "/" +:+ name) (bk (KGetCluster ns name)) ;;
  _ <-! wrap_err "failed to get reference for MySQLCluster" (bk KGetReference) ;;
  Ret (inr {| bm_cluster := cluster; bm_mysqlPassword := password; bm_workDir := dir; bm_threads := threads;
              bm_startTime := 0; bm_sourceIndex := 0;
              bm_status := {| srv_SuperReadOnly := false; srv_UUID := ""; CurrentBinlog := "" |};
              bm_uuidSet := ∅; bm_gtidSet := ""; bm_dumpSize := 0; bm_binlogSize := 0; bm_workDirUsage := 0;
              bm_warnings := [] |}).

(** The arguments are a bucket, a namespace and a name; any other number is
    refused before. *)
(* cmd/moco-backup/cmd/backup.go:20-40 backupCmd *)
Definition backupCmd_RunE (commonArgs : CommonArgs) (mysqlPassword : string) (args : list string) : prog bkSig (outcome unit) :=
  match args with
  | [bucketName; namespace; name] =>
      r <-- (_ <-! wrap_err "failed to create a bucket interface" (bk (KSetup bucketName)) ;;
             _ <-! wrap_err "failed to get config for Kubernetes" (bk (KSetup "config")) ;;
             wrap_err "failed to create a backup manager"
               (NewBackupManager (workDir commonArgs) namespace name mysqlPassword (threads commonArgs))) ;;
      match r with
      | inl e => Ret (Error e)
      | inr bm => res <-- BackupManager_Backup Unmarshal_gtidExecuted bm ;; Ret res.2
      end
  | _ => Ret (Error (ErrNew ("accepts 3 arg(s), received " +:+ Itoa (go_len args))))
  end.
End backup.
