(* ===== verification/JobsSpec.v ===== *)
(** * What the steps for backup and restore jobs guarantee *)

From S2P Require Import Prelude Prog GoLib Time Constants Api K8s Password Dbop Gtid Samples StatefulSets Webhook WebhookSpec Controller ControllerSamples.
From S2P Require Import Containers StatefulSetStep Jobs Keys Bkop Backup Restore Bucket BackupCmd.
#[local] Open Scope Z_scope.

(** ** The command line of the jobs

    moco-backup reads its command line with cobra and pflag: "--flag=x" sets a
    flag, "--flag" a boolean one, and what does not begin with a dash is an
    argument.  [parse_args] gives the flags in order, a boolean one as "true",
    and the arguments. *)
Definition value_flags : list string := ["threads"; "region"; "endpoint"; "backend-type"; "ca-cert"].

Class CommandLine := {
  parse_args : list string → option (list (string * string) * list string);
  parse_args_flag name value l flags args :
    name ∈ value_flags → parse_args l = Some (flags, args) →
    parse_args (("--" +:+ name +:+ "=" +:+ value) :: l) = Some ((name, value) :: flags, args);
  parse_args_bool l flags args :
    parse_args l = Some (flags, args) →
    parse_args ("--use-path-style" :: l) = Some (("use-path-style", "true") :: flags, args);
  parse_args_arg l : Forall (λ a, has_prefix a "-" = false) l → parse_args l = Some ([], l)
}.

(** A parser that does this. *)
Fixpoint parse_flags (l : list string) : option (list (string * string) * list string) :=
  match l with
  | [] => Some ([], [])
  | a :: rest =>
      '(flags, args) ← parse_flags rest;
      if has_prefix a "--" then
        match split_n2 "=" (drop_str 2 a) with
        | [name; value] => Some ((name, value) :: flags, args)
        | [name] => if name =s "use-path-style" then Some ((name, "true") :: flags, args) else None
        | _ => None
        end
      else if has_prefix a "-" then None else Some (flags, a :: args)
  end.

#[refine, export] Instance command_line_parser : CommandLine := {| parse_args := parse_flags |}.
Proof.
  - intros name value l flags args Hname Hl. cbn [parse_flags]. rewrite Hl. cbn [mbind option_bind].
    unfold value_flags in Hname. rewrite !elem_of_cons in Hname.
    destruct Hname as [->|[->|[->|[->|[->|[]%elem_of_nil]]]]]; reflexivity.
  - intros l flags args Hl. cbn [parse_flags]. by rewrite Hl.
  - induction 1 as [|a l Ha Hl IH]; [done|]. cbn [parse_flags]. rewrite IH. cbn [mbind option_bind].
    destruct (has_prefix a "--") eqn:E; [|by rewrite Ha].
    apply has_prefix_spec in E as [t ->]. by destruct t.
Defined.

(** The flags moco-backup gets for a bucket. *)
Definition bucket_flags (bc : BucketConfig) : list (string * string) :=
  (if Region bc <>s "" then [("region", Region bc)] else []) ++
  (if EndpointURL bc <>s "" then [("endpoint", EndpointURL bc)] else []) ++
  (if UsePathStyle bc then [("use-path-style", "true")] else []) ++
  (if BackendType bc <>s "" then [("backend-type", BackendType bc)] else []) ++
  (if CaCert bc <>s "" then [("ca-cert", CaCert bc)] else []).

Definition no_dash (s : string) : Prop := has_prefix s "-" = false.

Section command_line.
Context {CL : CommandLine}.

Lemma parse_flag name value (b : bool) l flags args :
  name ∈ value_flags → parse_args l = Some (flags, args) →
  parse_args ((if b then ["--" +:+ name +:+ "=" +:+ value] else []) ++ l) =
  Some ((if b then [(name, value)] else []) ++ flags, args).
Proof. intros Hn H. destruct b; [by apply parse_args_flag|done]. Qed.

Lemma parse_bucketArgs bc rest :
  no_dash (BucketName bc) → Forall no_dash rest →
  parse_args (bucketArgs bc ++ rest) = Some (bucket_flags bc, BucketName bc :: rest).
Proof.
  intros Hb Hr. unfold bucketArgs, bucket_flags. rewrite <- !app_assoc. cbn [app].
  assert (parse_args (BucketName bc :: rest) = Some ([], BucketName bc :: rest)) as Hbase
    by (apply parse_args_arg; by constructor).
  apply (parse_flag "region"), (parse_flag "endpoint"); [set_solver..|].
  assert (∀ (b : bool) l flags args, parse_args l = Some (flags, args) →
    parse_args ((if b then ["--use-path-style"] else []) ++ l) =
    Some ((if b then [("use-path-style", "true")] else []) ++ flags, args)) as Hbool.
  { intros [] l flags args H; [by apply parse_args_bool|done]. }
  apply Hbool, (parse_flag "backend-type"); [set_solver|].
  rewrite <- (app_nil_r (if CaCert bc <>s "" then [("ca-cert", CaCert bc)] else [])).
  apply (parse_flag "ca-cert"); [set_solver|done].
Qed.
End command_line.

(** ** The restore job *)

Section restore_job.
Context {RE : Reconciler} {CL : CommandLine}.

(** The arguments of a job's container. *)
Definition job_args (cfg : ApplyConfig) : list string :=
  match ac_Body cfg with
  | BodyJob s => concat (container_Args <$> podspec_Containers (js_PodSpec s))
  | BodyCronJob s => concat (container_Args <$> podspec_Containers (js_PodSpec (cjs_Job s)))
  | _ => []
  end.

Lemma Parse_restore_point seconds :
  four_digit_year (seconds * 1000000000) → ParseBackup (FormatBackup (seconds * 1000000000)) = Some (seconds * 1000000000).
Proof. intros H. rewrite (Parse_Format _ H). unfold ns_per_second. by rewrite Z.div_mul by lia. Qed.

Lemma digit_char_no_dash d : 0 ≤ d < 10 → Ascii.eqb "-" (digit_char d) = false.
Proof.
  intros Hd. assert (d = 0 ∨ d = 1 ∨ d = 2 ∨ d = 3 ∨ d = 4 ∨ d = 5 ∨ d = 6 ∨ d = 7 ∨ d = 8 ∨ d = 9) as Hcase by lia.
  repeat destruct Hcase as [->|Hcase]; [reflexivity..|]. by subst.
Qed.

Lemma FormatBackup_no_dash t : four_digit_year t → no_dash (FormatBackup t).
Proof.
  intros Hy. unfold four_digit_year in Hy. unfold no_dash, FormatBackup, pad.
  set (y := f_year (fields_of t)) in *. clearbody y. destruct (Z.ltb_spec y 0); [lia|].
  rewrite Z.abs_eq by lia. change (Z.of_nat 4) with 4. rewrite (Z.div_small y (10 ^ 4)) by lia. cbn [Z.eqb].
  cbn [last_digits].
  match goal with |- has_prefix ((_ +:+ _ +:+ String ?c ?s) +:+ ?r) _ = _ =>
    change (Ascii.eqb "-" c && has_prefix (s +:+ r) "" = false) end.
  rewrite digit_char_no_dash; [done|]. apply Z.mod_pos_bound. lia.
Qed.

(** What [restoreCmd] makes of its options and its eight arguments; the password
    comes from the environment. *)
(* cmd/moco-backup/cmd/restore.go:55-61 runRestore *)
Definition restore_args_of (password : string) (commonArgs : CommonArgs) (args : list string) : option RestoreArgs :=
  match args with
  | [bucketName; srcNamespace; srcName; namespace; name; restorePoint; schema; users] =>
      Some {| arg_bucket := bucketName; arg_srcNamespace := srcNamespace; arg_srcName := srcName;
              arg_namespace := namespace; arg_name := name; arg_restorePoint := restorePoint; arg_schema := schema;
              arg_users := users; arg_workDir := workDir commonArgs; arg_threads := threads commonArgs; arg_password := password |}
  | _ => None
  end.

(** The options a bucket configuration and a number of threads give. *)
Definition options_of (n : Z) (bc : BucketConfig) : CommonArgs :=
  {| workDir := "/work"; threads := n; region := Region bc; endpointURL := EndpointURL bc; usePathStyle := UsePathStyle bc;
     backendType := if BackendType bc =s "" then BackendTypeS3 else BackendType bc; caCertFilePath := CaCert bc |}.

Lemma common_args_job n bc :
  0 ≤ n < 2 ^ 63 → common_args (("threads", Itoa n) :: bucket_flags bc) = Some (options_of n bc).
Proof.
  intros Hn. unfold common_args, bucket_flags, options_of.
  destruct bc as [bn rg ep ps bt ca]. cbn [Region EndpointURL UsePathStyle BackendType CaCert].
  destruct (String.eqb_spec rg "") as [->|], (String.eqb_spec ep "") as [->|], ps,
    (String.eqb_spec bt "") as [->|], (String.eqb_spec ca "") as [->|];
  cbn [negb app reverse rev_append list_to_map foldr fst snd];
  simplify_map_eq; cbn [default]; unfold id; rewrite Atoi_Itoa by done; reflexivity.
Qed.
End restore_job.

(** The container of the restore job gives moco-backup what the cluster's
    restore specification says: read back from its command line, the bucket and
    its options, the source, the target, the number of threads, the schema and
    the users are those of the specification, and the restore point is the same
    time. *)
Theorem restore_job_command_line {RE : Reconciler} {CL : CommandLine} cluster restore password :
  let jc := restore_JobConfig restore in
  let point := restore_RestorePoint restore * 1000000000 in
  four_digit_year point → 0 ≤ job_Threads jc < 2 ^ 63 →
  Forall no_dash [BucketName (job_BucketConfig jc); restore_SourceNamespace restore; restore_SourceName restore;
                  Namespace cluster; Name cluster; restore_Schema restore; restore_Users restore] →
  ∃ line flags args ca ra,
    job_args (restoreJob cluster restore) = RestoreSubcommand :: line ∧
    parse_args line = Some (flags, args) ∧ common_args flags = Some ca ∧ ca = options_of (job_Threads jc) (job_BucketConfig jc) ∧
    restore_args_of password ca args = Some ra ∧
    arg_bucket ra = BucketName (job_BucketConfig jc) ∧
    arg_srcNamespace ra = restore_SourceNamespace restore ∧ arg_srcName ra = restore_SourceName restore ∧
    arg_namespace ra = Namespace cluster ∧ arg_name ra = Name cluster ∧ arg_threads ra = job_Threads jc ∧
    ParseBackup (arg_restorePoint ra) = Some point ∧
    arg_schema ra = restore_Schema restore ∧ arg_users ra = restore_Users restore.
Proof.
  intros jc point Hy Ht Hdash. rewrite !Forall_cons in Hdash. destruct Hdash as (H1 & H2 & H3 & H4 & H5 & H6 & H7 & _).
  exists (("--threads=" +:+ Itoa (job_Threads jc)) :: bucketArgs (job_BucketConfig jc) ++
    [restore_SourceNamespace restore; restore_SourceName restore; Namespace cluster; Name cluster;
     FormatBackup point; restore_Schema restore; restore_Users restore]).
  exists (("threads", Itoa (job_Threads jc)) :: bucket_flags (job_BucketConfig jc)),
    [BucketName (job_BucketConfig jc); restore_SourceNamespace restore; restore_SourceName restore; Namespace cluster; Name cluster;
     FormatBackup point; restore_Schema restore; restore_Users restore].
  eexists _, _.
  split; [unfold job_args; cbn; by rewrite !app_nil_r|].
  split; [|split; [by apply common_args_job|split; [done|split; [reflexivity|]]]].
  - apply (parse_args_flag "threads"); [set_solver|]. apply parse_bucketArgs; [done|].
    repeat constructor; try done. by apply FormatBackup_no_dash.
  - split_and!; try done. by apply Parse_restore_point.
Qed.

(** ** The Role of the backup job *)

(** When the CronJob is unchanged the step for backups ends: the Role and the
    RoleBinding are neither read nor written, so one that could not be applied
    together with the CronJob is never applied later. *)
Theorem backup_role_not_repaired {RE : Reconciler} {KL : KubeLibs} cluster bpName bp cfg orig t r :
  BackupPolicyName (Spec cluster) = Some bpName →
  setControllerReference cluster (backupCronJob cluster (bp_Spec bp)) = inr cfg →
  Extract KCronJob orig = inr (Some cfg) →
  exec (reconcileV1BackupJob cluster)
    (ev (S := ctrlSig) (RGetBackupPolicy (Namespace cluster) bpName) (inr bp) ::
     ev (S := ctrlSig) (RGetObject KCronJob (Namespace cluster) (BackupCronJobName cluster)) (inr orig) :: t) r →
  t = [] ∧ r = inr ().
Proof.
  intros Hbp Hcfg Hext Hex. unfold reconcileV1BackupJob in Hex. rewrite Hbp in Hex.
  destruct Hex as (r1 & Heq1 & Hex). apply ev_inj in Heq1 as <-. cbn [bind wrap_err bind_ext] in Hex.
  unfold applyOwned in Hex. rewrite Hcfg in Hex. destruct Hex as (r2 & Heq2 & Hex).
  pose proof Hcfg as Hcfg'. unfold setControllerReference in Hcfg'. destruct GVKForObject as [e|[gv kd]]; [done|].
  injection Hcfg' as <-. apply ev_inj in Heq2 as <-. unfold get_or_zero, bind_ext, wrap_err in Hex. cbn [bind] in Hex.
  change (body_kind _) with KCronJob in Hex. rewrite Hext in Hex.
  assert (∀ a, Apply_DeepEqual a (Some a) = true) as Heq by (intros a; by apply Apply_DeepEqual_eq).
  cbn [bind] in Hex. rewrite Heq in Hex. cbn in Hex. by destruct Hex as [-> <-].
Qed.

(** ** Witnesses *)

Definition sample_job : JobConfig :=
  {| job_ServiceAccountName := "backup"; job_BucketConfig := {| BucketName := "moco-dumps"; Region := "";
       EndpointURL := "https://s3.example.com"; UsePathStyle := true; BackendType := "s3"; CaCert := "" |};
     job_WorkVolume := EmptyDir; job_Threads := 4; job_CPU := None; job_MaxCPU := None; job_Memory := None;
     job_MaxMemory := None; job_EnvFrom := []; job_Env := []; job_Affinity := None; job_Volumes := [];
     job_VolumeMounts := [] |}.

(** The restore point is 2021-05-06T07:08:09Z. *)
Definition sample_restore : RestoreSpec :=
  {| restore_SourceName := "origin"; restore_SourceNamespace := "prod"; restore_RestorePoint := 1620284889;
     restore_JobConfig := sample_job; restore_Schema := ""; restore_Users := "" |}.

Lemma restore_job_command_line_witness : ∃ ra,
  arg_bucket ra = "moco-dumps" ∧ arg_srcName ra = "origin" ∧ arg_threads ra = 4 ∧
  ParseBackup (arg_restorePoint ra) = Some 1620284889000000000.
Proof.
  destruct (restore_job_command_line (sample_cluster 3 0) sample_restore "secret")
    as (line & flags & args & ca & ra & _ & _ & _ & _ & _ & H1 & _ & H2 & _ & _ & H3 & H4 & _).
  - apply (bool_decide_unpack _). vm_compute. exact I.
  - done.
  - repeat constructor.
  - by exists ra.
Defined.

Definition daily_cluster : MySQLCluster :=
  let s := sample_spec 3 None in
  {| cluster_Meta := sample_meta;
     Spec := {| Replicas := 3; PodTemplate := PodTemplate s; VolumeClaimTemplates := VolumeClaimTemplates s;
       PrimaryServiceTemplate := None; ReplicaServiceTemplate := None; MySQLConfigMapName := None;
       ReplicationSourceSecretName := None; Collectors := []; ServerIDBase := 100; MaxDelaySeconds := None;
       MaxDelaySecondsForPodDeletion := 0; StartupWaitSeconds := 3600; LogRotationSchedule := LogRotationSchedule s;
       LogRotationSize := 0; BackupPolicyName := Some "daily"; Restore := None; DisableSlowQueryLogContainer := false;
       SlowQueryLogConfigTmpl := None; AgentUseLocalhost := false; InitializeTimezoneData := false; Offline := false |};
     Status := sample_cluster_status 0 |}.

(** The CronJob was applied as it is. *)
Definition daily_config : option ApplyConfig :=
  match setControllerReference daily_cluster (backupCronJob daily_cluster (bp_Spec sample_policy)) with
  | inr cfg => Some cfg
  | inl _ => None
  end.

Definition daily_libs : KubeLibs := libs_with (λ _, daily_config) None.

Definition daily_api (c : rcall) (s : unit) : rresp c * unit :=
  (match c as c return rresp c with
   | RGetBackupPolicy _ _ => inr sample_policy
   | RGetObject _ _ _ => inr "{}"
   | c => sample_answer c
   end, s).

Definition daily_run := run (S := ctrlSig) daily_api (reconcileV1BackupJob (KL := daily_libs) daily_cluster) ().

Lemma daily_run_exec : ∃ orig,
  exec (reconcileV1BackupJob (KL := daily_libs) daily_cluster)
    (ev (S := ctrlSig) (RGetBackupPolicy "default" "daily") (inr sample_policy) ::
     ev (S := ctrlSig) (RGetObject KCronJob "default" (BackupCronJobName daily_cluster)) (inr orig) :: drop 2 daily_run.1)
    daily_run.2.
Proof.
  eexists. match goal with |- exec _ ?t _ => replace t with daily_run.1 by (vm_compute; reflexivity) end.
  exact (run_exec (S := ctrlSig) daily_api (reconcileV1BackupJob (KL := daily_libs) daily_cluster) ()).
Qed.

Lemma backup_role_not_repaired_witness : length daily_run.1 = 2%nat ∧ daily_run.2 = inr ().
Proof.
  destruct daily_run_exec as [orig Hex].
  destruct (backup_role_not_repaired (KL := daily_libs) daily_cluster "daily" sample_policy
    (default {| ac_Meta := jobMeta daily_cluster ""; ac_Body := BodyRole [] |} daily_config) orig _ _
    eq_refl eq_refl eq_refl Hex) as [H1 H2].
  split; [|exact H2]. vm_compute. reflexivity.
Defined.
