(* ===== verification/BackupCmdSpec.v ===== *)
(** * What the backup jobs ask of moco-backup

    The bucket that a job's command line leads to is the one its configuration
    describes, and the backup it takes is one of its cluster. *)

From S2P Require Import Prelude Prog Worlds GoLib Time Constants Api K8s Samples StatefulSets Webhook WebhookSpec Controller ControllerSamples.
From S2P Require Import Containers StatefulSetStep Jobs Keys Bkop Backup Restore Bucket BackupCmd JobsSpec.
#[local] Open Scope Z_scope.

(** ** The bucket *)

(** The options for Amazon S3 but for the certificates. *)
Definition s3_options (bc : BucketConfig) : list S3Option :=
  (if Region bc <>s "" then [WithRegion (Region bc)] else []) ++
  (if EndpointURL bc <>s "" then [WithEndpointURL (EndpointURL bc)] else []) ++
  (if UsePathStyle bc then [WithPathStyle] else []).

(** The client connects to what the configuration says; a connection string of the
    environment comes before the endpoint. *)
Definition serves (cfg : BucketConfig) (t : trace cmdSig) (c : Client) : Prop :=
  match c with
  | S3Client name opts =>
      BackendType cfg ∈ [""; BackendTypeS3] ∧ name = BucketName cfg ∧
      ∃ ca, opts = s3_options cfg ++ ca ∧
        if CaCert cfg =s "" then ca = []
        else ∃ pem, ca = [WithHTTPClient pem] ∧ ev (S := cmdSig) (CReadFile (CaCert cfg)) (inr pem) ∈ t
  | GCSClient name => BackendType cfg = BackendTypeGCS ∧ name = BucketName cfg
  | AzureConnection s name =>
      BackendType cfg = BackendTypeAzure ∧ name = BucketName cfg ∧ s ≠ "" ∧
      ev (S := cmdSig) (CGetenv "AZURE_STORAGE_CONNECTION_STRING") s ∈ t
  | AzureClient url name =>
      BackendType cfg = BackendTypeAzure ∧ name = BucketName cfg ∧
      ev (S := cmdSig) (CGetenv "AZURE_STORAGE_CONNECTION_STRING") "" ∈ t ∧
      if EndpointURL cfg =s "" then
        ∃ account, account ≠ "" ∧ ev (S := cmdSig) (CGetenv "AZURE_STORAGE_ACCOUNT") account ∈ t ∧
                   url = "https://" +:+ account +:+ ".blob.core.windows.net/"
      else url = EndpointURL cfg
  end.

(** The kinds of storage of the resource definition, and none for the default. *)
Definition known_backend (cfg : BucketConfig) : Prop :=
  BackendType cfg ∈ [""; BackendTypeS3; BackendTypeGCS; BackendTypeAzure].

Lemma exec_bc_inv c t r : exec (bc c) t r → t = [ev (S := cmdSig) c r].
Proof. apply (exec_call_inv (S := cmdSig)). Qed.
Lemma exec_bk_inv c t r : exec (bk c) t r → t = [ev (S := bkSig) c r].
Proof. apply (exec_call_inv (S := bkSig)). Qed.

Lemma makeS3Bucket_serves n cfg t c :
  BackendType cfg ∈ [""; BackendTypeS3] → exec (makeS3Bucket (options_of n cfg) (BucketName cfg)) t (inr c) → serves cfg t c.
Proof.
  intros Hb. unfold makeS3Bucket. cbn [region endpointURL usePathStyle caCertFilePath options_of].
  fold (s3_options cfg). destruct (String.eqb_spec (CaCert cfg) "") as [He|Hne]; cbn [negb].
  - intros [(t1 & t2 & [] & -> & _ & -> & [= <-])|(e & _ & [=])]%exec_bind_ext_inv. split; [done|]. split; [done|].
    exists []. by rewrite app_nil_r, He.
  - intros [(t1 & t2 & ca & -> & Hca & [(t3 & t4 & [] & -> & _ & -> & [= <-])|(e & _ & [=])]%exec_bind_ext_inv)|(e & _ & [=])]%exec_bind_ext_inv.
    split; [done|]. split; [done|]. exists [ca]. split; [done|]. destruct (String.eqb_spec (CaCert cfg) ""); [done|].
    apply exec_bind_ext_inv in Hca as [(u1 & u2 & pem & -> & ->%exec_bc_inv & Hca)|(e & _ & [=])].
    apply exec_bind_ext_inv in Hca as [(u3 & u4 & [] & -> & _ & (u5 & u6 & ok & -> & _ & Hok)%exec_bind_inv)|(e & _ & [=])].
    destruct ok; destruct Hok as [_ [= <-]]. exists pem. split; [done|]. by left.
Qed.

Lemma makeAzureBucket_serves n cfg t c :
  BackendType cfg = BackendTypeAzure → exec (makeAzureBucket (options_of n cfg) (BucketName cfg)) t (inr c) → serves cfg t c.
Proof.
  intros Hb (t1 & t2 & s & -> & ->%exec_bc_inv & H)%exec_bind_inv.
  cbn in s. destruct (String.eqb_spec s "") as [He|Hs]; cbn [negb] in H; [subst s|].
  - apply exec_bind_ext_inv in H as [(t3 & t4 & url & -> & Hu & H)|(e & _ & [=])].
    apply exec_bind_ext_inv in H as [(t5 & t6 & [] & -> & _ & H)|(e & _ & [=])].
    apply exec_bind_ext_inv in H as [(t7 & t8 & [] & -> & _ & -> & [= <-])|(e & _ & [=])].
    split; [done|]. split; [done|]. split; [by left|]. unfold azureServiceURL in Hu. cbn [endpointURL options_of] in Hu.
    destruct (String.eqb_spec (EndpointURL cfg) ""); cbn [negb] in Hu; [|by destruct Hu as [_ [= <-]]].
    apply exec_bind_inv in Hu as (u1 & u2 & account & -> & ->%exec_bc_inv & Hu).
    cbn in account. destruct (String.eqb_spec account ""); destruct Hu as [_ [= <-]]. exists account. split; [done|]. split; [|done].
    by right; left.
  - apply exec_bind_ext_inv in H as [(t3 & t4 & [] & -> & _ & -> & [= <-])|(e & _ & [=])]. split_and!; [done..|]. by left.
Qed.

Lemma makeBucket_serves n cfg t c :
  known_backend cfg → exec (makeBucket (options_of n cfg) (BucketName cfg)) t (inr c) → serves cfg t c.
Proof.
  unfold known_backend, makeBucket. cbn [backendType options_of]. rewrite !elem_of_cons.
  intros [Hb|[Hb|[Hb|[Hb|[]%elem_of_nil]]]] H; rewrite Hb in H; cbn in H.
  - apply makeS3Bucket_serves in H; [done|]. rewrite Hb. by left.
  - apply makeS3Bucket_serves in H; [done|]. rewrite Hb. by right; left.
  - destruct t as [|e t]; [done|]. destruct H as ([e'|[]] & _ & H); destruct H as [_ [= <-]]. by split.
  - by apply makeAzureBucket_serves in H.
Qed.

(** ** The backup job *)

Section backup_job.
Context {RC : ConflictRetry bkSig}.
Variable Unmarshal_gtidExecuted : string → extres string.

(** The manager of a cluster as the command starts it. *)
Definition started_manager (c : MySQLCluster) (password : string) (n : Z) (bm : BackupManager) : Prop :=
  bm_cluster bm = c ∧ bm_mysqlPassword bm = password ∧ bm_threads bm = n ∧ bm_workDir bm = "/work" ∧ bm_warnings bm = [].

Lemma backupCmd_exec ca password bucket ns name t :
  exec (backupCmd_RunE Unmarshal_gtidExecuted ca password [bucket; ns; name]) t (Return ()) →
  ∃ t1 t2 t3 c bm bm', t = t1 ++ ev (S := bkSig) (KGetCluster ns name) (inr c) :: t2 ++ t3 ∧
    exec (BackupManager_Backup Unmarshal_gtidExecuted bm) t3 (bm', Return ()) ∧
    bm_cluster bm = c ∧ bm_mysqlPassword bm = password ∧ bm_threads bm = threads ca ∧ bm_workDir bm = workDir ca ∧
    bm_warnings bm = [].
Proof.
  intros (u1 & u2 & r & -> & H1 & H2)%exec_bind_inv. destruct r as [e|bm]; [by destruct H2 as [_ [=]]|].
  apply exec_bind_inv in H2 as (u3 & u4 & [bm' o] & -> & H2 & -> & Ho). cbn in Ho. subst o. rewrite app_nil_r.
  apply exec_bind_ext_inv in H1 as [(v1 & w1 & [] & -> & _ & H1)|(e & _ & [=])].
  apply exec_bind_ext_inv in H1 as [(v2 & w2 & [] & -> & _ & H1)|(e & _ & [=])].
  apply exec_wrap_err_inv in H1 as ([e|bm0] & H1 & [= ->]).
  apply exec_bind_ext_inv in H1 as [(v3 & w3 & [] & -> & _ & H1)|(e & _ & [=])].
  apply exec_bind_ext_inv in H1 as [(v4 & w4 & [] & -> & _ & H1)|(e & _ & [=])].
  apply exec_bind_ext_inv in H1 as [(v5 & w5 & [] & -> & _ & H1)|(e & _ & [=])].
  apply exec_bind_ext_inv in H1 as [(v6 & w6 & c & -> & Hc & H1)|(e & _ & [=])].
  apply exec_wrap_err_inv in Hc as ([e|c'] & ->%exec_bk_inv & [= <-]).
  apply exec_bind_ext_inv in H1 as [(v7 & w7 & [] & -> & _ & -> & [= <-])|(e & _ & [=])].
  exists (v1 ++ v2 ++ v3 ++ v4 ++ v5), (v7 ++ []), u3. eexists c, _, bm'. split; [by rewrite <- !app_assoc|].
  split; [exact H2|]. by split_and!.
Qed.

End backup_job.

(** ** At a concrete cluster *)

(** A daily backup into the bucket of the sample job. *)
Definition bucket_policy : BackupPolicySpec :=
  let s := bp_Spec sample_policy in
  {| bp_Schedule := "0 3 * * *"; bp_TimeZone := bp_TimeZone s; bp_JobConfig := sample_job;
     bp_StartingDeadlineSeconds := bp_StartingDeadlineSeconds s; bp_ConcurrencyPolicy := bp_ConcurrencyPolicy s;
     bp_ActiveDeadlineSeconds := bp_ActiveDeadlineSeconds s; bp_BackoffLimit := bp_BackoffLimit s;
     bp_SuccessfulJobsHistoryLimit := bp_SuccessfulJobsHistoryLimit s;
     bp_FailedJobsHistoryLimit := bp_FailedJobsHistoryLimit s |}.

