(* ===== verification/Main.v ===== *)
(** * Starting the controller (cmd/moco-controller)

    The options of the command and [subMain]: which parts are set up, with what,
    in which order, and what is stopped at the end.  The constructors of
    controller-runtime, the registrations and [net.SplitHostPort] are calls. *)

From S2P Require Import Prelude Prog GoLib Constants.
#[local] Open Scope Z_scope.

(* version.go:5-5 Version *)
Definition Version : string := "0.36.0".
(* version.go:8-8 FluentBitImage *)
Definition defaultFluentBitImage : string := "ghcr.io/cybozu-go/moco/fluent-bit:5.0.2.1".
(* version.go:11-11 ExporterImage *)
Definition defaultExporterImage : string := "ghcr.io/cybozu-go/moco/mysqld_exporter:0.19.0.1".

(** ** The options *)

(** Durations in nanoseconds; the options of the logger are left out. *)
(* cmd/moco-controller/cmd/root.go:25-46 config *)
Record Config := {
  metricsAddr : string; probeAddr : string; pprofAddr : string; leaderElectionID : string; webhookAddr : string;
  certDir : string; grpcCertDir : string; agentImage : string; backupImage : string; fluentBitImage : string;
  exporterImage : string; pvcSyncAnnotationKeys : list string; pvcSyncLabelKeys : list string; interval : Z;
  maxConcurrentReconciles : Z; mySQLConfigMapHistoryLimit : Z; partitionUpdateInterval : Z; qps : Z;
  disableDefaultSecurityContext : bool
}.

(** The image of moco-agent of the version the program was built with; [None] is a
    panic.  [deps] are the modules of the build information with their versions, if
    there is any. *)
(* cmd/moco-controller/cmd/root.go:48-63 init *)
Fixpoint agentImageOf (deps : list (string * string)) : option string :=
  match deps with
  | [] => None
  | (path, version) :: rest =>
      if path <>s "github.com/cybozu-go/moco-agent" then agentImageOf rest
      else if (2 <? Z.of_nat (String.length version)) && has_prefix version "v"
      then Some ("ghcr.io/cybozu-go/moco-agent:" +:+ drop_str 1 version)
      else agentImageOf rest
  end.
Definition defaultAgentImage (info : option (list (string * string))) : option string :=
  match info with None => Some "" | Some deps => agentImageOf deps end.

(* cmd/moco-controller/cmd/root.go:98-121 init *)
Definition defaultConfig (defaultAgentImage : string) : Config :=
  {| metricsAddr := ":8080"; probeAddr := ":8081"; pprofAddr := ""; leaderElectionID := "moco"; webhookAddr := ":9443";
     certDir := ""; grpcCertDir := "/grpc-cert"; agentImage := defaultAgentImage;
     backupImage := "ghcr.io/cybozu-go/moco-backup:" +:+ Version; fluentBitImage := defaultFluentBitImage;
     exporterImage := defaultExporterImage; pvcSyncAnnotationKeys := []; pvcSyncLabelKeys := [];
     interval := 60 * 1000000000; maxConcurrentReconciles := 8; mySQLConfigMapHistoryLimit := 10;
     partitionUpdateInterval := 0; qps := 20; disableDefaultSecurityContext := false |}.

(** ** Calls *)

(** What is registered with the manager. *)
Inductive component :=
| MySQLClusterReconciler (agentImage backupImage fluentBitImage exporterImage systemNamespace : string)
    (pvcSyncAnnotationKeys pvcSyncLabelKeys : list string) (maxConcurrentReconciles historyLimit : Z)
    (disableDefaultSecurityContext : bool)
| StatefulSetPartitionReconciler (maxConcurrentReconciles updateInterval : Z)   (* with its rate limiter *)
| PodWatcher (maxConcurrentReconciles : Z)
| Webhook (kind : string)
| HealthzCheck | ReadyzCheck.

(** [qps] and the burst are those of the client; the lock is in the namespace. *)
Inductive maincall :=
| MSplitHostPort (addr : string)
| MGetenv (name : string)
| MGetConfig
| MNewManager (qps burst : Z) (metricsAddr probeAddr pprofAddr leaderElectionID namespace host : string) (port : Z) (certDir : string)
| MNewReloader (dir : string)
| MNewClusterManager (interval : Z)
| MSetupSignalHandler
| MSetup (c : component)
| MRegisterMetrics
| MRunReloader (interval : Z)                  (* go reloader.Run *)
| MStart
| MStopAll                                     (* clusterMgr.StopAll *)
| MCleanup.                                    (* opf.Cleanup *)

Definition mainresp (c : maincall) : Type :=
  match c with
  | MSplitHostPort _ => extres (string * string)
  | MGetenv _ => string
  | MNewClusterManager _ | MSetupSignalHandler | MRegisterMetrics | MRunReloader _ | MStopAll | MCleanup => unit
  | _ => extres unit
  end.

Definition mainSig : signature := {| call := maincall; resp := mainresp |}.
Definition mc (c : maincall) : prog mainSig (mainresp c) := @perform mainSig c.

(** ** subMain *)

(** The steps [if err := ...; err != nil { return err }] one after another. *)
Fixpoint setup_all (cs : list component) : prog mainSig (extres unit) :=
  match cs with
  | [] => Ret (inr ())
  | c :: rest => _ <-! mc (MSetup c) ;; setup_all rest
  end.

Section main.
Variable config : Config.

(* cmd/moco-controller/cmd/run.go:107-169 subMain *)
Definition components (ns : string) : list component :=
  [MySQLClusterReconciler (agentImage config) (backupImage config) (fluentBitImage config) (exporterImage config) ns
     (pvcSyncAnnotationKeys config) (pvcSyncLabelKeys config) (maxConcurrentReconciles config)
     (mySQLConfigMapHistoryLimit config) (disableDefaultSecurityContext config);
   StatefulSetPartitionReconciler (maxConcurrentReconciles config) (partitionUpdateInterval config);
   PodWatcher (maxConcurrentReconciles config);
   Webhook "MySQLCluster"; Webhook "BackupPolicy"; Webhook "StatefulSet"; HealthzCheck; ReadyzCheck].

(** A deferred call. *)
Definition defer_main {A} (c : maincall) (p : prog mainSig A) : prog mainSig A :=
  a <-- p ;; _ <-- mc c ;; Ret a.

(** From the cluster manager on. *)
(* cmd/moco-controller/cmd/run.go:105-179 subMain *)
Definition runManager (ns : string) : prog mainSig (extres unit) :=
  _ <-- mc MSetupSignalHandler ;;
  _ <-! setup_all (components ns) ;;
  _ <-- mc MRegisterMetrics ;;
  _ <-- mc (MRunReloader (3600 * 1000000000)) ;;
  mc MStart.

(** The burst is the number of queries times 1.5, which float32 computes exactly
    for the numbers below 2^23. *)
(* cmd/moco-controller/cmd/run.go :: subMain *)
Definition subMain (ns addr : string) (port : Z) : prog mainSig (extres unit) :=
  _ <-! mc MGetConfig ;;
  _ <-! mc (MNewManager (qps config) (Z.quot (qps config * 3) 2) (metricsAddr config) (probeAddr config) (pprofAddr config)
              (leaderElectionID config) ns addr port (certDir config)) ;;
  defer_main MCleanup
    (_ <-! mc (MNewReloader (grpcCertDir config)) ;;
     _ <-- mc (MNewClusterManager (interval config)) ;;
     defer_main MStopAll (runManager ns)).

(** ** The command *)

(* cmd/moco-controller/cmd/root.go:71-86 rootCmd *)
Definition rootCmd_RunE : prog mainSig (extres unit) :=
  let invalid := "invalid webhook address: " +:+ webhookAddr config in
  hp <-! wrap_err invalid (mc (MSplitHostPort (webhookAddr config))) ;;
  match Atoi hp.2 with
  | None => Ret (inl (ErrWrap invalid (ErrNew ("strconv.Atoi: " +:+ hp.2))))
  | Some numPort =>
      ns <-- mc (MGetenv PodNamespaceEnvKey) ;;
      if ns =s "" then Ret (inl (ErrNew ("no environment variable " +:+ PodNamespaceEnvKey)))
      else subMain ns hp.1 numPort
  end.
End main.

(** ** What holds *)

(** The parts were set up successfully, in order. *)
Definition set_up (cs : list component) : trace mainSig := (λ c, ev (S := mainSig) (MSetup c) (inr ())) <$> cs.

Lemma setup_all_exec cs t r :
  exec (setup_all cs) t r →
  (r = inr () ∧ t = set_up cs) ∨
  (∃ e cs1 c cs2, r = inl e ∧ cs = cs1 ++ c :: cs2 ∧ t = set_up cs1 ++ [ev (S := mainSig) (MSetup c) (inl e)]).
Proof.
  revert t. induction cs as [|c cs IH]; intros t; cbn [setup_all].
  { intros [-> <-]. by left. }
  destruct t as [|e t]; [done|]. intros ([err|[]] & -> & H).
  - destruct H as [-> <-]. right. exists err, [], c, cs. done.
  - apply IH in H as [[-> ->]|(err & cs1 & c' & cs2 & -> & -> & ->)]; [by left|]. right.
    exists err, (c :: cs1), c', cs2. done.
Qed.

Definition started (r : extres unit) : event mainSig := ev (S := mainSig) MStart r.

(** The events of a run of [runManager]: a setup that failed, or all of them, then
    the metrics, the reloader, and the manager last. *)
Lemma runManager_exec config ns t r :
  exec (runManager config ns) t r →
  (∃ t', t = ev (S := mainSig) MSetupSignalHandler () :: t' ∧ (∃ e, r = inl e) ∧
     ∀ e, e ∈ t' → ∃ c r', e = ev (S := mainSig) (MSetup c) r') ∨
  t = ev (S := mainSig) MSetupSignalHandler () :: set_up (components config ns) ++
      [ev (S := mainSig) MRegisterMetrics (); ev (S := mainSig) (MRunReloader 3600000000000) (); started r].
Proof.
  unfold runManager. destruct t as [|e t]; [done|]. intros ([] & -> & H). cbn [bind mc perform] in H.
  apply exec_bind_ext_inv in H as [(t1 & t2 & [] & -> & H1 & H2)|(e & H1 & ->)].
  - right. apply setup_all_exec in H1 as [[_ ->]|(? & ? & ? & ? & [=] & _)].
    destruct t2 as [|e2 t2]; [done|]. destruct H2 as ([] & -> & H2).
    destruct t2 as [|e3 t2]; [done|]. destruct H2 as ([] & -> & H2).
    destruct t2 as [|e4 t2]; [done|]. by destruct H2 as (r' & -> & -> & <-).
  - left. exists t. split; [done|]. split; [eauto|].
    apply setup_all_exec in H1 as [[[=] _]|(e' & cs1 & c & cs2 & _ & _ & ->)].
    intros ev0 [(c0 & -> & _)%list_elem_of_fmap|Hin%list_elem_of_singleton]%elem_of_app; eauto.
Qed.

(** Starts of the manager. *)
Definition is_start (e : event mainSig) : bool := match projT1 e with MStart => true | _ => false end.

Lemma one_start l1 r l2 t1 r' t2 :
  Forall (λ e, is_start e = false) l1 → Forall (λ e, is_start e = false) l2 →
  l1 ++ started r :: l2 = t1 ++ started r' :: t2 → t1 = l1 ∧ r' = r ∧ t2 = l2.
Proof.
  intros H1 H2. revert t1. induction H1 as [|e l1 He H1 IH]; intros [|e' t1] Heq; cbn [app] in Heq.
  - assert (started r = started r' ∧ l2 = t2) as [Hr ->] by (split; congruence). by apply ev_inj in Hr.
  - assert (l2 = t1 ++ started r' :: t2) as -> by congruence. apply Forall_app in H2 as [_ [H2 _]%Forall_cons]. done.
  - assert (e = started r') as -> by congruence. done.
  - assert (e = e' ∧ l1 ++ started r :: l2 = t1 ++ started r' :: t2) as [-> Heq'] by (split; congruence).
    apply IH in Heq' as (-> & -> & ->). done.
Qed.

Lemma no_start l t1 r t2 : Forall (λ e, is_start e = false) l → l ≠ t1 ++ started r :: t2.
Proof. intros H ->. apply Forall_app in H as [_ [H _]%Forall_cons]. done. Qed.

Section startup.
Variable config : Config.
Variable (ns addr : string) (port : Z).

Definition new_manager : maincall :=
  MNewManager (qps config) (Z.quot (qps config * 3) 2) (metricsAddr config) (probeAddr config) (pprofAddr config)
    (leaderElectionID config) ns addr port (certDir config).

(** What happened when the clients and the manager were made, and what follows
    them up to the cluster manager. *)
Definition made : trace mainSig := [ev (S := mainSig) MGetConfig (inr ()); ev (S := mainSig) new_manager (inr ())].
Definition prepared : trace mainSig :=
  made ++ [ev (S := mainSig) (MNewReloader (grpcCertDir config)) (inr ());
           ev (S := mainSig) (MNewClusterManager (interval config)) ()].
Definition stopped : trace mainSig := [ev (S := mainSig) MStopAll (); ev (S := mainSig) MCleanup ()].

Lemma subMain_exec t r :
  exec (subMain config ns addr port) t r →
  (∃ e, r = inl e ∧
     (t = [ev (S := mainSig) MGetConfig (inl e)] ∨
      t = [ev (S := mainSig) MGetConfig (inr ()); ev (S := mainSig) new_manager (inl e)] ∨
      t = made ++ [ev (S := mainSig) (MNewReloader (grpcCertDir config)) (inl e); ev (S := mainSig) MCleanup ()])) ∨
  ∃ t', t = prepared ++ t' ++ stopped ∧ exec (runManager config ns) t' r.
Proof.
  unfold subMain. destruct t as [|e1 t]; [done|]. intros ([err|[]] & -> & H).
  { destruct H as [-> <-]. left. eauto 10. }
  destruct t as [|e2 t]; [done|]. destruct H as ([err|[]] & -> & H).
  { destruct H as [-> <-]. left. eauto 10. }
  destruct t as [|e3 t]; [done|]. destruct H as ([err|[]] & -> & H).
  { destruct t as [|e4 t]; [done|]. destruct H as ([] & -> & -> & <-). left. eauto 10. }
  destruct t as [|e4 t]; [done|]. destruct H as ([] & -> & H). right.
  apply exec_bind_inv in H as (t1 & t2 & r1 & -> & H1 & H2).
  destruct t2 as [|e5 t2]; [done|]. destruct H2 as ([] & -> & -> & <-).
  change (exec (defer_main MStopAll (runManager config ns)) t1 r1) in H1.
  apply exec_bind_inv in H1 as (t3 & t4 & r2 & -> & H3 & H4).
  destruct t4 as [|e6 t4]; [done|]. destruct H4 as ([] & -> & -> & <-).
  exists t3. split; [|done]. unfold prepared, made, stopped. cbn. by rewrite <- app_assoc.
Qed.

(** Everything up to the start of the manager. *)
Definition complete : trace mainSig :=
  prepared ++ ev (S := mainSig) MSetupSignalHandler () :: set_up (components config ns) ++
  [ev (S := mainSig) MRegisterMetrics (); ev (S := mainSig) (MRunReloader 3600000000000) ()].

Lemma subMain_start t r :
  exec (subMain config ns addr port) t r →
  (∃ r', t = complete ++ started r' :: stopped ∧ r = r') ∨
  (Forall (λ e, is_start e = false) t ∧ ∃ e, r = inl e).
Proof.
  intros [(e & -> & Ht)|(t' & -> & H)]%subMain_exec.
  { right. split; [|eauto]. destruct Ht as [H|[H|H]]; subst t; by repeat constructor. }
  pose proof H as Hex. apply runManager_exec in H as [(t1 & -> & [e ->] & Hs)| ->].
  - right. split; [|eauto]. apply Forall_app; split; [by repeat constructor|]. apply Forall_app; split; [|by repeat constructor].
    constructor; [done|]. apply Forall_forall. intros e0 He0. by destruct (Hs e0 He0) as (c & r' & ->).
  - left. exists r. split; [|done]. unfold complete. by rewrite <- !app_assoc, <- app_comm_cons, <- !app_assoc.
Qed.

Lemma complete_no_start : Forall (λ e, is_start e = false) complete.
Proof. repeat constructor. Qed.

(** The controller starts complete and stops clean.  The manager is started at
    most once, after the certificates were loaded, every controller, webhook and
    health check was set up, the metrics were registered and the reloader was
    started, and the result is that of the manager; after it all cluster goroutines
    are stopped and then the connections cleaned up, and nothing else happens.
    Without a start there is an error.  However the command ends, the connections
    are cleaned up last once the manager was made, and the goroutines stopped before
    if there can be any. *)
Theorem startup_complete t r :
  exec (subMain config ns addr port) t r →
  (∀ t1 r' t2, t = t1 ++ started r' :: t2 → t1 = complete ∧ r' = r ∧ t2 = stopped) ∧
  (r = inr () → started (inr ()) ∈ t) ∧
  (ev (S := mainSig) new_manager (inr ()) ∈ t → last t = Some (ev (S := mainSig) MCleanup ())) ∧
  (ev (S := mainSig) (MNewClusterManager (interval config)) () ∈ t → ∃ t0, t = t0 ++ stopped).
Proof.
  intros Hex. split; [|split].
  - intros t1 r' t2 Heq. destruct (subMain_start _ _ Hex) as [(r0 & -> & ->)|[Hno _]]; [|by apply no_start in Heq].
    by apply (one_start complete r0 stopped t1 r' t2) in Heq; [|apply complete_no_start|repeat constructor].
  - intros ->. destruct (subMain_start _ _ Hex) as [(r' & -> & <-)|[_ [e [=]]]]. apply elem_of_app. right. by left.
  - destruct (subMain_exec _ _ Hex) as [(e & _ & Ht)|(t' & -> & _)].
    + assert (∀ l, ev (S := mainSig) (MNewClusterManager (interval config)) () ∈ l →
                Forall (λ e : event mainSig, match projT1 e with MNewClusterManager _ => False | _ => True end) l → False) as Hno.
      { intros l Hin Hall. rewrite Forall_forall in Hall. exact (Hall _ Hin). }
      destruct Ht as [H|[H|H]]; subst t; (split; [|intros Hin; exfalso; by apply (Hno _ Hin); repeat constructor]).
      * intros Hin%list_elem_of_singleton. discriminate.
      * intros [Hin|Hin%list_elem_of_singleton]%elem_of_cons; [discriminate|]. by apply ev_inj in Hin.
      * done.
    + split; [|intros _; exists (prepared ++ t'); by rewrite app_assoc].
      intros _. unfold stopped. rewrite app_assoc. change [?a; ?b] with ([a] ++ [b]). by rewrite app_assoc, last_snoc.
Qed.
End startup.

(** ** At the default configuration *)

Definition default_config : Config := defaultConfig "ghcr.io/cybozu-go/moco-agent:0.15.2".

(** Everything succeeds. *)
Definition main_api (c : maincall) (s : unit) : mainresp c * unit :=
  (match c return mainresp c with
   | MSplitHostPort _ => inr ("", "9443")
   | MGetenv _ => "moco-system"
   | MNewClusterManager _ | MSetupSignalHandler | MRegisterMetrics | MRunReloader _ | MStopAll | MCleanup => ()
   | _ => inr ()
   end, s).

Lemma startup_complete_witness :
  started (inr ()) ∈ (run (S := mainSig) main_api (subMain default_config "moco-system" "" 9443) ()).1.
Proof.
  destruct (startup_complete default_config "moco-system" "" 9443 _ _
    (run_exec (S := mainSig) main_api (subMain default_config "moco-system" "" 9443) ())) as (_ & H & _).
  apply H. reflexivity.
Defined.
