(* ===== verification/PodWatcher.v ===== *)
(** * The Pod watcher (controllers/pod_watcher.go)

    [PodWatcher.Reconcile] tells the cluster manager when a Pod of a MySQLCluster
    is being deleted or is asked to step down.  [metav1.GetControllerOfNoCopy]
    and [schema.ParseGroupVersion] are parameters with their documented laws. *)

From S2P Require Import Prelude Prog GoLib Constants Api K8s StatefulSets Samples Manager.
#[local] Open Scope Z_scope.

(** ** Helpers of k8s.io packages *)

Class OwnerUtils := {
  GetControllerOfNoCopy : list OwnerReference → option OwnerReference;
  (** "returns a pointer to the controllerRef if controllee has a controller" *)
  GetControllerOf_spec l :
    GetControllerOfNoCopy l = head (filter (λ o, owner_Controller o = true) l);
  (** "<group>/<version>", or a version alone, of the core group; an error for
      more than one slash *)
  ParseGroup : string → extres string;
  ParseGroup_group g v : no_char "/" g = true → no_char "/" v = true → ParseGroup (g +:+ "/" +:+ v) = inr g;
  ParseGroup_inv s g : ParseGroup s = inr g → g ≠ "" → ∃ v, no_char "/" v = true ∧ s = g +:+ "/" +:+ v
}.

(** A concrete instance. *)
Definition parse_group (s : string) : extres string :=
  match split_n2 "/" s with
  | [g; v] => if no_char "/" v then inr g else inl (ErrNew ("unexpected GroupVersion string: " +:+ s))
  | _ => inr ""
  end.

#[refine] Definition owner_utils_split : OwnerUtils :=
  {| GetControllerOfNoCopy l := head (filter (λ o, owner_Controller o = true) l); ParseGroup := parse_group |}.
Proof.
  - done.
  - intros g v Hg Hv. unfold parse_group. change (g +:+ "/" +:+ v) with (g +:+ String "/" v).
    by rewrite split_n2_no_sep, Hv.
  - intros s g. unfold parse_group. destruct (split_n2 "/" s) as [|g' [|v [|]]] eqn:E; intros [= H] Hne; [by subst..| |by subst].
    destruct (no_char "/" v) eqn:Hv; [|done]. injection H as ->. exists v. split; [done|].
    by apply split_n2_join.
Defined.

(** ** Calls *)

Inductive wpcall :=
| PWGetPod (namespace name : string)
| PWGetStatefulSet (namespace name : string)
| PWUpdateNoStart (namespace name : string).   (* r.ClusterManager.UpdateNoStart *)

Definition wpresp (c : wpcall) : Type :=
  match c with
  | PWGetPod _ _ => extres Pod
  | PWGetStatefulSet _ _ => extres StatefulSet
  | PWUpdateNoStart _ _ => unit
  end.

Definition watchSig : signature := {| call := wpcall; resp := wpresp |}.
Definition wpcall_ (c : wpcall) : prog watchSig (wpresp c) := @perform watchSig c.

(** ** The handler *)

(** The Pod is going away or is asked to step down. *)
(* controllers/pod_watcher.go:44-46 PodWatcher.Reconcile *)
Definition podStays (pod : Pod) : bool :=
  bool_decide (pod_DeletionTimestamp pod = None) && (map_str (pod_Annotations pod) AnnDemote <>s "true").

Section watcher.
Context {OU : OwnerUtils}.

(** The controller among some owners, if it is of this kind and group. *)
(* controllers/pod_watcher.go:48-59 PodWatcher.Reconcile *)
Definition controllerOfKind (kind group : string) (owners : list OwnerReference) : option OwnerReference :=
  match GetControllerOfNoCopy owners with
  | None => None
  | Some ref =>
      match ParseGroup (owner_APIVersion ref) with
      | inl _ => None
      | inr g => if (owner_Kind ref <>s kind) || (g <>s group) then None else Some ref
      end
  end.

Definition appsGroup : string := "apps".

(** [client.IgnoreNotFound]. *)
Definition IgnoreNotFound (e : error) : extres unit := if is_not_found e then inr () else inl e.

(* controllers/pod_watcher.go :: PodWatcher.Reconcile *)
Definition PodWatcher_Reconcile (namespace name : string) : prog watchSig (extres unit) :=
  r <-- wpcall_ (PWGetPod namespace name) ;;
  match r with
  | inl e => Ret (IgnoreNotFound e)
  | inr pod =>
      if podStays pod then Ret (inr ()) else
      match controllerOfKind "StatefulSet" appsGroup (pod_OwnerReferences pod) with
      | None => Ret (inr ())
      | Some ref =>
          r <-- wpcall_ (PWGetStatefulSet (pod_Namespace pod) (owner_Name ref)) ;;
          match r with
          | inl e => Ret (IgnoreNotFound e)
          | inr sts =>
              match controllerOfKind "MySQLCluster" (GroupVersion_Group) (meta_OwnerReferences (sts_Meta sts)) with
              | None => Ret (inr ())
              | Some ref =>
                  _ <-- wpcall_ (PWUpdateNoStart (pod_Namespace pod) (owner_Name ref)) ;;
                  Ret (inr ())
              end
          end
      end
  end.
End watcher.
