(* ===== verification/PodWatcherSpec.v ===== *)
(** * What the Pod watcher guarantees

    When it tells the cluster manager, and, composed with the manager, that a Pod
    that goes away wakes the goroutine of its cluster and starts none. *)

From S2P Require Import Prelude Prog GoLib Constants Api K8s StatefulSets Samples Manager PodWatcher.
#[local] Open Scope Z_scope.

(** The Pod is being deleted or is asked to step down. *)
Definition leaving (pod : Pod) : Prop :=
  pod_DeletionTimestamp pod ≠ None ∨ pod_Annotations pod !! AnnDemote = Some "true".

Lemma podStays_spec pod : podStays pod = false ↔ leaving pod.
Proof.
  unfold podStays, leaving, map_str. rewrite andb_false_iff, bool_decide_eq_false, negb_false_iff, String.eqb_eq.
  destruct (pod_Annotations pod !! AnnDemote) as [v|]; cbn; naive_solver.
Qed.

(** The controller among the owners is [ref], of this kind and group. *)
Definition controlled_by (kind group : string) (owners : list OwnerReference) (ref : OwnerReference) : Prop :=
  head (filter (λ o, owner_Controller o = true) owners) = Some ref ∧ owner_Kind ref = kind ∧
  ∃ v, no_char "/" v = true ∧ owner_APIVersion ref = group +:+ "/" +:+ v.

(** The calls made for a Pod of a cluster that goes away. *)
Definition wakes (namespace name : string) (pod : Pod) (ref : OwnerReference) (sts : StatefulSet) (cref : OwnerReference)
    : trace watchSig :=
  [ev (S := watchSig) (PWGetPod namespace name) (inr pod);
   ev (S := watchSig) (PWGetStatefulSet (pod_Namespace pod) (owner_Name ref)) (inr sts);
   ev (S := watchSig) (PWUpdateNoStart (pod_Namespace pod) (owner_Name cref)) ()].

Definition of_cluster (pod : Pod) (ref : OwnerReference) (sts : StatefulSet) (cref : OwnerReference) : Prop :=
  controlled_by "StatefulSet" appsGroup (pod_OwnerReferences pod) ref ∧
  controlled_by "MySQLCluster" GroupVersion_Group (meta_OwnerReferences (sts_Meta sts)) cref.

Section watcher.
Context {OU : OwnerUtils}.

Lemma controllerOfKind_spec kind group owners ref :
  group ≠ "" → no_char "/" group = true →
  controllerOfKind kind group owners = Some ref ↔ controlled_by kind group owners ref.
Proof.
  intros Hne Hg. unfold controllerOfKind, controlled_by. rewrite GetControllerOf_spec. split.
  - destruct (head _) as [o|]; [|done]. destruct (ParseGroup (owner_APIVersion o)) as [|g] eqn:Hp; [done|].
    destruct (_ || _) eqn:E; [done|]. intros [= <-].
    apply orb_false_iff in E as [Hk%negb_false_iff%String.eqb_eq Hv%negb_false_iff%String.eqb_eq].
    subst. split; [done|]. split; [done|].
    by apply ParseGroup_inv.
  - intros (-> & <- & v & Hv & ->). rewrite ParseGroup_group by done. by rewrite !String.eqb_refl.
Qed.

(** What a run read about a Pod of a cluster that goes away. *)
Definition saw (namespace name : string) (t : trace watchSig) (pod : Pod) (ref : OwnerReference) (sts : StatefulSet)
    (cref : OwnerReference) : Prop :=
  ev (S := watchSig) (PWGetPod namespace name) (inr pod) ∈ t ∧ leaving pod ∧
  ev (S := watchSig) (PWGetStatefulSet (pod_Namespace pod) (owner_Name ref)) (inr sts) ∈ t ∧ of_cluster pod ref sts cref.

(** Which event of a short trace is meant. *)
Ltac seen H :=
  repeat match type of H with
    | _ ∈ _ :: _ => apply elem_of_cons in H as [H|H]; [first [discriminate H|apply ev_inj in H; try discriminate H]|]
    | _ ∈ [] => exfalso; by apply elem_of_nil in H
    end.

Lemma saw_pod namespace name r t pod ref sts cref :
  saw namespace name (ev (S := watchSig) (PWGetPod namespace name) r :: t) pod ref sts cref →
  (∀ ns n r', ev (S := watchSig) (PWGetPod ns n) r' ∉ t) →
  r = inr pod ∧ leaving pod ∧ controllerOfKind "StatefulSet" appsGroup (pod_OwnerReferences pod) = Some ref ∧
  controllerOfKind "MySQLCluster" GroupVersion_Group (meta_OwnerReferences (sts_Meta sts)) = Some cref ∧
  ev (S := watchSig) (PWGetStatefulSet (pod_Namespace pod) (owner_Name ref)) (inr sts) ∈ t.
Proof.
  intros (Hp & Hl & Hs & Ho) Hno. apply elem_of_cons in Hp as [Hp|Hp]; [|by apply Hno in Hp]. apply ev_inj in Hp.
  apply elem_of_cons in Hs as [Hs|Hs]; [discriminate|]. destruct Ho as [Hr Hc].
  split_and!; [done|done| | |done]; by apply controllerOfKind_spec.
Qed.

(** The manager is told, last, exactly for a Pod that goes away and belongs to
    the StatefulSet of a cluster. *)
Lemma PodWatcher_tells namespace name t o :
  exec (PodWatcher_Reconcile namespace name) t o →
  (∃ pod ref sts cref, saw namespace name t pod ref sts cref ∧ t = wakes namespace name pod ref sts cref) ∨
  (∀ ns n r, ev (S := watchSig) (PWUpdateNoStart ns n) r ∉ t) ∧
  (∀ pod ref sts cref, ¬ saw namespace name t pod ref sts cref).
Proof.
  unfold PodWatcher_Reconcile. cbn [bind wpcall_ perform].
  destruct t as [|e1 t]; [done|]. intros ([e|pod] & -> & Hex).
  { destruct Hex as [-> _]. right. split; [intros ns n r H; seen H|].
    intros p ref sts cref H. apply saw_pod in H as [H _]; [done|intros ? ? ? []%elem_of_nil]. }
  destruct (podStays pod) eqn:Hstay.
  { destruct Hex as [-> _]. right. split; [intros ns n r H; seen H|].
    intros p ref sts cref H. apply saw_pod in H as ([= ->] & Hl & _); [|intros ? ? ? []%elem_of_nil].
    apply podStays_spec in Hl. congruence. }
  apply podStays_spec in Hstay.
  destruct (controllerOfKind "StatefulSet" _ _) as [ref|] eqn:Href.
  2: { destruct Hex as [-> _]. right. split; [intros ns n r H; seen H|].
       intros p ref sts cref H. apply saw_pod in H as ([= ->] & _ & H & _); [congruence|intros ? ? ? []%elem_of_nil]. }
  destruct t as [|e2 t]; [done|]. destruct Hex as ([e|sts] & -> & Hex).
  { destruct Hex as [-> _]. right. split; [intros ns n r H; seen H|].
    intros p ref' sts cref H. apply saw_pod in H as ([= ->] & _ & Hr & _ & Hs); [|intros ? ? ? H'; seen H'].
    rewrite Href in Hr. injection Hr as <-. seen Hs. }
  destruct (controllerOfKind "MySQLCluster" _ _) as [cref|] eqn:Hcref.
  2: { destruct Hex as [-> _]. right. split; [intros ns n r H; seen H|].
       intros p ref' sts' cref' H. apply saw_pod in H as ([= ->] & _ & Hr & Hc & Hs); [|intros ? ? ? H'; seen H'].
       rewrite Href in Hr. injection Hr as <-. seen Hs. congruence. }
  destruct t as [|e3 t]; [done|]. destruct Hex as ([] & -> & -> & <-). left.
  exists pod, ref, sts, cref. split; [|done].
  split; [by left|]. split; [done|]. split; [by right; left|]. by split; apply controllerOfKind_spec.
Qed.

Lemma saw_wakes namespace name pod ref sts cref pod' ref' sts' cref' :
  saw namespace name (wakes namespace name pod ref sts cref) pod' ref' sts' cref' →
  of_cluster pod ref sts cref → pod' = pod ∧ cref' = cref.
Proof.
  intros H [[Hr _] [Hc _]]. pose proof H as (_ & _ & _ & [Hr' _] & [Hc' _]).
  apply saw_pod in H as ([= ->] & _ & _ & _ & Hs); [|intros ? ? ? H'; seen H'].
  assert (ref' = ref) as -> by congruence. split; [done|]. seen Hs. congruence.
Qed.
End watcher.

(** ** Together with the cluster manager *)

(** What the manager made of the calls of a run. *)
Definition cluster_key (namespace name : string) : string := namespace +:+ "/" +:+ name.

Definition notify (origin : string) (m : clusterManager) (e : event watchSig) : clusterManager :=
  match projT1 e with
  | PWUpdateNoStart ns n => UpdateNoStart (cluster_key ns n) origin m
  | _ => m
  end.
Definition notified (origin : string) (t : trace watchSig) (m : clusterManager) : clusterManager := foldl (notify origin) m t.

Lemma notified_quiet origin t m :
  (∀ ns n r, ev (S := watchSig) (PWUpdateNoStart ns n) r ∉ t) → notified origin t m = m.
Proof.
  unfold notified. induction t as [|[c r] t IH]; intros Hno; [done|].
  change (notified origin t (notify origin m (ev c r)) = m).
  assert (notify origin m (ev c r) = m) as ->.
  { destruct c as [| |ns n]; [done..|]. exfalso. apply (Hno ns n r). by left. }
  apply IH. intros ns n r' Hin. apply (Hno ns n r'). by right.
Qed.

(** C38. A Pod of a cluster that is deleted or asked to step down wakes the
    goroutine of its cluster: it has a pending notification afterwards, which it
    takes at its [select].  The watcher starts no goroutine, and it leaves every
    other goroutine as it was. *)
Theorem leaving_pod_wakes_cluster {OU : OwnerUtils} namespace name t o m origin :
  exec (PodWatcher_Reconcile namespace name) t o → reachable m → cm_stopped m = false →
  let m' := notified origin t m in
  cm_processes m' = cm_processes m ∧ length (cm_procs m') = length (cm_procs m) ∧
  (∀ pod ref sts cref id, saw namespace name t pod ref sts cref →
     cm_processes m !! cluster_key (pod_Namespace pod) (owner_Name cref) = Some id →
     ∃ p, cm_procs m' !! id = Some p ∧ live p ∧ is_Some (pr_ch p) ∧
       (pr_phase p = Waiting → loop_step Receive p = Some (set_phase Working None p))) ∧
  (∀ id, cm_procs m' !! id = cm_procs m !! id ∨ ∃ pod ref sts cref, saw namespace name t pod ref sts cref ∧
     cm_processes m !! cluster_key (pod_Namespace pod) (owner_Name cref) = Some id).
Proof.
  intros Hex Hinv%reachable_inv Hstop m'.
  destruct (PodWatcher_tells _ _ _ _ Hex) as [(pod & ref & sts & cref & Hsaw & Ht)|[Hno Hquiet]].
  2: { unfold m'. rewrite notified_quiet by done. split_and!; [done..| |by left].
       intros pod ref sts cref id H. by apply Hquiet in H. }
  set (key := cluster_key (pod_Namespace pod) (owner_Name cref)) in *.
  assert (m' = UpdateNoStart key origin m) as -> by (unfold m'; by rewrite Ht).
  unfold UpdateNoStart, update. rewrite Hstop.
  destruct (cm_processes m !! key) as [id|] eqn:Hid.
  - cbn [with_procs cm_processes cm_procs]. rewrite length_alter. split_and!; [done..| |].
    + intros pod' ref' sts' cref' id' Hsaw' Hid'. pose proof Hsaw' as Hs. rewrite Ht in Hs.
      apply saw_wakes in Hs as [-> ->]; [|apply Hsaw]. fold key in Hid'. rewrite Hid in Hid'. injection Hid' as <-.
      destruct (mi_map m Hinv key id Hid) as (p & Hp & _ & Hl). exists (process_Update origin p).
      rewrite list_lookup_alter_eq, Hp. destruct (process_Update_fields origin p) as (_ & Hc & _ & _).
      split; [done|]. split; [unfold live in *; congruence|].
      assert (is_Some (pr_ch (process_Update origin p))) as [x Hx]
        by (unfold process_Update; destruct (pr_ch p) eqn:E; rewrite ?E; eauto).
      rewrite Hx. split; [eauto|]. intros Hph. unfold loop_step. by rewrite Hph, Hx.
    + intros id'. destruct (decide (id' = id)) as [->|Hne]; [right; by exists pod, ref, sts, cref|].
      left. by rewrite list_lookup_alter_ne.
  - split_and!; [done..| |by left]. intros pod' ref' sts' cref' id' Hsaw' Hid'. rewrite Ht in Hsaw'.
    apply saw_wakes in Hsaw' as [-> ->]; [|apply Hsaw]. fold key in Hid'. congruence.
Qed.

(** ** At a concrete cluster *)

Definition sample_owner (apiVersion kind name : string) : OwnerReference :=
  {| owner_APIVersion := apiVersion; owner_Kind := kind; owner_Name := name; owner_UID := "1"; owner_Controller := true |}.

(** A Pod of the cluster ns/a that is asked to step down. *)
Definition leaving_pod : Pod :=
  {| pod_Name := "moco-a-0"; pod_Namespace := "ns"; pod_Labels := ∅; pod_Annotations := {[ AnnDemote := "true" ]};
     pod_DeletionTimestamp := None; pod_OwnerReferences := [sample_owner "apps/v1" "StatefulSet" "moco-a"];
     pod_PodIP := ""; pod_Conditions := []; pod_ContainerReady := []; pod_InitContainerReady := [] |}.

Definition owned_sts : StatefulSet :=
  {| sts_Meta := {| meta_Name := "moco-a"; meta_Namespace := "ns"; meta_UID := "2"; meta_Labels := ∅;
                    meta_Annotations := ∅; meta_Generation := 1; meta_DeletionTimestamp := None; meta_Finalizers := [];
                    meta_OwnerReferences := [sample_owner "moco.cybozu.com/v1beta2" "MySQLCluster" "a"] |};
     sts_Spec := {| sts_Replicas := Some 3; sts_MatchLabels := None; sts_StrategyType := "RollingUpdate";
                    sts_RollingUpdate := None; sts_VolumeClaimTemplates := []; sts_Template := ""; sts_Rest := "" |};
     sts_Status := {| sts_ObservedGeneration := 1; sts_ReadyReplicas := 3; sts_AvailableReplicas := 3;
                      sts_CurrentReplicas := 3; sts_UpdatedReplicas := 3; sts_CurrentRevision := "r1";
                      sts_UpdateRevision := "r1" |} |}.

Definition leaving_api (c : wpcall) (s : unit) : wpresp c * unit :=
  (match c return wpresp c with
   | PWGetPod _ _ => inr leaving_pod
   | PWGetStatefulSet _ _ => inr owned_sts
   | PWUpdateNoStart _ _ => ()
   end, s).

Definition leaving_run := run (S := watchSig) leaving_api (PodWatcher_Reconcile (OU := owner_utils_split) "ns" "moco-a-0") ().

(** The goroutine of the cluster took the notification of its start. *)
Definition running_manager : clusterManager :=
  with_procs (<[0%nat := set_phase Working None (process_Update "test" (newManagerProcess "ns/a"))]> (cm_procs sample_manager))
    sample_manager.

Lemma running_manager_reachable : reachable running_manager.
Proof.
  exists [LUpdate "ns/a" false "test"; LLoop 0 Receive].
  econstructor; [by apply step_update|]. econstructor; [|constructor].
  by apply (step_loop sample_manager 0 Receive (process_Update "test" (newManagerProcess "ns/a"))).
Qed.

Lemma leaving_pod_wakes_cluster_witness :
  ∃ p, cm_procs (notified "again" leaving_run.1 running_manager) !! 0%nat = Some p ∧ is_Some (pr_ch p).
Proof.
  destruct (leaving_pod_wakes_cluster (OU := owner_utils_split) "ns" "moco-a-0" leaving_run.1 leaving_run.2 running_manager "again"
    (run_exec (S := watchSig) leaving_api _ ()) running_manager_reachable eq_refl) as (_ & _ & Hw & _).
  destruct (Hw leaving_pod (sample_owner "apps/v1" "StatefulSet" "moco-a") owned_sts
    (sample_owner "moco.cybozu.com/v1beta2" "MySQLCluster" "a") 0%nat) as (p & Hp & _ & Hch & _).
  - split; [by left|]. split; [by right|]. split; [by right; left|].
    by split; (split; [done|split; [done|]]); [exists "v1"|exists "v1beta2"].
  - reflexivity.
  - by exists p.
Defined.
