(* ===== verification/Watches.v ===== *)
(** * What the controllers watch (SetupWithManager)

    The event handlers and predicates that [MySQLClusterReconciler],
    [StatefulSetPartitionReconciler] and [PodWatcher] register: which objects
    cause which requests.  The runtime calls them with the object of an event;
    listing by an index of the cache is a call. *)

From S2P Require Import Prelude Prog GoLib Constants Api K8s StatefulSets Webhook Controller StatefulSetStep.
#[local] Open Scope Z_scope.

(** The part of an object the handlers read, and a request. *)
Record ObjectKey := { key_Namespace : string; key_Name : string }.

#[export] Instance ObjectKey_eq_dec : EqDecision ObjectKey.
Proof. solve_decision. Defined.

(** [client.ObjectKeyFromObject]. *)
Definition cluster_key (c : MySQLCluster) : ObjectKey := {| key_Namespace := Namespace c; key_Name := Name c |}.

(** ** Predicates *)

(** [predicate.LabelSelectorPredicate] of [MatchLabels]. *)
Definition matches_labels (selector labels : gmap string string) : bool :=
  bool_decide (map_Forall (λ k v, labels !! k = Some v) selector).

(* controllers/partition_controller.go :: partitionControllerPredicate *)
Definition partitionControllerPredicate : gmap string string → bool :=
  matches_labels {[ LabelAppName := AppNameMySQL; LabelAppCreatedBy := AppCreator ]}.

(* controllers/pod_watcher.go:82-90 PodWatcher.SetupWithManager *)
Definition podWatcherPredicate : gmap string string → bool :=
  matches_labels {[ LabelAppName := AppNameMySQL; LabelAppCreatedBy := AppCreator ]}.

(** ** Handlers *)

Section handlers.
Context {RE : Reconciler}.

(* controllers/mysqlcluster_controller.go:1954-1971 MySQLClusterReconciler.SetupWithManager *)
Definition certHandler (a : ObjectKey) : list ObjectKey :=
  if key_Namespace a <>s SystemNamespace then [] else
  if negb (has_prefix (key_Name a) "moco-agent-") then [] else
  match split_n2 "." (drop_str (String.length "moco-agent-") (key_Name a)) with
  | [namespace; name] => [{| key_Namespace := namespace; key_Name := name |}]
  | _ => []
  end.
End handlers.

(** The indices on clusters. *)
Inductive index := ByMySQLConfigMapName | ByBackupPolicyName.

(* controllers/mysqlcluster_controller.go:1986-1994 MySQLClusterReconciler.SetupWithManager *)
Definition indexMySQLConfigMapName (c : MySQLCluster) : list string :=
  match MySQLConfigMapName (Spec c) with None => [] | Some n => [n] end.
(* controllers/mysqlcluster_controller.go:2000-2008 MySQLClusterReconciler.SetupWithManager *)
Definition indexBackupPolicyName (c : MySQLCluster) : list string :=
  match BackupPolicyName (Spec c) with None => [] | Some n => [n] end.

Definition indexed_by (i : index) : MySQLCluster → list string :=
  match i with ByMySQLConfigMapName => indexMySQLConfigMapName | ByBackupPolicyName => indexBackupPolicyName end.

Inductive icall := IList (namespace : string) (field : index) (value : string).
Definition indexSig : signature := {| call := icall; resp := λ _, extres (list MySQLCluster) |}.

(* controllers/mysqlcluster_controller.go:1973-1984 MySQLClusterReconciler.SetupWithManager *)
Definition requestsForIndexedClusters (namespace : string) (field : index) (value : string)
    : prog indexSig (list ObjectKey) :=
  r <-- perform (S := indexSig) (IList namespace field value) ;;
  Ret (match r with
       | inl _ => []
       | inr clusters => cluster_key <$> clusters
       end).

(* controllers/mysqlcluster_controller.go:1996-1998 MySQLClusterReconciler.SetupWithManager *)
Definition configMapHandler (a : ObjectKey) : prog indexSig (list ObjectKey) :=
  requestsForIndexedClusters (key_Namespace a) ByMySQLConfigMapName (key_Name a).

(* controllers/mysqlcluster_controller.go:2010-2012 MySQLClusterReconciler.SetupWithManager *)
Definition backupPolicyHandler (a : ObjectKey) : prog indexSig (list ObjectKey) :=
  requestsForIndexedClusters (key_Namespace a) ByBackupPolicyName (key_Name a).
