(* ===== verification/WatchesSpec.v ===== *)
(** * What the watches guarantee

    The objects a reconciliation depends on cause another one when they change,
    and the StatefulSets and Pods of a cluster are seen by the other controllers. *)

From S2P Require Import Prelude Prog GoLib Constants Api K8s Password Samples Mycnf StatefulSets Webhook Controller ControllerSamples.
From S2P Require Import Secrets ConfigMaps Services Pvc Containers StatefulSetStep StatefulSetSpec Jobs Reconcile ReconcileSpec Watches.
#[local] Open Scope Z_scope.

(** ** Reads of a reconciliation *)

(** What the cache lists by an index: the clusters of the namespace under the
    value. *)
Definition cached (all : list MySQLCluster) (namespace : string) (field : index) (value : string) : list MySQLCluster :=
  filter (λ c, Namespace c = namespace ∧ value ∈ indexed_by field c) all.

(** The requests a handler makes for an object when the cache holds [all]. *)
Definition requests (all : list MySQLCluster) (handler : prog indexSig (list ObjectKey)) (reqs : list ObjectKey) : Prop :=
  runs_in (S := indexSig) (λ (_ : unit) (c : icall) r _, let 'IList ns field value := c in r = inr (cached all ns field value))
    handler () reqs ().

Lemma requests_indexed all ns field value reqs :
  requests all (requestsForIndexedClusters ns field value) reqs ↔ reqs = cluster_key <$> cached all ns field value.
Proof. split; [by intros (r & [] & -> & <- & _)|intros ->; by exists (inr (cached all ns field value)), ()]. Qed.

(** The reads of objects that others write. *)
Definition foreign_read (c : rcall) : option (ObjectKey → prog indexSig (list ObjectKey)) :=
  match c with
  | RGetConfigMap _ _ => Some configMapHandler
  | RGetBackupPolicy _ _ => Some backupPolicyHandler
  | _ => None
  end.

Definition read_key (c : rcall) : ObjectKey :=
  match c with
  | RGetConfigMap ns n | RGetBackupPolicy ns n => {| key_Namespace := ns; key_Name := n |}
  | _ => {| key_Namespace := ""; key_Name := "" |}
  end.

Section watches.
Context {RE : Reconciler} {KL : KubeLibs} {AM : ApiMachinery} {FN : Finalizers} {RG : MapRange} {SA : SortByAge}.

Lemma Reconcile_reads namespace name t o cluster c r :
  exec (Reconcile namespace name) t o → got namespace name (inr cluster) ∈ t → ev (S := ctrlSig) c r ∈ t →
  is_Some (foreign_read c) → own_read cluster c = true.
Proof.
  intros Hex Hgot Hin Hc. destruct (Reconcile_calls _ _ _ _ _ _ _ Hex Hgot Hin) as [->|[h Hp]]; [by destruct Hc|].
  destruct c; try (by destruct Hc); by destruct Hp as [H _].
Qed.
End watches.

(** ** Certificates *)

Lemma certHandler_name {RE : Reconciler} a namespace name :
  certHandler a = [{| key_Namespace := namespace; key_Name := name |}] ↔
  key_Namespace a = SystemNamespace ∧ key_Name a = "moco-agent-" +:+ namespace +:+ "." +:+ name ∧ no_char "." namespace = true.
Proof.
  unfold certHandler. destruct (String.eqb_spec (key_Namespace a) SystemNamespace) as [->|Hne]; cbn [negb]; [|naive_solver].
  destruct (has_prefix (key_Name a) "moco-agent-") eqn:Hp; cbn [negb].
  2: { split; [done|]. intros (_ & Heq & _). rewrite Heq in Hp. by rewrite has_prefix_app in Hp. }
  apply has_prefix_spec in Hp as [t ->]. rewrite drop_str_app. split.
  - destruct (split_n2 "." t) as [|x [|y [|]]] eqn:E; try done. intros [= -> ->].
    split; [done|]. split; [|by eapply split_n2_head_no_sep]. f_equal. by apply split_n2_join.
  - intros (_ & Heq & Hn). apply String.app_inj in Heq as ->.
    change (namespace +:+ "." +:+ name) with (namespace +:+ String "." name). by rewrite split_n2_no_sep.
Qed.


(** ** Labels *)

Lemma labelSet_matches cluster labels :
  (∀ k v, labelSet cluster false !! k = Some v → labels !! k = Some v) →
  partitionControllerPredicate labels = true ∧ podWatcherPredicate labels = true.
Proof.
  intros Hl.
  assert (matches_labels {[ LabelAppName := AppNameMySQL; LabelAppCreatedBy := AppCreator ]} labels = true) as H; [|by split].
  unfold matches_labels. apply bool_decide_eq_true, map_Forall_insert_2.
  - apply Hl. unfold labelSet. by rewrite lookup_insert_eq.
  - apply map_Forall_singleton, Hl. unfold labelSet. by rewrite !lookup_insert_ne, lookup_singleton_eq.
Qed.

(** Whatever the Pod template of a cluster says, the StatefulSet that is
    applied and the Pods it makes pass the predicates of the partition controller
    and of the Pod watcher, and its selector selects its Pods. *)
Theorem applied_sets_are_watched {RE : Reconciler} {KL : KubeLibs} cluster mycnf slow t o cfg r :
  exec (reconcileV1StatefulSet cluster mycnf slow) t o → ev (S := ctrlSig) (RApply cfg) r ∈ t →
  ∃ s, ac_Body cfg = BodyStatefulSet s ∧
    partitionControllerPredicate (ac_Labels (ac_Meta cfg)) = true ∧ podWatcherPredicate (ssa_TemplateLabels s) = true ∧
    partitionControllerPredicate (ssa_TemplateLabels s) = true ∧
    matches_labels (ssa_MatchLabels s) (ssa_TemplateLabels s) = true.
Proof.
  intros Hex Hin. apply list_elem_of_split in Hin as (t1 & t2 & ->).
  destruct (proj2 (wp_exec _ _ [] _ _ _ (wp_statefulset cluster mycnf slow) Hex) _ _ _ _ eq_refl)
    as (orig & old & _ & (claims & podSpec & _ & Hcfg & _) & _).
  unfold setControllerReference in Hcfg. destruct GVKForObject as [e|[gv kd]]; [done|]. injection Hcfg as <-.
  assert (∀ m (k v : string), labelSet cluster false !! k = Some v → with_entries m (labelSet cluster false) !! k = Some v) as Hw.
  { intros m k v Hk. unfold with_entries. by apply lookup_union_Some_l. }
  eexists. split; [reflexivity|]. cbn [ac_Meta ac_Labels makeStatefulSet ssa_TemplateLabels ssa_MatchLabels ac_Body].
  split; [by apply (labelSet_matches cluster)|]. split; [by apply (labelSet_matches cluster), Hw|].
  split; [by apply (labelSet_matches cluster), Hw|]. apply bool_decide_eq_true. intros k v. apply Hw.
Qed.

(** ** At a concrete cluster *)

(** A cluster with a ConfigMap for my.cnf. *)
Definition configured_cluster : MySQLCluster :=
  let s := Spec (admissible_cluster 3 20) in
  {| cluster_Meta := sample_meta;
     Spec := {| Replicas := 3; PodTemplate := PodTemplate s; VolumeClaimTemplates := VolumeClaimTemplates s;
       PrimaryServiceTemplate := None; ReplicaServiceTemplate := None; MySQLConfigMapName := Some "mycnf";
       ReplicationSourceSecretName := None; Collectors := []; ServerIDBase := 100; MaxDelaySeconds := None;
       MaxDelaySecondsForPodDeletion := 0; StartupWaitSeconds := 3600; LogRotationSchedule := LogRotationSchedule s;
       LogRotationSize := 0; BackupPolicyName := None; Restore := None; DisableSlowQueryLogContainer := false;
       SlowQueryLogConfigTmpl := None; AgentUseLocalhost := false; InitializeTimezoneData := false; Offline := false |};
     Status := sample_cluster_status 0 |}.

Definition configured_run := run (S := ctrlSig) (api_with configured_cluster) (Reconcile "default" "test") ().

Lemma configured_reads :
  ev (S := ctrlSig) (RGetConfigMap "default" "mycnf") (inl not_found) ∈ configured_run.1 ∧
  got "default" "test" (inr configured_cluster) ∈ configured_run.1.
Proof.
  assert (configured_run.1 = take 18 configured_run.1 ++
            ev (S := ctrlSig) (RGetConfigMap "default" "mycnf") (inl not_found) :: drop 19 configured_run.1) as Heq
    by (vm_compute; reflexivity).
  split; [exact (elem_of_middle _ _ _ _ Heq)|by left].
Qed.


Lemma applied_sets_are_watched_witness : ∃ cfg s, ac_Body cfg = BodyStatefulSet s ∧
  podWatcherPredicate (ssa_TemplateLabels s) = true.
Proof.
  destruct sample_recreation_applies as [cfg Heq].
  destruct (applied_sets_are_watched (KL := applied_libs) (admissible_cluster 3 20) "moco-test.1" (Some "slow.1") _ _ cfg (inr ())
    sample_recreation_exec) as (s & Hs & _ & Hw & _).
  - exact (elem_of_middle _ _ _ _ Heq).
  - exists cfg, s. split; [exact Hs|exact Hw].
Defined.
