(* ===== verification/MetricsSpec.v ===== *)
(** * What the metrics guarantee

    Registering them and using them does not panic, and which clusters have
    metrics while goroutines come and go. *)

From S2P Require Import Prelude Prog GoLib Constants Api K8s Password Cluster Samples Mycnf StatefulSets Webhook Controller ControllerSamples.
From S2P Require Import Secrets ConfigMaps Services Pvc Containers StatefulSetStep Jobs Reconcile Metrics ReconcileSpec Manager.
#[local] Open Scope Z_scope.

(** ** Registration *)

(** A registry refuses a collector whose name it has. *)
Definition registry : world metricsSig (gset string) := λ s '(MRegister v) r s',
  if decide (vec_FQName v ∈ s) then (∃ e, r = inl e) ∧ s' = s else r = inr () ∧ s' = {[vec_FQName v]} ∪ s.

Definition fq_names : list string := vec_FQName <$> vectors.

Lemma fq_names_distinct : NoDup fq_names.
Proof. apply (bool_decide_unpack _). vm_compute. exact I. Qed.

Lemma Register_runs l s :
  NoDup (vec_FQName <$> l) → (∀ v, v ∈ l → vec_FQName v ∉ s) →
  ∃ s', runs_in registry (for_range l () (λ _ v, MustRegister v)) s (Return ()) s' ∧
    (∀ n, n ∈ s' ↔ n ∈ vec_FQName <$> l ∨ n ∈ s) ∧
    ∀ o s2, runs_in registry (for_range l () (λ _ v, MustRegister v)) s o s2 → o = Return ().
Proof.
  revert s. induction l as [|v l IH]; intros s Hnd Hfree; cbn [for_range fmap list_fmap] in *.
  { exists s. split; [done|]. split; [intros n; rewrite elem_of_nil; tauto|]. by intros o s2 [<- _]. }
  apply NoDup_cons in Hnd as [Hv Hnd]. assert (vec_FQName v ∉ s) as Hnew by (apply Hfree; by left).
  destruct (IH ({[vec_FQName v]} ∪ s)) as (s' & Hrun & Hs' & Hdet); [done| |].
  { intros w Hw [Heq%elem_of_singleton|Hin]%elem_of_union; [|by apply (Hfree w); [right|]].
    apply Hv. rewrite <- Heq. by apply list_elem_of_fmap_2. }
  exists s'. split; [|split].
  - exists (inr ()), ({[vec_FQName v]} ∪ s). split; [|done]. unfold registry. by rewrite decide_False.
  - intros n. rewrite Hs', elem_of_cons, elem_of_union, elem_of_singleton. tauto.
  - intros o s2 (r & s1 & Hr & H). unfold registry in Hr. rewrite decide_False in Hr by done. destruct Hr as [-> ->].
    by apply Hdet in H.
Qed.

(** ** Use *)

Section metrics.
Context {RE : Reconciler} {KL : KubeLibs} {AM : ApiMachinery} {FN : Finalizers} {RG : MapRange} {SA : SortByAge}.

(** The metrics of the controller never panic.  Registering them in a registry
    that has none of their names succeeds and adds exactly those names; every
    metric that a reconciliation sets or deletes is one of them, is given as many
    label values as it has labels, and those are the name and the namespace of the
    cluster; and so is every metric of the goroutine of a cluster. *)
Theorem metrics_never_panic s :
  (∀ n, n ∈ fq_names → n ∉ s) →
  (∃ s', runs_in registry Register s (Return ()) s' ∧ ∀ n, n ∈ s' ↔ n ∈ fq_names ∨ n ∈ s) ∧
  (∀ o s', runs_in registry Register s o s' → o = Return ()) ∧
  (∀ namespace name t o cluster, exec (Reconcile namespace name) t o → got namespace name (inr cluster) ∈ t →
     ∀ var a b, (∃ v r, ev (S := ctrlSig) (RMetric var a b v) r ∈ t) ∨ (∃ r, ev (S := ctrlSig) (RMetricDelete var a b) r ∈ t) →
       label_count var = Some (length [a; b]) ∧ a = Name cluster ∧ b = Namespace cluster) ∧
  (∀ m, label_count (metric_var m) = Some 2%nat ∧ metric_var m ∈ deleteMetrics).
Proof.
  intros Hfree. destruct (Register_runs vectors s fq_names_distinct) as (s' & Hrun & Hs' & Hdet).
  { intros v Hv. by apply Hfree, list_elem_of_fmap_2. }
  split; [by exists s'|]. split; [done|]. split.
  - intros ns n t o cluster Hex Hgot var a b [(v & r & Hin)|[r Hin]];
      destruct (Reconcile_calls _ _ _ _ _ _ _ Hex Hgot Hin) as [[=]|[h Hp]].
    + destruct Hp as [_ Hp]. by apply bool_decide_eq_true in Hp.
    + destruct Hp as (_ & _ & Hp & _). by apply bool_decide_eq_true in Hp.
  - intros []; (split; [reflexivity|by apply (bool_decide_unpack _)]).
Qed.

(** The counters of resized volumes and of recreated StatefulSets that
    reconciliations set are never deleted, so they outlive their cluster. *)
Theorem counters_outlive_cluster namespace name t o cluster var a b r :
  exec (Reconcile namespace name) t o → got namespace name (inr cluster) ∈ t →
  var ∈ ["VolumeResizedTotal"; "VolumeResizedErrorTotal"; "StatefulSetRecreateTotal"; "StatefulSetRecreateErrorTotal"] →
  ev (S := ctrlSig) (RMetricDelete var a b) r ∉ t.
Proof.
  intros Hex Hgot Hvar Hin. destruct (Reconcile_calls _ _ _ _ _ _ _ Hex Hgot Hin) as [[=]|[h (_ & _ & _ & Hp)]].
  unfold finalised_metrics in Hp. set_solver.
Qed.
End metrics.

(** ** The series of the goroutines *)

(** The clusters whose series exist after a step: a new process makes them, and the
    deferred function of one that was stopped, not paused, deletes them. *)
Definition series_step (m : clusterManager) (l : label) (names : gset string) : gset string :=
  match l with
  | LUpdate key false _ => if cm_stopped m then names else
      match cm_processes m !! key with Some _ => names | None => {[key]} ∪ names end
  | LLoop id CtxDone =>
      match cm_procs m !! id with
      | Some p => if pr_pause p then names else names ∖ {[pr_name p]}
      | None => names
      end
  | _ => names
  end.

(** No process is started for a cluster while an earlier one of it has not returned. *)
Definition orderly (m : clusterManager) (l : label) : Prop :=
  match l with
  | LUpdate key false _ =>
      cm_processes m !! key = None → ∀ id p, cm_procs m !! id = Some p → pr_name p = key → has_quit p = true
  | _ => True
  end.

Inductive exported (P : clusterManager → label → Prop) : clusterManager → gset string → Prop :=
| exported_init : exported P NewClusterManager ∅
| exported_step m names l m' : exported P m names → P m l → step m l m' → exported P m' (series_step m l names).

(** What holds in orderly runs. *)
Record series_inv (m : clusterManager) (names : gset string) : Prop := {
  si_manager : manager_inv m;
  (** one goroutine of a cluster at most has not returned *)
  si_one : ∀ i j p q, cm_procs m !! i = Some p → cm_procs m !! j = Some q → pr_name p = pr_name q →
    has_quit p = false → has_quit q = false → i = j;
  si_live : ∀ i p, cm_procs m !! i = Some p → live p → pr_name p ∈ names
}.

Lemma live_running m i p : manager_inv m → cm_procs m !! i = Some p → live p → has_quit p = false.
Proof.
  intros Hinv Hp Hl. unfold has_quit. destruct (pr_phase p) as [| |d] eqn:E; [done..|]. by destruct (mi_quit m Hinv i p d Hp E).
Qed.

(** Steps that make no process and let none return. *)
Lemma series_inv_same m names m' names' :
  series_inv m names → manager_inv m' → names ⊆ names' →
  (∀ i p, cm_procs m' !! i = Some p → ∃ p0, cm_procs m !! i = Some p0 ∧ pr_name p = pr_name p0 ∧
     (has_quit p = false → has_quit p0 = false) ∧ (live p → live p0)) →
  series_inv m' names'.
Proof.
  intros [Hm Ho Hl] Hm' Hsub Hsame. constructor; [done| |].
  - intros i j p q Hp Hq Hn Hqp Hqq. destruct (Hsame i p Hp) as (p0 & Hp0 & Hnp & Hqp0 & _).
    destruct (Hsame j q Hq) as (q0 & Hq0 & Hnq & Hqq0 & _). apply (Ho i j p0 q0); auto. congruence.
  - intros i p Hp Hlp. destruct (Hsame i p Hp) as (p0 & Hp0 & -> & _ & Hlp0). eauto.
Qed.

Lemma remove_same f key m i p :
  (∀ q, pr_name (f q) = pr_name q ∧ pr_phase (f q) = pr_phase q ∧ (live (f q) → live q)) →
  cm_procs (remove f key m) !! i = Some p →
  ∃ p0, cm_procs m !! i = Some p0 ∧ pr_name p = pr_name p0 ∧ (has_quit p = false → has_quit p0 = false) ∧ (live p → live p0).
Proof.
  intros Hf. unfold remove. destruct (cm_processes m !! key) as [id|]; [|by eauto 10].
  intros (p0 & Hp0 & ->)%alter_lookup. exists p0. split; [done|]. destruct (decide (id = i)); [|done].
  destruct (Hf p0) as (Hn & Hph & Hl). unfold has_quit. by rewrite Hph.
Qed.

Lemma series_inv_step m l m' names :
  step m l m' → orderly m l → series_inv m names → series_inv m' (series_step m l names).
Proof.
  intros Hstep Hord Hinv. pose proof (manager_inv_step _ _ _ Hstep (si_manager _ _ Hinv)) as Hm'.
  destruct Hstep as [m key no o Hw|m key Hw|m key Hw|m Hw|m Hw Hq|m id e p p' Hp Hl].
  - unfold series_step, update in *. destruct (cm_stopped m) eqn:Hs; [by destruct no|].
    destruct (cm_processes m !! key) as [id|] eqn:Hk; [|destruct no; [done|]].
    + apply (series_inv_same m names); [done..|destruct no; set_solver|].
      intros i p (p0 & Hp0 & ->)%alter_lookup. exists p0. split; [done|]. destruct (decide (id = i)); [|done].
      destruct (process_Update_fields o p0) as (-> & Hc & _ & Hph). unfold has_quit, live. by rewrite Hph, Hc.
    + specialize (Hord Hk). destruct Hinv as [Hm Ho Hl].
      set (np := process_Update o (newManagerProcess key)) in *.
      assert (∀ j q, (cm_procs m ++ [np]) !! j = Some q →
        cm_procs m !! j = Some q ∨ (j = length (cm_procs m) ∧ q = np)) as Hsplit.
      { intros j q [?|[Hge Hq]]%lookup_app_Some; [by left|]. right.
        apply list_lookup_singleton_Some in Hq as [? ->]. split; [lia|done]. }
      constructor; [done| |]; cbn [cm_procs].
      * intros i j p q [Hp|[-> ->]]%Hsplit [Hq|[-> ->]]%Hsplit Hn Hqp Hqq; [by eapply Ho| | |done].
        -- exfalso. rewrite (Hord i p Hp Hn) in Hqp. done.
        -- exfalso. rewrite (Hord j q Hq (eq_sym Hn)) in Hqq. done.
      * intros i p [Hp|[-> ->]]%Hsplit Hlp; [apply elem_of_union_r; by eapply Hl|by apply elem_of_union_l, elem_of_singleton].
  - apply (series_inv_same m names); [done..|]. intros i p. by apply remove_same.
  - apply (series_inv_same m names); [done..|]. intros i p. by apply remove_same.
  - apply (series_inv_same m names); [done..|]. intros i p Hp. cbn in Hp. rewrite list_lookup_imap in Hp.
    apply fmap_Some in Hp as (p0 & Hp0 & ->). exists p0. split; [done|]. by case_bool_decide.
  - apply (series_inv_same m names); [done..|]. eauto 10.
  - destruct (loop_step_fields _ _ _ Hl) as (Hn & Hc & Hpa & Hnq & Hd).
    assert (∀ i q, <[id := p']> (cm_procs m) !! i = Some q → ∃ q0, cm_procs m !! i = Some q0 ∧ pr_name q = pr_name q0 ∧
      (has_quit q = false → has_quit q0 = false) ∧ (live q → live q0)) as Hsame.
    { intros i q [(-> & <- & _)|[Hne Hi]]%list_lookup_insert_Some; [|eauto 10].
      exists p. split; [done|]. split; [done|]. unfold live. rewrite Hc. done. }
    destruct e; try (apply (series_inv_same m names); [done..|exact Hsame]).
    cbn [series_step]. rewrite Hp. destruct (pr_pause p); [apply (series_inv_same m names); [done..|exact Hsame]|].
    pose proof (series_inv_same m names _ names Hinv Hm' (reflexivity _) Hsame) as [_ Ho' _].
    destruct Hinv as [Hm Ho Hlv]. constructor; [done|done|].
    intros i q Hi Hlq. destruct (Hsame i q Hi) as (q0 & Hq0 & Hnq0 & _ & Hlq0). rewrite Hnq0.
    apply elem_of_difference. split; [by apply (Hlv i q0 Hq0), Hlq0|]. intros Heq%elem_of_singleton.
    assert (id = i) as <-.
    { apply (Ho id i p q0); auto. apply (live_running m i q0 Hm Hq0), Hlq0, Hlq. }
    assert (q0 = p) as -> by congruence. specialize (Hlq0 Hlq). unfold live in Hlq0. unfold loop_step in Hl.
    destruct (pr_phase p); try done. by rewrite Hlq0 in Hl.
Qed.


(** ** At concrete runs *)

(** The steps of a schedule. *)
Definition try_step (m : clusterManager) (l : label) : option clusterManager :=
  match l with
  | LUpdate key noStart origin => if cm_waiting m then None else Some (update key noStart origin m)
  | LStop key => if cm_waiting m then None else Some (Stop key m)
  | LLoop id e => p ← cm_procs m !! id; p' ← loop_step e p; Some (with_procs (<[id := p']> (cm_procs m)) m)
  | _ => None
  end.

Lemma try_step_step m l m' : try_step m l = Some m' → step m l m'.
Proof.
  unfold try_step. destruct l as [key no o|key| | | |id e]; try done.
  - destruct (cm_waiting m) eqn:E; [done|]. intros [= <-]. by constructor.
  - destruct (cm_waiting m) eqn:E; [done|]. intros [= <-]. by constructor.
  - destruct (cm_procs m !! id) as [p|] eqn:Hp; [|done]. cbn. destruct (loop_step e p) as [p'|] eqn:Hl; [|done].
    intros [= <-]. by apply (step_loop m id e p p').
Qed.

Fixpoint play (ls : list label) (mn : clusterManager * gset string) : option (clusterManager * gset string) :=
  match ls with
  | [] => Some mn
  | l :: rest => m' ← try_step mn.1 l; play rest (m', series_step mn.1 l mn.2)
  end.

Lemma play_exported ls m names m' names' :
  exported (λ _ _, True) m names → play ls (m, names) = Some (m', names') → exported (λ _ _, True) m' names'.
Proof.
  revert m names. induction ls as [|l ls IH]; intros m names Hex; cbn [play]; [by intros [= <- <-]|].
  cbn [fst snd]. destruct (try_step m l) as [m1|] eqn:E; [|done]. apply IH.
  by apply (exported_step _ m); [|done|apply try_step_step].
Qed.

(** A cluster whose goroutine is stopped in the middle of a round and that is then
    maintained again loses its metrics when the old goroutine returns. *)
Lemma restarted_cluster_loses_series : ∃ m p,
  exported (λ _ _, True) m ∅ ∧ cm_processes m !! "ns/a" = Some 1%nat ∧ cm_procs m !! 1%nat = Some p ∧ live p.
Proof.
  destruct (play [LUpdate "ns/a" false "test"; LLoop 0 Receive; LStop "ns/a"; LUpdate "ns/a" false "again";
                  LLoop 0 (Finish false false); LLoop 0 CtxDone] (NewClusterManager, ∅)) as [[m names]|] eqn:E;
    [|vm_compute in E; discriminate E].
  pose proof (play_exported _ _ _ _ _ (exported_init _) E) as Hex. vm_compute in E. injection E as <- <-.
  eexists _, _. split; [exact Hex|]. split; [reflexivity|]. by split.
Qed.

Lemma sample_orderly : exported orderly sample_manager {["ns/a"]}.
Proof.
  change sample_manager with (update "ns/a" false "test" NewClusterManager).
  rewrite <- (union_empty_r_L {["ns/a"]}).
  apply (exported_step _ NewClusterManager ∅ (LUpdate "ns/a" false "test")); [apply exported_init| |by apply step_update].
  cbn. intros _ id p. by rewrite lookup_nil.
Qed.


Lemma metrics_never_panic_witness : ∃ s',
  runs_in registry Register {["controller_runtime_reconcile_total"]} (Return ()) s' ∧ "moco_cluster_available" ∈ s'.
Proof.
  destruct (metrics_never_panic {["controller_runtime_reconcile_total"]}) as ((s' & Hrun & Hs') & _).
  - intros n Hn ->%elem_of_singleton. revert Hn. by apply (bool_decide_unpack _).
  - exists s'. split; [exact Hrun|]. apply Hs'. left. by apply (bool_decide_unpack _).
Defined.
