(* ===== verification/Kubectl.v ===== *)
(** * The kubectl plugin (cmd/kubectl-moco)

    The commands stop, start, switchover, credential and mysql, and the completion
    of cluster names.  Parsing of the command line is cobra's; [namespace] and the
    flags are arguments.  [equality.Semantic.DeepEqual] on clusters is a
    parameter. *)

From S2P Require Import Prelude Prog GoLib Constants Api Password.
#[local] Open Scope Z_scope.

(** ** Calls *)

Inductive kpcall :=
| KpGetCluster (namespace name : string)
| KpListClusters (namespace : string)
| KpUpdateCluster (cluster : MySQLCluster)
| KpGetPod (namespace name : string)
| KpPatchPod (old new : Pod)                     (* Patch(new, MergeFrom(old)) *)
| KpGetSecret (namespace name : string)
| KpExec (container : string) (stdin tty : bool) (args : list string)   (* kubectl exec *)
| KpPrintf (format : string) (args : list string).     (* to the standard output *)

Definition kpresp (c : kpcall) : Type :=
  match c with
  | KpGetCluster _ _ => extres MySQLCluster
  | KpListClusters _ => extres (list MySQLCluster)
  | KpGetPod _ _ => extres Pod
  | KpGetSecret _ _ => extres Secret
  | KpUpdateCluster _ | KpPatchPod _ _ => extres unit
  | KpExec _ _ _ _ | KpPrintf _ _ => unit
  end.

Definition pluginSig : signature := {| call := kpcall; resp := kpresp |}.
Definition kp (c : kpcall) : prog pluginSig (kpresp c) := @perform pluginSig c.

(** [fmt.Printf] and [fmt.Println], whose errors are ignored. *)
Definition printf (format : string) (args : list string) : prog pluginSig (extres unit) :=
  _ <-- kp (KpPrintf (format +:+ newline) args) ;; Ret (inr ()).
Definition println (s : string) : prog pluginSig (extres unit) := printf "%s" [s].

(** ** stop and start *)

Definition set_meta_Annotations (a : gmap string string) (m : Meta) : Meta :=
  {| meta_Name := meta_Name m; meta_Namespace := meta_Namespace m; meta_UID := meta_UID m;
     meta_Labels := meta_Labels m; meta_Annotations := a;
     meta_Generation := meta_Generation m; meta_DeletionTimestamp := meta_DeletionTimestamp m;
     meta_Finalizers := meta_Finalizers m; meta_OwnerReferences := meta_OwnerReferences m |}.

Definition annotations (c : MySQLCluster) : gmap string string := meta_Annotations (cluster_Meta c).
Definition set_annotations (a : gmap string string) (c : MySQLCluster) : MySQLCluster :=
  {| cluster_Meta := set_meta_Annotations a (cluster_Meta c); Spec := Spec c; Status := Status c |}.

Section plugin.
Variable DeepEqual : MySQLCluster → MySQLCluster → bool.
(** The namespace of the kubeconfig or the flag. *)
Variable namespace : string.

(** Update the annotations, unless that changes nothing. *)
Definition changeAnnotations (name already failure success : string) (change : gmap string string → gmap string string)
    : prog pluginSig (extres unit) :=
  orig <-! kp (KpGetCluster namespace name) ;;
  let cluster := set_annotations (change (annotations orig)) orig in
  if DeepEqual orig cluster then println already else
  _ <-! wrap_err failure (kp (KpUpdateCluster cluster)) ;;
  printf success [namespace +:+ "/" +:+ name].

Definition setTrue (ann : string) (m : gmap string string) : gmap string string := <[ann := "true"]> m.
Definition unsetTrue (ann : string) (m : gmap string string) : gmap string string :=
  match m !! ann with
  | Some v => if v =s "true" then delete ann m else m
  | None => m
  end.

(* cmd/kubectl-moco/cmd/stop.go :: stopClustering *)
Definition stopClustering (name : string) : prog pluginSig (extres unit) :=
  changeAnnotations name "The clustering is already stopped." "failed to stop clustering of MySQLCluster"
    "stopped clustering of MySQLCluster %q" (setTrue AnnClusteringStopped).

(* cmd/kubectl-moco/cmd/stop.go :: stopReconciliation *)
Definition stopReconciliation (name : string) : prog pluginSig (extres unit) :=
  changeAnnotations name "The reconciliation is already stopped." "failed to stop reconciliation of MySQLCluster"
    "stopped reconciliation of MySQLCluster %q" (setTrue AnnReconciliationStopped).

(* cmd/kubectl-moco/cmd/start.go :: startClustering *)
Definition plugin_startClustering (name : string) : prog pluginSig (extres unit) :=
  changeAnnotations name "The clustering is already running." "failed to start clustering of MySQLCluster"
    "started clustering of MySQLCluster %q" (unsetTrue AnnClusteringStopped).

(* cmd/kubectl-moco/cmd/start.go :: startReconciliation *)
Definition startReconciliation (name : string) : prog pluginSig (extres unit) :=
  changeAnnotations name "The reconciliation is already running." "failed to start reconciliation of MySQLCluster"
    "started reconciliation of MySQLCluster %q" (unsetTrue AnnReconciliationStopped).

(** ** switchover *)

(* cmd/kubectl-moco/cmd/switchover.go :: switchover *)
Definition plugin_switchover (name : string) : prog pluginSig (extres unit) :=
  cluster <-! kp (KpGetCluster namespace name) ;;
  if Offline (Spec cluster) then Ret (inl (ErrNew "offline cluster is not able to switch")) else
  if Replicas (Spec cluster) =? 1 then Ret (inl (ErrNew "single-instance cluster is not able to switch")) else
  pod <-! kp (KpGetPod namespace (PodName cluster (CurrentPrimaryIndex (Status cluster)))) ;;
  if map_str (pod_Annotations pod) AnnDemote =s "true" then Ret (inr ()) else
  kp (KpPatchPod pod (set_pod_Annotations (<[AnnDemote := "true"]> (pod_Annotations pod)) pod)).

(** ** credential and mysql *)

(** The name of a cluster is all [UserSecretName] needs. *)
(* cmd/kubectl-moco/cmd/common.go :: getPassword *)
Definition getPassword (clusterName user : string) : prog pluginSig (extres string) :=
  secret <-! kp (KpGetSecret namespace ("moco-" +:+ clusterName)) ;;
  passwd <-! Ret (NewMySQLPasswordFromSecret secret) ;;
  Ret (if user =s AdminUser then inr (Admin passwd)
       else if user =s ReadOnlyUser then inr (ReadOnlyPassword passwd)
       else if user =s WritableUser then inr (Writable passwd)
       else inl (ErrNew ("invalid user: " +:+ user))).

(* cmd/kubectl-moco/cmd/common.go :: getPodName *)
Definition getPodName (cluster : MySQLCluster) (index : Z) : extres string :=
  if Replicas (Spec cluster) <=? index then inl (ErrNew "index should be smaller than replicas") else
  inr (PodName cluster (if index <? 0 then CurrentPrimaryIndex (Status cluster) else index)).

(* cmd/kubectl-moco/cmd/credential.go:40-48 fetchCredential *)
Definition credentialMyCnf : string :=
  "[client]" +:+ newline +:+ "user=%s" +:+ newline +:+ "password=" +:+ dquote +:+ "%s" +:+ dquote.

(* cmd/kubectl-moco/cmd/credential.go :: fetchCredential *)
Definition fetchCredential (user format clusterName : string) : prog pluginSig (extres unit) :=
  password <-! getPassword clusterName user ;;
  if format =s "plain" then println password
  else if format =s "mycnf" then printf credentialMyCnf [user; password]
  else Ret (inl (ErrNew ("unknown format: " +:+ format))).

(* cmd/kubectl-moco/cmd/mysql.go :: runMySQLCommand *)
Definition runMySQLCommand (user : string) (index : Z) (stdin tty : bool) (clusterName : string) (args : list string)
    : prog pluginSig (extres unit) :=
  let args := match args with "--" :: rest => rest | _ => args end in
  cluster <-! kp (KpGetCluster namespace clusterName) ;;
  podName <-! Ret (getPodName cluster index) ;;
  let myCnfPath := MyCnfSecretPath +:+ "/" +:+ user +:+ "-my.cnf" in
  _ <-- kp (KpExec "mysqld" stdin tty
              ([podName; "--"; "mysql"; "--defaults-extra-file=" +:+ myCnfPath] ++ args)) ;;
  Ret (inr ()).

(** ** Completion *)

(** The candidates; [None] is the directive for an error.  [namespaceFlag] is
    the namespace of the flag or of the kubeconfig, if it can be told. *)
(* cmd/kubectl-moco/cmd/completion.go :: mysqlClusterCandidates *)
Definition mysqlClusterCandidates (args : list string) (toComplete : string) (namespaceFlag : extres string)
    : prog pluginSig (option (list string)) :=
  match args, namespaceFlag with
  | _ :: _, _ => Ret (Some [])
  | [], inl _ => Ret None
  | [], inr ns =>
      r <-- kp (KpListClusters ns) ;;
      Ret (match r with
           | inl _ => None
           | inr clusters => Some (filter (λ n, has_prefix n toComplete = true) (Name <$> clusters))
           end)
  end.
End plugin.
