(* ===== verification/KubectlSpec.v ===== *)
(** * What the kubectl plugin guarantees

    The commands change one annotation and nothing else, and what they change has
    the effect they name: on every later reconciliation, on the watcher of the
    Pods and on the decision of the cluster manager. *)

From S2P Require Import Prelude Prog GoLib Constants Api K8s Password Dbop Cluster Samples Status StatusSpec Mycnf StatefulSets Webhook Controller ControllerSamples.
From S2P Require Import Secrets ConfigMaps Services Pvc Containers StatefulSetStep Jobs Reconcile ReconcileSpec PodWatcher Kubectl.
#[local] Open Scope Z_scope.

(** ** stop and start *)

Inductive command := StopClustering | StartClustering | StopReconciliation | StartReconciliation.

Definition command_program (DeepEqual : MySQLCluster → MySQLCluster → bool) (namespace : string) (cmd : command)
    : string → prog pluginSig (extres unit) :=
  match cmd with
  | StopClustering => stopClustering DeepEqual namespace
  | StartClustering => plugin_startClustering DeepEqual namespace
  | StopReconciliation => stopReconciliation DeepEqual namespace
  | StartReconciliation => startReconciliation DeepEqual namespace
  end.

(** The annotation of a command, and what it means in the controller. *)
Definition command_annotation (cmd : command) : string :=
  match cmd with
  | StopClustering | StartClustering => AnnClusteringStopped
  | StopReconciliation | StartReconciliation => AnnReconciliationStopped
  end.

Definition commanded (cmd : command) (c : MySQLCluster) : bool :=
  match cmd with
  | StopClustering => isClusteringStopped c
  | StartClustering => negb (isClusteringStopped c)
  | StopReconciliation => isReconciliationStopped c
  | StartReconciliation => negb (isReconciliationStopped c)
  end.

(** Calls that no reconciliation makes for a cluster after the command. *)
Definition excluded (cmd : command) (c : MySQLCluster) (call : rcall) : Prop :=
  match cmd, call with
  | StopClustering, RManagerUpdate _ _ | StartClustering, RManagerPause _ _ => True
  | StopReconciliation, (RGetCluster _ _ | RStatusUpdate _ | RMetric _ _ _ _ | RManagerUpdate _ _ | RManagerPause _ _) => False
  | StopReconciliation, _ => ¬ deleted c
  | _, _ => False
  end.

(** The API server keeps one cluster: a read gives it, an update replaces it, and
    either may fail. *)
Definition cluster_store : world pluginSig MySQLCluster := λ s c r s',
  match c return kpresp c → Prop with
  | KpGetCluster _ _ => λ r, (r = inr s ∨ ∃ e, r = inl e) ∧ s' = s
  | KpUpdateCluster c' => λ r, (r = inr () ∧ s' = c') ∨ (∃ e, r = inl e) ∧ s' = s
  | _ => λ _, s' = s
  end r.

(** A program whose calls leave the store as it is. *)
Lemma printf_runs format args s r s' : runs_in cluster_store (printf format args) s r s' → r = inr () ∧ s' = s.
Proof. by intros ([] & s1 & -> & <- & ->). Qed.

Lemma annotations_set a c : annotations (set_annotations a c) = a.
Proof. done. Qed.

Lemma changeAnnotations_runs DeepEqual ns name already failure success change s r s' :
  (∀ c a, DeepEqual c (set_annotations a c) = true ↔ annotations c = a) →
  runs_in cluster_store (changeAnnotations DeepEqual ns name already failure success change) s r s' →
  (r = inr () ∧ annotations s' = change (annotations s) ∧ ∃ a, s' = set_annotations a s) ∨ (∃ e, r = inl e) ∧ s' = s.
Proof.
  intros Heq. unfold changeAnnotations. intros (r1 & s1 & [[->|[e ->]] ->] & H); [|by destruct H as [<- ->]; eauto].
  cbn [bind perform kp] in H. destruct (DeepEqual s (set_annotations (change (annotations s)) s)) eqn:E.
  - apply printf_runs in H as [-> ->]. apply Heq in E. left. split; [done|]. split; [done|].
    exists (annotations s). by destruct s as [[] ? ?].
  - destruct H as (r2 & s2 & [[-> ->]|[[e ->] ->]] & H); cbn in H.
    + destruct H as ([] & ? & -> & <- & ->). left. split; [done|]. split; [apply annotations_set|by eexists].
    + destruct H as [<- ->]. eauto.
Qed.

Lemma command_runs DeepEqual ns cmd name s r s' :
  (∀ c a, DeepEqual c (set_annotations a c) = true ↔ annotations c = a) →
  runs_in cluster_store (command_program DeepEqual ns cmd name) s r s' →
  (r = inr () ∧ commanded cmd s' = true ∧ ∃ a, s' = set_annotations a s ∧
     ∀ k, k ≠ command_annotation cmd → a !! k = annotations s !! k) ∨
  (∃ e, r = inl e) ∧ s' = s.
Proof.
  intros Heq Hrun.
  assert (∃ already failure success,
    runs_in cluster_store (changeAnnotations DeepEqual ns name already failure success
      (match cmd with StopClustering | StopReconciliation => setTrue | _ => unsetTrue end (command_annotation cmd))) s r s')
    as (? & ? & ? & H) by (destruct cmd; do 3 eexists; exact Hrun).
  apply changeAnnotations_runs in H as [(-> & Ha & a & ->)|H]; [|by right|done].
  left. split; [done|]. rewrite annotations_set in Ha. subst a.
  assert (∀ m k, map_str (unsetTrue k m) k =s "true" = false ∧ (∀ k', k' ≠ k → unsetTrue k m !! k' = m !! k')) as Hun.
  { intros m k. unfold unsetTrue. destruct (m !! k) as [v|] eqn:Hv; [destruct (String.eqb_spec v "true")|].
    - split; [unfold map_str; by rewrite lookup_delete_eq|intros k' Hk; by rewrite lookup_delete_ne].
    - split; [unfold map_str; rewrite Hv; by apply String.eqb_neq|done].
    - split; [unfold map_str; by rewrite Hv|done]. }
  assert (∀ m k, map_str (setTrue k m) k =s "true" = true) as Hset by (intros m k; unfold setTrue, map_str; by rewrite lookup_insert_eq).
  split.
  - destruct cmd; cbn; unfold isClusteringStopped, isReconciliationStopped;
      change (meta_Annotations (cluster_Meta (set_annotations ?x s))) with x; try apply Hset; by rewrite (proj1 (Hun _ _)).
  - eexists. split; [done|]. intros k Hk. destruct cmd; cbn [command_annotation] in *; try by apply (Hun _ _).
    all: unfold setTrue; by rewrite lookup_insert_ne.
Qed.

Section commands.
Context {RE : Reconciler} {KL : KubeLibs} {AM : ApiMachinery} {FN : Finalizers} {RG : MapRange} {SA : SortByAge}.

(** A reconciliation that reads the cluster after the command makes none of the
    calls the command excludes. *)
Lemma commanded_excludes cmd ns n t o c :
  commanded cmd c = true → exec (Reconcile ns n) t o → got ns n (inr c) ∈ t →
  ∀ call r, ev (S := ctrlSig) call r ∈ t → ¬ excluded cmd c call.
Proof.
  intros Hc Hex Hgot call r Hin Hx. destruct (Reconcile_calls _ _ _ _ _ _ _ Hex Hgot Hin) as [->|[h Hp]]; [by destruct cmd|].
  destruct cmd; cbn in Hc.
  - destruct call; try done. destruct Hp as (_ & _ & _ & Hp & _). congruence.
  - destruct call; try done. destruct Hp as (_ & _ & _ & Hp & _). by rewrite Hp in Hc.
  - destruct call; try done; try (destruct Hp as [Hd _]; by apply Hx); try (destruct k);
      try (destruct Hp as [Hd _]; by apply Hx); destruct Hp as (_ & _ & Hp); congruence.
  - by destruct call.
Qed.

(** C20. A stop or start command does what it says, and only that.  If it succeeds,
    the annotations of the stored cluster are those before but for the one of the
    command, everything else of the cluster is as it was, and no reconciliation
    that reads the cluster afterwards starts the clustering (after stopping it),
    pauses it (after starting it), or does anything but record the status and
    start or pause the clustering (after stopping the reconciliation of a cluster
    that is not being deleted).  If it fails, the cluster is unchanged. *)
Theorem commands_take_effect DeepEqual cmd namespace name c r c' :
  (∀ c a, DeepEqual c (set_annotations a c) = true ↔ annotations c = a) →
  runs_in cluster_store (command_program DeepEqual namespace cmd name) c r c' →
  (r = inr () ∧ commanded cmd c' = true ∧
   (∃ a, c' = set_annotations a c ∧ ∀ k, k ≠ command_annotation cmd → a !! k = annotations c !! k) ∧
   ∀ ns n t o, exec (Reconcile ns n) t o → got ns n (inr c') ∈ t →
     ∀ call r', ev (S := ctrlSig) call r' ∈ t → ¬ excluded cmd c' call) ∨
  (∃ e, r = inl e) ∧ c' = c.
Proof.
  intros Heq Hrun. destruct (command_runs _ _ _ _ _ _ _ Heq Hrun) as [(-> & Hc & Ha)|H]; [left|by right].
  split_and!; [done..|]. intros ns n t o. by apply commanded_excludes.
Qed.
End commands.

(** ** switchover *)

(** The API server keeps the cluster and Pods by name. *)
Definition pods_store (c : MySQLCluster) : world pluginSig (gmap string Pod) := λ s call r s',
  match call return kpresp call → Prop with
  | KpGetCluster _ _ => λ r, (r = inr c ∨ ∃ e, r = inl e) ∧ s' = s
  | KpGetPod _ n => λ r, ((∃ p, r = inr p ∧ s !! n = Some p ∧ pod_Name p = n) ∨ ∃ e, r = inl e) ∧ s' = s
  | KpPatchPod _ new => λ r, (r = inr () ∧ s' = <[pod_Name new := new]> s) ∨ (∃ e, r = inl e) ∧ s' = s
  | _ => λ _, s' = s
  end r.

Definition primary_name (c : MySQLCluster) : string := PodName c (CurrentPrimaryIndex (Status c)).

(** Only annotations differ. *)
Definition same_but_annotations (p p' : Pod) : Prop := p' = set_pod_Annotations (pod_Annotations p') p.

Lemma switchover_runs ns name c s r s' :
  runs_in (pods_store c) (plugin_switchover ns name) s r s' →
  (r = inr () ∧ Offline (Spec c) = false ∧ Replicas (Spec c) ≠ 1 ∧
   ∃ p p', s !! primary_name c = Some p ∧ s' = <[primary_name c := p']> s ∧ same_but_annotations p p' ∧
     pod_Annotations p' = <[AnnDemote := "true"]> (pod_Annotations p)) ∨
  (∃ e, r = inl e) ∧ s' = s.
Proof.
  unfold plugin_switchover. intros (r1 & s1 & [[->|[e ->]] ->] & H); [|by destruct H as [<- ->]; eauto].
  cbn [bind perform kp] in H. destruct (Offline (Spec c)) eqn:Hoff; [destruct H as [<- ->]; by eauto|].
  destruct (Z.eqb_spec (Replicas (Spec c)) 1) as [|Hne]; [destruct H as [<- ->]; by eauto|].
  destruct H as (r2 & s2 & [[(p & -> & Hp & Hn)|[e ->]] ->] & H); [|destruct H as [<- ->]; by eauto].
  cbn [bind perform kp] in H. fold (primary_name c) in *. destruct (map_str _ AnnDemote =s "true") eqn:Hd.
  - destruct H as [<- ->]. left. split_and!; [done..|]. exists p, p. rewrite insert_id by done. split_and!; [done..| |].
    + by destruct p.
    + symmetry. apply insert_id. unfold map_str in Hd. destruct (_ !! AnnDemote) as [v|]; [|done].
      apply String.eqb_eq in Hd. cbn in Hd. by rewrite Hd.
  - destruct H as (r3 & s3 & [[-> ->]|[[e ->] ->]] & <- & ->); [|by eauto]. left. split_and!; [done..|].
    eexists p, _. split; [done|]. split; [by rewrite <- Hn|]. done.
Qed.


(** ** credential and mysql *)

(** The users the plugin knows. *)
Definition user_password (p : MySQLPassword) (user : string) : option string :=
  if user =s AdminUser then Some (admin p) else if user =s ReadOnlyUser then Some (readOnly p)
  else if user =s WritableUser then Some (writable p) else None.

Lemma getPassword_exec ns name user p s t r :
  exec (getPassword ns name user) t r → ev (S := pluginSig) (KpGetSecret ns ("moco-" +:+ name)) (inr s) ∈ t →
  NewMySQLPasswordFromSecret s = inr p →
  t = [ev (S := pluginSig) (KpGetSecret ns ("moco-" +:+ name)) (inr s)] ∧
  match user_password p user with Some pw => r = inr pw | None => ∃ e, r = inl e end.
Proof.
  unfold getPassword. destruct t as [|e t]; [done|]. intros (r1 & -> & H) Hin Hp.
  assert (r1 = inr s ∧ t = []) as [-> ->].
  { assert (t = []) as ->.
    { destruct r1 as [|s1]; [by destruct H|]. cbn in H. destruct (NewMySQLPasswordFromSecret s1); by destruct H. }
    apply list_elem_of_singleton, ev_inj in Hin. done. }
  split; [done|]. cbn in H. rewrite Hp in H. destruct H as [_ <-]. unfold user_password.
  repeat (destruct (_ =s _); [done|]). eauto.
Qed.

(** The credential command prints the password of the user that the Secret of the
    cluster stores, and fails for a user it does not know. *)
Theorem credential_command_prints ns name user p s t o :
  exec (fetchCredential ns user "plain" name) t o → ev (S := pluginSig) (KpGetSecret ns ("moco-" +:+ name)) (inr s) ∈ t →
  NewMySQLPasswordFromSecret s = inr p →
  match user_password p user with
  | Some pw => o = inr () ∧ ev (S := pluginSig) (KpPrintf ("%s" +:+ newline) [pw]) () ∈ t
  | None => (∃ e, o = inl e) ∧ ∀ f a r, ev (S := pluginSig) (KpPrintf f a) r ∉ t
  end.
Proof.
  unfold fetchCredential. intros [(t1 & t2 & pw & -> & H1 & H2)|(e & H1 & ->)]%exec_bind_ext_inv Hin Hp.
  - cbn in H2. destruct t2 as [|e2 t2]; [done|]. destruct H2 as ([] & -> & -> & <-).
    apply elem_of_app in Hin as [Hin|Hin]; [|apply list_elem_of_singleton in Hin; discriminate].
    destruct (getPassword_exec _ _ _ _ _ _ _ H1 Hin Hp) as [-> H]. destruct (user_password p user); [|by destruct H].
    injection H as <-. split; [done|]. by right; left.
  - destruct (getPassword_exec _ _ _ _ _ _ _ H1 Hin Hp) as [-> H]. destruct (user_password p user); [done|].
    split; [eauto|]. intros f a r Hin'%list_elem_of_singleton. discriminate.
Qed.

(** The file the mysql command names is one of the Secret that is mounted there,
    and holds the user and the password. *)
Theorem mysql_command_file p user pw s :
  user_password p user = Some pw → ToMyCnfSecret p = Some s →
  ∃ content, formatMyCnf user pw "" = Some content ∧ secret_Data s !! (user +:+ "-my.cnf") = Some content.
Proof.
  unfold ToMyCnfSecret. intros Hu Hs.
  destruct (formatMyCnf AdminUser _ _) as [a|] eqn:Ha; [|done]. destruct (formatMyCnf ExporterUser _ _) as [e|]; [|done].
  destruct (formatMyCnf BackupUser _ _) as [b|]; [|done]. destruct (formatMyCnf ReadOnlyUser _ _) as [r|] eqn:Hr; [|done].
  destruct (formatMyCnf WritableUser _ _) as [w|] eqn:Hw; [|done]. injection Hs as <-. cbn [secret_Data].
  unfold user_password in Hu. destruct (String.eqb_spec user AdminUser) as [->|]; [|destruct (String.eqb_spec user ReadOnlyUser) as [->|];
    [|destruct (String.eqb_spec user WritableUser) as [->|]; [|done]]]; injection Hu as <-; eauto.
Qed.

(** ** At a concrete cluster *)

Definition same_annotations (c c' : MySQLCluster) : bool := bool_decide (annotations c = annotations c').

Definition stopped_cluster : MySQLCluster := set_annotations {[ AnnClusteringStopped := "true" ]} (sample_cluster 3 0).

Lemma commands_take_effect_witness :
  commanded StopClustering stopped_cluster = true ∧
  ∃ a, stopped_cluster = set_annotations a (sample_cluster 3 0) ∧ a !! AnnReconciliationStopped = None.
Proof.
  destruct (commands_take_effect same_annotations StopClustering "default" "test" (sample_cluster 3 0) (inr ()) stopped_cluster)
    as [(_ & Hc & (a & Ha & Hk) & _)|[[e He] _]].
  - intros c a. exact (bool_decide_eq_true _).
  - exists (inr (sample_cluster 3 0)), (sample_cluster 3 0). split; [by split; [left|]|].
    exists (inr ()), stopped_cluster. split; [by left|]. by exists (), stopped_cluster.
  - split; [exact Hc|]. exists a. split; [exact Ha|]. rewrite Hk; [reflexivity|discriminate].
  - discriminate He.
Defined.

Definition sample_pods : gmap string Pod := {[ "moco-test-0" := sample_pod 0 true false; "moco-test-1" := sample_pod 1 true false ]}.

